(* ===== verification/_CoqProject ===== *)
-Q . S2P
Prelude.v
Table.v
Errors.v
GoStrings.v
GoTrim.v
GoCrypto.v
GoJson.v
GoNum.v
GoBase64.v
GoUrl.v
UrlText.v
GoScan.v
JsonText.v
GoRaw.v
Identity.v
IdentitySpec.v
Trust.v
GoTime.v
Config.v
ConfigLoad.v
ConfigSpec.v
Task.v
TaskLife.v
Catalog.v
Grant.v
Call.v
Event.v
App.v
Authz.v
Wire.v
WireSpec.v
Rows.v
Retention.v
Sql.v
SqlCalls.v
SqlCatalog.v
CallLife.v
Invariant.v
Prog.v
Trace.v
Journal.v
Ports.v
Protocol.v
Network.v
Egress.v
Authority.v
Bootstrap.v
Session.v
ContextForge.v
ContextForgeSpec.v
Assembly.v
Calls.v
Control.v
Grants.v
CatalogApp.v
Tasks.v
Refresh.v
Projection.v
Transport.v
TransportSpec.v
CatalogSpec.v
SessionSpec.v
GrantsSafe.v
CatalogSafe.v
CallsSafe.v
GrantsQuiet.v
Service.v
Paging.v
System.v
Delivery.v
CallsSpec.v
Demo.v
TasksSim.v
TasksSystem.v
TasksSweep.v
Generations.v
GenerationsSpec.v
Forwarder.v
Commands.v
Observe.v
