(* ===== verification/Prelude.v ===== *)
(** * anvilkit-agent-mcp: a verification development of the MCP service

    The service under [src/] owns three things in one PostgreSQL database and
    guards one: durable background requests that workers claim, run and submit;
    a private catalog of reviewed tool-server descriptors; grants to call the
    tools of an approved revision, held behind a revocation barrier with the
    Control service; and the guarded tool calls themselves, each sent to its
    upstream server at most once.  Every replica serves gRPC, runs the loops
    that reconcile, sweep, refresh and schedule, and may crash at any point.
    This library models the program from its sources, in the layers the program
    has, and proves what makes each layer correct.

    ** Reading order and correspondence to the code

    Go's language and standard library.  [Prelude] (machine integers with their
    wrap, durations), [Errors] (sentinel errors, [errors.Is]), [GoStrings],
    [GoTrim], [GoScan] (strings, [strconv], [fmt.Sscanf]), [GoCrypto] (SHA-256,
    hex, base64, executable), [GoJson], [GoNum] ([encoding/json] with its
    parser, canonical output and float64 texts), [JsonText] (what is marshalled
    is read back), [GoRaw] ([json.RawMessage] and decoding by text), [GoTime]
    ([time.Parse] and [Format]), [GoBase64], [GoUrl], [UrlText]
    ([net/url.Parse], [net/netip]), [Table] (tables that only go forward).

    Domain, [internal/domain].  [Task] is [task.go]: one definition per decision
    ([NewRequest], [DecideClaim], [DecideHeartbeat], [DecideSubmitRecorded],
    [DecideExpire], [DecideCancel], [Supersede]).  [Catalog] is [catalog.go]:
    declarations, live listings, [BuildDescriptor], digests, [DecideReview].
    [Grant] is [grant.go]: [NewGrant], policy digest and cache key, [Executable].
    [Call] is [call.go]: the request check, the argument walk, the schema check.
    [Event] is [event.go] with the bytes an envelope is published as.

    Database, [internal/adapters/postgres].  [Rows] has the tables of
    [sqlc/models.go] and the row mapping of [store.go]; [Sql], [SqlCalls] and
    [SqlCatalog] have one definition per statement of [sqlc/*.sql.go], as
    transactions over an explicit database with Go-style errors.  The schema's
    migrations are not in the repository: uniqueness and the conditional updates
    are what the statements themselves name ([ON CONFLICT], [WHERE]).
    [Retention] is the pruning pass of [internal/adapters/outbox/retention.go].

    Use cases, [internal/application].  [App] has commands, scopes, roles and
    the Casbin enforcer; [Tasks] is [tasks.go]; [Network], [CatalogApp] and
    [Refresh] are [catalog.go] and [refresh.go]; [Grants] is [grants.go]; [Calls]
    is [calls.go]; [Projection] is [projection.go].  A use case of more than one
    transaction is a [Prog.prog]: a tree of transactions, questions to what is
    outside ([Ports]: the clock, Control, the upstream servers, name resolution,
    the memory of the replica) and goroutines, in the order of the source.

    Adapters.  [Session] is [upstream/session.go] and [discover.go], [Egress] is
    [upstream/egress.go] with the transports of a session, [Authority] is
    [upstream/oauth.go], [ContextForge] is [contextforge/client.go], [Control] is
    the client of Control ([control/grants.go], [dispatch.go]).  Each is a pure
    reading of answers or a process over its own questions; [Trace] is the logic
    of such processes, and [Journal] that of a use case, whose transactions
    change the database only as claimed after what it asked and read.

    Configuration and the process.  [Config] has the sections, defaults and rules
    of [config.go]; [ConfigLoad] builds a generation from the file, the snapshot
    ([apollo.go]), the environment and the mounted secrets; [Generations] is the
    reload machine of [bootstrap/generations.go]; [Bootstrap] is start, stop,
    readiness and the schema watch; [Assembly] is what the constructors build;
    [Forwarder] is what [buildRuntime] and [NewForwarder] open and close and the
    retries of the event consumer; [Commands] is [cmd/] with its [reconcile]
    ([bootstrap/reconcile.go]) and [local-check] commands; [Observe] is the
    collectors of [application/metrics.go] and the gauges of [Tasks.Observe].
    [Trust] is the identity material, its reload and the connections it verified
    ([transport/identity/material.go], [reloader.go], [credentials.go]).

    Transport, [internal/transport].  [Identity] is [spiffe.go], [authz.go] and
    the service's policy ([grpc/policy.go]); [Wire] has the messages, their
    conversions and the status codes; [Transport] has every RPC handler of
    [server.go], [catalog.go] and [calls.go], the interceptors in their order and
    the construction of the listener.

    ** State and steps

    [Prog.pool_step] interleaves the processes of all replicas at the grain of
    one transaction or one question.  A transaction commits, fails, is lost, or
    commits without its acknowledgement; a process may vanish between any two
    steps; questions are answered arbitrarily within [Protocol.handle].
    [Service.service_process] lists what may start: every use case under any
    configuration, and every RPC through the listener.  [Service.reached] is what
    such runs reach from the empty database.  [Prog.safe] is a weakest
    precondition with a token per process and a shared invariant
    ([Protocol.service_inv]); [Prog.pool_sound] is its soundness.

    ** What the theorems show

    - Calls ([CallLife], [CallsSafe], [CallsSpec], [System]): no call id is sent
      twice by any number of replicas, every send has its committed marker, a
      canceled or denied call is never sent, a call's row only follows its life,
      and a call is recorded only behind every guard of [Create].
    - Grants and catalog ([Invariant], [GrantsSafe], [GrantsQuiet],
      [CatalogSafe], [System]): a live grant is bound by digest to an approved,
      independently reviewed revision; revocation is final and a revoked grant
      is drained; events carry gapless revisions; records only grow.
    - Background requests ([TaskLife], [TasksSim], [TasksSystem], [TasksSweep]):
      an abstract life of a generation with its invariant, bound and fencing, and
      the refinement of it by the database commands, rows and attempts included,
      also while retention deletes the attempts of ended generations.
    - Round trips and listings ([CatalogSpec], [Paging], [IdentitySpec],
      [WireSpec]): an unchanged server never drifts, paging is complete, an
      identity is its text, numbers and states survive the wire.
    - Access ([Authz], [TransportSpec], [Trust]): the roles' separation of duties
      (and the role-named actor that breaks it), who reaches which handler of the
      listener a configuration builds, and which connections stay after a reload.
    - Every reached database is well formed ([System.database_is_well_formed]):
      rows are filed under their keys, their revisions fit their columns, and
      they refer to rows that exist and agree.
    - The withdrawal path end to end ([Delivery]): every withdrawn grant and
      revision of a reached database has its event, and the events, published as
      bytes and delivered at least once, evict the tokens of every one of them
      in each replica, and nothing else, unless the read behind the revision gate
      failed ([Delivery.failed_read_loses_eviction]).
    - Upstream ([SessionSpec], [Authority], [Egress], [ContextForgeSpec]): a
      session opens exactly on what was reviewed, outcomes say what was answered,
      tokens are reviewed and bound, egress is confined, bodies are bounded, and
      a discovery reads one gateway.
    - Control ([Control]): its record decides, and nothing else.
    - Configuration ([ConfigSpec], [GenerationsSpec], [Bootstrap]): outside
      development nothing is plaintext, a generation is built only from guarded
      inputs, the generation in force is the valid active one, ready means
      serving, and a failed start unwinds or, with a forwarder, panics
      ([Bootstrap.failed_start_ends]).
    - The process ([Forwarder], [Commands]): a generation that could not be
      built leaves nothing open and outside development its NATS connection is
      TLS with a credential; the consumer's waits double up to 32 seconds; a
      local check expects the digest of the bytes it was given; the gauges say
      what is stored and which servers are restricted ([Observe]).
    - Retention ([Retention]): only what is done is pruned.
    - [Demo] runs the service from its empty database through one grant and one
      call; its stages are the witnesses of the system theorems.

    ** Parameters

    Code that is not under [src/] is a parameter with what the program relies
    on: the JSON schema library ([Call.SchemaLibrary]), Casbin ([App.Casbin],
    [App.CasbinLaws]), PostgreSQL's [jsonb] ([Sql.Jsonb], [Sql.JsonbLaws]), the
    generated services, message rules and enumerator names ([Transport],
    [Control]), koanf with its YAML parser and mapstructure ([ConfigLoad.Koanf]),
    what loading key material and dialing answer ([Trust], [Assembly]), the table
    of printable runes ([ContextForge]), and the text of an error ([Refresh]).
    Witnesses instantiate them.

    ** Fuel and bounds

    [Calls.Create] calls itself after a lost insert race and [Calls.Reconcile]
    pages through a changing table: both take fuel and answer [None] without it;
    [CallsSpec.lost_race_is_answered] shows that one retry finds the winner's row.
    The adapters' loops recurse over what was answered.  The JSON parser's fuel is
    the input's length, and [GoJson] proves it enough; the loops of [GoScan],
    [GoNum] and [GoCrypto] are bounded by their input.

    ** Not modelled

    Traces, logs and the counters of the use cases, which nothing reads back; the router of the
    outbox's forwarder and the JetStream consumer themselves, which are the
    broker libraries ([Delivery] takes delivery in order and at least once as a
    hypothesis, [Forwarder] what they are built with); the insides of the MCP
    SDK, HTTP, TLS, X.509, koanf and OAuth libraries, whose answers are
    questions or parameters of the model; the HTTP clients' connection
    settings, the listening sockets and the drain of the gRPC server; the
    dependency-injection wiring, the tickers that start each loop's pass and
    the parsing of flags; test support. *)

From stdpp Require Export base tactics numbers list gmap strings pretty fin_maps.
From Stdlib Require Export ZArith Lia.

#[export] Set Default Goal Selector "!".
#[export] Set Warnings "-notation-overridden,-register-all,-clear-no-such-hyp,-level-tolerance".
Open Scope string_scope.
Open Scope list_scope.
Open Scope Z_scope.

(** ** Machine integers: Go's fixed-width integers as [Z] with the wrap
    written out. *)

Definition u64 (z : Z) : Z := z mod 2 ^ 64.
Definition u32 (z : Z) : Z := z mod 2 ^ 32.
Definition i64 (z : Z) : Z := (z + 2 ^ 63) mod 2 ^ 64 - 2 ^ 63.
Definition i32 (z : Z) : Z := (z + 2 ^ 31) mod 2 ^ 32 - 2 ^ 31.

Definition is_u64 (z : Z) : Prop := 0 <= z < 2 ^ 64.
Definition is_u32 (z : Z) : Prop := 0 <= z < 2 ^ 32.
Definition is_i64 (z : Z) : Prop := - 2 ^ 63 <= z < 2 ^ 63.

Create HintDb go.
Create Rewrite HintDb go_rw.

Lemma u64_id z : is_u64 z -> u64 z = z.
Proof. apply Z.mod_small. Qed.
Lemma u32_id z : is_u32 z -> u32 z = z.
Proof. apply Z.mod_small. Qed.
Lemma u64_range z : is_u64 (u64 z).
Proof. apply Z.mod_pos_bound; lia. Qed.
Lemma u32_range z : is_u32 (u32 z).
Proof. apply Z.mod_pos_bound; lia. Qed.
Lemma i64_range z : is_i64 (i64 z).
Proof.
  unfold i64, is_i64. pose proof (Z.mod_pos_bound (z + 2 ^ 63) (2 ^ 64) ltac:(lia)).
  lia.
Qed.
Lemma i64_id z : is_i64 z -> i64 z = z.
Proof. intros [? ?]. unfold i64. rewrite Z.mod_small; lia. Qed.
Lemma i32_id z : - 2 ^ 31 <= z < 2 ^ 31 -> i32 z = z.
Proof. intros [? ?]. unfold i32. rewrite Z.mod_small; lia. Qed.

(** A [uint64] stored in an [int64] column and read back. *)
Lemma u64_i64 z : is_u64 z -> u64 (i64 z) = z.
Proof.
  intros Hz. unfold u64, i64.
  rewrite Zminus_mod, Zmod_mod, <- Zminus_mod.
  replace (z + 2 ^ 63 - 2 ^ 63) with z by lia. by apply Z.mod_small.
Qed.
Lemma u32_i32 z : is_u32 z -> u32 (i32 z) = z.
Proof.
  intros Hz. unfold u32, i32.
  rewrite Zminus_mod, Zmod_mod, <- Zminus_mod.
  replace (z + 2 ^ 31 - 2 ^ 31) with z by lia. by apply Z.mod_small.
Qed.
Lemma i32_u32 z : - 2 ^ 31 <= z < 2 ^ 31 -> i32 (u32 z) = z.
Proof.
  intros Hz. unfold u32, i32.
  rewrite Zplus_mod, Zmod_mod, <- Zplus_mod. rewrite Z.mod_small; lia.
Qed.
Lemma i64_u64 z : is_i64 z -> i64 (u64 z) = z.
Proof.
  intros [? ?]. unfold u64, i64.
  rewrite Zplus_mod, Zmod_mod, <- Zplus_mod. rewrite Z.mod_small; lia.
Qed.
#[export] Hint Resolve u64_range u32_range i64_range : go.
#[export] Hint Rewrite u64_i64 u32_i32 using (auto with go) : go_rw.

(** ** Time: an instant is a number of nanoseconds since the Unix epoch, a
    duration an [int64] number of nanoseconds. *)

Abbreviation Time := Z (only parsing).
Abbreviation Duration := Z (only parsing).

Definition Microsecond : Duration := 1000.
Definition Millisecond : Duration := 1000000.
Definition Second : Duration := 1000000000.
Definition Minute : Duration := 60 * Second.
Definition Hour : Duration := 60 * Minute.

(** [time.Time{}], 1 January of year 1 UTC. *)
Definition zero_time : Time := - 62135596800 * 1000000000.
Definition IsZero (t : Time) : bool := t =? zero_time.
Definition After (t u : Time) : bool := u <? t.
Definition Before (t u : Time) : bool := t <? u.
Definition TAdd (t : Time) (d : Duration) : Time := t + d.
(** [Time.Sub] saturates at the ends of [time.Duration]. *)
Definition TSub (t u : Time) : Duration := Z.max (- 2 ^ 63) (Z.min (2 ^ 63 - 1) (t - u)).
(** [Time.Truncate] rounds down to a multiple of [d] since the zero time. *)
Definition Truncate (t : Time) (d : Duration) : Time :=
  if d <=? 0 then t else t - (t - zero_time) mod d.

#[global] Arguments Truncate : simpl never.

(** What a [timestamptz] column keeps of an instant: microseconds. *)
Definition us (t : Time) : Time := t - t mod Microsecond.
#[global] Arguments us : simpl never.
Lemma us_le t : us t <= t.
Proof. unfold us. pose proof (Z.mod_pos_bound t Microsecond ltac:(reflexivity)). lia. Qed.
Lemma us_idem t : us (us t) = us t.
Proof. unfold us. rewrite Zminus_mod_idemp_r, Z.sub_diag, Z.mod_0_l; [lia|done]. Qed.

Lemma After_spec t u : After t u = true <-> u < t.
Proof. apply Z.ltb_lt. Qed.
Lemma After_false t u : After t u = false <-> t <= u.
Proof. unfold After. rewrite Z.ltb_ge. lia. Qed.
Lemma Before_spec t u : Before t u = true <-> t < u.
Proof. apply Z.ltb_lt. Qed.
Lemma Before_false t u : Before t u = false <-> u <= t.
Proof. unfold Before. rewrite Z.ltb_ge. lia. Qed.

(** ** Results: a Go [(value, error)] pair whose error is nil exactly in the
    [Ok] case. *)

Inductive result (E A : Type) : Type :=
| Ok (a : A)
| Err (e : E).
Arguments Ok {E A} a.
Arguments Err {E A} e.

#[export] Instance result_ret E : MRet (result E) := fun A a => Ok a.
#[export] Instance result_bind E : MBind (result E) := fun A B k m =>
  match m with Ok a => k a | Err e => Err e end.
#[export] Instance result_fmap E : FMap (result E) := fun A B f m =>
  match m with Ok a => Ok (f a) | Err e => Err e end.

Definition is_ok {E A} (r : result E A) : bool :=
  match r with Ok _ => true | Err _ => false end.

Section ResultLemmas.
  Context {E A B : Type}.
  Implicit Types (m : result E A) (k : A -> result E B).

Lemma bind_Ok m k b : (m ≫= k) = Ok b <-> exists a, m = Ok a /\ k a = Ok b.
  Proof.
    destruct m as [a|e]; cbn; split.
    - eauto.
    - by intros (? & [= <-] & ?).
    - done.
    - by intros (? & ? & ?).
  Qed.

Lemma bind_Err m k e :
    (m ≫= k) = Err e <-> m = Err e \/ exists a, m = Ok a /\ k a = Err e.
  Proof.
    destruct m as [a|e']; cbn; split.
    - intros H. right. by exists a.
    - intros [[=]|(a' & [= <-] & H)]. exact H.
    - intros [= ->]. by left.
    - intros [[= ->]|(a' & [=] & H)]. done.
  Qed.
End ResultLemmas.

(** ** Record update: [r <| f := v |>] replaces one field.  A record opts in
    with an eta expansion registered as a [Settable] instance; the update of
    any of its fields is then found by abstracting the projection. *)

Class Settable (R : Type) := eta_record : R -> R.
Class Setter {R T : Type} (proj : R -> T) := update_field : (T -> T) -> R -> R.

Ltac derive_setter :=
  lazymatch goal with
  | |- @Setter ?R ?T ?proj =>
      let inst := constr:(_ : Settable R) in
      let eta := eval hnf in inst in
      let eta := eval pattern proj in eta in
      lazymatch eta with
      | ?build _ =>
          let upd := constr:(fun (f : T -> T) => build (fun r : R => f (proj r))) in
          let upd := eval cbv beta in upd in
          exact upd
      end
  end.
#[export] Hint Extern 1 (Setter _) => derive_setter : typeclass_instances.

Declare Scope record_scope.
Notation "r <| f := v |>" := (@update_field _ _ f _ (fun _ => v) r)
  (at level 1, f at next level, v at level 200, left associativity,
   format "r  <|  f  :=  v  |>") : record_scope.
Open Scope record_scope.

(** ** Tactics *)

(** Split the boolean tests of a decided branch into propositions. *)
Ltac breflect :=
  repeat match goal with
  | H : andb _ _ = true |- _ => apply andb_true_iff in H as [? ?]
  | H : orb _ _ = false |- _ => apply orb_false_iff in H as [? ?]
  | H : orb _ _ = true |- _ => apply orb_true_iff in H
  | H : andb _ _ = false |- _ => apply andb_false_iff in H
  | H : negb _ = true |- _ => apply negb_true_iff in H
  | H : negb _ = false |- _ => apply negb_false_iff in H
  | H : bool_decide _ = true |- _ => apply bool_decide_eq_true in H
  | H : bool_decide _ = false |- _ => apply bool_decide_eq_false in H
  | H : After _ _ = true |- _ => apply After_spec in H
  | H : After _ _ = false |- _ => apply After_false in H
  | H : Before _ _ = true |- _ => apply Before_spec in H
  | H : Before _ _ = false |- _ => apply Before_false in H
  | H : (_ <? _) = true |- _ => apply Z.ltb_lt in H
  | H : (_ <? _) = false |- _ => apply Z.ltb_ge in H
  | H : (_ <=? _) = true |- _ => apply Z.leb_le in H
  | H : (_ <=? _) = false |- _ => apply Z.leb_gt in H
  | H : (_ =? _)%Z = true |- _ => apply Z.eqb_eq in H
  | H : (_ =? _)%Z = false |- _ => apply Z.eqb_neq in H
  | H : String.eqb _ _ = true |- _ => apply String.eqb_eq in H
  | H : String.eqb _ _ = false |- _ => apply String.eqb_neq in H
  end.

(** Decide the outermost test of a handler's result: [dif H as E]. *)
Tactic Notation "dif" hyp(H) "as" ident(E) :=
  match type of H with
  | (if ?c then _ else _) = _ => destruct c eqn:E; try discriminate H
  end.

(** Walk through the branches of a handler: destruct the scrutinee of each
    [match] and [if] of a hypothesis about its result, closing the branches
    that contradict it. *)
Ltac branch_step H :=
  match type of H with
  | context [match ?x with _ => _ end] =>
      lazymatch x with
      | context [match _ with _ => _ end] => fail
      | _ => let E := fresh "E" in destruct x eqn:E; try discriminate H
      end
  end.
Ltac branches H := repeat (branch_step H); simplify_eq.
