(* ===== verification/Table.v ===== *)
(** * Table: tables that only go forward

    The order on the tables of the database that transactions follow: a row
    is never lost and goes on by the steps of its life, and a new row starts
    at the beginning of one. *)

From S2P Require Import Prelude.

Section Table.
  Context {K V : Type} `{Countable K} (step : V -> V -> Prop) (init : V -> Prop).

Definition table_le (t t' : gmap K V) : Prop :=
  (forall k v, t !! k = Some v -> exists v', t' !! k = Some v' /\ rtc step v v') /\
  (forall k v', t' !! k = Some v' -> t !! k = None -> exists v, init v /\ rtc step v v').

#[export] Instance table_le_preorder : PreOrder table_le.
Proof.
  split.
  - intros t. split; [intros k v Hk; exists v; split; [done|constructor]|congruence].
  - intros t1 t2 t3 [H1 N1] [H2 N2]. split.
    + intros k v (v2 & E2 & L1)%H1. apply H2 in E2 as (v3 & E3 & L2). exists v3. split; [done|]. by etrans.
    + intros k v3 E3 E1. destruct (t2 !! k) as [v2|] eqn:E2; [|by eapply N2].
      destruct (N1 _ _ E2 E1) as (v & Hf & L1). apply H2 in E2 as (v3' & E3' & L2). rewrite E3 in E3'. injection E3' as <-.
      exists v. split; [done|]. by etrans.
Qed.

Lemma table_le_row t t' k v : table_le t t' -> t !! k = Some v -> exists v', t' !! k = Some v' /\ rtc step v v'.
Proof. intros [Hk _]. apply Hk. Qed.

(** A step of a row, and a new row. *)
Lemma table_le_step t k v v' : t !! k = Some v -> step v v' -> table_le t (<[k := v']> t).
Proof.
  intros Hk Hs. split.
  - intros k' x Hx. destruct (decide (k' = k)) as [->|Hne].
    + rewrite lookup_insert_eq. rewrite Hk in Hx. injection Hx as <-. exists v'. split; [done|]. by apply rtc_once.
    + rewrite lookup_insert_ne by congruence. exists x. split; [done|constructor].
  - intros k' x Hx Hn. destruct (decide (k' = k)) as [->|Hne]; [congruence|]. by rewrite lookup_insert_ne, Hn in Hx by congruence.
Qed.
Lemma table_le_new t k v : t !! k = None -> init v -> table_le t (<[k := v]> t).
Proof.
  intros Hk Hf. split.
  - intros k' x Hx. rewrite lookup_insert_ne by congruence. exists x. split; [done|constructor].
  - intros k' x Hx Hn. destruct (decide (k' = k)) as [->|Hne].
    + rewrite lookup_insert_eq in Hx. injection Hx as <-. exists v. split; [done|constructor].
    + by rewrite lookup_insert_ne, Hn in Hx by congruence.
Qed.
End Table.

(** Every row of a table. *)
Definition all_rows {K V} `{Countable K} (P : K -> V -> Prop) (t : gmap K V) : Prop := forall k v, t !! k = Some v -> P k v.
Lemma all_rows_insert {K V} `{Countable K} (P : K -> V -> Prop) t k v :
  all_rows P t -> P k v -> all_rows P (<[k := v]> t).
Proof.
  intros Ht Hv k' x. destruct (decide (k' = k)) as [->|Hne].
  - rewrite lookup_insert_eq. by intros [= <-].
  - rewrite lookup_insert_ne by congruence. apply Ht.
Qed.
Lemma all_rows_alter {K V} `{Countable K} (P : K -> V -> Prop) t k f :
  all_rows P t -> (forall v, P k v -> P k (f v)) -> all_rows P (alter f k t).
Proof.
  intros Ht Hf k' x. destruct (decide (k' = k)) as [->|Hne].
  - rewrite lookup_alter_eq. destruct (t !! k) as [v|] eqn:E; [|done]. intros [= <-]. apply Hf, Ht, E.
  - rewrite lookup_alter_ne by congruence. apply Ht.
Qed.
