(* ===== verification/Errors.v ===== *)
(** * Errors: the sentinel errors of the program

    Every error of the program wraps at most one sentinel ([fmt.Errorf] with
    [%w]); callers and the transport distinguish errors with [errors.Is] only,
    so an error is its sentinel together with the failure code its text
    carries, when it carries one (the remaining message text is not kept). *)

From S2P Require Import Prelude.

(** [domain] (task.go, catalog.go), [application] (tasks.go, grants.go,
    calls.go), [postgres] (store.go), [upstream] (egress.go, oauth.go) and
    [contextforge] (client.go) sentinels.  [ErrOther] stands for an error that
    wraps none of them: a failed query, a failed commit, an unreachable
    dependency. *)
Inductive sentinel :=
| ErrNotFound | ErrInvalid | ErrNotClaimable | ErrStaleExecution
| ErrEffectUncertain | ErrProfileUnknown | ErrAlreadyClaimed | ErrInputTooLarge
| ErrDuplicateClaimID
| ErrDescriptorMismatch | ErrDomainForbidden | ErrCommandConflict
| ErrRevisionMismatch | ErrInvalidTransition
| ErrForbidden | ErrRefused | ErrShuttingDown
| ErrDuplicateKey
| ErrEgress | ErrBodyTooLarge | ErrAuthority
| ErrUpstream | ErrUnavailable
| ErrNoRecord
| ErrOther.

#[export] Instance sentinel_eq_dec : EqDecision sentinel.
Proof. solve_decision. Defined.

Record error := mkError { err_is : sentinel; err_code : string }.

#[export] Instance error_eq_dec : EqDecision error.
Proof. solve_decision. Defined.

Abbreviation res := (result error).

(** [fmt.Errorf("%w: ...", s, ...)] and the form whose text names a code. *)
Definition errorf (s : sentinel) : error := mkError s "".
Definition errorc (s : sentinel) (code : string) : error := mkError s code.

(** [errors.Is(err, s)]. *)
Definition errors_Is (e : error) (s : sentinel) : bool := bool_decide (err_is e = s).

Abbreviation Fail s := (Err (errorf s)).

Lemma errors_Is_spec e s : errors_Is e s = true <-> err_is e = s.
Proof. apply bool_decide_eq_true. Qed.
