(* ===== verification/GoStrings.v ===== *)
(** * GoStrings: the string and byte functions of Go's standard library the
    program uses

    A Go [string] and a [[]byte] are both a Rocq [string], read as a sequence
    of bytes.  [strings.ToLower] maps ASCII letters only (the program lowers
    host names, licenses and scopes); everything else follows the library. *)

From S2P Require Import Prelude.
From Stdlib Require Import Ascii Sorted.

Abbreviation bytes := string (only parsing).

Definition byte_of_Z (z : Z) : ascii := ascii_of_N (Z.to_N (z mod 256)).
Definition Z_of_byte (c : ascii) : Z := Z.of_N (N_of_ascii c).

(** [len] *)
Definition len (s : string) : Z := Z.of_nat (String.length s).

Fixpoint bytes_of (s : string) : list Z :=
  match s with EmptyString => [] | String c r => Z_of_byte c :: bytes_of r end.
Fixpoint string_of_bytes (l : list Z) : string :=
  match l with [] => EmptyString | b :: r => String (byte_of_Z b) (string_of_bytes r) end.

Definition nul : string := String (ascii_of_N 0) EmptyString.
Definition newline : string := String (ascii_of_N 10) EmptyString.
Definition quote : ascii := ascii_of_N 34.

(** ** Order, sorting and deduplication ([slices.Sort], [slices.Compact]) *)

Fixpoint insert_sorted {A} (le : A -> A -> bool) (x : A) (l : list A) : list A :=
  match l with
  | [] => [x]
  | y :: r => if le x y then x :: l else y :: insert_sorted le x r
  end.
Definition sort_by {A} (le : A -> A -> bool) (l : list A) : list A :=
  foldr (insert_sorted le) [] l.
(** [slices.Sort] on strings: byte-wise order. *)
Definition slices_Sort (l : list string) : list string := sort_by String.leb l.
Fixpoint slices_Compact (l : list string) : list string :=
  match l with
  | x :: (y :: _) as r => if String.eqb x y then slices_Compact r else x :: slices_Compact r
  | _ => l
  end.
Definition slices_Contains (l : list string) (x : string) : bool := existsb (String.eqb x) l.
Fixpoint slices_Index (l : list string) (x : string) : Z :=
  match l with
  | [] => -1
  | y :: r => if String.eqb y x then 0
              else let i := slices_Index r x in if i <? 0 then -1 else i + 1
  end.
Definition strings_Join (l : list string) (sep : string) : string := String.concat sep l.

(** ** Prefixes and suffixes *)
Definition HasPrefix (s p : string) : bool := String.prefix p s.
Definition drop_bytes (n : nat) (s : string) : string :=
  String.substring n (String.length s - n) s.
Definition HasSuffix (s p : string) : bool :=
  (String.length p <=? String.length s)%nat &&
  String.eqb (drop_bytes (String.length s - String.length p) s) p.
Definition TrimPrefix (s p : string) : string :=
  if HasPrefix s p then drop_bytes (String.length p) s else s.

(** ** Case and white space *)
Definition lower_byte (c : ascii) : ascii :=
  let z := Z_of_byte c in if (65 <=? z) && (z <=? 90) then byte_of_Z (z + 32) else c.
Definition upper_byte (c : ascii) : ascii :=
  let z := Z_of_byte c in if (97 <=? z) && (z <=? 122) then byte_of_Z (z - 32) else c.
Fixpoint ToLower (s : string) : string :=
  match s with EmptyString => EmptyString | String c r => String (lower_byte c) (ToLower r) end.

(** The white space rune a byte sequence starts with: the number of bytes of
    its UTF-8 encoding ([unicode.IsSpace]). *)
Definition space3 (b1 b2 b3 : Z) : bool :=
  ((b1 =? 225) && (b2 =? 154) && (b3 =? 128))
  || ((b1 =? 226) && (b2 =? 128) && (((128 <=? b3) && (b3 <=? 138)) || (b3 =? 168) || (b3 =? 169) || (b3 =? 175)))
  || ((b1 =? 226) && (b2 =? 129) && (b3 =? 159))
  || ((b1 =? 227) && (b2 =? 128) && (b3 =? 128)).
Definition space_bytes (l : list Z) : nat :=
  match l with
  | [] => 0%nat
  | b1 :: r1 =>
      if ((9 <=? b1) && (b1 <=? 13)) || (b1 =? 32) then 1%nat
      else match r1 with
           | [] => 0%nat
           | b2 :: r2 =>
               if (b1 =? 194) && ((b2 =? 133) || (b2 =? 160)) then 2%nat
               else match r2 with b3 :: _ => if space3 b1 b2 b3 then 3%nat else 0%nat | [] => 0%nat end
           end
  end.
Definition space_prefix (s : string) : nat := space_bytes (bytes_of s).
Fixpoint trim_left (fuel : nat) (s : string) : string :=
  match fuel with
  | O => s
  | S n => match space_prefix s with O => s | k => trim_left n (drop_bytes k s) end
  end.
Definition TrimLeft (s : string) : string := trim_left (String.length s) s.
Fixpoint TrimRight (s : string) : string :=
  if String.eqb (TrimLeft s) "" then ""
  else match s with EmptyString => EmptyString | String c r => String c (TrimRight r) end.
Definition TrimSpace (s : string) : string := TrimRight (TrimLeft s).

(** [strings.Trim(s, cutset)] for an ASCII cut set. *)
Definition in_cut (cut : string) (c : ascii) : bool :=
  existsb (Z.eqb (Z_of_byte c)) (bytes_of cut).
Fixpoint trim_cut_left (cut s : string) : string :=
  match s with
  | String c r => if in_cut cut c then trim_cut_left cut r else s
  | EmptyString => EmptyString
  end.
Fixpoint trim_cut_right (cut s : string) : string :=
  match s with
  | String c r =>
      match trim_cut_right cut r with
      | EmptyString => if in_cut cut c then EmptyString else String c EmptyString
      | r' => String c r'
      end
  | EmptyString => EmptyString
  end.
Definition Trim (s cut : string) : string := trim_cut_right cut (trim_cut_left cut s).

(** [strings.Split] at one byte. *)
Fixpoint split_at_byte (sep : ascii) (s : string) : list string :=
  match s with
  | EmptyString => [EmptyString]
  | String c r =>
      if Ascii.eqb c sep then EmptyString :: split_at_byte sep r
      else match split_at_byte sep r with
           | w :: ws => String c w :: ws
           | [] => [String c EmptyString]
           end
  end.

(** ** Decimal numbers *)

(** [fmt.Sprintf("%d")] and [strconv.FormatInt]/[FormatUint]. *)
Definition format_int (z : Z) : string := pretty z.

Fixpoint parse_digits (acc : Z) (s : string) : option Z :=
  match s with
  | EmptyString => Some acc
  | String c r =>
      let z := Z_of_byte c in
      if (48 <=? z) && (z <=? 57) then parse_digits (acc * 10 + (z - 48)) r else None
  end.
(** [strconv.ParseUint(s, 10, 64)] *)
Definition ParseUint (s : string) : option Z :=
  match s with
  | EmptyString => None
  | _ => match parse_digits 0 s with
         | Some n => if n <? 2 ^ 64 then Some n else None
         | None => None
         end
  end.
(** [strconv.ParseInt(s, 10, 64)] *)
Definition ParseInt (s : string) : option Z :=
  let '(neg, d) := match s with
                   | String "-" r => (true, r)
                   | String "+" r => (false, r)
                   | _ => (false, s)
                   end in
  match d with
  | EmptyString => None
  | _ => match parse_digits 0 d with
         | Some n => if neg then (if n <=? 2 ^ 63 then Some (- n) else None)
                     else (if n <? 2 ^ 63 then Some n else None)
         | None => None
         end
  end.

(** ** Lemmas *)

Lemma append_cons c s t : String c s +:+ t = String c (s +:+ t).
Proof. reflexivity. Qed.
Lemma length_append s t : String.length (s +:+ t) = (String.length s + String.length t)%nat.
Proof. induction s as [|c s IH]; [done|]. rewrite append_cons. cbn. by rewrite IH. Qed.
Lemma substring_full s : String.substring 0 (String.length s) s = s.
Proof. induction s as [|c s IH]; [done|]. cbn. by rewrite IH. Qed.
Lemma drop_bytes_app p s : drop_bytes (String.length p) (p +:+ s) = s.
Proof.
  unfold drop_bytes. rewrite length_append, Nat.add_comm, Nat.add_sub.
  induction p as [|c p IH]; [apply substring_full|]. rewrite append_cons. exact IH.
Qed.
Lemma prefix_app p s : String.prefix p (p +:+ s) = true.
Proof. induction p as [|c p IH]; [by destruct s|]. rewrite append_cons. cbn. by destruct (ascii_dec c c). Qed.
Lemma append_inj_l p s t : p +:+ s = p +:+ t -> s = t.
Proof. induction p as [|c p IH]; [done|]. rewrite !append_cons. intros [= H]. by apply IH. Qed.

(** ** Separators: text that does not contain a byte *)

Fixpoint has_byte (c : ascii) (s : string) : bool :=
  match s with EmptyString => false | String d r => Ascii.eqb d c || has_byte c r end.

Lemma has_byte_app c s t : has_byte c (s +:+ t) = has_byte c s || has_byte c t.
Proof. induction s as [|d s IH]; [done|]. rewrite append_cons. cbn. by rewrite IH, orb_assoc. Qed.

Lemma append_assoc s t u : (s +:+ t) +:+ u = s +:+ (t +:+ u).
Proof. induction s as [|d s IH]; [done|]. rewrite !append_cons. by rewrite IH. Qed.

(** The text before the first separator determines the split. *)
Lemma split_first c s1 s2 x y :
  has_byte c s1 = false -> has_byte c s2 = false ->
  s1 +:+ String c x = s2 +:+ String c y -> s1 = s2 /\ x = y.
Proof.
  revert s2. induction s1 as [|d s1 IH]; intros [|e s2] H1 H2 H; cbn in H1, H2.
  - by injection H.
  - rewrite append_cons in H. injection H as -> _. by rewrite Ascii.eqb_refl in H2.
  - rewrite append_cons in H. injection H as -> _. by rewrite Ascii.eqb_refl in H1.
  - rewrite !append_cons in H. injection H as -> H. apply orb_false_iff in H1 as [_ H1], H2 as [_ H2].
    destruct (IH _ H1 H2 H) as [-> ->]. done.
Qed.

Lemma append_inj_length s1 s2 x y :
  String.length s1 = String.length s2 -> s1 +:+ x = s2 +:+ y -> s1 = s2 /\ x = y.
Proof.
  revert s2. induction s1 as [|d s1 IH]; intros [|e s2] Hl H; try done.
  rewrite !append_cons in H. injection H as -> H. injection Hl as Hl.
  destruct (IH _ Hl H) as [-> ->]. done.
Qed.

Lemma append_nil_r s : s +:+ "" = s.
Proof. induction s as [|d s IH]; [done|]. by rewrite append_cons, IH. Qed.

Lemma pretty_N_char_not c n : c = ":"%char \/ c = "@"%char -> Ascii.eqb (pretty_N_char n) c = false.
Proof.
  intros [-> | ->]; unfold pretty_N_char; by repeat case_match.
Qed.
Lemma pretty_N_go_digits c n s :
  c = ":"%char \/ c = "@"%char -> has_byte c s = false -> has_byte c (pretty_N_go n s) = false.
Proof.
  intros Hc. revert s. induction (N.lt_wf_0 n) as [n _ IH]; intros s Hs.
  destruct (decide (0 < n)%N) as [Hn|Hn].
  - rewrite pretty_N_go_step by done. apply IH; [by apply N.div_lt|]. cbn.
    rewrite Hs, orb_false_r. by apply pretty_N_char_not.
  - replace n with 0%N by lia. by rewrite pretty_N_go_0.
Qed.
(** A decimal holds neither of the separators that follow one. *)
Lemma format_int_no_sep c z : 0 <= z -> c = ":"%char \/ c = "@"%char -> has_byte c (format_int z) = false.
Proof.
  intros Hz Hc. unfold format_int, pretty, pretty_Z. destruct z as [|p|p]; [|..|lia].
  - by destruct Hc as [-> | ->].
  - change (pretty p) with (pretty (N.pos p)). unfold pretty, pretty_N.
    destruct (decide (N.pos p = 0%N)); [lia|]. by apply pretty_N_go_digits.
Qed.
Lemma format_int_inj a b : format_int a = format_int b -> a = b.
Proof. apply (inj pretty). Qed.

(** Names joined by a comma they do not contain. *)
Definition plain_name (s : string) : bool := negb (String.eqb s "") && negb (has_byte ","%char s).
Lemma join_plain_inj l l' :
  forallb plain_name l = true -> forallb plain_name l' = true ->
  strings_Join l "," = strings_Join l' "," -> l = l'.
Proof.
  unfold strings_Join, plain_name. revert l'.
  assert (forall a k, a <> "" -> String.concat "," (a :: k) <> "") as Hne.
  { intros a [|b k] Ha; cbn; [done|]. by destruct a. }
  induction l as [|a l IH]; intros [|b l'] H1 H2 H; cbn [forallb] in H1, H2; breflect; [done| | |].
  - symmetry in H. by apply Hne in H.
  - by apply Hne in H.
  - destruct l as [|a' l], l' as [|b' l'].
    + cbn in H. by subst.
    + cbn in H. subst a. change ("," +:+ ?x) with (String "," x) in *.
      rewrite has_byte_app in *. cbn in *. by rewrite orb_true_r in *.
    + cbn in H. subst b. rewrite has_byte_app in *. cbn in *. by rewrite orb_true_r in *.
    + change (a +:+ String "," (String.concat "," (a' :: l)) = b +:+ String "," (String.concat "," (b' :: l'))) in H.
      apply split_first in H as [-> H]; [|done..]. by rewrite (IH (b' :: l')).
Qed.

(** ** Sorting *)

Section Sorting.
  Context {A : Type} (le : A -> A -> bool).
  Hypothesis le_total : forall x y, le x y = true \/ le y x = true.
  Hypothesis le_trans : forall x y z, le x y = true -> le y z = true -> le x z = true.

Lemma insert_sorted_perm x l : insert_sorted le x l ≡ₚ x :: l.
Proof.
  induction l as [|y l IH]; [done|]. cbn. destruct (le x y); [done|]. rewrite IH. apply Permutation_swap.
Qed.
Lemma sort_by_perm l : sort_by le l ≡ₚ l.
Proof. induction l as [|x l IH]; [done|]. cbn. by rewrite insert_sorted_perm, IH. Qed.

Lemma insert_sorted_sorted x l :
  StronglySorted (fun a b => le a b = true) l -> StronglySorted (fun a b => le a b = true) (insert_sorted le x l).
Proof.
  induction 1 as [|y l Hl IH Hy]; cbn; [by repeat constructor|].
  destruct (le x y) eqn:E.
  - constructor; [by constructor|]. constructor; [done|]. eapply List.Forall_impl; [|exact Hy]. eauto.
  - constructor; [done|]. rewrite insert_sorted_perm. constructor; [|done].
    by destruct (le_total x y); [congruence|].
Qed.
Lemma sort_by_sorted l : StronglySorted (fun a b => le a b = true) (sort_by le l).
Proof. induction l as [|x l IH]; [constructor|]. by apply insert_sorted_sorted. Qed.
End Sorting.

Lemma leb_trans s1 s2 s3 : String.leb s1 s2 = true -> String.leb s2 s3 = true -> String.leb s1 s3 = true.
Proof.
  unfold String.leb. revert s2 s3.
  induction s1 as [|a s1 IH]; intros [|b s2] [|c s3]; cbn; try done.
  unfold Ascii.compare. intros H1 H2. specialize (IH s2 s3).
  destruct (N.compare_spec (N_of_ascii a) (N_of_ascii b)) as [E1|E1|E1]; [| |done];
  destruct (N.compare_spec (N_of_ascii b) (N_of_ascii c)) as [E2|E2|E2]; try done;
  destruct (N.compare_spec (N_of_ascii a) (N_of_ascii c)) as [E3|E3|E3]; try done; try lia. by apply IH.
Qed.

(** Byte-wise strictly increasing: sorted and without repetition. *)
Definition string_lt (a b : string) : Prop := String.leb a b = true /\ a <> b.

Lemma slices_Sort_elem l x : x ∈ slices_Sort l <-> x ∈ l.
Proof. unfold slices_Sort. by rewrite (sort_by_perm String.leb l). Qed.
Lemma slices_Sort_sorted l : StronglySorted (fun a b => String.leb a b = true) (slices_Sort l).
Proof. apply sort_by_sorted; [apply String.leb_total|apply leb_trans]. Qed.

Lemma slices_Compact_cons x y r :
  slices_Compact (x :: y :: r) = if String.eqb x y then slices_Compact (y :: r) else x :: slices_Compact (y :: r).
Proof. done. Qed.
Lemma slices_Compact_elem l x : x ∈ slices_Compact l <-> x ∈ l.
Proof.
  induction l as [|a [|b l] IH]; [done..|]. rewrite slices_Compact_cons.
  destruct (String.eqb a b) eqn:E; breflect.
  - subst b. rewrite IH. rewrite !elem_of_cons. tauto.
  - rewrite (elem_of_cons (slices_Compact _)), IH, (elem_of_cons (b :: l)). tauto.
Qed.
Lemma slices_Compact_sorted l :
  StronglySorted (fun a b => String.leb a b = true) l -> StronglySorted string_lt (slices_Compact l).
Proof.
  induction l as [|a [|b l] IH]; intros Hs; [constructor|by repeat constructor|].
  rewrite slices_Compact_cons. apply StronglySorted_inv in Hs as [Hs Ha].
  destruct (String.eqb a b) eqn:E; [by apply IH|]. breflect. constructor; [by apply IH|].
  apply List.Forall_forall. intros x Hx%list_elem_of_In. rewrite slices_Compact_elem in Hx.
  rewrite List.Forall_forall in Ha. split; [apply Ha; by apply list_elem_of_In|].
  intros ->. apply elem_of_cons in Hx as [->|Hx]; [done|]. apply E. apply String.leb_antisym.
  - by apply Ha; left.
  - apply StronglySorted_inv in Hs as [_ Hb]. rewrite List.Forall_forall in Hb. apply Hb. by apply list_elem_of_In.
Qed.
Lemma string_lt_NoDup l : StronglySorted string_lt l -> NoDup l.
Proof.
  induction 1 as [|a l _ IH Ha]; constructor; [|done]. intros Hin.
  rewrite List.Forall_forall in Ha. destruct (Ha a) as [_ ?]; [by apply list_elem_of_In|done].
Qed.

Lemma slices_Contains_spec l x : slices_Contains l x = true <-> x ∈ l.
Proof.
  unfold slices_Contains. rewrite existsb_exists. split.
  - intros (y & Hy & ->%String.eqb_eq). by apply list_elem_of_In.
  - intros H%list_elem_of_In. exists x. by rewrite String.eqb_refl.
Qed.

Lemma bytes_of_length s : List.length (bytes_of s) = String.length s.
Proof. induction s as [|c s IH]; [done|]. cbn. by rewrite IH. Qed.
