(* ===== verification/GoTrim.v ===== *)
(** * GoTrim: laws of [strings.TrimSpace] and [strings.ToLower] *)

From S2P Require Import Prelude GoStrings.
From Stdlib Require Import Ascii Sorted.

(** ** White space at the start *)

Lemma space_bytes_app l m : space_bytes l <> 0%nat -> space_bytes (l ++ m) = space_bytes l.
Proof. destruct l as [|b1 [|b2 [|b3 l]]]; cbn; [done|..]; repeat case_match; congruence. Qed.
Lemma space_bytes_length l : (space_bytes l <= List.length l)%nat.
Proof. destruct l as [|b1 [|b2 [|b3 l]]]; cbn; repeat case_match; lia. Qed.
Lemma bytes_of_app s t : bytes_of (s +:+ t) = bytes_of s ++ bytes_of t.
Proof. induction s as [|c s IH]; [done|]. rewrite append_cons. cbn. by rewrite IH. Qed.

Lemma space_prefix_app s t : space_prefix s <> 0%nat -> space_prefix (s +:+ t) = space_prefix s.
Proof. unfold space_prefix. rewrite bytes_of_app. apply space_bytes_app. Qed.
Lemma space_prefix_length s : (space_prefix s <= String.length s)%nat.
Proof. unfold space_prefix. rewrite <- bytes_of_length. apply space_bytes_length. Qed.
Lemma drop_bytes_0 s : drop_bytes 0 s = s.
Proof. unfold drop_bytes. rewrite Nat.sub_0_r. apply substring_full. Qed.
Lemma drop_bytes_cons n c s : drop_bytes (S n) (String c s) = drop_bytes n s.
Proof. done. Qed.
Lemma drop_bytes_length n s : (n <= String.length s)%nat -> String.length (drop_bytes n s) = (String.length s - n)%nat.
Proof.
  revert s. induction n as [|n IH]; intros s Hn; [rewrite drop_bytes_0; lia|]. destruct s as [|c s]; cbn in Hn; [lia|].
  rewrite drop_bytes_cons, IH by lia. done.
Qed.
Lemma drop_bytes_append n s t : (n <= String.length s)%nat -> drop_bytes n (s +:+ t) = drop_bytes n s +:+ t.
Proof.
  revert s. induction n as [|n IH]; intros s Hn; [by rewrite !drop_bytes_0|]. destruct s as [|c s]; cbn in Hn; [lia|].
  rewrite append_cons, !drop_bytes_cons. apply IH. lia.
Qed.

(** ** [TrimLeft] *)

Lemma trim_left_fuel n m s : (String.length s <= n)%nat -> (String.length s <= m)%nat -> trim_left n s = trim_left m s.
Proof.
  revert m s. induction n as [|n IH]; intros m s Hn Hm.
  - destruct s; cbn in Hn; [|lia]. by destruct m.
  - destruct m as [|m]; [destruct s; cbn in Hm; [done|lia]|]. cbn. pose proof (space_prefix_length s) as Hk.
    destruct (space_prefix s) as [|k] eqn:E; [done|]. apply IH; rewrite drop_bytes_length by lia; lia.
Qed.
Lemma TrimLeft_eq s : TrimLeft s = match space_prefix s with O => s | k => TrimLeft (drop_bytes k s) end.
Proof.
  unfold TrimLeft. destruct (String.length s) as [|n] eqn:E; [by destruct s|]. cbn. pose proof (space_prefix_length s) as Hk.
  destruct (space_prefix s) as [|k] eqn:Ek; [done|]. apply trim_left_fuel; rewrite drop_bytes_length by lia; lia.
Qed.
Lemma TrimLeft_fixed s : space_prefix s = 0%nat -> TrimLeft s = s.
Proof. intros E. by rewrite TrimLeft_eq, E. Qed.

(** Induction along the white space runes a string starts with. *)
Lemma space_ind (P : string -> Prop) :
  (forall s, space_prefix s = 0%nat -> P s) ->
  (forall s, space_prefix s <> 0%nat -> P (drop_bytes (space_prefix s) s) -> P s) -> forall s, P s.
Proof.
  intros H0 H1 s. remember (String.length s) as n eqn:Hn. revert s Hn.
  induction n as [n IH] using lt_wf_ind. intros s ->. destruct (decide (space_prefix s = 0%nat)) as [E|E]; [by apply H0|].
  apply H1; [done|]. pose proof (space_prefix_length s). eapply IH; [|done]. rewrite drop_bytes_length by lia. lia.
Qed.
Lemma TrimLeft_step s : space_prefix s <> 0%nat -> TrimLeft s = TrimLeft (drop_bytes (space_prefix s) s).
Proof. intros E. rewrite TrimLeft_eq at 1. by destruct (space_prefix s). Qed.
Lemma TrimLeft_start s : space_prefix (TrimLeft s) = 0%nat.
Proof. induction s as [s E|s E IH] using space_ind; [by rewrite TrimLeft_fixed|by rewrite TrimLeft_step]. Qed.

(** A string of white space only. *)
Definition spaces (s : string) : Prop := TrimLeft s = "".
Lemma spaces_app s t : spaces s -> spaces t -> spaces (s +:+ t).
Proof.
  unfold spaces. intros Hs Ht. revert Hs. induction s as [s E|s E IH] using space_ind; intros Hs.
  - rewrite TrimLeft_fixed in Hs by done. by rewrite Hs.
  - rewrite TrimLeft_step in Hs by done. rewrite TrimLeft_step; rewrite space_prefix_app by done; [|done].
    rewrite drop_bytes_append by apply space_prefix_length. by apply IH.
Qed.

(** ** [TrimRight] and [TrimSpace] *)

Lemma TrimRight_cons c s : TrimRight (String c s) = if String.eqb (TrimLeft (String c s)) "" then "" else String c (TrimRight s).
Proof. done. Qed.
Lemma TrimRight_split s : exists t, s = TrimRight s +:+ t /\ spaces t.
Proof.
  induction s as [|c s (t & Hs & Ht)]; [by exists ""|]. rewrite TrimRight_cons.
  destruct (String.eqb _ _) eqn:E; breflect; [by exists (String c s)|]. exists t. rewrite append_cons, <- Hs. done.
Qed.
Lemma TrimRight_idem s : TrimRight (TrimRight s) = TrimRight s.
Proof.
  induction s as [|c s IH]; [done|]. rewrite TrimRight_cons. destruct (String.eqb _ _) eqn:E; [done|]. breflect.
  rewrite TrimRight_cons, IH. destruct (String.eqb (TrimLeft (String c (TrimRight s))) "") eqn:E2; [|done]. breflect.
  destruct E. destruct (TrimRight_split s) as (t & Hs & Ht). rewrite Hs, <- append_cons. by apply spaces_app.
Qed.
Lemma TrimRight_start s : space_prefix s = 0%nat -> space_prefix (TrimRight s) = 0%nat.
Proof.
  intros E. destruct (TrimRight_split s) as (t & Hs & _). destruct (decide (space_prefix (TrimRight s) = 0%nat)) as [|Hn]; [done|].
  rewrite Hs, space_prefix_app in E by done. done.
Qed.
Lemma TrimSpace_idem s : TrimSpace (TrimSpace s) = TrimSpace s.
Proof.
  unfold TrimSpace. rewrite (TrimLeft_fixed (TrimRight _)) by (apply TrimRight_start, TrimLeft_start). apply TrimRight_idem.
Qed.

(** ** [ToLower] *)

Lemma lower_byte_idem c : lower_byte (lower_byte c) = lower_byte c.
Proof. destruct c as [[] [] [] [] [] [] [] []]; reflexivity. Qed.
Lemma ToLower_idem s : ToLower (ToLower s) = ToLower s.
Proof. induction s as [|c s IH]; [done|]. cbn. by rewrite lower_byte_idem, IH. Qed.

(** Lowering leaves white space, and what is not, as it is. *)
Definition letter (z : Z) : bool := ((65 <=? z) && (z <=? 90)) || ((97 <=? z) && (z <=? 122)).
Lemma lower_byte_value c : Z_of_byte (lower_byte c) = Z_of_byte c \/ letter (Z_of_byte c) = true /\ letter (Z_of_byte (lower_byte c)) = true.
Proof. destruct c as [[] [] [] [] [] [] [] []]; vm_compute; auto. Qed.
Definition lowered (a b : Z) : Prop := a = b \/ (letter a = true /\ letter b = true).
Lemma lowered_eqb a b k : lowered a b -> letter k = false -> (a =? k) = (b =? k).
Proof.
  intros [->|[Ha Hb]] Hk; [done|]. rewrite !(proj2 (Z.eqb_neq _ _)); [done|intros E; subst; congruence..].
Qed.
Lemma lowered_within a b lo hi : lowered a b -> hi < 65 \/ 122 < lo -> (lo <=? a) && (a <=? hi) = (lo <=? b) && (b <=? hi).
Proof. intros [->|[Ha Hb]] Hr; [done|]. unfold letter in *. lia. Qed.
Lemma space3_lowered a1 b1 a2 b2 a3 b3 : lowered a1 b1 -> lowered a2 b2 -> lowered a3 b3 -> space3 a1 a2 a3 = space3 b1 b2 b3.
Proof.
  intros H1 H2 H3. unfold space3. rewrite !(lowered_eqb a1 b1), !(lowered_eqb a2 b2), !(lowered_eqb a3 b3) by done.
  by rewrite (lowered_within a3 b3) by (done || lia).
Qed.
Lemma space_bytes_lowered l l' : Forall2 lowered l l' -> space_bytes l = space_bytes l'.
Proof.
  assert (forall a b, lowered a b -> ((9 <=? a) && (a <=? 13)) || (a =? 32) = ((9 <=? b) && (b <=? 13)) || (b =? 32)) as Hw.
  { intros a b H. by rewrite (lowered_within a b), (lowered_eqb a b) by (done || lia). }
  assert (forall a1 b1 a2 b2, lowered a1 b1 -> lowered a2 b2 ->
    (a1 =? 194) && ((a2 =? 133) || (a2 =? 160)) = (b1 =? 194) && ((b2 =? 133) || (b2 =? 160))) as Hw2.
  { intros a1 b1 a2 b2 H1 H2. by rewrite (lowered_eqb a1 b1), !(lowered_eqb a2 b2) by done. }
  intros H. destruct H as [|a1 b1 l l' H1 H]; [done|]. cbn. rewrite (Hw _ _ H1). destruct (_ || _); [done|].
  destruct H as [|a2 b2 r r' H2 H]; [done|]. rewrite (Hw2 _ _ _ _ H1 H2). destruct (_ && _); [done|].
  destruct H as [|a3 b3 q q' H3 _]; [done|]. by rewrite (space3_lowered _ _ _ _ _ _ H1 H2 H3).
Qed.
Lemma ToLower_lowered s : Forall2 lowered (bytes_of (ToLower s)) (bytes_of s).
Proof.
  induction s as [|c s IH]; constructor; [|done]. destruct (lower_byte_value c) as [E|[H1 H2]]; [by left|by right].
Qed.
Lemma space_prefix_lower s : space_prefix (ToLower s) = space_prefix s.
Proof. apply space_bytes_lowered, ToLower_lowered. Qed.
Lemma drop_bytes_lower n s : drop_bytes n (ToLower s) = ToLower (drop_bytes n s).
Proof.
  revert s. induction n as [|n IH]; intros s; [by rewrite !drop_bytes_0|]. destruct s as [|c s]; [done|]. apply IH.
Qed.
Lemma TrimLeft_lower s : TrimLeft (ToLower s) = ToLower (TrimLeft s).
Proof.
  induction s as [s E|s E IH] using space_ind.
  - by rewrite !TrimLeft_fixed by (by rewrite ?space_prefix_lower).
  - rewrite (TrimLeft_step s) by done. rewrite TrimLeft_step, space_prefix_lower by (by rewrite space_prefix_lower).
    by rewrite drop_bytes_lower, IH.
Qed.
Lemma ToLower_empty s : String.eqb (ToLower s) "" = String.eqb s "".
Proof. by destruct s. Qed.
Lemma TrimRight_lower s : TrimRight (ToLower s) = ToLower (TrimRight s).
Proof.
  induction s as [|c s IH]; [done|]. change (ToLower (String c s)) with (String (lower_byte c) (ToLower s)).
  rewrite !TrimRight_cons. change (String (lower_byte c) (ToLower s)) with (ToLower (String c s)).
  rewrite TrimLeft_lower, ToLower_empty. destruct (String.eqb _ _); [done|]. by rewrite IH.
Qed.
Lemma TrimSpace_lower s : TrimSpace (ToLower s) = ToLower (TrimSpace s).
Proof. unfold TrimSpace. by rewrite TrimLeft_lower, TrimRight_lower. Qed.

(** Trimming and lowering once is enough. *)
Lemma trim_lower_idem s : ToLower (TrimSpace (ToLower (TrimSpace s))) = ToLower (TrimSpace s).
Proof. by rewrite TrimSpace_lower, ToLower_idem, TrimSpace_idem. Qed.

(** ** Strictly sorted lists *)

Lemma string_lt_antisym a b : string_lt a b -> string_lt b a -> False.
Proof. intros [H1 Hn] [H2 _]. by apply Hn, String.leb_antisym. Qed.
Lemma string_lt_cons a l x : StronglySorted string_lt (a :: l) -> x ∈ l -> string_lt a x.
Proof. intros [_ Ha]%StronglySorted_inv Hx%list_elem_of_In. rewrite List.Forall_forall in Ha. auto. Qed.
Lemma string_lt_tail a l l' : StronglySorted string_lt (a :: l) -> (forall x, x ∈ a :: l -> x ∈ a :: l') -> forall x, x ∈ l -> x ∈ l'.
Proof.
  intros Hl Hx x Hin. destruct (proj1 (elem_of_cons _ _ _) (Hx x (list_elem_of_further _ _ _ Hin))) as [->|]; [|done].
  by destruct (string_lt_cons _ _ _ Hl Hin).
Qed.
Lemma string_lt_head a b l l' : StronglySorted string_lt (a :: l) -> StronglySorted string_lt (b :: l') ->
  (forall x, x ∈ a :: l <-> x ∈ b :: l') -> a = b.
Proof.
  intros Hl Hl' Hx. destruct (decide (a = b)) as [|Hne]; [done|].
  destruct (proj1 (elem_of_cons _ _ _) (proj1 (Hx a) (list_elem_of_here _ _))) as [|H1]; [done|].
  destruct (proj1 (elem_of_cons _ _ _) (proj2 (Hx b) (list_elem_of_here _ _))) as [|H2]; [done|].
  destruct (string_lt_antisym a b); [by eapply string_lt_cons|by eapply string_lt_cons].
Qed.
Lemma string_lt_unique l l' : StronglySorted string_lt l -> StronglySorted string_lt l' -> (forall x, x ∈ l <-> x ∈ l') -> l = l'.
Proof.
  revert l'. induction l as [|a l IH]; intros [|b l'] Hl Hl' Hx; [done|..].
  - destruct (not_elem_of_nil b). apply Hx. by left.
  - destruct (not_elem_of_nil a). apply Hx. by left.
  - pose proof (string_lt_head _ _ _ _ Hl Hl' Hx) as ->. f_equal. pose proof Hl as [Hs _]%StronglySorted_inv.
    pose proof Hl' as [Hs' _]%StronglySorted_inv. apply IH; [done..|]. intros x.
    split; eapply string_lt_tail; try done; intros y; apply Hx.
Qed.
