(* ===== verification/GoCrypto.v ===== *)
(** * GoCrypto: SHA-256, hexadecimal and base64 as the program uses them

    [crypto/sha256] (FIPS 180-4), [encoding/hex] and the padded standard
    alphabet of [encoding/base64], executable on byte strings. *)

From S2P Require Import Prelude GoStrings.
From Stdlib Require Import Ascii.

(** ** SHA-256 *)

Definition w32 (z : Z) : Z := z mod 2 ^ 32.
Definition rotr (n x : Z) : Z := w32 (Z.lor (Z.shiftr x n) (Z.shiftl x (32 - n))).
Definition not32 (x : Z) : Z := 2 ^ 32 - 1 - x.

(** The constants are the first 32 bits of the fractional parts of the cube
    roots of the first 64 primes and of the square roots of the first 8: they
    are computed from that definition, by bisection for the roots. *)
Definition is_prime (n : Z) : bool :=
  forallb (fun d => negb (n mod Z.of_nat d =? 0)) (seq 2 (Z.to_nat (Z.sqrt n) - 1)).
Definition first_primes : list Z :=
  List.filter is_prime (map Z.of_nat (seq 2 310)).

(** The largest [r] below [2^n + acc] with [r^k <= x]. *)
Fixpoint root_bits (n : nat) (k x acc : Z) : Z :=
  match n with
  | O => acc
  | S n' =>
      let r := acc + 2 ^ Z.of_nat n' in
      root_bits n' k x (if r ^ k <=? x then r else acc)
  end.
Definition root_fraction (k p : Z) : Z := w32 (root_bits 40 k (p * 2 ^ (32 * k)) 0).

Definition sha256_k : list Z := Eval vm_compute in map (root_fraction 3) first_primes.
Definition sha256_h0 : list Z := Eval vm_compute in map (root_fraction 2) (firstn 8 first_primes).

Definition big_endian (n : nat) (z : Z) : list Z :=
  map (fun i => Z.shiftr z (8 * Z.of_nat (n - 1 - i)) mod 256) (seq 0 n).

Definition sha256_pad (m : list Z) : list Z :=
  let l := Z.of_nat (List.length m) in
  let zeros := (55 - l) mod 64 in
  m ++ [128] ++ repeat 0 (Z.to_nat zeros) ++ big_endian 8 (8 * l).

Fixpoint words (l : list Z) : list Z :=
  match l with
  | a :: b :: c :: d :: r => (((a * 256 + b) * 256 + c) * 256 + d) :: words r
  | _ => []
  end.

(** The message schedule, newest word first. *)
Fixpoint schedule (n : nat) (w : list Z) : list Z :=
  match n with
  | O => w
  | S n' =>
      let w2 := nth 1 w 0 in let w7 := nth 6 w 0 in
      let w15 := nth 14 w 0 in let w16 := nth 15 w 0 in
      let s0 := Z.lxor (Z.lxor (rotr 7 w15) (rotr 18 w15)) (Z.shiftr w15 3) in
      let s1 := Z.lxor (Z.lxor (rotr 17 w2) (rotr 19 w2)) (Z.shiftr w2 10) in
      schedule n' (w32 (w16 + s0 + w7 + s1) :: w)
  end.

Definition sha256_round (h : list Z) (kw : Z * Z) : list Z :=
  match h with
  | [a; b; c; d; e; f; g; hh] =>
      let s1 := Z.lxor (Z.lxor (rotr 6 e) (rotr 11 e)) (rotr 25 e) in
      let ch := Z.lxor (Z.land e f) (Z.land (not32 e) g) in
      let t1 := w32 (hh + s1 + ch + fst kw + snd kw) in
      let s0 := Z.lxor (Z.lxor (rotr 2 a) (rotr 13 a)) (rotr 22 a) in
      let maj := Z.lxor (Z.lxor (Z.land a b) (Z.land a c)) (Z.land b c) in
      let t2 := w32 (s0 + maj) in
      [w32 (t1 + t2); a; b; c; w32 (d + t1); e; f; g]
  | _ => h
  end.

Definition sha256_block (h block : list Z) : list Z :=
  let w := List.rev (schedule 48 (List.rev block)) in
  map (fun p => w32 (fst p + snd p)) (combine h (fold_left sha256_round (combine sha256_k w) h)).

Fixpoint sha256_blocks (n : nat) (h w : list Z) : list Z :=
  match n with
  | O => h
  | S n' => sha256_blocks n' (sha256_block h (firstn 16 w)) (skipn 16 w)
  end.

Definition Sum256 (m : string) : list Z :=
  let w := words (sha256_pad (bytes_of m)) in
  flat_map (big_endian 4) (sha256_blocks (List.length w / 16) sha256_h0 w).

(** ** Hexadecimal *)

Definition hex_digit (z : Z) : ascii := byte_of_Z (if z <? 10 then z + 48 else z + 87).
Fixpoint hex_EncodeToString (l : list Z) : string :=
  match l with
  | [] => EmptyString
  | b :: r => String (hex_digit (b / 16)) (String (hex_digit (b mod 16)) (hex_EncodeToString r))
  end.

(** The digest form of the whole program: ["sha256:" + hex]. *)
Definition sha256_hex (m : string) : string := "sha256:" +:+ hex_EncodeToString (Sum256 m).

(** [regexp.MustCompile("^sha256:[0-9a-f]{64}$").MatchString] *)
Definition is_hex_digit (c : ascii) : bool :=
  let z := Z_of_byte c in ((48 <=? z) && (z <=? 57)) || ((97 <=? z) && (z <=? 102)).
Fixpoint all_bytes (p : ascii -> bool) (s : string) : bool :=
  match s with EmptyString => true | String c r => p c && all_bytes p r end.
Definition digestPattern_Match (s : string) : bool :=
  HasPrefix s "sha256:" && all_bytes is_hex_digit (drop_bytes 7 s) && (String.length s =? 71)%nat.

(** ** Base64 ([base64.StdEncoding.DecodeString]) *)

Definition base64_value (c : ascii) : option Z :=
  let z := Z_of_byte c in
  if (65 <=? z) && (z <=? 90) then Some (z - 65)
  else if (97 <=? z) && (z <=? 122) then Some (z - 71)
  else if (48 <=? z) && (z <=? 57) then Some (z + 4)
  else if z =? 43 then Some 62 else if z =? 47 then Some 63 else None.
(** Line ends are skipped anywhere. *)
Definition base64_skip (l : list Z) : list Z := List.filter (fun b => negb ((b =? 10) || (b =? 13))) l.

(** Quanta of four digits; padding only in the last one. *)
Fixpoint base64_quanta (l : list Z) : option (list Z) :=
  let val b := base64_value (byte_of_Z b) in
  match l with
  | [] => Some []
  | a :: b :: c :: d :: r =>
      match val a, val b with
      | Some x, Some y =>
          match val c, val d with
          | Some z, Some t =>
              let n := ((x * 64 + y) * 64 + z) * 64 + t in
              match base64_quanta r with
              | Some out => Some (n / 65536 :: n / 256 mod 256 :: n mod 256 :: out)
              | None => None
              end
          | Some z, None =>
              if (d =? 61) && (match r with [] => true | _ => false end)
              then Some [(x * 64 + y) / 16; ((x * 64 + y) * 64 + z) / 4 mod 256] else None
          | None, _ =>
              if (c =? 61) && (d =? 61) && (match r with [] => true | _ => false end)
              then Some [(x * 64 + y) / 16] else None
          end
      | _, _ => None
      end
  | _ => None
  end.
Definition base64_DecodeString (s : string) : option string :=
  option_map string_of_bytes (base64_quanta (base64_skip (bytes_of s))).

(** ** Test vectors *)

Example sha256_abc :
  sha256_hex "abc" = "sha256:ba7816bf8f01cfea414140de5dae2223b00361a396177a9cb410ff61f20015ad".
Proof. vm_compute. reflexivity. Qed.
Example sha256_empty :
  sha256_hex "" = "sha256:e3b0c44298fc1c149afbf4c8996fb92427ae41e4649b934ca495991b7852b855".
Proof. vm_compute. reflexivity. Qed.
Example sha256_two_blocks :
  sha256_hex "abcdbcdecdefdefgefghfghighijhijkijkljklmklmnlmnomnopnopq" =
  "sha256:248d6a61d20638b8e5c026930c3e6039a33ce45964ff2167f6ecedd419db06c1".
Proof. vm_compute. reflexivity. Qed.
Example base64_hello : base64_DecodeString "aGVsbG8=" = Some "hello".
Proof. reflexivity. Qed.
Example base64_bad : base64_DecodeString "aGVsbG8" = None.
Proof. reflexivity. Qed.

(** ** Every digest the program makes matches the digest pattern. *)

Lemma sha256_block_length h b : List.length h = 8%nat -> List.length (sha256_block h b) = 8%nat.
Proof.
  intros Hh. unfold sha256_block. rewrite length_map, length_combine, Hh.
  enough (forall kws h', List.length h' = 8%nat -> List.length (fold_left sha256_round kws h') = 8%nat)
    as -> by done.
  intros kws. induction kws as [|kw kws IH]; intros h' Hh'; [done|]. cbn. apply IH.
  unfold sha256_round. do 9 (destruct h' as [|? h']; try done).
Qed.

Lemma sha256_blocks_length n : forall h w,
  List.length h = 8%nat -> List.length (sha256_blocks n h w) = 8%nat.
Proof.
  induction n as [|n IH]; intros h w Hh; [done|].
  cbn [sha256_blocks]. by apply IH, sha256_block_length.
Qed.

Lemma flat_map_length_const {A B} (f : A -> list B) k l :
  (forall a, List.length (f a) = k) -> List.length (flat_map f l) = (List.length l * k)%nat.
Proof. intros Hf. induction l as [|a l IH]; cbn; [done|]. rewrite length_app, Hf, IH. lia. Qed.

Lemma Sum256_length m : List.length (Sum256 m) = 32%nat.
Proof.
  unfold Sum256. rewrite (flat_map_length_const _ 4).
  - by rewrite sha256_blocks_length.
  - intros a. unfold big_endian. by rewrite length_map, length_seq.
Qed.

Lemma Sum256_bytes m : Forall (fun b => 0 <= b < 256) (Sum256 m).
Proof.
  apply List.Forall_forall. intros b Hb. unfold Sum256 in Hb.
  apply in_flat_map in Hb as (w & _ & Hb). unfold big_endian in Hb.
  apply in_map_iff in Hb as (i & <- & _). apply Z.mod_pos_bound. lia.
Qed.

Lemma hex_digit_ok z : 0 <= z < 16 -> is_hex_digit (hex_digit z) = true.
Proof.
  intros Hz. assert (In (Z.to_nat z) (seq 0 16)) as Hin by (apply in_seq; lia).
  assert (forallb (fun n => is_hex_digit (hex_digit (Z.of_nat n))) (seq 0 16) = true) as HF
    by reflexivity.
  rewrite forallb_forall in HF. specialize (HF _ Hin). by rewrite Z2Nat.id in HF by lia.
Qed.

Lemma hex_length l : String.length (hex_EncodeToString l) = (2 * List.length l)%nat.
Proof. induction l as [|b l IH]; [done|]. cbn [hex_EncodeToString String.length]. rewrite IH. cbn. lia. Qed.

Lemma hex_all l : Forall (fun b => 0 <= b < 256) l -> all_bytes is_hex_digit (hex_EncodeToString l) = true.
Proof.
  induction 1 as [|b l Hb _ IH]; [done|]. cbn [hex_EncodeToString all_bytes].
  rewrite !hex_digit_ok, IH; [done| |].
  - apply Z.mod_pos_bound. lia.
  - split; [apply Z.div_pos; lia|apply Z.div_lt_upper_bound; lia].
Qed.

Lemma sha256_hex_pattern m : digestPattern_Match (sha256_hex m) = true.
Proof.
  unfold digestPattern_Match, sha256_hex. rewrite (drop_bytes_app "sha256:").
  rewrite hex_all by apply Sum256_bytes. rewrite andb_true_r.
  rewrite length_append, hex_length, Sum256_length. unfold HasPrefix. by rewrite prefix_app.
Qed.
#[export] Hint Rewrite sha256_hex_pattern : go_rw.

(** Two texts with one digest. *)
Definition collision (x y : string) : Prop := x <> y /\ sha256_hex x = sha256_hex y.
