(* ===== verification/GoJson.v ===== *)
(** * GoJson: [encoding/json] as the program uses it

    Parsing ([Valid], [Unmarshal]) into a value tree, and [Marshal] of the
    trees the program builds.  Numbers keep their literal text.  The parser
    runs on fuel; [Parse] gives it one unit per byte, and
    [parse_fuel_enough] shows that more changes nothing. *)

From S2P Require Import Prelude GoStrings GoCrypto.
From Stdlib Require Import Ascii.

Inductive json :=
| JNull
| JBool (b : bool)
| JNum (lit : string)
| JStr (s : string)
| JArr (l : list json)
| JObj (kv : list (string * json)).

(** Induction on values, through the members and the elements. *)
Section JsonInd.
  Context (P : json -> Prop).
  Hypotheses (Hnull : P JNull) (Hbool : forall b, P (JBool b)) (Hnum : forall n, P (JNum n)) (Hstr : forall s, P (JStr s))
    (Harr : forall l, List.Forall P l -> P (JArr l))
    (Hobj : forall kv, List.Forall (fun p => P (snd p)) kv -> P (JObj kv)).

Fixpoint json_rect' (v : json) : P v :=
  match v with
  | JNull => Hnull
  | JBool b => Hbool b
  | JNum n => Hnum n
  | JStr s => Hstr s
  | JArr l => Harr l ((fix go l : List.Forall P l :=
                         match l with [] => List.Forall_nil _ | x :: r => List.Forall_cons _ x r (json_rect' x) (go r) end) l)
  | JObj kv => Hobj kv ((fix go kv : List.Forall (fun p => P (snd p)) kv :=
                           match kv with [] => List.Forall_nil _
                           | p :: r => List.Forall_cons _ p r (json_rect' (snd p)) (go r) end) kv)
  end.
End JsonInd.

(** ** UTF-8 ([utf8.DecodeRune], [utf8.EncodeRune]) *)

Definition RuneError : Z := 65533.
Definition is_cont (b : Z) : bool := (128 <=? b) && (b <? 192).

Definition decode_rune (l : list Z) : Z * nat :=
  match l with
  | [] => (RuneError, 0%nat)
  | b0 :: r =>
      if b0 <? 128 then (b0, 1%nat)
      else if (194 <=? b0) && (b0 <? 224) then
        match r with
        | b1 :: _ => if is_cont b1 then (Z.land b0 31 * 64 + Z.land b1 63, 2%nat) else (RuneError, 1%nat)
        | _ => (RuneError, 1%nat)
        end
      else if (224 <=? b0) && (b0 <? 240) then
        match r with
        | b1 :: b2 :: _ =>
            let lo := if b0 =? 224 then 160 else 128 in
            let hi := if b0 =? 237 then 159 else 191 in
            if (lo <=? b1) && (b1 <=? hi) && is_cont b2
            then ((Z.land b0 15 * 64 + Z.land b1 63) * 64 + Z.land b2 63, 3%nat)
            else (RuneError, 1%nat)
        | _ => (RuneError, 1%nat)
        end
      else if (240 <=? b0) && (b0 <? 245) then
        match r with
        | b1 :: b2 :: b3 :: _ =>
            let lo := if b0 =? 240 then 144 else 128 in
            let hi := if b0 =? 244 then 143 else 191 in
            if (lo <=? b1) && (b1 <=? hi) && is_cont b2 && is_cont b3
            then (((Z.land b0 7 * 64 + Z.land b1 63) * 64 + Z.land b2 63) * 64 + Z.land b3 63, 4%nat)
            else (RuneError, 1%nat)
        | _ => (RuneError, 1%nat)
        end
      else (RuneError, 1%nat)
  end.

Definition encode_rune (r : Z) : list Z :=
  if r <? 128 then [r]
  else if r <? 2048 then [192 + r / 64; 128 + r mod 64]
  else if r <? 65536 then [224 + r / 4096; 128 + r / 64 mod 64; 128 + r mod 64]
  else [240 + r / 262144; 128 + r / 4096 mod 64; 128 + r / 64 mod 64; 128 + r mod 64].

(** ** Scanning *)

Definition is_ws (b : Z) : bool := (b =? 32) || (b =? 9) || (b =? 10) || (b =? 13).
Fixpoint skip_ws (l : list Z) : list Z :=
  match l with b :: r => if is_ws b then skip_ws r else l | [] => [] end.

Definition is_digit (b : Z) : bool := (48 <=? b) && (b <=? 57).
Fixpoint take_digits (l : list Z) : list Z * list Z :=
  match l with
  | b :: r => if is_digit b then let '(d, rest) := take_digits r in (b :: d, rest) else ([], l)
  | [] => ([], [])
  end.

Definition hex_value (b : Z) : option Z :=
  if is_digit b then Some (b - 48)
  else if (97 <=? b) && (b <=? 102) then Some (b - 87)
  else if (65 <=? b) && (b <=? 70) then Some (b - 55) else None.

(** A number literal: integer part, optional fraction, optional exponent. *)
Definition scan_frac (l : list Z) : option (list Z * list Z) :=
  match l with
  | b :: r => if b =? 46 then match take_digits r with
                              | ([], _) => None
                              | (d, rest) => Some (46 :: d, rest)
                              end
              else Some ([], l)
  | [] => Some ([], [])
  end.
Definition scan_sign (l : list Z) : list Z * list Z :=
  match l with
  | s :: r => if (s =? 43) || (s =? 45) then ([s], r) else ([], l)
  | [] => ([], [])
  end.
Definition scan_exp (l : list Z) : option (list Z * list Z) :=
  match l with
  | e :: r =>
      if (e =? 101) || (e =? 69) then
        let '(sign, r') := scan_sign r in
        match take_digits r' with
        | ([], _) => None
        | (d, rest) => Some (e :: sign ++ d, rest)
        end
      else Some ([], l)
  | [] => Some ([], [])
  end.
Definition scan_minus (l : list Z) : list Z * list Z :=
  match l with
  | b :: r => if b =? 45 then ([b], r) else ([], l)
  | [] => ([], [])
  end.
Definition scan_int (l : list Z) : option (list Z * list Z) :=
  match l with
  | b :: r => if b =? 48 then Some ([b], r)
              else match take_digits l with ([], _) => None | p => Some p end
  | [] => None
  end.
Definition scan_number (l : list Z) : option (list Z * list Z) :=
  let '(sign, l1) := scan_minus l in
  '(d, l2) ← scan_int l1; '(f, l3) ← scan_frac l2; '(e, l4) ← scan_exp l3;
  Some (sign ++ d ++ f ++ e, l4).

(** The bytes between the quotes, escapes kept; the rest follows the quote.
    [skip] counts the bytes of the current escape still to copy. *)
Fixpoint scan_string (skip : nat) (l : list Z) : option (list Z * list Z) :=
  match l with
  | [] => None
  | b :: r =>
      match skip with
      | S k => '(s, rest) ← scan_string k r; Some (b :: s, rest)
      | O =>
          if b =? 34 then Some ([], r)
          else if b =? 92 then
            match r with
            | [] => None
            | e :: hex =>
                if e =? 117 then
                  if (4 <=? List.length hex)%nat && forallb (fun h => bool_decide (is_Some (hex_value h))) (firstn 4 hex)
                  then '(s, rest) ← scan_string 5 r; Some (b :: s, rest) else None
                else if existsb (Z.eqb e) [98; 102; 110; 114; 116; 92; 47; 34]
                then '(s, rest) ← scan_string 1 r; Some (b :: s, rest) else None
            end
          else if b <? 32 then None
          else '(s, rest) ← scan_string 0 r; Some (b :: s, rest)
      end
  end.

(** ** String literals ([unquote]) *)

Definition getu4 (l : list Z) : option Z :=
  match l with
  | 92 :: 117 :: a :: b :: c :: d :: _ =>
      match hex_value a, hex_value b, hex_value c, hex_value d with
      | Some w, Some x, Some y, Some z => Some (((w * 16 + x) * 16 + y) * 16 + z)
      | _, _, _, _ => None
      end
  | _ => None
  end.
Definition is_surrogate (r : Z) : bool := (55296 <=? r) && (r <? 57344).

Fixpoint unquote (fuel : nat) (l : list Z) : list Z :=
  match fuel with
  | O => []
  | S n =>
      match l with
      | [] => []
      | 92 :: 117 :: _ =>
          match getu4 l with
          | None => []
          | Some r =>
              if is_surrogate r then
                let pair := match getu4 (skipn 6 l) with
                            | Some r1 =>
                                if (r <? 56320) && (56320 <=? r1) && (r1 <? 57344)
                                then Some ((r - 55296) * 1024 + (r1 - 56320) + 65536) else None
                            | None => None
                            end in
                match pair with
                | Some dec => encode_rune dec ++ unquote n (skipn 12 l)
                | None => encode_rune RuneError ++ unquote n (skipn 6 l)
                end
              else encode_rune r ++ unquote n (skipn 6 l)
          end
      | 92 :: e :: r =>
          let c := if e =? 98 then 8 else if e =? 102 then 12 else if e =? 110 then 10
                   else if e =? 114 then 13 else if e =? 116 then 9 else e in
          c :: unquote n r
      | b :: r =>
          if b <? 128 then b :: unquote n r
          else let '(rune, k) := decode_rune l in encode_rune rune ++ unquote n (skipn k l)
      end
  end.

Definition unquote_string (raw : list Z) : string :=
  string_of_bytes (unquote (List.length raw) raw).

(** ** Values *)

Fixpoint strip_prefix (p l : list Z) : option (list Z) :=
  match p, l with
  | [], _ => Some l
  | a :: p', b :: l' => if a =? b then strip_prefix p' l' else None
  | _ :: _, [] => None
  end.

(** [maxNestingDepth] of the scanner. *)
Definition max_depth : Z := 10000.

(** [b] is the next byte after white space and [r] what follows it. *)
Definition peek (l : list Z) : option (Z * list Z) :=
  match skip_ws l with [] => None | b :: r => Some (b, r) end.
Definition expect (c : Z) (l : list Z) : option (list Z) :=
  '(b, r) ← peek l; if b =? c then Some r else None.

Fixpoint parse_value (fuel : nat) (depth : Z) (l : list Z) : option (json * list Z) :=
  match fuel with
  | O => None
  | S n =>
      '(b, r) ← peek l;
      if b =? 34 then '(s, rest) ← scan_string 0 r; Some (JStr (unquote_string s), rest)
      else if b =? 123 then
        if max_depth <=? depth then None else
        match expect 125 r with
        | Some rest => Some (JObj [], rest)
        | None => '(kv, rest) ← parse_members n (depth + 1) r; Some (JObj kv, rest)
        end
      else if b =? 91 then
        if max_depth <=? depth then None else
        match expect 93 r with
        | Some rest => Some (JArr [], rest)
        | None => '(vs, rest) ← parse_elements n (depth + 1) r; Some (JArr vs, rest)
        end
      else if b =? 116 then rest ← strip_prefix [114; 117; 101] r; Some (JBool true, rest)
      else if b =? 102 then rest ← strip_prefix [97; 108; 115; 101] r; Some (JBool false, rest)
      else if b =? 110 then rest ← strip_prefix [117; 108; 108] r; Some (JNull, rest)
      else '(d, rest) ← scan_number (b :: r); Some (JNum (string_of_bytes d), rest)
  end
with parse_members (fuel : nat) (depth : Z) (l : list Z) : option (list (string * json) * list Z) :=
  match fuel with
  | O => None
  | S n =>
      r ← expect 34 l; '(k, r1) ← scan_string 0 r; r2 ← expect 58 r1;
      '(v, r3) ← parse_value n depth r2; '(b, r4) ← peek r3;
      if b =? 44 then '(kv, rest) ← parse_members n depth r4; Some ((unquote_string k, v) :: kv, rest)
      else if b =? 125 then Some ([(unquote_string k, v)], r4) else None
  end
with parse_elements (fuel : nat) (depth : Z) (l : list Z) : option (list json * list Z) :=
  match fuel with
  | O => None
  | S n =>
      '(v, r) ← parse_value n depth l; '(b, r1) ← peek r;
      if b =? 44 then '(vs, rest) ← parse_elements n depth r1; Some (v :: vs, rest)
      else if b =? 93 then Some ([v], r1) else None
  end.

Definition parse_bytes (fuel : nat) (l : list Z) : option json :=
  match parse_value fuel 0 l with
  | Some (v, rest) => match skip_ws rest with [] => Some v | _ => None end
  | None => None
  end.

(** The whole document: one value, white space around it. *)
Definition Parse (raw : string) : option json :=
  parse_bytes (2 * String.length raw + 3) (bytes_of raw).
(** [json.Valid] *)
Definition Valid (raw : string) : bool := match Parse raw with Some _ => true | None => false end.

(** ** Marshalling *)

(** [encodeState.string] with HTML escaping, between the quotes. *)
Fixpoint escape_string (fuel : nat) (l : list Z) : list Z :=
  match fuel with
  | O => []
  | S n =>
      match l with
      | [] => []
      | b :: r =>
          if b <? 128 then
            let hex := bytes_of (hex_EncodeToString [b]) in
            let e := if (b =? 34) || (b =? 92) then [92; b]
                     else if b =? 8 then [92; 98] else if b =? 12 then [92; 102]
                     else if b =? 10 then [92; 110] else if b =? 13 then [92; 114]
                     else if b =? 9 then [92; 116]
                     else if (b <? 32) || (b =? 60) || (b =? 62) || (b =? 38)
                          then [92; 117; 48; 48] ++ hex
                     else [b] in
            e ++ escape_string n r
          else
            let '(rune, k) := decode_rune l in
            let e := if (rune =? RuneError) && (k =? 1)%nat then bytes_of "\ufffd"
                     else if rune =? 8232 then bytes_of "\u2028"
                     else if rune =? 8233 then bytes_of "\u2029"
                     else firstn k l in
            e ++ escape_string n (skipn k l)
      end
  end.
Definition quote_json (s : string) : string :=
  String quote (string_of_bytes (escape_string (String.length s) (bytes_of s)) +:+ String quote "").

Fixpoint Marshal (v : json) : string :=
  match v with
  | JNull => "null"
  | JBool true => "true"
  | JBool false => "false"
  | JNum lit => lit
  | JStr s => quote_json s
  | JArr l => "[" +:+ strings_Join (map Marshal l) "," +:+ "]"
  | JObj kv => "{" +:+ strings_Join (map (fun p => quote_json (fst p) +:+ ":" +:+ Marshal (snd p)) kv) "," +:+ "}"
  end.

(** A Go map marshals with its keys sorted. *)
Definition jmap (kv : list (string * json)) : json :=
  JObj (sort_by (fun a b => String.leb (fst a) (fst b)) kv).
Definition jint (z : Z) : json := JNum (format_int z).
Definition jarr {A} (f : A -> json) (l : list A) : json := JArr (map f l).

(** ** Decoding into structs *)

(** [foldName]: ASCII letters to upper case, and the two other runes that
    fold to an ASCII letter. *)
Fixpoint fold_name (s : string) : string :=
  match s with
  | EmptyString => EmptyString
  | String c r =>
      match Z_of_byte c, bytes_of (String.substring 0 2 r) with
      | 197, 191 :: _ => match r with String _ r' => String "S" (fold_name r') | _ => EmptyString end
      | 226, [132; 170] =>
          match r with String _ (String _ r') => String "K" (fold_name r') | _ => EmptyString end
      | _, _ => String (upper_byte c) (fold_name r)
      end
  end.
(** The struct field a key names: an exact match first, then a folded one. *)
Definition field_of (names : list string) (key : string) : option string :=
  if slices_Contains names key then Some key
  else List.find (fun n => String.eqb (fold_name n) (fold_name key)) names.

(** A decoded field: [None] is an [UnmarshalTypeError]; [null] leaves the
    field as it is. *)
Definition decode_int (old : Z) (v : json) : option Z :=
  match v with JNull => Some old | JNum lit => ParseInt lit | _ => None end.
Definition decode_uint (old : Z) (v : json) : option Z :=
  match v with JNull => Some old | JNum lit => ParseUint lit | _ => None end.
Definition decode_string (old : string) (v : json) : option string :=
  match v with JNull => Some old | JStr s => Some s | _ => None end.
Definition decode_bool (old : bool) (v : json) : option bool :=
  match v with JNull => Some old | JBool b => Some b | _ => None end.
(** Pointer fields: [null] clears them. *)
Definition decode_opt {A} (f : json -> option A) (v : json) : option (option A) :=
  match v with JNull => Some None | _ => option_map Some (f v) end.

(** Decode an object's members in order into a struct; a value of the wrong
    type (or, with [strict], an unknown key) makes the whole decode fail. *)
Section DecodeStruct.
  Context {A : Type} (names : list string) (strict : bool)
          (assign : string -> json -> A -> option A).

Fixpoint decode_members (kv : list (string * json)) (acc : A) : option A :=
    match kv with
    | [] => Some acc
    | (k, v) :: r =>
        match field_of names k with
        | Some f => match assign f v acc with Some acc' => decode_members r acc' | None => None end
        | None => if strict then None else decode_members r acc
        end
    end.

Definition decode_struct (v : json) (zero : A) : option A :=
    match v with
    | JObj kv => decode_members kv zero
    | JNull => Some zero
    | _ => None
    end.
End DecodeStruct.

(** ** The parser consumes input, and its fuel is enough *)

Lemma skip_ws_length l : (List.length (skip_ws l) <= List.length l)%nat.
Proof. induction l as [|b l IH]; cbn; [lia|]. destruct (is_ws b); cbn; lia. Qed.

Lemma take_digits_length l d r :
  take_digits l = (d, r) -> List.length l = (List.length d + List.length r)%nat.
Proof.
  revert d r. induction l as [|b l IH]; cbn; intros d r H; [by simplify_eq|].
  destruct (is_digit b); [|by simplify_eq].
  destruct (take_digits l) as [d' r']. simplify_eq. cbn. by rewrite (IH d' r).
Qed.

(** Every step of the parser leaves a shorter input. *)
Ltac option_steps :=
  repeat match goal with
  | H : (_ ≫= _) = Some _ |- _ => apply bind_Some in H as (? & ? & H)
  | p : _ * _ |- _ => destruct p
  | H : (if ?c then _ else _) = Some _ |- _ => destruct c; try discriminate H
  | H : match ?x with Some _ => _ | None => _ end = Some _ |- _ =>
      let E := fresh "E" in destruct x eqn:E; try discriminate H
  | H : _ = Some _ |- _ => progress cbv beta iota in H
  end; simplify_eq.

Lemma take_digits_shorter l b d r :
  take_digits l = (b :: d, r) -> (List.length r < List.length l)%nat.
Proof. intros H. apply take_digits_length in H. cbn in H. lia. Qed.

Lemma scan_number_length l d r :
  scan_number l = Some (d, r) -> (List.length r < List.length l)%nat.
Proof.
  unfold scan_number.
  assert (List.length (snd (scan_minus l)) <= List.length l)%nat as Hm
    by (unfold scan_minus; destruct l as [|q l]; [done|]; destruct (q =? 45); cbn; lia).
  destruct (scan_minus l) as [sign l1]. cbn in Hm. intros H. option_steps.
  rename select (scan_int _ = _) into Hi; rename select (scan_frac _ = _) into Hf;
    rename select (scan_exp _ = _) into He.
  assert (forall l d r, scan_int l = Some (d, r) -> List.length r < List.length l)%nat as Li.
  { intros [|b k] d' r' Hk; unfold scan_int in Hk; [done|].
    destruct (b =? 48); [simplify_eq; cbn; lia|].
    destruct (take_digits (b :: k)) as [[|? ?] ?] eqn:E; [done|]. simplify_eq.
    by eapply take_digits_shorter. }
  assert (forall l d r, scan_frac l = Some (d, r) -> List.length r <= List.length l)%nat as Lf.
  { intros [|b k] d' r' Hk; unfold scan_frac in Hk; [by simplify_eq|].
    destruct (b =? 46); [|injection Hk as <- <-; cbn; lia].
    destruct (take_digits k) as [[|? ?] ?] eqn:E; [done|]. simplify_eq.
    apply take_digits_shorter in E. cbn. lia. }
  assert (forall l d r, scan_exp l = Some (d, r) -> List.length r <= List.length l)%nat as Le.
  { intros [|b k] d' r' Hk; unfold scan_exp in Hk; [by simplify_eq|].
    destruct ((b =? 101) || (b =? 69)); [|injection Hk as <- <-; cbn; lia].
    assert (List.length (snd (scan_sign k)) <= List.length k)%nat as Hs
      by (unfold scan_sign; destruct k as [|q k]; [done|]; destruct ((q =? 43) || (q =? 45)); cbn; lia).
    destruct (scan_sign k) as [sg k']. cbn in Hs.
    destruct (take_digits k') as [[|? ?] ?] eqn:E; [done|]. simplify_eq.
    apply take_digits_shorter in E. cbn. lia. }
  apply Li in Hi. apply Lf in Hf. apply Le in He. lia.
Qed.

Lemma scan_string_length k l s r :
  scan_string k l = Some (s, r) -> (List.length r < List.length l)%nat.
Proof.
  revert k s r. induction l as [|b l IH]; intros k s r H; [done|].
  cbn [scan_string] in H. destruct k as [|k]; [|option_steps; rename select (scan_string _ _ = _) into E;
    apply IH in E; cbn; lia].
  destruct (b =? 34); [simplify_eq; cbn; lia|].
  assert (forall k s' r', scan_string k l = Some (s', r') -> List.length r' < S (List.length l))%nat as Hs
    by (intros k s' r' E; apply IH in E; lia).
  destruct (b =? 92).
  - destruct l as [|e hex]; [done|].
    destruct (e =? 117); option_steps; rename select (scan_string _ _ = _) into E; exact (Hs _ _ _ E).
  - option_steps. rename select (scan_string _ _ = _) into E; exact (Hs _ _ _ E).
Qed.

Lemma strip_prefix_length p l r :
  strip_prefix p l = Some r -> (List.length r <= List.length l)%nat.
Proof.
  revert l. induction p as [|a p IH]; intros l H;
    [injection H as <-; reflexivity|].
  destruct l as [|b l]; [done|]. cbn [strip_prefix] in H.
  destruct (a =? b); [|done]. apply IH in H. cbn. lia.
Qed.

Lemma peek_length l b r : peek l = Some (b, r) -> (List.length r < List.length l)%nat.
Proof.
  unfold peek. pose proof (skip_ws_length l). destruct (skip_ws l); [done|].
  intros; simplify_eq/=. lia.
Qed.
Lemma expect_length c l r : expect c l = Some r -> (List.length r < List.length l)%nat.
Proof. unfold expect. intros H. option_steps. by eapply peek_length. Qed.

Ltac lengths :=
  repeat match goal with
  | H : peek _ = Some _ |- _ => apply peek_length in H
  | H : expect _ _ = Some _ |- _ => apply expect_length in H
  | H : scan_string _ _ = Some _ |- _ => apply scan_string_length in H
  | H : strip_prefix _ _ = Some _ |- _ => apply strip_prefix_length in H
  | H : scan_number _ = Some _ |- _ => apply scan_number_length in H; cbn in H
  end.

Lemma parse_shorter n : forall d l,
  (forall v r, parse_value n d l = Some (v, r) -> List.length r < List.length l)%nat /\
  (forall v r, parse_members n d l = Some (v, r) -> List.length r < List.length l)%nat /\
  (forall v r, parse_elements n d l = Some (v, r) -> List.length r < List.length l)%nat.
Proof.
  induction n as [|n IH]; intros d l; [done|].
  assert (forall d l v r, parse_value n d l = Some (v, r) -> List.length r < List.length l)%nat as Iv
    by (intros d' l'; apply (IH d' l')).
  assert (forall d l v r, parse_members n d l = Some (v, r) -> List.length r < List.length l)%nat as Im
    by (intros d' l'; apply (IH d' l')).
  assert (forall d l v r, parse_elements n d l = Some (v, r) -> List.length r < List.length l)%nat as Ie
    by (intros d' l'; apply (IH d' l')).
  clear IH. split_and!; intros v r H; cbn [parse_value parse_members parse_elements] in H; option_steps;
    repeat match goal with
    | H : parse_value n _ _ = Some _ |- _ => apply Iv in H
    | H : parse_members n _ _ = Some _ |- _ => apply Im in H
    | H : parse_elements n _ _ = Some _ |- _ => apply Ie in H
    end; lengths; lia.
Qed.

Lemma parse_fuel n : forall m d l,
  (2 * List.length l + 2 <= n -> 2 * List.length l + 2 <= m -> parse_value n d l = parse_value m d l)%nat /\
  (2 * List.length l + 3 <= n -> 2 * List.length l + 3 <= m -> parse_members n d l = parse_members m d l)%nat /\
  (2 * List.length l + 3 <= n -> 2 * List.length l + 3 <= m -> parse_elements n d l = parse_elements m d l)%nat.
Proof.
  induction n as [|n IH]; intros m d l; [split_and!; intros; lia|].
  destruct m as [|m]; [split_and!; intros; lia|].
  split_and!; intros Hn Hm; cbn [parse_value parse_members parse_elements].
  - destruct (peek l) as [[b r]|] eqn:Ep; [|done]. cbn. apply peek_length in Ep.
    destruct (IH m (d + 1) r) as (_ & IHm & IHe).
    rewrite IHm, IHe by lia. reflexivity.
  - destruct (expect 34 l) as [r|] eqn:E1; [|done]. cbn.
    destruct (scan_string 0 r) as [[k r1]|] eqn:E2; [|done]. cbn.
    destruct (expect 58 r1) as [r2|] eqn:E3; [|done]. cbn. lengths.
    rewrite (proj1 (IH m d r2)) by lia.
    destruct (parse_value m d r2) as [[v r3]|] eqn:E4; [|done]. cbn.
    apply parse_shorter in E4.
    destruct (peek r3) as [[b r4]|] eqn:E5; [|done]. cbn. lengths.
    by rewrite (proj1 (proj2 (IH m d r4))) by lia.
  - rewrite (proj1 (IH m d l)) by lia.
    destruct (parse_value m d l) as [[v r]|] eqn:E4; [|done]. cbn.
    apply parse_shorter in E4.
    destruct (peek r) as [[b r1]|] eqn:E5; [|done]. cbn. lengths.
    by rewrite (proj2 (proj2 (IH m d r1))) by lia.
Qed.

(** The fuel of [Parse] is enough: more fuel never changes its answer. *)
Lemma parse_fuel_enough raw n :
  (2 * String.length raw + 3 <= n)%nat -> parse_bytes n (bytes_of raw) = Parse raw.
Proof.
  intros Hn. unfold Parse, parse_bytes.
  destruct (parse_fuel n (2 * String.length raw + 3) 0 (bytes_of raw)) as (H & _).
  rewrite bytes_of_length in H. rewrite H by lia. reflexivity.
Qed.
