(* ===== verification/GoNum.v ===== *)
(** * GoNum: [float64] numbers and instants as text

    [strconv.ParseFloat] and the shortest formatting [encoding/json] uses for
    numbers decoded into [any], by exact rational arithmetic, and the UTC
    layouts of [Time.Format] the program uses. *)

From S2P Require Import Prelude GoStrings GoJson.
From Stdlib Require Import Ascii.

(** ** float64: the nearest [m * 2^e], ties to even *)

Definition round_half_even (n d : Z) : Z :=
  let q := n / d in let r := n mod d in
  if 2 * r <? d then q else if d <? 2 * r then q + 1 else if Z.even q then q else q + 1.
(** [n / (d * 2^e)] as a fraction. *)
Definition scaled (n d e : Z) : Z * Z := if 0 <=? e then (n, d * 2 ^ e) else (n * 2 ^ (- e), d).

(** The float64 nearest to [n/d >= 0]: [None] beyond the range. *)
Definition float_of_ratio (n d : Z) : option (Z * Z) :=
  if n =? 0 then Some (0, -1074) else
  let e1 := Z.log2 n - Z.log2 d - 53 in
  let '(a, b) := scaled n d e1 in
  let e2 := Z.max (-1074) (if 2 ^ 53 <=? a / b then e1 + 1 else e1) in
  let '(a, b) := scaled n d e2 in
  let m := round_half_even a b in
  let '(m, e) := if m =? 2 ^ 53 then (2 ^ 52, e2 + 1) else (m, e2) in
  if 971 <? e then None else Some (m, e).

(** The decimal [digits * 10^k]. *)
Definition float_of_decimal (digits k : Z) : option (Z * Z) :=
  if digits =? 0 then Some (0, -1074)
  else
    let size := Z.of_nat (String.length (format_int digits)) + k in
    if 310 <? size then None
    else if size <? -330 then Some (0, -1074)
    else if 0 <=? k then float_of_ratio (digits * 10 ^ k) 1 else float_of_ratio digits (10 ^ (- k)).

(** The parts of a JSON number literal: sign, digits, decimal exponent. *)
Definition digits_value (l : list Z) : Z := fold_left (fun a b => a * 10 + (b - 48)) l 0.
Definition number_parts (lit : string) : option (bool * Z * Z) :=
  let '(sign, l1) := scan_minus (bytes_of lit) in
  '(i, l2) ← scan_int l1; '(f, l3) ← scan_frac l2; '(e, _) ← scan_exp l3;
  let frac := skipn 1 f in
  let '(esign, edigits) := scan_sign (skipn 1 e) in
  let ex := digits_value edigits in
  Some (negb (bool_decide (sign = [])), digits_value (i ++ frac),
        (if bool_decide (esign = [45]) then - ex else ex) - Z.of_nat (List.length frac)).

(** ** The shortest decimal that reads back as the same float64 *)

(** [m * 2^e < 10^p]. *)
Definition value_below (m e p : Z) : bool :=
  let '(n, d) := if 0 <=? e then (m * 2 ^ e, 1) else (m, 2 ^ (- e)) in
  if 0 <=? p then n <? d * 10 ^ p else n * 10 ^ (- p) <? d.
Fixpoint find_exponent (fuel : nat) (m e p : Z) : Z :=
  match fuel with
  | O => p
  | S n => if value_below m e p then p else find_exponent n m e (p + 1)
  end.
Definition decimal_exponent (m e : Z) : Z :=
  find_exponent 5 m e ((Z.log2 m + e) * 30103 / 100000 - 1).

(** [digits * 10^k] with as few digits as possible, the closer of the two
    neighbours first. *)
Fixpoint shortest (fuel : nat) (m e p n : Z) : Z * Z :=
  let k := p - n in
  let '(a, b) := if 0 <=? e then (m * 2 ^ e, 1) else (m, 2 ^ (- e)) in
  let '(a, b) := if 0 <=? k then (a, b * 10 ^ k) else (a * 10 ^ (- k), b) in
  let lo := a / b in
  let '(c1, c2) := if 2 * (a mod b) <=? b then (lo, lo + 1) else (lo + 1, lo) in
  let same c := bool_decide (float_of_decimal c k = Some (m, e)) in
  if same c1 then (c1, k) else if same c2 then (c2, k)
  else match fuel with O => (c1, k) | S f => shortest f m e p (n + 1) end.

Fixpoint repeat_zero (n : nat) : string := match n with O => "" | S k => "0" +:+ repeat_zero k end.
Fixpoint strip_zeros (fuel : nat) (digits k : Z) : Z * Z :=
  match fuel with
  | O => (digits, k)
  | S n => if (digits mod 10 =? 0) && negb (digits =? 0) then strip_zeros n (digits / 10) (k + 1) else (digits, k)
  end.

(** [floatEncoder]: plain notation within [1e-6, 1e21), else exponent
    notation with at least two digits, one after a negative one-digit exponent. *)
Definition format_decimal (digits k : Z) : string :=
  let d := format_int digits in
  let n := Z.of_nat (String.length d) in
  let p := n + k in
  if (p <? -5) || (21 <? p) then
    let x := p - 1 in
    let mant := if n =? 1 then d else String.substring 0 1 d +:+ "." +:+ drop_bytes 1 d in
    let ax := format_int (Z.abs x) in
    mant +:+ (if x <? 0 then "e-" +:+ ax
              else "e+" +:+ (if Z.abs x <? 10 then "0" +:+ ax else ax))
  else if 0 <=? k then d +:+ repeat_zero (Z.to_nat k)
  else if 0 <? p then String.substring 0 (Z.to_nat p) d +:+ "." +:+ drop_bytes (Z.to_nat p) d
  else "0." +:+ repeat_zero (Z.to_nat (- p)) +:+ d.

Definition format_float (neg : bool) (m e : Z) : string :=
  (if neg then "-" else "") +:+
  (if m =? 0 then "0"
   else let '(digits, k) := shortest 17 m e (decimal_exponent m e) 1 in
        let '(digits, k) := strip_zeros 20 digits k in format_decimal digits k).

(** A number literal decoded into [any] and marshalled again: [None] when it
    is out of range. *)
Definition canonical_number (lit : string) : option string :=
  '(neg, digits, k) ← number_parts lit; '(m, e) ← float_of_decimal digits k; Some (format_float neg m e).

Example canonical_numbers :
  map canonical_number ["1.0"; "1e2"; "0.1"; "-0"; "1e21"; "1.5e-7"; "0.000001"; "1e400"] =
  [Some "1"; Some "100"; Some "0.1"; Some "-0"; Some "1e+21"; Some "1.5e-7"; Some "0.000001"; None].
Proof. vm_compute. reflexivity. Qed.

(** ** Values decoded into [any] *)

(** [map[string]any]: a repeated key keeps its last value; marshalling sorts. *)
Fixpoint last_wins {A} (kv : list (string * A)) : list (string * A) :=
  match kv with
  | [] => []
  | (k, v) :: r => if existsb (fun p => String.eqb (fst p) k) r then last_wins r else (k, v) :: last_wins r
  end.

Fixpoint canonical_json (v : json) : option json :=
  match v with
  | JNum lit => s ← canonical_number lit; Some (JNum s)
  | JArr l =>
      l' ← (fix go (l : list json) : option (list json) :=
              match l with [] => Some [] | x :: r => x' ← canonical_json x; r' ← go r; Some (x' :: r') end) l;
      Some (JArr l')
  | JObj kv =>
      kv' ← (fix go (kv : list (string * json)) : option (list (string * json)) :=
               match kv with [] => Some [] | (k, x) :: r => x' ← canonical_json x; r' ← go r; Some ((k, x') :: r') end) kv;
      Some (jmap (last_wins kv'))
  | _ => Some v
  end.

(** ** Instants *)

Definition pad (width : nat) (z : Z) : string :=
  let s := format_int z in repeat_zero (width - String.length s) +:+ s.

(** The civil date of a day number since 1970-01-01 (years start in March). *)
Definition civil (day : Z) : Z * Z * Z :=
  let z := day + 719468 in
  let era := z / 146097 in let doe := z mod 146097 in
  let yoe := (doe - doe / 1460 + doe / 36524 - doe / 146096) / 365 in
  let doy := doe - (365 * yoe + yoe / 4 - yoe / 100) in
  let mp := (5 * doy + 2) / 153 in
  let d := doy - (153 * mp + 2) / 5 + 1 in
  let m := if mp <? 10 then mp + 3 else mp - 9 in
  (yoe + era * 400 + (if m <=? 2 then 1 else 0), m, d).

Definition format_seconds (t : Time) : string :=
  let s := t / Second in
  let '(y, m, d) := civil (s / 86400) in
  let r := s mod 86400 in
  pad 4 y +:+ "-" +:+ pad 2 m +:+ "-" +:+ pad 2 d +:+ "T" +:+
  pad 2 (r / 3600) +:+ ":" +:+ pad 2 (r / 60 mod 60) +:+ ":" +:+ pad 2 (r mod 60).
Fixpoint trim_zeros (s : string) : string :=
  match s with
  | EmptyString => EmptyString
  | String c r =>
      match trim_zeros r with
      | EmptyString => if Ascii.eqb c "0"%char then EmptyString else String c EmptyString
      | r' => String c r'
      end
  end.
(** [t.UTC().Format(time.RFC3339Nano)] *)
Definition RFC3339Nano (t : Time) : string :=
  let frac := trim_zeros (pad 9 (t mod Second)) in
  format_seconds t +:+ (if String.eqb frac "" then "" else "." +:+ frac) +:+ "Z".
(** [t.UTC().Format("2006-01-02T15:04:05.000000Z")] *)
Definition RFC3339Micro (t : Time) : string :=
  format_seconds t +:+ "." +:+ pad 6 (t mod Second / Microsecond) +:+ "Z".

Example instants :
  (RFC3339Nano 1700000000120000000, RFC3339Micro 951782400000001999, RFC3339Nano 0) =
  ("2023-11-14T22:13:20.12Z", "2000-02-29T00:00:00.000001Z", "1970-01-01T00:00:00Z").
Proof. vm_compute. reflexivity. Qed.
