(* ===== verification/GoBase64.v ===== *)
(** * GoBase64: [base64.RawURLEncoding]

    The unpadded URL alphabet.  Decoding ignores line breaks and does not
    require the unused bits of the last group to be zero, as the package's
    non-strict decoders do. *)

From S2P Require Import Prelude GoStrings.
From Stdlib Require Import Ascii.

(** ** Encoding *)

Definition b64_alphabet : string := "ABCDEFGHIJKLMNOPQRSTUVWXYZabcdefghijklmnopqrstuvwxyz0123456789-_".
Definition b64_char (v : Z) : Z := default 0 (bytes_of b64_alphabet !! Z.to_nat v).

Fixpoint b64_encode (l : list Z) : list Z :=
  match l with
  | a :: b :: c :: r =>
      b64_char (a / 4) :: b64_char (a mod 4 * 16 + b / 16) :: b64_char (b mod 16 * 4 + c / 64) :: b64_char (c mod 64) ::
      b64_encode r
  | [a; b] => [b64_char (a / 4); b64_char (a mod 4 * 16 + b / 16); b64_char (b mod 16 * 4)]
  | [a] => [b64_char (a / 4); b64_char (a mod 4 * 16)]
  | [] => []
  end.
Definition EncodeToString (s : string) : string := string_of_bytes (b64_encode (bytes_of s)).

(** ** Decoding *)

(** The value of a character of the alphabet. *)
Definition b64_value (c : Z) : option Z :=
  if (65 <=? c) && (c <=? 90) then Some (c - 65)
  else if (97 <=? c) && (c <=? 122) then Some (c - 71)
  else if (48 <=? c) && (c <=? 57) then Some (c + 4)
  else if c =? 45 then Some 62
  else if c =? 95 then Some 63
  else None.

Fixpoint b64_groups (l : list Z) : option (list Z) :=
  match l with
  | [] => Some []
  | [_] => None
  | [a; b] => Some [a * 4 + b / 16]
  | [a; b; c] => Some [a * 4 + b / 16; b mod 16 * 16 + c / 4]
  | a :: b :: c :: d :: r =>
      rest ← b64_groups r;
      Some (a * 4 + b / 16 :: b mod 16 * 16 + c / 4 :: c mod 4 * 64 + d :: rest)
  end.
Definition line_break (c : Z) : bool := (c =? 10) || (c =? 13).
Definition DecodeString (s : string) : option string :=
  values ← mapM b64_value (List.filter (fun c => negb (line_break c)) (bytes_of s));
  bytes ← b64_groups values;
  Some (string_of_bytes bytes).

(** ** Decoding what was encoded *)

Definition is_byte (z : Z) : Prop := 0 <= z < 256.

Lemma bytes_of_bytes s : Forall is_byte (bytes_of s).
Proof.
  induction s as [|c s IH]; cbn; constructor; [|done]. unfold is_byte, Z_of_byte.
  pose proof (N_ascii_bounded c). lia.
Qed.

Definition below64 : list Z := map Z.of_nat (seq 0 64).
Lemma b64_char_table : forallb (fun v => bool_decide (b64_value (b64_char v) = Some v) && negb (line_break (b64_char v)) &&
  (0 <=? b64_char v) && (b64_char v <? 256)) below64 = true.
Proof. vm_compute. reflexivity. Qed.
Lemma b64_char_ok v : 0 <= v < 64 ->
  b64_value (b64_char v) = Some v /\ line_break (b64_char v) = false /\ is_byte (b64_char v).
Proof.
  intros Hv. pose proof b64_char_table as Ht. rewrite forallb_forall in Ht.
  assert (In v below64) as Hin.
  { unfold below64. apply in_map_iff. exists (Z.to_nat v). split; [lia|]. apply in_seq. lia. }
  apply Ht in Hin. rewrite !andb_true_iff, negb_true_iff, Z.leb_le, Z.ltb_lt in Hin.
  destruct Hin as [[[Hval%bool_decide_eq_true Hlb] H0] H1]. split_and!; [done|done|split; done].
Qed.

(** The 6-bit values the encoding writes the characters of. *)
Fixpoint b64_values (l : list Z) : list Z :=
  match l with
  | a :: b :: c :: r => a / 4 :: a mod 4 * 16 + b / 16 :: b mod 16 * 4 + c / 64 :: c mod 64 :: b64_values r
  | [a; b] => [a / 4; a mod 4 * 16 + b / 16; b mod 16 * 4]
  | [a] => [a / 4; a mod 4 * 16]
  | [] => []
  end.
Lemma b64_encode_values l : b64_encode l = map b64_char (b64_values l).
Proof.
  revert l. fix IH 1. intros [|a [|b [|c r]]]; [done..|]. cbn. by rewrite IH.
Qed.
Ltac div_mod := Z.to_euclidean_division_equations; lia.
Lemma b64_values_bound l : Forall is_byte l -> Forall (fun v => 0 <= v < 64) (b64_values l).
Proof.
  revert l. fix IH 1. intros [|a [|b [|c r]]] Hl; rewrite ?Forall_cons in Hl; unfold is_byte in Hl; destruct_and?;
    cbn; repeat constructor; try div_mod. by apply IH.
Qed.
Lemma b64_groups_values l : Forall is_byte l -> b64_groups (b64_values l) = Some l.
Proof.
  revert l. fix IH 1. intros [|a [|b [|c r]]] Hl; rewrite ?Forall_cons in Hl; unfold is_byte in Hl; destruct_and?; cbn.
  - done.
  - do 2 f_equal. div_mod.
  - repeat f_equal; div_mod.
  - rewrite IH by done. cbn. repeat f_equal; div_mod.
Qed.

Lemma bytes_of_string l : Forall is_byte l -> bytes_of (string_of_bytes l) = l.
Proof.
  induction 1 as [|z l Hz _ IH]; [done|]. cbn. rewrite IH. f_equal. unfold is_byte, Z_of_byte, byte_of_Z in *.
  rewrite Z.mod_small by done. rewrite N_ascii_embedding by lia. lia.
Qed.
Lemma string_of_bytes_of s : string_of_bytes (bytes_of s) = s.
Proof.
  induction s as [|c s IH]; [done|]. cbn. rewrite IH. f_equal. unfold byte_of_Z, Z_of_byte.
  pose proof (N_ascii_bounded c). rewrite Z.mod_small, N2Z.id by lia. apply ascii_N_embedding.
Qed.

Lemma b64_chars_filter vs : Forall (fun v => 0 <= v < 64) vs ->
  List.filter (fun c => negb (line_break c)) (map b64_char vs) = map b64_char vs.
Proof.
  induction 1 as [|v vs Hv _ IH]; [done|]. cbn [map List.filter]. destruct (b64_char_ok v Hv) as (_ & -> & _). cbn. by rewrite IH.
Qed.
Lemma b64_chars_values vs : Forall (fun v => 0 <= v < 64) vs -> mapM b64_value (map b64_char vs) = Some vs.
Proof.
  induction 1 as [|v vs Hv _ IH]; [done|]. cbn. destruct (b64_char_ok v Hv) as (-> & _ & _). cbn. by rewrite IH.
Qed.
Lemma DecodeString_EncodeToString s : DecodeString (EncodeToString s) = Some s.
Proof.
  unfold DecodeString, EncodeToString. rewrite b64_encode_values.
  pose proof (b64_values_bound _ (bytes_of_bytes s)) as Hb.
  rewrite bytes_of_string.
  - rewrite b64_chars_filter, b64_chars_values by done. cbn. rewrite b64_groups_values by apply bytes_of_bytes. cbn.
    by rewrite string_of_bytes_of.
  - apply Forall_map. eapply Forall_impl; [exact Hb|]. intros v Hv. apply (b64_char_ok v Hv).
Qed.
