(* ===== verification/GoUrl.v ===== *)
(** * GoUrl: [net/url.Parse] and [net/netip.ParseAddr] as the program uses them

    A URL is what the program reads of it: the scheme, the opaque part,
    whether there is user information, the host, the path, the query and the
    fragment; and [Values] of a query as its pairs in order. *)

From S2P Require Import Prelude GoStrings GoJson.
From Stdlib Require Import Ascii.

(** ** Addresses *)

Inductive Addr :=
| Addr4 (b : list Z)
| Addr6 (b : list Z) (zone : string).

Definition Dot : ascii := ascii_of_N 46.
Definition Colon : ascii := ascii_of_N 58.
Definition Percent : ascii := ascii_of_N 37.

(** One decimal field: one to three digits, no leading zero, at most 255. *)
Definition ipv4_field (s : string) : option Z :=
  match bytes_of s with
  | [] => None
  | (b :: r) as l =>
      if negb (forallb is_digit l) || (3 <? Z.of_nat (List.length l)) || ((b =? 48) && negb (bool_decide (r = [])))
      then None
      else let v := fold_left (fun a d => a * 10 + (d - 48)) l 0 in if 255 <? v then None else Some v
  end.
Definition parse_ipv4 (s : string) : option (list Z) :=
  match map ipv4_field (split_at_byte Dot s) with
  | [Some a; Some b; Some c; Some d] => Some [a; b; c; d]
  | _ => None
  end.

Fixpoint take_hex (l : list Z) : list Z * list Z :=
  match l with
  | b :: r => match hex_value b with
              | Some v => let '(d, rest) := take_hex r in (v :: d, rest)
              | None => ([], l)
              end
  | [] => ([], [])
  end.
Definition take {A} (n : nat) (l : list A) := firstn n l.

(** The fields of an address from byte [i] on; [ellipsis] is the position of
    the double colon.  At most 8 fields. *)
Fixpoint ipv6_fields (fuel : nat) (l ip : list Z) (ellipsis : option nat) : option (list Z * option nat) :=
  match fuel with
  | O => match l with [] => Some (ip, ellipsis) | _ => None end
  | S n =>
      let '(h, rest) := take_hex l in
      if (List.length h =? 0)%nat || (4 <? Z.of_nat (List.length h)) then None
      else match rest with
      | 46 :: _ =>
          if (match ellipsis with None => negb (List.length ip =? 12)%nat | _ => false end)
             || (12 <? Z.of_nat (List.length ip)) then None
          else v4 ← parse_ipv4 (string_of_bytes l); Some (ip ++ v4, ellipsis)
      | _ =>
          let acc := fold_left (fun a v => a * 16 + v) h 0 in
          let ip' := ip ++ [acc / 256; acc mod 256] in
          match rest with
          | [] => Some (ip', ellipsis)
          | c :: r =>
              if negb (c =? 58) then None
              else match r with
              | [] => None
              | d :: r' =>
                  if d =? 58 then
                    match ellipsis with
                    | Some _ => None
                    | None => match r' with
                              | [] => Some (ip', Some (List.length ip'))
                              | _ => ipv6_fields n r' ip' (Some (List.length ip'))
                              end
                    end
                  else ipv6_fields n r ip' ellipsis
              end
          end
      end
  end.

Definition expand_ipv6 (p : list Z * option nat) : option (list Z) :=
  let '(ip, ellipsis) := p in
  let n := List.length ip in
  match ellipsis with
  | None => if (n =? 16)%nat then Some ip else None
  | Some e => if (n <? 16)%nat then Some (firstn e ip ++ repeat 0 (16 - n) ++ skipn e ip) else None
  end.

Definition cut_at (c : ascii) (s : string) : string * option string :=
  match split_at_byte c s with
  | x :: ((_ :: _) as r) => (x, Some (strings_Join r (String c "")))
  | _ => (s, None)
  end.

Definition parse_ipv6 (s : string) : option Addr :=
  let '(body, zone) := cut_at Percent s in
  if bool_decide (zone = Some "") then None
  else
    let z := match zone with Some z => z | None => "" end in
    ip ← match bytes_of body with
         | a :: b :: r =>
             if (a =? 58) && (b =? 58) then
               match r with [] => Some (repeat 0 16) | _ => p ← ipv6_fields 8 r [] (Some 0%nat); expand_ipv6 p end
             else p ← ipv6_fields 8 (bytes_of body) [] None; expand_ipv6 p
         | l => p ← ipv6_fields 8 l [] None; expand_ipv6 p
         end;
    Some (Addr6 ip z).

Definition ParseAddr (s : string) : option Addr :=
  match List.find (fun b => (b =? 46) || (b =? 58) || (b =? 37)) (bytes_of s) with
  | Some 46 => option_map Addr4 (parse_ipv4 s)
  | Some 58 => parse_ipv6 s
  | _ => None
  end.

(** ** Percent encoding *)

Inductive encoding := encodePath | encodeHost | encodeZone.

Definition is_alnum (b : Z) : bool :=
  is_digit b || ((65 <=? b) && (b <=? 90)) || ((97 <=? b) && (b <=? 122)).
(** [shouldEscape(c, encodeHost)]: the host may hold these unescaped. *)
Definition host_literal (b : Z) : bool :=
  is_alnum b || existsb (Z.eqb b) (bytes_of "!$&'()*+,;=:[]<>-_.~") || (b =? 34).

Fixpoint unescape_bytes (fuel : nat) (mode : encoding) (l : list Z) : option (list Z) :=
  match fuel with
  | O => Some []
  | S n =>
      match l with
      | [] => Some []
      | c :: r =>
          if c =? 37 then
            match r with
            | h1 :: h2 :: r' =>
                x ← hex_value h1; y ← hex_value h2;
                let v := 16 * x + y in
                let is25 := (h1 =? 50) && (h2 =? 53) in
                let bad := match mode with
                           | encodePath => false
                           | encodeHost => (x <? 8) && negb is25
                           | encodeZone => negb is25 && negb (v =? 32) && negb (host_literal v)
                           end in
                if bad then None else rest ← unescape_bytes n mode r'; Some (v :: rest)
            | _ => None
            end
          else
            let bad := match mode with encodePath => false | _ => (c <? 128) && negb (host_literal c) end in
            if bad then None else rest ← unescape_bytes n mode r; Some (c :: rest)
      end
  end.
Definition unescape (mode : encoding) (s : string) : option string :=
  l ← unescape_bytes (String.length s) mode (bytes_of s); Some (string_of_bytes l).

(** ** Hosts *)

Definition last_index (c : ascii) (s : string) : option nat :=
  let fix go i s := match s with
                    | EmptyString => None
                    | String d r => match go (S i) r with Some k => Some k | None => if Ascii.eqb c d then Some i else None end
                    end in go 0%nat s.
Fixpoint index_of (fuel : nat) (sub s : string) (i : nat) : option nat :=
  match fuel with
  | O => None
  | S n => if HasPrefix s sub then Some i
           else match s with EmptyString => None | String _ r => index_of n sub r (S i) end
  end.
Definition Index (s sub : string) : option nat := index_of (S (String.length s)) sub s 0.
Definition before (n : nat) (s : string) : string := String.substring 0 n s.

(** The empty string, or a colon and decimal digits. *)
Definition validOptionalPort (port : string) : bool :=
  match bytes_of port with
  | [] => true
  | c :: r => (c =? 58) && forallb is_digit r
  end.
Definition count_byte (c : ascii) (s : string) : nat := List.length (split_at_byte c s) - 1.

Definition parseHost (host : string) : option string :=
  match last_index "["%char host with
  | Some (S _) => None
  | Some O =>
      close ← last_index "]"%char host;
      let colonPort := drop_bytes (S close) host in
      if negb (validOptionalPort colonPort) then None
      else
        port ← unescape encodeHost colonPort;
        let hostname := String.substring 1 (close - 1) host in
        name ← match Index hostname "%25" with
               | Some z => h ← unescape encodeHost (before z hostname);
                           zn ← unescape encodeZone (drop_bytes z hostname); Some (h +:+ zn)
               | None => unescape encodeHost hostname
               end;
        match ParseAddr name with
        | Some (Addr6 _ _) => Some ("[" +:+ name +:+ "]" +:+ port)
        | _ => None
        end
  | None =>
      let ok := match last_index Colon host with
                | Some i => validOptionalPort (drop_bytes i host) && (count_byte Colon host =? 1)%nat
                | None => true
                end in
      if ok then unescape encodeHost host else None
  end.

(** ** URLs *)

Record URL := mkURL {
  u_Scheme : string; u_Opaque : string; u_HasUser : bool; u_Host : string;
  u_Path : string; u_RawQuery : string; u_Fragment : string }.

Definition is_letter (b : Z) : bool := ((65 <=? b) && (b <=? 90)) || ((97 <=? b) && (b <=? 122)).
(** [getScheme]: [None] is an error, [Some ("", s)] no scheme. *)
Fixpoint scheme_length (i : nat) (l : list Z) : option (option nat) :=
  match l with
  | [] => Some None
  | c :: r =>
      if is_letter c then scheme_length (S i) r
      else if is_digit c || existsb (Z.eqb c) (bytes_of "+-.") then
        match i with O => Some None | _ => scheme_length (S i) r end
      else if c =? 58 then match i with O => None | _ => Some (Some i) end
      else Some None
  end.
Definition getScheme (raw : string) : option (string * string) :=
  i ← scheme_length 0 (bytes_of raw);
  match i with
  | Some n => Some (before n raw, drop_bytes (S n) raw)
  | None => Some ("", raw)
  end.

Definition is_ctl (b : Z) : bool := (b <? 32) || (b =? 127).

Definition validUserinfo (s : string) : bool :=
  forallb (fun b => is_alnum b || existsb (Z.eqb b) (bytes_of "-._:~!$&'()*+,;=%@")) (bytes_of s).
(** User information is escaped like a path, and not kept. *)
Definition parse_userinfo (s : string) : option unit :=
  if negb (validUserinfo s) then None
  else
    let '(username, password) := cut_at Colon s in
    _ ← unescape encodePath username;
    match password with None => Some tt | Some p => _ ← unescape encodePath p; Some tt end.
Definition parse_authority (authority : string) : option (bool * string) :=
  match last_index "@"%char authority with
  | Some i =>
      host ← parseHost (drop_bytes (S i) authority);
      _ ← parse_userinfo (before i authority);
      Some (true, host)
  | None => host ← parseHost authority; Some (false, host)
  end.

Definition parse_url (raw : string) : option URL :=
  if existsb is_ctl (bytes_of raw) then None
  else if String.eqb raw "*" then Some (mkURL "" "" false "" "*" "" "")
  else
    '(scheme0, rest0) ← getScheme raw;
    let scheme := ToLower scheme0 in
    let '(rest, query) :=
      if HasSuffix rest0 "?" && (count_byte "?"%char rest0 =? 1)%nat
      then (before (String.length rest0 - 1) rest0, "")
      else let '(a, q) := cut_at "?"%char rest0 in (a, match q with Some q => q | None => "" end) in
    if negb (HasPrefix rest "/") then
      if negb (String.eqb scheme "") then Some (mkURL scheme rest false "" "" query "")
      else if (match split_at_byte "/"%char rest with seg :: _ => negb (count_byte Colon seg =? 0)%nat | [] => false end)
      then None
      else path ← unescape encodePath rest; Some (mkURL "" "" false "" path query "")
    else if (negb (String.eqb scheme "") || negb (HasPrefix rest "///")) && HasPrefix rest "//" then
      let '(authority, path) :=
        match Index (drop_bytes 2 rest) "/" with
        | Some i => (before i (drop_bytes 2 rest), drop_bytes i (drop_bytes 2 rest))
        | None => (drop_bytes 2 rest, "")
        end in
      '(user, host) ← parse_authority authority;
      p ← unescape encodePath path;
      Some (mkURL scheme "" user host p query "")
    else path ← unescape encodePath rest; Some (mkURL scheme "" false "" path query "").

Definition Parse_URL (raw : string) : option URL :=
  let '(u, frag) := cut_at "#"%char raw in
  url ← parse_url u;
  match frag with
  | None | Some "" => Some url
  | Some f =>
      fragment ← unescape encodePath f;
      Some (mkURL (u_Scheme url) (u_Opaque url) (u_HasUser url) (u_Host url) (u_Path url) (u_RawQuery url) fragment)
  end.

(** ** Queries *)

Definition QueryUnescape (s : string) : option string :=
  unescape encodePath (string_of_bytes (map (fun b => if b =? 43 then 32 else b) (bytes_of s))).
Definition has_semicolon (s : string) : bool := existsb (Z.eqb 59) (bytes_of s).
(** [ParseQuery], which skips the pairs it cannot read. *)
Definition parse_pair (pair : string) : list (string * string) :=
  if has_semicolon pair || String.eqb pair "" then []
  else
    let '(key, value) := cut_at "="%char pair in
    match QueryUnescape key, QueryUnescape (default "" value) with
    | Some k, Some v => [(k, v)]
    | _, _ => []
    end.
Definition Query (u : URL) : list (string * string) := flat_map parse_pair (split_at_byte "&"%char (u_RawQuery u)).
Definition query_values (q : list (string * string)) (key : string) : list string :=
  map snd (List.filter (fun kv => String.eqb kv.1 key) q).
Definition query_Has (q : list (string * string)) (key : string) : bool := existsb (fun kv => String.eqb kv.1 key) q.

Definition IsAbs (u : URL) : bool := negb (String.eqb (u_Scheme u) "").

(** [splitHostPort] *)
Definition split_host_port (hostport : string) : string * string :=
  let '(host, port) :=
    match last_index Colon hostport with
    | Some i => if validOptionalPort (drop_bytes i hostport)
                then (before i hostport, drop_bytes (S i) hostport) else (hostport, "")
    | None => (hostport, "")
    end in
  if HasPrefix host "[" && HasSuffix host "]"
  then (String.substring 1 (String.length host - 2) host, port) else (host, port).
Definition Hostname (u : URL) : string := fst (split_host_port (u_Host u)).
Definition Port (u : URL) : string := snd (split_host_port (u_Host u)).

Example urls :
  map (fun s => option_map (fun u => (u_Scheme u, Hostname u, Port u, u_Path u)) (Parse_URL s))
    ["https://MCP.example.com:8443/a/b"; "https://[::1]:443/x"; "https://a:1:2/"; "http://ex%20.com/"; "//h/p"; "mailto:a";
     "https://[fe80::1%25en0]/"] =
  [Some ("https", "MCP.example.com", "8443", "/a/b"); Some ("https", "::1", "443", "/x"); None; None;
   Some ("", "h", "", "/p"); Some ("mailto", "", "", ""); Some ("https", "fe80::1%en0", "", "/")].
Proof. vm_compute. reflexivity. Qed.
Example queries :
  option_map (fun u => (u_HasUser u, u_Host u, Query u))
    (Parse_URL "postgres://app:p%40ss@db:5432/mcp?sslmode=require&a=%zz&sslmode=verify-full&x;y=1&app+name") =
  Some (true, "db:5432", [("sslmode", "require"); ("sslmode", "verify-full"); ("app name", "")]).
Proof. vm_compute. reflexivity. Qed.
