(* ===== verification/UrlText.v ===== *)
(** * UrlText: texts [url.Parse] takes apart at their separators

    A text that does not hold a byte is not split at it, and one built around
    separators is split where it was joined; with bytes that need no escaping
    only, unescaping changes nothing.  A simple URL parses to its parts. *)

From S2P Require Import Prelude GoStrings GoTrim GoJson GoBase64 GoUrl.
From Stdlib Require Import Ascii.

(** ** Splitting *)

Lemma split_none c s : has_byte c s = false -> split_at_byte c s = [s].
Proof.
  induction s as [|d s IH]; cbn; [done|]. intros [Hd Hs]%orb_false_iff. by rewrite Hd, IH.
Qed.
Lemma split_app c s t : has_byte c s = false -> split_at_byte c (s +:+ String c t) = s :: split_at_byte c t.
Proof.
  induction s as [|d s IH]; intros H.
  - change ("" +:+ String c t) with (String c t). cbn [split_at_byte]. by rewrite Ascii.eqb_refl.
  - cbn in H. apply orb_false_iff in H as [Hd Hs]. rewrite append_cons. cbn [split_at_byte]. by rewrite Hd, IH.
Qed.
Lemma cut_none c s : has_byte c s = false -> cut_at c s = (s, None).
Proof. intros H. unfold cut_at. by rewrite split_none. Qed.
Lemma count_none c s : has_byte c s = false -> count_byte c s = 0%nat.
Proof. intros H. unfold count_byte. by rewrite split_none. Qed.

Lemma last_index_none c s : has_byte c s = false -> last_index c s = None.
Proof.
  unfold last_index. generalize 0%nat. induction s as [|d s IH]; intros i; cbn; [done|].
  intros [Hd Hs]%orb_false_iff. by rewrite IH, Ascii.eqb_sym, Hd.
Qed.

(** ** Prefixes *)

Lemma substring_app s t : String.substring 0 (String.length s) (s +:+ t) = s.
Proof. induction s as [|d s IH]; [by destruct t|]. rewrite append_cons. cbn. by rewrite IH. Qed.
Lemma before_app s t : before (String.length s) (s +:+ t) = s.
Proof. apply substring_app. Qed.

Lemma HasPrefix_byte c d s : HasPrefix (String d s) (String c "") = Ascii.eqb c d.
Proof. unfold HasPrefix. cbn. destruct (ascii_dec c d) as [->|Hn]; [by rewrite Ascii.eqb_refl; destruct s|].
  symmetry. by apply Ascii.eqb_neq. Qed.
Lemma index_of_app c s t n i : has_byte c s = false -> (String.length s < n)%nat ->
  index_of n (String c "") (s +:+ String c t) i = Some (i + String.length s)%nat.
Proof.
  revert n i. induction s as [|d s IH]; intros [|n] i H Hn; cbn in Hn; [lia| |lia|].
  - cbn [index_of]. change ("" +:+ String c t) with (String c t). rewrite HasPrefix_byte, Ascii.eqb_refl.
    f_equal. cbn. lia.
  - cbn in H. apply orb_false_iff in H as [Hd Hs]. rewrite append_cons. cbn [index_of].
    rewrite HasPrefix_byte, Ascii.eqb_sym, Hd, IH by (done || lia). f_equal. cbn. lia.
Qed.
Lemma Index_app c s t : has_byte c s = false -> Index (s +:+ String c t) (String c "") = Some (String.length s).
Proof. intros H. unfold Index. rewrite index_of_app; [done..|]. rewrite length_append. cbn. lia. Qed.

Lemma HasSuffix_byte c s : has_byte c s = false -> HasSuffix s (String c "") = false.
Proof.
  intros H. unfold HasSuffix. apply andb_false_intro2, String.eqb_neq. unfold drop_bytes. cbn [String.length].
  generalize (String.length s - 1)%nat as n. intros n E.
  assert (forall m k u, String.substring m k u = String c "" -> has_byte c u = true) as Hs; [|by rewrite (Hs _ _ _ E) in H].
  clear. induction m as [|m IH]; intros k u; destruct u as [|d u]; cbn; destruct k as [|k]; cbn; try done.
  - intros [= -> _]. by rewrite Ascii.eqb_refl.
  - intros Hu%IH. by rewrite Hu, orb_true_r.
  - intros Hu%IH. by rewrite Hu, orb_true_r.
Qed.

(** ** Classes of bytes *)

Definition all_bytes (P : Z -> bool) (s : string) : bool := forallb P (bytes_of s).

Lemma all_bytes_app P s t : all_bytes P (s +:+ t) = all_bytes P s && all_bytes P t.
Proof. unfold all_bytes. by rewrite bytes_of_app, forallb_app. Qed.
Lemma all_bytes_impl P Q s : (forall b, P b = true -> Q b = true) -> all_bytes P s = true -> all_bytes Q s = true.
Proof. intros HPQ. unfold all_bytes. rewrite !forallb_forall. auto. Qed.
Lemma all_bytes_not P c s : P (Z_of_byte c) = false -> all_bytes P s = true -> has_byte c s = false.
Proof.
  intros Hc. induction s as [|d s IH]; cbn; [done|]. intros [Hd Hs]%andb_prop. rewrite IH by done.
  destruct (Ascii.eqb d c) eqn:E; [|done]. apply Ascii.eqb_eq in E as ->. congruence.
Qed.
Lemma all_bytes_exists P Q s : (forall b, P b = true -> Q b = false) -> all_bytes P s = true -> existsb Q (bytes_of s) = false.
Proof.
  intros HPQ. unfold all_bytes. induction (bytes_of s) as [|b l IH]; cbn; [done|]. intros [Hb Hl]%andb_prop.
  by rewrite HPQ, IH.
Qed.

Lemma all_bytes_cons P d s : all_bytes P (String d s) = P (Z_of_byte d) && all_bytes P s.
Proof. done. Qed.
Lemma split_not_nil c s : split_at_byte c s <> [].
Proof. destruct s as [|d s]; cbn; [done|]. destruct (Ascii.eqb d c); [done|]. by destruct (split_at_byte c s). Qed.
Lemma split_bytes P c s : P (Z_of_byte c) = true -> forallb (all_bytes P) (split_at_byte c s) = true -> all_bytes P s = true.
Proof.
  intros Hc. induction s as [|d s IH]; [done|]. cbn [split_at_byte]. rewrite all_bytes_cons. destruct (Ascii.eqb d c) eqn:E.
  - apply Ascii.eqb_eq in E as ->. cbn [forallb]. rewrite Hc. intros [_ H]%andb_prop. auto.
  - pose proof (split_not_nil c s) as Hn. destruct (split_at_byte c s) as [|w ws]; [done|]. cbn [forallb] in IH |- *.
    rewrite all_bytes_cons. intros [[-> Hw]%andb_prop Hws]%andb_prop. rewrite Hw, Hws in IH. auto.
Qed.

(** The bytes of domain labels and their separators. *)
Definition name_byte (b : Z) : bool := is_digit b || ((97 <=? b) && (b <=? 122)) || (b =? 45).
Definition dotted_byte (b : Z) : bool := name_byte b || (b =? 46).
Definition path_byte (b : Z) : bool := name_byte b || (b =? 47).

Lemma dotted_literal b : dotted_byte b = true -> host_literal b = true /\ (b =? 37) = false.
Proof.
  unfold dotted_byte, name_byte, host_literal, is_alnum. intros H. split; [|by destruct (Z.eqb_spec b 37) as [->|]].
  destruct (is_digit b) eqn:Ed; [done|]. destruct ((97 <=? b) && (b <=? 122)) eqn:El; [by rewrite orb_true_r|].
  apply orb_prop in H as [H|H]; [|by apply Z.eqb_eq in H as ->]. cbn in H. by apply Z.eqb_eq in H as ->.
Qed.
Lemma name_dotted b : name_byte b = true -> dotted_byte b = true.
Proof. unfold dotted_byte. by intros ->. Qed.
Lemma name_path b : name_byte b = true -> path_byte b = true.
Proof. unfold path_byte. by intros ->. Qed.
Lemma path_not_percent b : path_byte b = true -> (b =? 37) = false.
Proof. intros H. by destruct (Z.eqb_spec b 37) as [->|]. Qed.

(** Unescaping a text that needs none. *)
Lemma unescape_plain mode (P : Z -> bool) s :
  (forall b, P b = true -> (b =? 37) = false /\ (mode = encodePath \/ host_literal b = true)) ->
  all_bytes P s = true -> unescape mode s = Some s.
Proof.
  intros HP Hs. unfold unescape. rewrite <- bytes_of_length.
  assert (forall l, forallb P l = true -> unescape_bytes (List.length l) mode l = Some l) as ->; [|cbn; by rewrite string_of_bytes_of|done].
  clear s Hs. induction l as [|b l IH]; cbn [forallb List.length unescape_bytes]; [done|]. intros [Hb Hl]%andb_prop.
  destruct (HP _ Hb) as [-> Hm]. rewrite IH by done. cbn.
  destruct mode; [done|destruct Hm as [Hm|Hm]; [done|]..]; by rewrite Hm, andb_false_r.
Qed.

(** ** A simple URL *)

Section Simple.
  Context (host path : string).
  Context (Hhost : all_bytes dotted_byte host = true) (Hpath : all_bytes path_byte path = true).

Definition simple_byte (b : Z) : bool := dotted_byte b || path_byte b.
Lemma simple_dotted b : dotted_byte b = true -> simple_byte b = true.
Proof. unfold simple_byte. by intros ->. Qed.
Lemma simple_path b : path_byte b = true -> simple_byte b = true.
Proof. unfold simple_byte. intros ->. by rewrite orb_true_r. Qed.

Definition simple_rest : string := "//" +:+ host +:+ "/" +:+ path.
Lemma simple_rest_bytes : all_bytes simple_byte simple_rest = true.
Proof.
  unfold simple_rest. rewrite !all_bytes_app. rewrite (all_bytes_impl _ _ _ simple_dotted Hhost).
  by rewrite (all_bytes_impl _ _ _ simple_path Hpath).
Qed.
Lemma simple_rest_not c : simple_byte (Z_of_byte c) = false -> has_byte c simple_rest = false.
Proof. intros H. exact (all_bytes_not _ _ _ H simple_rest_bytes). Qed.

Lemma simple_authority : parse_authority host = Some (false, host).
Proof.
  assert (forall c, dotted_byte (Z_of_byte c) = false -> has_byte c host = false) as Hn
    by (intros c Hc; exact (all_bytes_not _ _ _ Hc Hhost)).
  unfold parse_authority, parseHost. rewrite !last_index_none by (by apply Hn).
  rewrite (unescape_plain encodeHost dotted_byte); [done| |done].
  intros b Hb. destruct (dotted_literal _ Hb). auto.
Qed.
Lemma simple_path_unescaped : unescape encodePath ("/" +:+ path) = Some ("/" +:+ path).
Proof.
  apply (unescape_plain _ path_byte); [intros b Hb; split; [by apply path_not_percent|by left]|].
  by rewrite all_bytes_app, Hpath.
Qed.

Lemma simple_query : HasSuffix simple_rest "?" = false /\ cut_at "?"%char simple_rest = (simple_rest, None).
Proof. split; [apply HasSuffix_byte|apply cut_none]; by apply simple_rest_not. Qed.

Lemma simple_index : Index (host +:+ "/" +:+ path) "/" = Some (String.length host).
Proof. apply (Index_app "/"%char). exact (all_bytes_not _ _ _ (eq_refl : dotted_byte (Z_of_byte "/"%char) = false) Hhost). Qed.

Lemma simple_url (scheme : string) : scheme <> "" -> ToLower scheme = scheme ->
  getScheme (scheme +:+ ":" +:+ simple_rest) = Some (scheme, simple_rest) -> all_bytes name_byte scheme = true ->
  Parse_URL (scheme +:+ ":" +:+ simple_rest) = Some (mkURL scheme "" false host ("/" +:+ path) "" "").
Proof.
  intros Hn Hl Hs Hb. set (raw := scheme +:+ ":" +:+ simple_rest) in *.
  assert (all_bytes (fun b => simple_byte b || (b =? 58)) raw = true) as Hr.
  { unfold raw. rewrite !all_bytes_app. rewrite (all_bytes_impl _ (fun b => simple_byte b || (b =? 58)) _ (fun b H => orb_true_intro _ _
      (or_introl (simple_dotted _ (name_dotted _ H)))) Hb). cbn [andb].
    exact (all_bytes_impl _ _ _ (fun b H => orb_true_intro _ _ (or_introl H)) simple_rest_bytes). }
  unfold Parse_URL. rewrite cut_none by (apply (all_bytes_not _ _ _ (eq_refl : (fun b => simple_byte b || (b =? 58)) (Z_of_byte "#"%char) = false) Hr)).
  enough (parse_url raw = Some (mkURL scheme "" false host ("/" +:+ path) "" "")) as -> by done.
  unfold parse_url. rewrite (all_bytes_exists (fun b => simple_byte b || (b =? 58)) is_ctl _); [| |exact Hr].
  2: { intros b. unfold simple_byte, dotted_byte, path_byte, name_byte, is_ctl, is_digit. intros H.
       apply orb_false_iff. split; [apply Z.ltb_ge|apply Z.eqb_neq]; lia. }
  replace (String.eqb raw "*") with false.
  2: { symmetry. apply String.eqb_neq. intros E. rewrite E in Hr. done. }
  rewrite Hs. cbn [mbind option_bind]. rewrite Hl. destruct simple_query as [-> ->]. cbn [andb].
  assert (HasPrefix simple_rest "/" = true /\ HasPrefix simple_rest "//" = true) as [-> ->] by (unfold simple_rest, HasPrefix; split; [by destruct host|by destruct host]). cbn [negb].
  rewrite (proj2 (String.eqb_neq _ _) Hn). cbn [negb orb andb].
  change (drop_bytes 2 simple_rest) with (drop_bytes (String.length "//") ("//" +:+ (host +:+ "/" +:+ path))).
  rewrite drop_bytes_app, simple_index. rewrite before_app, drop_bytes_app, simple_authority. cbn.
  change (String "/" path) with ("/" +:+ path). by rewrite simple_path_unescaped.
Qed.

End Simple.
