(* ===== verification/GoScan.v ===== *)
(** * GoScan: [fmt.Sscanf] with the two formats the program uses

    ["%d"] into a [uint64] and ["%s %d"] into a string and an [int64].  A verb
    skips the white space before it, a new line is refused, a word is read
    rune by rune (an invalid byte becomes the replacement rune), and what
    follows the last verb is not looked at. *)

From S2P Require Import Prelude GoStrings GoTrim GoJson GoBase64 GoUrl UrlText.
From Stdlib Require Import Ascii.

(** [SkipSpace]; [None]: a new line. *)
Fixpoint skip_space (fuel : nat) (l : list Z) : option (list Z) :=
  match fuel with
  | O => Some l
  | S n =>
      match space_bytes l with
      | O => Some l
      | k => if (match l with b :: _ => b =? 10 | [] => false end) then None else skip_space n (skipn k l)
      end
  end.
Definition SkipSpace (l : list Z) : option (list Z) := skip_space (List.length l) l.

(** The runes up to the next white space. *)
Fixpoint take_word (fuel : nat) (l : list Z) : list Z * list Z :=
  match fuel with
  | O => ([], l)
  | S n =>
      match l with
      | [] => ([], [])
      | _ => if negb (space_bytes l =? 0)%nat then ([], l)
             else let '(r, k) := decode_rune l in
                  let '(w, rest) := take_word n (skipn k l) in (encode_rune r ++ w, rest)
      end
  end.

(** [scanNumber] and [ParseUint] of its digits. *)
Definition digits_value (d : list Z) : Z := fold_left (fun a b => a * 10 + (b - 48)) d 0.
Definition scan_uint (l : list Z) : option (Z * list Z) :=
  l ← SkipSpace l;
  let '(d, rest) := take_digits l in
  match d with
  | [] => None
  | _ => let v := digits_value d in if v <? 2 ^ 64 then Some (v, rest) else None
  end.
Definition scan_int (l : list Z) : option (Z * list Z) :=
  l ← SkipSpace l;
  let '(neg, l) := match l with 45 :: r => (true, r) | 43 :: r => (false, r) | _ => (false, l) end in
  let '(d, rest) := take_digits l in
  match d with
  | [] => None
  | _ => let v := digits_value d in
         if neg then (if v <=? 2 ^ 63 then Some (- v, rest) else None)
         else (if v <? 2 ^ 63 then Some (v, rest) else None)
  end.

(** [Sscanf(s, "%d", &u)] *)
Definition Sscanf_uint (s : string) : option Z := option_map fst (scan_uint (bytes_of s)).
(** [Sscanf(s, "%s %d", &w, &n)]: the space of the format wants one. *)
Definition Sscanf_word_int (s : string) : option (string * Z) :=
  l ← SkipSpace (bytes_of s);
  match l with
  | [] => None
  | _ =>
      let '(w, rest) := take_word (List.length l) l in
      rest ← SkipSpace rest;
      '(n, _) ← scan_int rest;
      Some (string_of_bytes w, n)
  end.

Example scans :
  map Sscanf_uint ["7"; " 7x"; "+7"; ""; "18446744073709551615"; "18446744073709551616"; "007"] =
    [Some 7; Some 7; None; None; Some 18446744073709551615; None; Some 7] /\
  map Sscanf_word_int ["srv-1 4"; "srv-1  -4 z"; "srv-1"; "srv-1 "] = [Some ("srv-1", 4); Some ("srv-1", -4); None; None].
Proof. split; vm_compute; reflexivity. Qed.

(** ** What [Sprintf] wrote is read back *)

(** Visible ASCII. *)
Definition word_byte (b : Z) : bool := (33 <=? b) && (b <? 127).

Lemma word_no_space b l : word_byte b = true -> space_bytes (b :: l) = 0%nat.
Proof.
  unfold word_byte, space_bytes, space3. intros H.
  replace (((9 <=? b) && (b <=? 13)) || (b =? 32)) with false by (symmetry; apply orb_false_iff; split; [apply andb_false_iff|apply Z.eqb_neq]; lia).
  destruct l as [|b2 l]; [done|].
  replace (b =? 194) with false by (symmetry; apply Z.eqb_neq; lia). cbn [andb]. destruct l as [|b3 l]; [done|].
  by replace (b =? 225) with false by (symmetry; apply Z.eqb_neq; lia);
    replace (b =? 226) with false by (symmetry; apply Z.eqb_neq; lia);
    replace (b =? 227) with false by (symmetry; apply Z.eqb_neq; lia).
Qed.
Lemma SkipSpace_word b l : word_byte b = true -> SkipSpace (b :: l) = Some (b :: l).
Proof. intros H. unfold SkipSpace. cbn [List.length skip_space]. by rewrite word_no_space. Qed.
Lemma SkipSpace_blank b l : word_byte b = true -> SkipSpace (32 :: b :: l) = Some (b :: l).
Proof. intros H. unfold SkipSpace. cbn -[space_bytes]. change (space_bytes (32 :: b :: l)) with 1%nat. cbn -[space_bytes]. by rewrite word_no_space. Qed.

Lemma take_word_blank fuel w l : forallb word_byte w = true -> (List.length w < fuel)%nat ->
  take_word fuel (w ++ 32 :: l) = (w, 32 :: l).
Proof.
  revert fuel. induction w as [|b w IH]; intros [|fuel] Hw Hf; cbn in Hf; try lia; [done|].
  cbn in Hw. apply andb_prop in Hw as [Hb Hw]. cbn [app take_word]. rewrite word_no_space by done. cbn [Nat.eqb negb].
  unfold decode_rune. unfold word_byte in Hb. replace (b <? 128) with true by (symmetry; apply Z.ltb_lt; lia).
  cbn [skipn drop]. rewrite IH by (done || lia). unfold encode_rune.
  by replace (b <? 128) with true by (symmetry; apply Z.ltb_lt; lia).
Qed.

Lemma take_digits_all d : forallb is_digit d = true -> take_digits d = (d, []).
Proof. induction d as [|b d IH]; cbn; [done|]. intros [Hb Hd]%andb_prop. by rewrite Hb, IH. Qed.

(** ** Decimal digits *)

Definition add_digit (a b : Z) : Z := a * 10 + (b - 48).
Lemma digit_char n : (n < 10)%N -> is_digit (Z_of_byte (pretty_N_char n)) = true /\ Z_of_byte (pretty_N_char n) - 48 = Z.of_N n.
Proof.
  intros H. destruct n as [|p]; [done|].
  do 3 (destruct p as [p|p|]; try done); destruct p; try done; lia.
Qed.

Lemma pretty_N_go_value n s :
  fold_left add_digit (bytes_of (pretty_N_go n s)) 0 = fold_left add_digit (bytes_of s) (Z.of_N n) /\
  (forallb is_digit (bytes_of s) = true -> forallb is_digit (bytes_of (pretty_N_go n s)) = true).
Proof.
  revert s. induction (N.lt_wf_0 n) as [n _ IH]. intros s. destruct (decide (n = 0)%N) as [->|Hn]; [by rewrite pretty_N_go_0|].
  rewrite pretty_N_go_step by lia. destruct (IH (n `div` 10)%N) with (s := String (pretty_N_char (n `mod` 10)) s) as [-> Hd];
    [by apply N.div_lt; lia|].
  destruct (digit_char (n `mod` 10)) as [Hc Hv]; [by apply N.mod_lt|]. split.
  - cbn [bytes_of fold_left]. unfold add_digit at 2. rewrite Hv. f_equal. rewrite N2Z.inj_div, N2Z.inj_mod. pose proof (Z.div_mod (Z.of_N n) 10). lia.
  - intros Hs. apply Hd. cbn [bytes_of forallb]. by rewrite Hc.
Qed.
Lemma pretty_N_go_longer n s : (String.length s <= String.length (pretty_N_go n s))%nat.
Proof.
  revert s. induction (N.lt_wf_0 n) as [n _ IH]. intros s. destruct (decide (n = 0)%N) as [->|Hn]; [by rewrite pretty_N_go_0|].
  rewrite pretty_N_go_step by lia. etrans; [|apply IH; by apply N.div_lt; lia]. cbn. lia.
Qed.

(** The digits of a number: not none, and its value. *)
Lemma format_digits z : 0 <= z ->
  forallb is_digit (bytes_of (format_int z)) = true /\ digits_value (bytes_of (format_int z)) = z /\ bytes_of (format_int z) <> [].
Proof.
  intros Hz. unfold format_int, pretty, pretty_Z. destruct z as [|p|p]; [by vm_compute| |lia].
  change (pretty p) with (pretty (N.pos p)). unfold pretty, pretty_N. rewrite decide_False by done.
  pose proof (pretty_N_go_value (N.pos p) "") as [Hv Hd]. split_and!; [by apply Hd|exact Hv|].
  intros E. apply (f_equal (@List.length Z)) in E. rewrite bytes_of_length in E. rewrite pretty_N_go_step in E by done.
  pose proof (pretty_N_go_longer (N.pos p `div` 10) (String (pretty_N_char (N.pos p `mod` 10)) "")). cbn in *. lia.
Qed.

Lemma parse_digits_value acc s : forallb is_digit (bytes_of s) = true -> parse_digits acc s = Some (fold_left add_digit (bytes_of s) acc).
Proof. revert acc. induction s as [|c s IH]; intros acc; cbn; [done|]. unfold is_digit. intros [-> Hs]%andb_prop. by apply IH. Qed.

Lemma ParseUint_format z : is_u64 z -> ParseUint (format_int z) = Some z.
Proof.
  intros [Hz Hlt]. destruct (format_digits z Hz) as (Hd & Hv & Hn). unfold ParseUint.
  destruct (format_int z) as [|c s] eqn:E; [done|]. rewrite parse_digits_value by done. unfold digits_value in Hv. fold add_digit in Hv.
  change (fold_left (λ a b : Z, a * 10 + (b - 48)) _ 0) with (fold_left add_digit (bytes_of (String c s)) 0) in Hv.
  rewrite Hv. by rewrite (proj2 (Z.ltb_lt _ _)).
Qed.

Lemma digit_word b : is_digit b = true -> word_byte b = true.
Proof. unfold is_digit, word_byte. lia. Qed.
Lemma scan_int_format z : 0 <= z < 2 ^ 63 -> scan_int (bytes_of (format_int z)) = Some (z, []).
Proof.
  intros Hz. destruct (format_digits z) as (Hd & Hv & Hn); [lia|]. destruct (bytes_of (format_int z)) as [|b l] eqn:E; [done|].
  pose proof Hd as Hd'. cbn in Hd'. apply andb_prop in Hd' as [Hb _].
  unfold scan_int. rewrite SkipSpace_word by (by apply digit_word). cbn [mbind option_bind].
  assert ((match b :: l with 45 :: r => (true, r) | 43 :: r => (false, r) | _ => (false, b :: l) end) = (false, b :: l)) as ->.
  { unfold is_digit in Hb. repeat (destruct b as [|b|b]; try done). }
  rewrite take_digits_all by done. rewrite Hv. by rewrite (proj2 (Z.ltb_lt _ _)) by lia.
Qed.
Lemma scan_uint_format z : is_u64 z -> Sscanf_uint (format_int z) = Some z.
Proof.
  intros [Hz Hlt]. destruct (format_digits z Hz) as (Hd & Hv & Hn). unfold Sscanf_uint.
  destruct (bytes_of (format_int z)) as [|b l] eqn:E; [done|]. pose proof Hd as Hd'. cbn in Hd'. apply andb_prop in Hd' as [Hb _].
  unfold scan_uint. rewrite SkipSpace_word by (by apply digit_word). cbn [mbind option_bind].
  rewrite take_digits_all by done. rewrite Hv. by rewrite (proj2 (Z.ltb_lt _ _)).
Qed.

(** The cursor of a page: a word, a blank and a number. *)
Lemma Sscanf_word_int_format w z : w <> "" -> all_bytes word_byte w = true -> 0 <= z < 2 ^ 63 ->
  Sscanf_word_int (w +:+ " " +:+ format_int z) = Some (w, z).
Proof.
  intros Hn Hw Hz. unfold Sscanf_word_int. rewrite !bytes_of_app. change (bytes_of " ") with [32]. cbn [app].
  rewrite <- (string_of_bytes_of w) at 2. unfold all_bytes in Hw. destruct (bytes_of w) as [|b l] eqn:E.
  { destruct w; [done|]. by cbn in E. }
  pose proof Hw as Hw'. cbn in Hw'. apply andb_prop in Hw' as [Hb _]. cbn [app]. rewrite SkipSpace_word by done. cbn [mbind option_bind].
  change (b :: l ++ 32 :: bytes_of (format_int z)) with ((b :: l) ++ 32 :: bytes_of (format_int z)).
  rewrite take_word_blank; [|done|rewrite length_app; cbn; lia].
  destruct (format_digits z) as (Hd & _ & Hne); [lia|]. pose proof (scan_int_format z Hz) as Hs.
  destruct (bytes_of (format_int z)) as [|c r] eqn:Ez; [done|]. cbn in Hd. apply andb_prop in Hd as [Hc _].
  rewrite SkipSpace_blank by (by apply digit_word). cbn [mbind option_bind]. by rewrite Hs.
Qed.
