(* ===== verification/JsonText.v ===== *)
(** * JsonText: what [Marshal] writes is what the parser reads

    The laws of [GoJson]: strings of valid UTF-8 survive quoting, and every
    value of such strings and of number literals is read back as itself. *)

From S2P Require Import Prelude GoStrings GoTrim GoCrypto GoJson GoBase64 GoUrl UrlText GoScan.
From Stdlib Require Import Ascii.

(** ** UTF-8 *)

(** The encoding of a rune above ASCII: decoded as itself whatever follows. *)
Record rune_bytes (c : list Z) (r : Z) : Prop := {
  rb_decode : forall x, decode_rune (c ++ x) = (r, List.length c);
  rb_encode : encode_rune r = c;
  rb_high : Forall (fun b => 128 <= b < 256) c;
  rb_long : (2 <= List.length c)%nat;
  rb_tail : Forall (fun b => 128 <= b < 192) (tail c) }.
Inductive utf8 : list Z -> Prop :=
| utf8_nil : utf8 []
| utf8_ascii b l : 0 <= b < 128 -> utf8 l -> utf8 (b :: l)
| utf8_rune c r l : rune_bytes c r -> utf8 l -> utf8 (c ++ l).

(** [utf8.ValidString] *)
Fixpoint valid_utf8 (fuel : nat) (l : list Z) : bool :=
  match fuel, l with
  | _, [] => true
  | S n, _ :: _ =>
      let '(r, k) := decode_rune l in negb ((r =? RuneError) && (k =? 1)%nat) && valid_utf8 n (skipn k l)
  | O, _ => false
  end.
Definition ValidString (s : string) : bool := valid_utf8 (String.length s) (bytes_of s).

Lemma land_mask b n : 0 <= n -> Z.land b (2 ^ n - 1) = b mod 2 ^ n.
Proof. intros Hn. rewrite <- Z.land_ones by done. f_equal. rewrite Z.ones_equiv. lia. Qed.
Lemma land_masks b : Z.land b 31 = b mod 32 /\ Z.land b 15 = b mod 16 /\ Z.land b 7 = b mod 8 /\ Z.land b 63 = b mod 64.
Proof. split_and!; [apply (land_mask b 5)|apply (land_mask b 4)|apply (land_mask b 3)|apply (land_mask b 6)]; lia. Qed.

Lemma encode2 a c : 2 <= a < 32 -> 0 <= c < 64 -> encode_rune (a * 64 + c) = [192 + a; 128 + c].
Proof.
  intros Ha Hc. unfold encode_rune. rewrite (proj2 (Z.ltb_ge _ 128)), (proj2 (Z.ltb_lt _ 2048)) by lia.
  rewrite <- (Z.div_unique (a * 64 + c) 64 a c) by lia. rewrite <- (Z.mod_unique (a * 64 + c) 64 a c) by lia. done.
Qed.
Lemma encode3 a b c : 0 <= a < 16 -> 0 <= b < 64 -> 0 <= c < 64 -> 2048 <= (a * 64 + b) * 64 + c ->
  encode_rune ((a * 64 + b) * 64 + c) = [224 + a; 128 + b; 128 + c].
Proof.
  intros Ha Hb Hc Hlo. unfold encode_rune. rewrite !(proj2 (Z.ltb_ge _ _)) by lia. rewrite (proj2 (Z.ltb_lt _ 65536)) by lia.
  rewrite <- (Z.div_unique ((a * 64 + b) * 64 + c) 4096 a (b * 64 + c)) by lia.
  rewrite <- (Z.div_unique ((a * 64 + b) * 64 + c) 64 (a * 64 + b) c) by lia.
  rewrite <- (Z.mod_unique ((a * 64 + b) * 64 + c) 64 (a * 64 + b) c) by lia.
  rewrite <- (Z.mod_unique (a * 64 + b) 64 a b) by lia. done.
Qed.
Lemma encode4 a b c d : 0 <= a < 8 -> 0 <= b < 64 -> 0 <= c < 64 -> 0 <= d < 64 -> 65536 <= ((a * 64 + b) * 64 + c) * 64 + d ->
  encode_rune (((a * 64 + b) * 64 + c) * 64 + d) = [240 + a; 128 + b; 128 + c; 128 + d].
Proof.
  intros Ha Hb Hc Hd Hlo. unfold encode_rune. rewrite !(proj2 (Z.ltb_ge _ _)) by lia.
  set (z := ((a * 64 + b) * 64 + c) * 64 + d).
  rewrite <- (Z.div_unique z 262144 a ((b * 64 + c) * 64 + d)) by (unfold z; lia).
  rewrite <- (Z.div_unique z 4096 (a * 64 + b) (c * 64 + d)) by (unfold z; lia).
  rewrite <- (Z.div_unique z 64 ((a * 64 + b) * 64 + c) d) by (unfold z; lia).
  rewrite <- (Z.mod_unique z 64 ((a * 64 + b) * 64 + c) d) by (unfold z; lia).
  rewrite <- (Z.mod_unique (a * 64 + b) 64 a b), <- (Z.mod_unique ((a * 64 + b) * 64 + c) 64 (a * 64 + b) c) by lia. done.
Qed.

Lemma low_bits b m q : m * q <= b < m * (q + 1) -> b mod m = b - m * q.
Proof. intros H. symmetry. apply (Z.mod_unique _ _ q); lia. Qed.
Lemma cont_bits b : is_cont b = true -> Z.land b 63 = b - 128 /\ 0 <= b - 128 < 64.
Proof. unfold is_cont. intros H. destruct (land_masks b) as (_ & _ & _ & ->). rewrite (low_bits b 64 2) by lia. lia. Qed.

(** What [decode_rune] reads above ASCII, the error apart, is an encoding. *)
Lemma decode_rune_bytes b l r k : Forall is_byte (b :: l) -> 128 <= b -> decode_rune (b :: l) = (r, k) -> (r, k) <> (RuneError, 1%nat) ->
  exists c x, b :: l = c ++ x /\ List.length c = k /\ rune_bytes c r.
Proof.
  intros Hb Hge Hd Hne. cbn [decode_rune] in Hd. rewrite (proj2 (Z.ltb_ge b 128)) in Hd by done.
  destruct (land_masks b) as (M31 & M15 & M7 & _).
  assert (Hhi : forall c, is_cont c = true -> 128 <= c < 256) by (unfold is_cont; lia).
  destruct ((194 <=? b) && (b <? 224)) eqn:E2.
  { destruct l as [|b1 x]; [congruence|]. destruct (is_cont b1) eqn:C1; [|congruence]. injection Hd as <- <-.
    exists [b; b1], x. split_and!; [done..|]. destruct (cont_bits b1 C1) as [A1 B1]. split.
    - intros y. cbn [app decode_rune]. by rewrite (proj2 (Z.ltb_ge b 128)), E2, C1 by done.
    - rewrite M31, A1, (low_bits b 32 6) by lia. rewrite encode2 by lia. repeat f_equal; lia.
    - repeat constructor; try lia; by apply Hhi.
    - done.
    - repeat constructor; unfold is_cont in *; lia. }
  destruct ((224 <=? b) && (b <? 240)) eqn:E3.
  { destruct l as [|b1 [|b2 x]]; [congruence..|]. destruct (_ && _) eqn:C in Hd; [|congruence]. injection Hd as <- <-.
    exists [b; b1; b2], x. split_and!; [done..|]. pose proof C as C'. apply andb_true_iff in C' as [C1 C2].
    assert (is_cont b1 = true) as C1' by (unfold is_cont; destruct (b =? 224), (b =? 237); lia).
    destruct (cont_bits b1 C1') as [A1 B1], (cont_bits b2 C2) as [A2 B2]. split.
    - intros y. cbn [app decode_rune]. by rewrite (proj2 (Z.ltb_ge b 128)), E2, E3, C by done.
    - rewrite M15, A1, A2, (low_bits b 16 14) by lia. rewrite encode3 by (destruct (Z.eqb_spec b 224); lia). repeat f_equal; lia.
    - repeat constructor; try lia; by apply Hhi.
    - cbn. lia.
    - repeat constructor; unfold is_cont in *; lia. }
  destruct ((240 <=? b) && (b <? 245)) eqn:E4; [|congruence].
  destruct l as [|b1 [|b2 [|b3 x]]]; [congruence..|]. destruct (_ && _) eqn:C in Hd; [|congruence]. injection Hd as <- <-.
  exists [b; b1; b2; b3], x. split_and!; [done..|]. pose proof C as C'. apply andb_true_iff in C' as [[C1 C2]%andb_true_iff C3].
  assert (is_cont b1 = true) as C1' by (unfold is_cont; destruct (b =? 240), (b =? 244); lia).
  destruct (cont_bits b1 C1') as [A1 B1], (cont_bits b2 C2) as [A2 B2], (cont_bits b3 C3) as [A3 B3]. split.
  - intros y. cbn [app decode_rune]. by rewrite (proj2 (Z.ltb_ge b 128)), E2, E3, E4, C by done.
  - rewrite M7, A1, A2, A3, (low_bits b 8 30) by lia. rewrite encode4 by (destruct (Z.eqb_spec b 240); lia). repeat f_equal; lia.
  - repeat constructor; try lia; by apply Hhi.
  - cbn. lia.
  - repeat constructor; unfold is_cont in *; lia.
Qed.

Lemma valid_utf8_spec n : forall l, Forall is_byte l -> valid_utf8 n l = true -> utf8 l.
Proof.
  induction n as [|n IH]; intros [|b l] Hb H; [constructor|done|constructor|].
  cbn [valid_utf8] in H. destruct (decode_rune (b :: l)) as [r k] eqn:Ed. apply andb_true_iff in H as [Hok Hv].
  assert (Hrec : forall c x, b :: l = c ++ x -> List.length c = k -> utf8 x).
  { intros c x E <-. rewrite E in Hv, Hb. rewrite drop_app_length in Hv. apply IH; [by apply Forall_app in Hb as [_ ?]|done]. }
  destruct (Z.ltb_spec b 128).
  - apply Forall_cons in Hb as [Hb _]. unfold is_byte in Hb. cbn [decode_rune] in Ed. rewrite (proj2 (Z.ltb_lt b 128)) in Ed by done.
    injection Ed as <- <-. apply utf8_ascii; [lia|]. by apply (Hrec [b]).
  - destruct (decode_rune_bytes b l r k) as (c & x & E & Hc & Hr); [done..| |].
    { intros [= -> ->]. by rewrite (proj2 (Z.eqb_eq RuneError RuneError)) in Hok. }
    rewrite E. apply (utf8_rune _ r); [done|]. by apply (Hrec c).
Qed.
Lemma ValidString_utf8 s : ValidString s = true -> utf8 (bytes_of s).
Proof. apply valid_utf8_spec, bytes_of_bytes. Qed.

(** ** Quoted strings *)

(** The escape of a byte below 128, as [escape_string] writes it. *)
Definition ascii_escape (b : Z) : list Z :=
  if (b =? 34) || (b =? 92) then [92; b]
  else if b =? 8 then [92; 98] else if b =? 12 then [92; 102]
  else if b =? 10 then [92; 110] else if b =? 13 then [92; 114]
  else if b =? 9 then [92; 116]
  else if (b <? 32) || (b =? 60) || (b =? 62) || (b =? 38)
       then [92; 117; 48; 48] ++ bytes_of (hex_EncodeToString [b])
  else [b].
Definition rune_escape (c : list Z) (r : Z) : list Z :=
  if r =? 8232 then bytes_of "\u2028" else if r =? 8233 then bytes_of "\u2029" else c.
Definition simple_escape (e : Z) : Z :=
  if e =? 98 then 8 else if e =? 102 then 12 else if e =? 110 then 10 else if e =? 114 then 13 else if e =? 116 then 9 else e.

(** The three shapes of an escape, and what they stand for. *)
Inductive escape_of : Z -> list Z -> Prop :=
| eo_plain b : 32 <= b < 128 -> b <> 34 -> b <> 92 -> b <> 60 -> b <> 62 -> b <> 38 -> escape_of b [b]
| eo_simple b e : In e [98; 102; 110; 114; 116; 92; 34] -> simple_escape e = b -> escape_of b [92; e]
| eo_hex b x y v w : hex_value x = Some v -> hex_value y = Some w -> b = v * 16 + w -> 0 <= b < 128 -> 48 <= x < 128 -> 48 <= y < 128 ->
    x <> 60 -> x <> 62 -> y <> 60 -> y <> 62 -> escape_of b [92; 117; 48; 48; x; y].
Lemma hex_digit_value z : 0 <= z < 16 ->
  let x := Z_of_byte (hex_digit z) in hex_value x = Some z /\ 48 <= x < 128 /\ x <> 60 /\ x <> 62.
Proof.
  intros Hz. assert (In z (map Z.of_nat (seq 0 16))) as Hin.
  { apply in_map_iff. exists (Z.to_nat z). split; [lia|]. apply in_seq. lia. }
  cbn in Hin. decompose [or] Hin; subst; try done; by vm_compute.
Qed.
Lemma ascii_escape_of b : 0 <= b < 128 -> escape_of b (ascii_escape b).
Proof.
  intros Hb. unfold ascii_escape.
  destruct ((b =? 34) || (b =? 92)) eqn:E0; [apply eo_simple; [|]; apply orb_true_iff in E0 as [E0|E0]; apply Z.eqb_eq in E0 as ->; cbn; auto 10|].
  destruct (Z.eqb_spec b 8) as [->|]; [apply eo_simple; cbn; auto 10|]. destruct (Z.eqb_spec b 12) as [->|]; [apply eo_simple; cbn; auto 10|].
  destruct (Z.eqb_spec b 10) as [->|]; [apply eo_simple; cbn; auto 10|]. destruct (Z.eqb_spec b 13) as [->|]; [apply eo_simple; cbn; auto 10|].
  destruct (Z.eqb_spec b 9) as [->|]; [apply eo_simple; cbn; auto 10|].
  destruct ((b <? 32) || _ || _ || _) eqn:E1; [|apply eo_plain; lia].
  cbn [hex_EncodeToString bytes_of app].
  assert (0 <= b / 16 < 16 /\ 0 <= b mod 16 < 16) as [H1 H2] by (split; [split; [by apply Z.div_pos; lia|by apply Z.div_lt_upper_bound; lia]|by apply Z.mod_pos_bound]).
  destruct (hex_digit_value _ H1) as (V1 & R1 & N1 & N1'), (hex_digit_value _ H2) as (V2 & R2 & N2 & N2').
  eapply eo_hex; [exact V1|exact V2| |done..]. pose proof (Z.div_mod b 16). lia.
Qed.
Lemma escape_ascii n b l : 0 <= b < 128 -> escape_string (S n) (b :: l) = ascii_escape b ++ escape_string n l.
Proof. intros Hb. cbn [escape_string]. by rewrite (proj2 (Z.ltb_lt b 128)) by lia. Qed.
Lemma escape_rune n c r l : rune_bytes c r -> escape_string (S n) (c ++ l) = rune_escape c r ++ escape_string n l.
Proof.
  intros [Hd _ Hh Hl _]. specialize (Hd l). destruct c as [|b c]; [cbn in Hl; lia|]. apply Forall_cons in Hh as [Hb _].
  cbn [app escape_string]. cbn [app] in Hd. rewrite (proj2 (Z.ltb_ge b 128)), Hd by lia. unfold rune_escape.
  assert ((List.length (b :: c) =? 1)%nat = false) as -> by (apply Nat.eqb_neq; cbn in *; lia). rewrite andb_false_r.
  change (b :: c ++ l) with ((b :: c) ++ l). rewrite drop_app_length, take_app_length. by repeat case_match.
Qed.

(** *** Scanning *)

Lemma scan_plain c x : Forall (fun b => 32 <= b /\ b <> 34 /\ b <> 92) c ->
  scan_string 0 (c ++ x) = ('(s, rest) ← scan_string 0 x; Some (c ++ s, rest)).
Proof.
  induction 1 as [|b c (H1 & H2 & H3) _ IH]; [cbn [app]; by destruct (scan_string 0 x) as [[? ?]|]|].
  cbn [app scan_string]. rewrite (proj2 (Z.eqb_neq b 34)), (proj2 (Z.eqb_neq b 92)), (proj2 (Z.ltb_ge b 32)), IH by lia.
  by destruct (scan_string 0 x) as [[? ?]|].
Qed.
Lemma scan_escape b e x : escape_of b e -> scan_string 0 (e ++ x) = ('(s, rest) ← scan_string 0 x; Some (e ++ s, rest)).
Proof.
  destruct 1 as [b Hb H1 H2 _ _ _|b e Hin _|b h1 h2 v w Hv Hw _ _ _ _ _ _ _ _].
  - apply scan_plain. repeat constructor; lia.
  - cbn in Hin. decompose [or] Hin; subst; try done; cbn; by destruct (scan_string 0 x) as [[? ?]|].
  - cbn [app scan_string Z.eqb Pos.eqb]. cbn [List.length Nat.leb firstn forallb].
    rewrite Hv, Hw. cbn. by destruct (scan_string 0 x) as [[? ?]|].
Qed.
Lemma scan_rune_escape c r x : rune_bytes c r -> scan_string 0 (rune_escape c r ++ x) = ('(s, rest) ← scan_string 0 x; Some (rune_escape c r ++ s, rest)).
Proof.
  intros [_ _ Hh _ _]. unfold rune_escape. repeat case_match; [cbn; by destruct (scan_string 0 x) as [[? ?]|]..|].
  apply scan_plain. eapply Forall_impl; [exact Hh|]. cbn. lia.
Qed.
Lemma scan_escaped l rest n : utf8 l -> (List.length l <= n)%nat ->
  scan_string 0 (escape_string n l ++ 34 :: rest) = Some (escape_string n l, rest).
Proof.
  intros Hu. revert n. induction Hu as [|b l Hb _ IH|c r l Hr _ IH]; intros n Hn; [by destruct n| |].
  - destruct n as [|n]; [cbn in Hn; lia|]. cbn in Hn. rewrite escape_ascii, <- app_assoc by done.
    rewrite (scan_escape b) by by apply ascii_escape_of. by rewrite IH by lia.
  - rewrite length_app in Hn. pose proof (rb_long _ _ Hr). destruct n as [|n]; [lia|].
    rewrite (escape_rune _ _ r), <- app_assoc by done. rewrite scan_rune_escape by done. by rewrite IH by lia.
Qed.

(** *** Unquoting *)

Lemma unquote_plain n b r : b <> 92 -> 0 <= b < 128 -> unquote (S n) (b :: r) = b :: unquote n r.
Proof.
  intros Hb Hr. assert (unquote (S n) (b :: r) = if b <? 128 then b :: unquote n r
    else let '(rune, k) := decode_rune (b :: r) in encode_rune rune ++ unquote n (skipn k (b :: r))) as ->.
  { destruct b as [|p|p]; try reflexivity. do 7 (destruct p as [p|p|]; try reflexivity). done. }
  by rewrite (proj2 (Z.ltb_lt b 128)) by lia.
Qed.
Lemma unquote_rune n c r l : rune_bytes c r -> unquote (S n) (c ++ l) = c ++ unquote n l.
Proof.
  intros [Hd He Hh Hl _]. specialize (Hd l). destruct c as [|b c]; [cbn in Hl; lia|]. apply Forall_cons in Hh as [Hb _].
  cbn [app]. cbn [app] in Hd. assert (unquote (S n) (b :: c ++ l) = if b <? 128 then b :: unquote n (c ++ l)
    else let '(rune, k) := decode_rune (b :: c ++ l) in encode_rune rune ++ unquote n (skipn k (b :: c ++ l))) as ->.
  { destruct b as [|p|p]; try reflexivity. do 7 (destruct p as [p|p|]; try reflexivity). lia. }
  rewrite (proj2 (Z.ltb_ge b 128)), Hd, He by lia. change (b :: c ++ l) with ((b :: c) ++ l). by rewrite drop_app_length.
Qed.
Lemma unquote_hex n x y v w l : hex_value x = Some v -> hex_value y = Some w -> 0 <= v * 16 + w < 128 ->
  unquote (S n) (92 :: 117 :: 48 :: 48 :: x :: y :: l) = (v * 16 + w) :: unquote n l.
Proof.
  intros Hv Hw Hb. cbn [unquote getu4]. rewrite Hv, Hw. cbn [hex_value is_digit Z.leb Z.compare Pos.compare Pos.compare_cont andb Z.sub Z.add Z.opp Z.pos_sub].
  replace (((0 * 16 + 0) * 16 + v) * 16 + w) with (v * 16 + w) by lia.
  unfold is_surrogate. rewrite (proj2 (Z.leb_gt 55296 _)) by lia. cbn [andb].
  unfold encode_rune. rewrite (proj2 (Z.ltb_lt _ 128)) by lia. done.
Qed.
Lemma unquote_escape n b e l : escape_of b e -> unquote (S n) (e ++ l) = b :: unquote n l.
Proof.
  destruct 1 as [b Hb H1 H2 _ _ _|b e Hin <-|b h1 h2 v w Hv Hw -> Hb _ _ _ _ _ _].
  - apply unquote_plain; lia.
  - cbn in Hin. decompose [or] Hin; subst; done.
  - by apply unquote_hex.
Qed.
Lemma unquote_rune_escape n c r l : rune_bytes c r -> unquote (S n) (rune_escape c r ++ l) = c ++ unquote n l.
Proof.
  intros Hr. unfold rune_escape.
  destruct (Z.eqb_spec r 8232) as [->|]; [rewrite <- (rb_encode _ _ Hr); reflexivity|].
  destruct (Z.eqb_spec r 8233) as [->|]; [rewrite <- (rb_encode _ _ Hr); reflexivity|]. by apply (unquote_rune _ _ r).
Qed.
Lemma escape_not_nil b e : escape_of b e -> (1 <= List.length e)%nat.
Proof. destruct 1; cbn; lia. Qed.
Lemma rune_escape_long c r : rune_bytes c r -> (1 <= List.length (rune_escape c r))%nat.
Proof. intros [_ _ _ Hl _]. unfold rune_escape. repeat case_match; cbn; lia. Qed.
Lemma unquote_escaped l n m : utf8 l -> (List.length l <= n)%nat -> (List.length (escape_string n l) <= m)%nat ->
  unquote m (escape_string n l) = l.
Proof.
  intros Hu. revert n m. induction Hu as [|b l Hb _ IH|c r l Hr _ IH]; intros n m Hn Hm; [by destruct n, m| |].
  - destruct n as [|n]; [cbn in Hn; lia|]. cbn in Hn. rewrite escape_ascii in * by done. rewrite length_app in Hm.
    pose proof (escape_not_nil b _ (ascii_escape_of b Hb)). destruct m as [|m]; [lia|].
    rewrite (unquote_escape m b) by by apply ascii_escape_of. rewrite IH by lia. done.
  - rewrite length_app in Hn. pose proof (rb_long _ _ Hr). destruct n as [|n]; [lia|].
    rewrite (escape_rune _ _ r) in * by done. rewrite length_app in Hm. pose proof (rune_escape_long _ _ Hr). destruct m as [|m]; [lia|].
    rewrite unquote_rune_escape by done. rewrite IH by lia. done.
Qed.

(** A quoted string, as bytes. *)
Definition quoted (s : string) : list Z := escape_string (String.length s) (bytes_of s).
Lemma escape_bytes n l : Forall is_byte l -> Forall is_byte (escape_string n l).
Proof.
  revert l. induction n as [|n IH]; intros [|b l] Hb; try constructor. pose proof Hb as Hb'. apply Forall_cons in Hb' as [H1 H2]. unfold is_byte in H1.
  destruct (Z.ltb_spec b 128).
  - rewrite escape_ascii by lia. apply Forall_app. split; [|by apply IH].
    destruct (ascii_escape_of b ltac:(lia)) as [?|? e Hin _|]; repeat constructor; unfold is_byte; try lia.
    all: cbn in Hin; decompose [or] Hin; subst; try done; lia.
  - cbn [escape_string]. rewrite (proj2 (Z.ltb_ge b 128)) by done. destruct (decode_rune (b :: l)) as [r k].
    apply Forall_app. split; [|by apply IH, Forall_drop]. repeat case_match; try by repeat constructor. by apply Forall_take.
Qed.
Lemma bytes_of_quote s : bytes_of (quote_json s) = 34 :: quoted s ++ [34].
Proof.
  unfold quote_json, quoted. cbn [bytes_of]. rewrite bytes_of_app, bytes_of_string; [done|]. apply escape_bytes, bytes_of_bytes.
Qed.
Lemma scan_quoted s rest : ValidString s = true -> scan_string 0 (quoted s ++ 34 :: rest) = Some (quoted s, rest).
Proof. intros Hs%ValidString_utf8. apply scan_escaped; [done|]. by rewrite bytes_of_length. Qed.
Lemma unquote_quoted s : ValidString s = true -> unquote_string (quoted s) = s.
Proof.
  intros Hs%ValidString_utf8. unfold unquote_string, quoted. rewrite unquote_escaped; [apply string_of_bytes_of|done|by rewrite bytes_of_length|done].
Qed.

(** ** Numbers *)

(** What may follow a value: nothing, or a byte that ends it. *)
Definition stop (rest : list Z) : Prop := match rest with [] => True | b :: _ => b = 44 \/ b = 93 \/ b = 125 end.
Lemma take_digits_stop rest l d r : stop rest -> take_digits l = (d, r) -> take_digits (l ++ rest) = (d, r ++ rest).
Proof.
  intros Hs. revert d r. induction l as [|b l IH]; intros d r; cbn.
  - intros [= <- <-]. destruct rest as [|b rest]; [done|]. cbn. destruct (is_digit b) eqn:E; [|done].
    unfold is_digit in E. cbn in Hs. lia.
  - destruct (is_digit b); [|by intros [= <- <-]]. destruct (take_digits l) as [d' r']. intros [= <- <-]. by rewrite (IH d' r').
Qed.
Lemma scan_frac_stop rest l d r : stop rest -> scan_frac l = Some (d, r) -> scan_frac (l ++ rest) = Some (d, r ++ rest).
Proof.
  intros Hs. destruct l as [|b l]; cbn.
  - intros [= <- <-]. destruct rest as [|b rest]; [done|]. cbn in *. by rewrite (proj2 (Z.eqb_neq b 46)) by lia.
  - destruct (b =? 46); [|by intros [= <- <-]]. destruct (take_digits l) as [d' r'] eqn:E.
    rewrite (take_digits_stop rest _ _ _ Hs E). destruct d'; [done|]. by intros [= <- <-].
Qed.
Lemma scan_exp_stop rest l d r : stop rest -> scan_exp l = Some (d, r) -> scan_exp (l ++ rest) = Some (d, r ++ rest).
Proof.
  intros Hs. destruct l as [|e l]; cbn [app scan_exp].
  - intros [= <- <-]. destruct rest as [|b rest]; [done|]. cbn in *. by rewrite (proj2 (Z.eqb_neq b 101)), (proj2 (Z.eqb_neq b 69)) by lia.
  - destruct (_ || _); [|by intros [= <- <-]].
    assert (forall sg l', scan_sign l = (sg, l') -> scan_sign (l ++ rest) = (sg, l' ++ rest)) as Hsg.
    { intros sg l'. destruct l as [|b l]; cbn.
      - intros [= <- <-]. destruct rest as [|b rest]; [done|]. cbn in *. by rewrite (proj2 (Z.eqb_neq b 43)), (proj2 (Z.eqb_neq b 45)) by lia.
      - destruct (_ || _); by intros [= <- <-]. }
    destruct (scan_sign l) as [sg l'] eqn:El. rewrite (Hsg _ _ eq_refl).
    destruct (take_digits l') as [d' r'] eqn:E. rewrite (take_digits_stop rest _ _ _ Hs E). destruct d'; [done|]. by intros [= <- <-].
Qed.
Lemma scan_int_stop rest l d r : stop rest -> GoJson.scan_int l = Some (d, r) -> GoJson.scan_int (l ++ rest) = Some (d, r ++ rest).
Proof.
  intros Hs. destruct l as [|b l]; [done|]. unfold GoJson.scan_int. cbn [app]. destruct (b =? 48); [by intros [= <- <-]|].
  destruct (take_digits (b :: l)) as [d' r'] eqn:E. change (b :: l ++ rest) with ((b :: l) ++ rest).
  rewrite (take_digits_stop rest _ _ _ Hs E). destruct d'; [done|]. by intros [= <- <-].
Qed.
Lemma scan_number_stop rest l d r : stop rest -> scan_number l = Some (d, r) -> scan_number (l ++ rest) = Some (d, r ++ rest).
Proof.
  intros Hs H. unfold scan_number in *.
  assert (l <> []) as Hl by (intros ->; done).
  assert (scan_minus (l ++ rest) = ((scan_minus l).1, (scan_minus l).2 ++ rest)) as ->.
  { destruct l as [|b l]; [done|]. cbn. by destruct (b =? 45). }
  destruct (scan_minus l) as [sg l1]. cbn [fst snd].
  destruct (GoJson.scan_int l1) as [[d1 l2]|] eqn:E1; [|done]. cbn in H. rewrite (scan_int_stop _ _ _ _ Hs E1). cbn.
  destruct (scan_frac l2) as [[d2 l3]|] eqn:E2; [|done]. cbn in H. rewrite (scan_frac_stop _ _ _ _ Hs E2). cbn.
  destruct (scan_exp l3) as [[d3 l4]|] eqn:E3; [|done]. cbn in H. rewrite (scan_exp_stop _ _ _ _ Hs E3). cbn. by injection H as <- <-.
Qed.

(** The text of a number, as the parser delimits it. *)
Definition number_text (lit : string) : bool := bool_decide (scan_number (bytes_of lit) = Some (bytes_of lit, [])).
Lemma number_start b l d r : scan_number (b :: l) = Some (d, r) -> b = 45 \/ is_digit b = true.
Proof.
  unfold scan_number. cbn [scan_minus]. destruct (Z.eqb_spec b 45); [by left|]. cbn [GoJson.scan_int]. intros H. right.
  destruct (Z.eqb_spec b 48) as [->|]; [done|]. cbn [take_digits] in H. destruct (is_digit b); done.
Qed.
(** The digits of a positive number start with another one than zero. *)
Lemma first_digit n s : (0 < n)%N -> exists c r, pretty_N_go n s = String c r /\ Z_of_byte c <> 48.
Proof.
  revert s. induction (N.lt_wf_0 n) as [n _ IH]. intros s Hn. rewrite pretty_N_go_step by done.
  destruct (decide (n `div` 10 = 0)%N) as [E|E]; [|apply IH; [by apply N.div_lt|by apply N.neq_0_lt_0]].
  rewrite E, pretty_N_go_0. apply N.div_small_iff in E; [|done]. eexists _, _. split; [reflexivity|]. rewrite N.mod_small by done.
  destruct (digit_char n E) as [_ Hv]. lia.
Qed.
Lemma natural_text p : scan_number (bytes_of (format_int (Z.pos p))) = Some (bytes_of (format_int (Z.pos p)), []) /\
  GoJson.scan_int (bytes_of (format_int (Z.pos p))) = Some (bytes_of (format_int (Z.pos p)), []).
Proof.
  destruct (format_digits (Z.pos p)) as (Hd & _ & _); [done|]. pose proof (take_digits_all _ Hd) as Ht.
  destruct (first_digit (N.pos p) "" eq_refl) as (c & r & E & Hc).
  change (pretty_N_go (N.pos p) "") with (format_int (Z.pos p)) in E. rewrite E in *. cbn [bytes_of forallb] in Hd, Ht |- *.
  apply andb_true_iff in Hd as [Hb _]. assert (GoJson.scan_int (Z_of_byte c :: bytes_of r) = Some (Z_of_byte c :: bytes_of r, [])) as Hi.
  { unfold GoJson.scan_int. by rewrite (proj2 (Z.eqb_neq _ 48)), Ht by done. }
  split; [|exact Hi]. unfold scan_number. cbn [scan_minus]. unfold is_digit in Hb. rewrite (proj2 (Z.eqb_neq _ 45)) by lia. rewrite Hi. cbn.
  by rewrite app_nil_r.
Qed.
Lemma number_text_int z : number_text (format_int z) = true.
Proof.
  apply bool_decide_eq_true. destruct z as [|p|p]; [done|apply natural_text|].
  change (format_int (Z.neg p)) with ("-" +:+ format_int (Z.pos p)). rewrite bytes_of_app. cbn [bytes_of app].
  unfold scan_number. cbn [scan_minus]. change (Z_of_byte "-" =? 45) with true. cbn iota beta.
  destruct (natural_text p) as [_ ->]. cbn. by rewrite app_nil_r.
Qed.

(** ** Values *)

(** A value of the strings and numbers that JSON can write. *)
Fixpoint json_ok (v : json) : bool :=
  match v with
  | JNull | JBool _ => true
  | JNum lit => number_text lit
  | JStr s => ValidString s
  | JArr l => forallb json_ok l
  | JObj kv => forallb (fun p => ValidString (fst p) && json_ok (snd p)) kv
  end.
Fixpoint levels (v : json) : Z :=
  match v with
  | JArr l => 1 + fold_right (fun x m => Z.max (levels x) m) 0 l
  | JObj kv => 1 + fold_right (fun p m => Z.max (levels (snd p)) m) 0 kv
  | _ => 0
  end.

(** The parser reads the value in front of whatever may follow it, with fuel
    enough, below the nesting limit. *)
Definition reads (v : json) : Prop := forall d rest, stop rest -> d + levels v <= max_depth ->
  exists n0, forall n, (n0 <= n)%nat -> parse_value n d (bytes_of (Marshal v) ++ rest) = Some (v, rest).

Lemma peek_byte b r : is_ws b = false -> peek (b :: r) = Some (b, r).
Proof. intros H. unfold peek. cbn. by rewrite H. Qed.
Lemma expect_byte b r : is_ws b = false -> expect b (b :: r) = Some r.
Proof. intros H. unfold expect. rewrite peek_byte by done. cbn. by rewrite Z.eqb_refl. Qed.
Lemma expect_other b c r : is_ws b = false -> b <> c -> expect c (b :: r) = None.
Proof. intros H Hn. unfold expect. rewrite peek_byte by done. cbn. by rewrite (proj2 (Z.eqb_neq b c)). Qed.
Lemma parse_quoted s n d rest : ValidString s = true -> parse_value (S n) d (bytes_of (quote_json s) ++ rest) = Some (JStr s, rest).
Proof.
  intros Hs. rewrite bytes_of_quote. cbn [app parse_value]. rewrite peek_byte by done. cbn [mbind option_bind Z.eqb Pos.eqb].
  rewrite <- app_assoc. cbn [app]. rewrite scan_quoted by done. cbn. by rewrite unquote_quoted.
Qed.

(** The first byte of a value is no white space and no closing bracket. *)
Lemma marshal_start v : json_ok v = true -> exists b l, bytes_of (Marshal v) = b :: l /\ is_ws b = false /\ b <> 93 /\ b <> 125.
Proof.
  destruct v as [|[]|lit|s|l|kv]; cbn [Marshal]; intros Hok; try (by eexists _, _; split; [reflexivity|]).
  cbn in Hok. unfold number_text in Hok. apply bool_decide_eq_true in Hok.
  destruct (bytes_of lit) as [|b l] eqn:E; [done|]. exists b, l. split; [done|]. apply number_start in Hok. unfold is_ws, is_digit in *. lia.
Qed.
Lemma reads_number lit : number_text lit = true -> reads (JNum lit).
Proof.
  intros H d rest Hs _. exists 1%nat. intros [|n] Hn; [lia|]. cbn [Marshal]. unfold number_text in H. apply bool_decide_eq_true in H.
  destruct (bytes_of lit) as [|b l] eqn:E; [done|]. pose proof (number_start _ _ _ _ H) as Hb. cbn [app parse_value].
  rewrite peek_byte by (unfold is_ws, is_digit in *; lia). cbn [mbind option_bind]. unfold is_digit in Hb.
  rewrite !(proj2 (Z.eqb_neq b _)) by lia. change (b :: l ++ rest) with ((b :: l) ++ rest).
  rewrite (scan_number_stop _ _ _ _ Hs H). cbn [mbind option_bind app]. by rewrite <- E, string_of_bytes_of.
Qed.

(** *** Elements *)

Definition joined {A} (f : A -> string) (l : list A) : string := strings_Join (map f l) ",".
Lemma joined_cons {A} (f : A -> string) x y l : bytes_of (joined f (x :: y :: l)) = bytes_of (f x) ++ 44 :: bytes_of (joined f (y :: l)).
Proof. unfold joined, strings_Join. cbn [map String.concat]. rewrite !bytes_of_app. done. Qed.
Lemma joined_one {A} (f : A -> string) x : bytes_of (joined f [x]) = bytes_of (f x).
Proof. done. Qed.

Lemma reads_elements l : List.Forall reads l -> l <> [] -> forall d rest, (forall v, In v l -> d + levels v <= max_depth) ->
  exists n0, forall n, (n0 <= n)%nat -> parse_elements n d (bytes_of (joined Marshal l) ++ 93 :: rest) = Some (l, rest).
Proof.
  induction 1 as [|v l Hv Hl IH]; [done|]. intros _ d rest Hd. destruct l as [|w l].
  - destruct (Hv d (93 :: rest)) as [n0 Hn0]; [right; by left|apply Hd; by left|]. exists (S n0). intros [|n] Hn; [lia|].
    cbn [parse_elements]. rewrite joined_one, Hn0 by lia. cbn [mbind option_bind]. rewrite peek_byte by done. done.
  - destruct (Hv d (44 :: bytes_of (joined Marshal (w :: l)) ++ 93 :: rest)) as [n0 Hn0]; [by left|apply Hd; by left|].
    destruct (IH ltac:(done) d rest) as [n1 Hn1]; [intros x Hx; apply Hd; by right|].
    exists (S (Nat.max n0 n1)). intros [|n] Hn; [lia|]. cbn [parse_elements]. rewrite joined_cons, <- app_assoc. cbn [app].
    rewrite Hn0 by lia. cbn [mbind option_bind]. rewrite peek_byte by done. cbn [mbind option_bind Z.eqb Pos.eqb]. by rewrite Hn1 by lia.
Qed.
Definition member_text (p : string * json) : string := quote_json (fst p) +:+ ":" +:+ Marshal (snd p).
Lemma reads_members kv : List.Forall (fun p => reads (snd p) /\ ValidString (fst p) = true) kv -> kv <> [] ->
  forall d rest, (forall p, In p kv -> d + levels (snd p) <= max_depth) ->
  exists n0, forall n, (n0 <= n)%nat -> parse_members n d (bytes_of (joined member_text kv) ++ 125 :: rest) = Some (kv, rest).
Proof.
  assert (Hm : forall (p : string * json) n d x b y, ValidString (fst p) = true -> is_ws b = false ->
     parse_value n d (bytes_of (Marshal (snd p)) ++ b :: x) = Some (snd p, b :: x) -> b = 44 \/ b = 125 ->
     (b = 44 -> parse_members n d x = Some y) ->
     parse_members (S n) d (bytes_of (member_text p) ++ b :: x) = if b =? 44 then Some (p :: y.1, y.2) else Some ([p], x)).
  { intros [k v] n d x b y Hk Hb Hv Hor Hy. cbn [fst snd] in *. unfold member_text. cbn [fst snd parse_members].
    rewrite !bytes_of_app, bytes_of_quote. cbn [bytes_of app]. rewrite expect_byte by done. cbn [mbind option_bind].
    rewrite <- !app_assoc. cbn [app]. rewrite scan_quoted by done. cbn [mbind option_bind].
    change (Z_of_byte ":") with 58. rewrite expect_byte by done. cbn [mbind option_bind]. rewrite Hv. cbn [mbind option_bind].
    rewrite peek_byte by done. cbn [mbind option_bind]. rewrite unquote_quoted by done. destruct Hor as [-> | ->]; [|done].
    cbn [Z.eqb Pos.eqb]. rewrite Hy by done. by destruct y. }
  induction 1 as [|p kv [Hv Hk] _ IH]; [done|]. intros _ d rest Hd. destruct kv as [|q kv].
  - destruct (Hv d (125 :: rest)) as [n0 Hn0]; [right; by right|apply Hd; by left|]. exists (S n0). intros [|n] Hn; [lia|].
    rewrite joined_one, (Hm p n d rest 125 ([], [])); [done|done|done|apply Hn0; lia|by right|done].
  - destruct (Hv d (44 :: bytes_of (joined member_text (q :: kv)) ++ 125 :: rest)) as [n0 Hn0]; [by left|apply Hd; by left|].
    destruct (IH ltac:(done) d rest) as [n1 Hn1]; [intros x Hx; apply Hd; by right|].
    exists (S (Nat.max n0 n1)). intros [|n] Hn; [lia|]. rewrite joined_cons, <- app_assoc. cbn [app].
    rewrite (Hm p n d _ 44 (q :: kv, rest)); [done|done|done|apply Hn0; lia|by left|]. intros _. apply Hn1. lia.
Qed.

Lemma levels_nonneg v : 0 <= levels v.
Proof.
  destruct v as [| | | |l|kv]; cbn; try lia; [induction l as [|x l IH]|induction kv as [|p l IH]]; cbn; lia.
Qed.
Lemma max_in {A} (f : A -> Z) l x : In x l -> f x <= fold_right (fun y m => Z.max (f y) m) 0 l.
Proof. induction l as [|y l IH]; [done|]. cbn. intros [-> |Hx]; [lia|]. specialize (IH Hx). lia. Qed.

Lemma max_nonneg {A} (f : A -> Z) l : 0 <= fold_right (fun y m => Z.max (f y) m) 0 l.
Proof. induction l as [|y l IH]; cbn; lia. Qed.
(** Below the limit a container may be opened. *)
Lemma depth_open d m : 0 <= m -> d + (1 + m) <= max_depth -> (max_depth <=? d) = false.
Proof. lia. Qed.

Lemma reads_array l : List.Forall (fun v => reads v /\ json_ok v = true) l -> reads (JArr l).
Proof.
  intros Hl d rest _ Hd. cbn [levels] in Hd. pose proof (fun v Hv => max_in levels l v Hv) as Hmax.
  assert (max_depth <=? d = false) as Hdep by (eapply depth_open; [apply (max_nonneg levels l)|exact Hd]).
  destruct l as [|x l].
  - exists 1%nat. intros [|n] Hn; [lia|]. cbn -[max_depth Z.leb]. by rewrite Hdep.
  - destruct (reads_elements (x :: l)) with (d := d + 1) (rest := rest) as [n0 Hn0]; [|done|intros v Hv; specialize (Hmax v Hv); lia|].
    { eapply List.Forall_impl; [|exact Hl]. by intros v [? _]. }
    exists (S n0). intros [|n] Hn; [lia|]. cbn [Marshal]. rewrite !bytes_of_app. cbn [bytes_of app].
    change (strings_Join (map Marshal (x :: l)) ",") with (joined Marshal (x :: l)).
    rewrite <- !app_assoc. cbn [app]. change (Z_of_byte "[") with 91. change (Z_of_byte "]") with 93.
    cbn [parse_value]. rewrite peek_byte by done. cbn [mbind option_bind Z.eqb Pos.eqb]. rewrite Hdep.
    destruct (marshal_start x) as (b & y & Eb & Hws & Hne & _); [by apply List.Forall_inv in Hl as [_ ?]|].
    assert (expect 93 (bytes_of (joined Marshal (x :: l)) ++ 93 :: rest) = None) as ->.
    { destruct l as [|w l]; [rewrite joined_one|rewrite joined_cons]; rewrite Eb; cbn [app]; by apply expect_other. }
    by rewrite Hn0 by lia.
Qed.
Lemma object_bytes kv : kv <> [] -> bytes_of (Marshal (JObj kv)) = 123 :: bytes_of (joined member_text kv) ++ [125].
Proof. intros _. cbn [Marshal]. by rewrite !bytes_of_app. Qed.
Lemma members_start kv rest : kv <> [] -> exists y, bytes_of (joined member_text kv) ++ rest = 34 :: y.
Proof.
  destruct kv as [|p [|q kv]]; [done|rewrite joined_one|rewrite joined_cons]; intros _; unfold member_text;
    rewrite !bytes_of_app, bytes_of_quote; by eexists.
Qed.
Lemma reads_object kv : List.Forall (fun p => reads (snd p) /\ ValidString (fst p) = true) kv -> reads (JObj kv).
Proof.
  intros Hl d rest _ Hd. cbn [levels] in Hd. pose proof (fun p Hp => max_in (fun p => levels (snd p)) kv p Hp) as Hmax.
  assert (max_depth <=? d = false) as Hdep by (eapply depth_open; [apply (max_nonneg (fun p : string * json => levels (snd p)) kv)|exact Hd]).
  destruct (decide (kv = [])) as [->|Hne].
  - exists 1%nat. intros [|n] Hn; [lia|]. cbn -[max_depth Z.leb]. by rewrite Hdep.
  - destruct (reads_members kv) with (d := d + 1) (rest := rest) as [n0 Hn0]; [done..|intros q Hq; specialize (Hmax q Hq); cbv beta in Hmax; lia|].
    exists (S n0). intros [|n] Hn; [lia|]. rewrite object_bytes by done. cbn [app]. rewrite <- app_assoc. cbn [app parse_value].
    rewrite peek_byte by done. cbn [mbind option_bind Z.eqb Pos.eqb]. rewrite Hdep.
    assert (expect 125 (bytes_of (joined member_text kv) ++ 125 :: rest) = None) as ->.
    { destruct (members_start kv (125 :: rest) Hne) as [y ->]. by apply expect_other. }
    by rewrite Hn0 by lia.
Qed.

(** What [Marshal] writes is read back. *)
Lemma marshal_reads v : json_ok v = true -> reads v.
Proof.
  induction v as [|b|lit|s|l IH|kv IH] using json_rect'; intros Hok.
  - intros d rest _ _. exists 1%nat. by intros [|n] Hn; [lia|].
  - intros d rest _ _. exists 1%nat. intros [|n] Hn; [lia|]. by destruct b.
  - by apply reads_number.
  - intros d rest _ _. exists 1%nat. intros [|n] Hn; [lia|]. by apply parse_quoted.
  - apply reads_array. cbn [json_ok] in Hok. rewrite forallb_forall in Hok. apply List.Forall_forall. intros v Hv.
    rewrite List.Forall_forall in IH. auto.
  - apply reads_object. cbn [json_ok] in Hok. rewrite forallb_forall in Hok. apply List.Forall_forall. intros p Hp.
    rewrite List.Forall_forall in IH. specialize (Hok _ Hp). apply andb_true_iff in Hok as [? ?]. auto.
Qed.

(** ... with the fuel the input's length gives. *)
Lemma parse_marshalled n d v rest : json_ok v = true -> stop rest -> d + levels v <= max_depth ->
  (2 * List.length (bytes_of (Marshal v) ++ rest) + 2 <= n)%nat -> parse_value n d (bytes_of (Marshal v) ++ rest) = Some (v, rest).
Proof.
  intros Hok Hs Hd Hn. destruct (marshal_reads v Hok d rest Hs Hd) as [n0 Hn0].
  rewrite (proj1 (parse_fuel n (Nat.max n n0) d (bytes_of (Marshal v) ++ rest))) by lia. apply Hn0. lia.
Qed.
Lemma Parse_Marshal v : json_ok v = true -> levels v <= max_depth -> Parse (Marshal v) = Some v.
Proof.
  intros Hok Hl. unfold Parse, parse_bytes. rewrite <- (app_nil_r (bytes_of (Marshal v))).
  rewrite parse_marshalled; [done..|]. rewrite app_nil_r, bytes_of_length. lia.
Qed.

(** Texts of ASCII bytes are valid. *)
Lemma valid_ascii s : Forall (fun b => 0 <= b < 128) (bytes_of s) -> ValidString s = true.
Proof.
  unfold ValidString. rewrite <- bytes_of_length. generalize (bytes_of s) as l. induction 1 as [|b l Hb _ IH]; [done|].
  cbn [List.length valid_utf8 decode_rune]. rewrite (proj2 (Z.ltb_lt b 128)) by lia. rewrite (proj2 (Z.eqb_neq b RuneError)) by (unfold RuneError; lia).
  done.
Qed.
