(* ===== verification/GoRaw.v ===== *)
(** * GoRaw: decoding a document into structs with [json.RawMessage] members

    Values with the text they are written as, and what the text of a marshalled
    object gives back. *)

From S2P Require Import Prelude Errors GoStrings GoTrim GoCrypto GoJson GoBase64 GoUrl UrlText GoScan JsonText.
From Stdlib Require Import Ascii.

(** ** Decoding *)

(** Values with the text they are written as: the members of an object and
    the elements of an array. *)
Definition raw_value (n : nat) (l : list Z) : option (string * list Z) :=
  let l := skip_ws l in
  '(_, rest) ← parse_value n 0 l; Some (string_of_bytes (firstn (List.length l - List.length rest) l), rest).
Fixpoint raw_members (fuel : nat) (l : list Z) : option (list (string * string)) :=
  match fuel with
  | O => None
  | S n =>
      r ← expect 34 l; '(k, r1) ← scan_string 0 r; r2 ← expect 58 r1;
      '(v, r3) ← raw_value n r2; '(b, r4) ← peek r3;
      if b =? 44 then kv ← raw_members n r4; Some ((unquote_string k, v) :: kv)
      else if b =? 125 then Some [(unquote_string k, v)] else None
  end.
Fixpoint raw_elements (fuel : nat) (l : list Z) : option (list string) :=
  match fuel with
  | O => None
  | S n =>
      '(v, r) ← raw_value n l; '(b, r1) ← peek r;
      if b =? 44 then vs ← raw_elements n r1; Some (v :: vs)
      else if b =? 93 then Some [v] else None
  end.
Definition json_fuel (raw : string) : nat := 2 * String.length raw + 3.
(** [None] is a value of another type; [null] leaves the target as it is. *)
Definition raw_object (raw : string) : option (list (string * string)) :=
  v ← Parse raw;
  match v with
  | JNull => Some []
  | JObj [] => Some []
  | JObj _ => r ← expect 123 (bytes_of raw); raw_members (json_fuel raw) r
  | _ => None
  end.
Definition raw_array (raw : string) : option (list string) :=
  v ← Parse raw;
  match v with
  | JNull => Some []
  | JArr [] => Some []
  | JArr _ => r ← expect 91 (bytes_of raw); raw_elements (json_fuel raw) r
  | _ => None
  end.
Fixpoint map_opt {A B} (f : A -> option B) (l : list A) : option (list B) :=
  match l with [] => Some [] | x :: r => y ← f x; ys ← map_opt f r; Some (y :: ys) end.

Section Decode.
  Context {A : Type} (names : list string) (assign : string -> string -> A -> option A).
Fixpoint assign_members (kv : list (string * string)) (acc : A) : option A :=
  match kv with
  | [] => Some acc
  | (k, raw) :: r =>
      match field_of names k with
      | None => assign_members r acc
      | Some f => acc' ← assign f raw acc; assign_members r acc'
      end
  end.
Definition decode_raw (zero : A) (raw : string) : option A := kv ← raw_object raw; assign_members kv zero.
Definition decode_raw_list (zero : A) (raw : string) : option (list A) := l ← raw_array raw; map_opt (decode_raw zero) l.
End Decode.
Definition raw_string (old raw : string) : option string := v ← Parse raw; decode_string old v.
Definition raw_bool (old : bool) (raw : string) : option bool := v ← Parse raw; decode_bool old v.

(** ** The members of a marshalled object are their texts *)

Lemma raw_value_marshalled n v rest : json_ok v = true -> stop rest -> levels v <= max_depth ->
  (2 * List.length (bytes_of (Marshal v) ++ rest) + 2 <= n)%nat -> raw_value n (bytes_of (Marshal v) ++ rest) = Some (Marshal v, rest).
Proof.
  intros Hok Hs Hl Hn. unfold raw_value.
  assert (skip_ws (bytes_of (Marshal v) ++ rest) = bytes_of (Marshal v) ++ rest) as ->.
  { destruct (marshal_start v Hok) as (b & l & -> & Hb & _). cbn. by rewrite Hb. }
  rewrite parse_marshalled by done. cbn [mbind option_bind].
  by rewrite length_app, Nat.add_sub, take_app_length, string_of_bytes_of.
Qed.
Definition texts (kv : list (string * json)) : list (string * string) := map (fun p => (fst p, Marshal (snd p))) kv.
Definition member_ok (p : string * json) : Prop := ValidString (fst p) = true /\ json_ok (snd p) = true /\ levels (snd p) <= max_depth.

Lemma raw_members_step n p x b y : member_ok p -> b = 44 \/ b = 125 ->
  (2 * List.length (bytes_of (member_text p) ++ b :: x) + 2 <= S n)%nat ->
  (b = 44 -> raw_members n x = Some y) ->
  raw_members (S n) (bytes_of (member_text p) ++ b :: x) =
  if b =? 44 then Some ((fst p, Marshal (snd p)) :: y) else Some [(fst p, Marshal (snd p))].
Proof.
  destruct p as [k v]. intros (Hk & Hv & Hl) Hor Hn Hy. cbn [fst snd] in *. unfold member_text in *. cbn [fst snd raw_members] in *.
  rewrite !bytes_of_app, bytes_of_quote in *. cbn [bytes_of app] in *. change (Z_of_byte ":") with 58 in *. rewrite expect_byte by done.
  cbn [mbind option_bind]. rewrite <- !app_assoc. cbn [app]. rewrite scan_quoted by done. cbn [mbind option_bind].
  rewrite expect_byte by done. cbn [mbind option_bind].
  rewrite raw_value_marshalled; [|done|destruct Hor as [-> | ->]; cbn; lia|done|].
  2: { cbn [List.length] in Hn. rewrite !length_app in Hn. cbn [List.length] in Hn. rewrite !length_app in *. cbn [List.length] in *. lia. }
  cbn [mbind option_bind]. rewrite peek_byte by by destruct Hor as [-> | ->]. cbn [mbind option_bind].
  rewrite unquote_quoted by done. destruct Hor as [-> | ->]; [|done]. cbn [Z.eqb Pos.eqb]. by rewrite Hy.
Qed.
Lemma raw_members_marshalled kv (n : nat) (rest : list Z) : kv <> [] -> List.Forall member_ok kv ->
  (2 * List.length (bytes_of (joined member_text kv) ++ 125%Z :: rest) + 2 <= n)%nat ->
  raw_members n (bytes_of (joined member_text kv) ++ 125 :: rest) = Some (texts kv).
Proof.
  intros Hne Hok. revert n. induction Hok as [|p kv Hp Hkv IH]; [done|]. intros n Hn. destruct n as [|n]; [lia|]. destruct kv as [|q kv].
  - rewrite joined_one in *. by rewrite (raw_members_step n p rest 125 []) by (done || by right).
  - rewrite joined_cons in *. rewrite <- app_assoc in *. cbn [app] in *.
    rewrite (raw_members_step n p _ 44 (texts (q :: kv))); [done|done|by left|done|]. intros _. apply IH; [done|].
    rewrite length_app in Hn. cbn [List.length] in Hn. lia.
Qed.

Lemma raw_object_marshalled kv : kv <> [] -> List.Forall member_ok kv -> levels (JObj kv) <= max_depth ->
  raw_object (Marshal (JObj kv)) = Some (texts kv).
Proof.
  intros Hne Hok Hl. unfold raw_object. rewrite Parse_Marshal; [|cbn [json_ok]|done].
  2: { apply forallb_forall. intros p Hp. rewrite List.Forall_forall in Hok. destruct (Hok _ Hp) as (-> & -> & _). done. }
  cbn [mbind option_bind]. destruct kv as [|p kv]; [done|]. set (l := p :: kv) in *.
  assert (Hlen : List.length (bytes_of (Marshal (JObj l))) = S (List.length (bytes_of (joined member_text l) ++ [125])))
    by (by rewrite object_bytes).
  unfold json_fuel. rewrite <- bytes_of_length, Hlen. rewrite object_bytes by done. rewrite expect_byte by done.
  cbn [mbind option_bind]. apply raw_members_marshalled; [done..|]. lia.
Qed.

(** A string member is decoded as the string. *)
Lemma raw_string_marshalled old s : ValidString s = true -> raw_string old (quote_json s) = Some s.
Proof. intros Hs. unfold raw_string. change (quote_json s) with (Marshal (JStr s)). by rewrite Parse_Marshal. Qed.

(** ** Compacting ([json.Compact] with HTML escaping, of a [RawMessage] that is marshalled) *)

Inductive compact_state := Outside | InString | Escaped.
Definition compact_next (st : compact_state) (b : Z) : compact_state :=
  match st with
  | Outside => if b =? 34 then InString else Outside
  | InString => if b =? 34 then Outside else if b =? 92 then Escaped else InString
  | Escaped => InString
  end.
Definition hex_pair (b : Z) : list Z := [Z_of_byte (hex_digit (b / 16)); Z_of_byte (hex_digit (b mod 16))].
(** [skip] counts the bytes of a line separator still to drop. *)
Fixpoint compact_bytes (st : compact_state) (skip : nat) (l : list Z) : list Z :=
  match l with
  | [] => []
  | b :: r =>
      let st' := compact_next st b in
      match skip with
      | S k => compact_bytes st' k r
      | O =>
          if (b =? 60) || (b =? 62) || (b =? 38) then [92; 117; 48; 48] ++ hex_pair b ++ compact_bytes st' 0 r
          else if (b =? 226) && (match r with c :: d :: _ => (c =? 128) && ((d =? 168) || (d =? 169)) | _ => false end)
          then bytes_of "\u202" ++ (match r with _ :: d :: _ => [Z_of_byte (hex_digit (d mod 16))] | _ => [] end) ++ compact_bytes st' 2 r
          else match st with
               | Outside => if is_ws b then compact_bytes st' 0 r else b :: compact_bytes st' 0 r
               | _ => b :: compact_bytes st' 0 r
               end
      end
  end.
Definition compact (raw : string) : res string :=
  if Valid raw then Ok (string_of_bytes (compact_bytes Outside 0 (bytes_of raw))) else Fail ErrOther.

(** What [Marshal] writes is compact and escaped already. *)
Lemma compact_plain st b x : 32 <= b -> b <> 34 -> b <> 92 -> b <> 60 -> b <> 62 -> b <> 38 -> b <> 226 -> st = InString \/ st = Outside /\ b <> 32 ->
  compact_bytes st 0 (b :: x) = b :: compact_bytes st 0 x.
Proof.
  intros H1 H2 H3 H4 H5 H6 H7 Hst. cbn [compact_bytes]. rewrite (proj2 (Z.eqb_neq b 60)), (proj2 (Z.eqb_neq b 62)), (proj2 (Z.eqb_neq b 38)), (proj2 (Z.eqb_neq b 226)) by done.
  cbn [orb andb]. destruct Hst as [-> |[-> ?]]; cbn [compact_next]; rewrite (proj2 (Z.eqb_neq b 34)) by done.
  - by rewrite (proj2 (Z.eqb_neq b 92)) by done.
  - unfold is_ws. by rewrite !(proj2 (Z.eqb_neq b _)) by lia.
Qed.
Lemma compact_escape b e x : escape_of b e -> compact_bytes InString 0 (e ++ x) = e ++ compact_bytes InString 0 x.
Proof.
  destruct 1 as [b Hb H1 H2 H3 H4 H5|b e Hin _|b h1 h2 v w Hv Hw _ _ R1 R2 N1 N1' N2 N2'].
  - cbn [app]. apply compact_plain; try lia. by left.
  - cbn in Hin. decompose [or] Hin; subst; done.
  - cbn [app]. change (compact_bytes InString 0 (92 :: 117 :: 48 :: 48 :: h1 :: h2 :: x)) with
      (92 :: 117 :: 48 :: 48 :: compact_bytes InString 0 (h1 :: h2 :: x)).
    assert (h1 <> 92 /\ h2 <> 92) as [? ?] by (split; intros ->; done).
    rewrite !compact_plain; try lia; try (by left). done.
Qed.
Lemma compact_tail t x : Forall (fun b => 128 <= b < 192) t -> compact_bytes InString 0 (t ++ x) = t ++ compact_bytes InString 0 x.
Proof. induction 1 as [|b t Hb _ IH]; [done|]. cbn [app]. rewrite compact_plain, IH by (lia || by left). done. Qed.
Lemma compact_rune c r x : rune_bytes c r -> compact_bytes InString 0 (rune_escape c r ++ x) = rune_escape c r ++ compact_bytes InString 0 x.
Proof.
  intros [Hd _ Hh Hl Ht]. unfold rune_escape. destruct (Z.eqb_spec r 8232) as [->|N1]; [done|]. destruct (Z.eqb_spec r 8233) as [->|N2]; [done|].
  destruct c as [|b t]; [cbn in Hl; lia|]. cbn [tail] in Ht. apply Forall_cons in Hh as [Hb _]. cbn [app].
  destruct (decide (b = 226)) as [->|Hne]; [|rewrite compact_plain by (lia || by left); by rewrite compact_tail].
  specialize (Hd []). rewrite app_nil_r in Hd. destruct t as [|b1 [|b2 t]].
  - cbn in Hl. lia.
  - cbn in Hd. congruence.
  - assert (((b1 =? 128) && ((b2 =? 168) || (b2 =? 169))) = false) as Hsep.
    { apply not_true_iff_false. intros E. destruct (Z.eqb_spec b1 128) as [->|]; [|done]. cbn [andb] in E.
      apply orb_true_iff in E as [E|E]; apply Z.eqb_eq in E as ->; cbn in Hd; injection Hd as Hr _; vm_compute in Hr; congruence. }
    cbn [app compact_bytes Z.eqb Pos.eqb orb andb]. rewrite Hsep. cbn [compact_next Z.eqb Pos.eqb]. f_equal.
    change (b1 :: b2 :: t ++ x) with ((b1 :: b2 :: t) ++ x). apply (compact_tail (b1 :: b2 :: t)). done.
Qed.
Lemma compact_escaped l n x : utf8 l -> (List.length l <= n)%nat ->
  compact_bytes InString 0 (escape_string n l ++ x) = escape_string n l ++ compact_bytes InString 0 x.
Proof.
  intros Hu. revert n. induction Hu as [|b l Hb _ IH|c r l Hr _ IH]; intros n Hn; [by destruct n| |].
  - destruct n as [|n]; [cbn in Hn; lia|]. cbn in Hn. rewrite escape_ascii, <- !app_assoc by done.
    rewrite (compact_escape b) by by apply ascii_escape_of. by rewrite IH by lia.
  - rewrite length_app in Hn. pose proof (rb_long _ _ Hr). destruct n as [|n]; [lia|].
    rewrite (escape_rune _ _ r), <- !app_assoc by done. rewrite compact_rune by done. by rewrite IH by lia.
Qed.

Definition compacts (l : list Z) : Prop := forall x, compact_bytes Outside 0 (l ++ x) = l ++ compact_bytes Outside 0 x.
Lemma compacts_app l m : compacts l -> compacts m -> compacts (l ++ m).
Proof. intros Hl Hm x. by rewrite <- !app_assoc, Hl, Hm. Qed.
Lemma compacts_quote s : ValidString s = true -> compacts (bytes_of (quote_json s)).
Proof.
  intros Hs x. rewrite bytes_of_quote. cbn [app]. rewrite <- !app_assoc. cbn [app].
  change (compact_bytes Outside 0 (34 :: quoted s ++ 34 :: x)) with (34 :: compact_bytes InString 0 (quoted s ++ 34 :: x)).
  unfold quoted. rewrite compact_escaped; [done|by apply ValidString_utf8|by rewrite bytes_of_length].
Qed.
(** The bytes of numbers. *)
Definition number_byte (b : Z) : bool := is_digit b || existsb (Z.eqb b) [43; 45; 46; 69; 101].
Lemma compacts_number l : forallb number_byte l = true -> compacts l.
Proof.
  induction l as [|b l IH]; [done|]. intros [Hb Hl]%andb_true_iff x. cbn [app]. unfold number_byte, is_digit in Hb. cbn [existsb] in Hb.
  rewrite compact_plain by (lia || (right; split; [done|lia])). by rewrite IH.
Qed.
Lemma take_digits_bytes l d r : take_digits l = (d, r) -> forallb number_byte d = true.
Proof.
  revert d r. induction l as [|b l IH]; intros d r; cbn; [by intros [= <- <-]|]. destruct (is_digit b) eqn:E; [|by intros [= <- <-]].
  destruct (take_digits l) as [d' r']. intros [= <- <-]. cbn. unfold number_byte at 1. rewrite E. by apply (IH d' r').
Qed.
Lemma scan_number_bytes l d r : scan_number l = Some (d, r) -> forallb number_byte d = true.
Proof.
  unfold scan_number. intros H.
  assert (forallb number_byte (scan_minus l).1 = true) as H0 by (unfold scan_minus; destruct l as [|b l']; [done|]; destruct (Z.eqb_spec b 45) as [->|]; done).
  destruct (scan_minus l) as [sg l1]. cbn [fst] in H0.
  destruct (GoJson.scan_int l1) as [[d1 l2]|] eqn:E1; [|done]. cbn in H. destruct (scan_frac l2) as [[d2 l3]|] eqn:E2; [|done]. cbn in H.
  destruct (scan_exp l3) as [[d3 l4]|] eqn:E3; [|done]. cbn in H. injection H as <- <-. rewrite !forallb_app, H0. apply andb_true_iff. split; [done|].
  apply andb_true_iff. split; [|apply andb_true_iff; split].
  - unfold GoJson.scan_int in E1. destruct l1 as [|b l1]; [done|]. destruct (Z.eqb_spec b 48) as [->|]; [by injection E1 as <- <-|].
    destruct (take_digits (b :: l1)) as [[|? ?] ?] eqn:E; [done|]. injection E1 as <- <-. by eapply take_digits_bytes.
  - unfold scan_frac in E2. destruct l2 as [|b l2]; [by injection E2 as <- <-|]. destruct (b =? 46); [|by injection E2 as <- <-].
    destruct (take_digits l2) as [[|? ?] ?] eqn:E; [done|]. injection E2 as <- <-. apply take_digits_bytes in E. exact E.
  - unfold scan_exp in E3. destruct l3 as [|e l3]; [by injection E3 as <- <-|].
    destruct ((e =? 101) || (e =? 69)) eqn:Ee; [|by injection E3 as <- <-].
    assert (forallb number_byte (scan_sign l3).1 = true) as Hs.
    { unfold scan_sign. destruct l3 as [|b l3]; [done|]. destruct ((b =? 43) || (b =? 45)) eqn:Eb; [|done].
      apply orb_true_iff in Eb as [Eb|Eb]; apply Z.eqb_eq in Eb as ->; done. }
    destruct (scan_sign l3) as [sg' l3']. cbn [fst] in Hs. destruct (take_digits l3') as [[|? ?] ?] eqn:E; [done|]. injection E3 as <- <-.
    cbn [forallb]. rewrite forallb_app, Hs. apply take_digits_bytes in E. rewrite E.
    apply orb_true_iff in Ee as [Ee|Ee]; by apply Z.eqb_eq in Ee as ->.
Qed.

Lemma compacts_joined {A} (f : A -> string) l : List.Forall (fun v => compacts (bytes_of (f v))) l -> compacts (bytes_of (joined f l)).
Proof.
  induction 1 as [|v l Hv _ IH]; [by intros x|]. destruct l as [|w l]; [by rewrite joined_one|]. rewrite joined_cons.
  apply compacts_app; [done|]. change (44 :: bytes_of (joined f (w :: l))) with ([44] ++ bytes_of (joined f (w :: l))).
  by apply compacts_app; [intros x|].
Qed.
Lemma compacts_marshal v : json_ok v = true -> compacts (bytes_of (Marshal v)).
Proof.
  induction v as [|b|lit|s|l IH|kv IH] using json_rect'; intros Hok; cbn [json_ok] in Hok.
  - by intros x.
  - by destruct b; intros x.
  - apply compacts_number. unfold number_text in Hok. apply bool_decide_eq_true, scan_number_bytes in Hok. exact Hok.
  - by apply compacts_quote.
  - cbn [Marshal]. rewrite !bytes_of_app. apply compacts_app; [by intros x|]. apply compacts_app; [|by intros x].
    apply (compacts_joined Marshal). apply List.Forall_forall. intros v Hv. rewrite List.Forall_forall in IH. rewrite forallb_forall in Hok. auto.
  - cbn [Marshal]. rewrite !bytes_of_app. apply compacts_app; [by intros x|]. apply compacts_app; [|by intros x].
    apply (compacts_joined member_text). apply List.Forall_forall. intros p Hp. rewrite List.Forall_forall in IH. rewrite forallb_forall in Hok.
    specialize (Hok _ Hp). apply andb_true_iff in Hok as [Hk Hv]. unfold member_text. rewrite !bytes_of_app.
    apply compacts_app; [by apply compacts_quote|]. apply compacts_app; [by intros x|]. by apply IH.
Qed.
Lemma compact_marshalled v : json_ok v = true -> levels v <= max_depth -> compact (Marshal v) = Ok (Marshal v).
Proof.
  intros Hok Hl. unfold compact, Valid. rewrite Parse_Marshal by done. rewrite <- (app_nil_r (bytes_of (Marshal v))), compacts_marshal by done.
  cbn [compact_bytes]. by rewrite app_nil_r, string_of_bytes_of.
Qed.
Lemma valid_number z : ValidString (format_int z) = true.
Proof.
  apply valid_ascii. pose proof (number_text_int z) as H. apply bool_decide_eq_true, scan_number_bytes in H.
  rewrite forallb_forall in H. apply Forall_forall. intros b Hb%list_elem_of_In. specialize (H _ Hb). unfold number_byte, is_digit in H. cbn in H. lia.
Qed.
