(* ===== verification/Identity.v ===== *)
(** * Identity: the workload identity of a caller ([internal/transport/identity])

    The SPIFFE identity of a peer certificate ([spiffe.go]), the policy that
    maps methods to workloads and its enforcement ahead of every handler
    ([authz.go]), and the policy of this service ([transport/grpc/policy.go]).
    A certificate is the URLs of its URI names, which [crypto/x509] parsed;
    the text of an error is not kept. *)

From S2P Require Import Prelude Errors GoStrings GoTrim GoJson GoUrl UrlText.
From Stdlib Require Import Ascii.

(** ** Identities *)

Record Principal := mkPrincipal { p_TrustDomain : string; p_Namespace : string; p_ServiceAccount : string }.
#[export] Instance Principal_eq_dec : EqDecision Principal.
Proof. solve_decision. Defined.

Definition Principal_String (p : Principal) : string :=
  "spiffe://" +:+ p_TrustDomain p +:+ "/ns/" +:+ p_Namespace p +:+ "/sa/" +:+ p_ServiceAccount p.

Record Workload := mkWorkload { w_Namespace : string; w_ServiceAccount : string }.
#[export] Instance Workload_eq_dec : EqDecision Workload.
Proof. solve_decision. Defined.

Definition Slash : ascii := ascii_of_N 47.
Definition edge_byte (b : Z) : bool := is_digit b || ((97 <=? b) && (b <=? 122)).

(** [^[a-z0-9]([-a-z0-9]{0,61}[a-z0-9])?$]: at most 63 bytes, no dash at
    either end. *)
Definition label_Match (s : string) : bool :=
  all_bytes name_byte s && (len s <=? 63) &&
  match bytes_of s with b :: _ => edge_byte b | [] => false end &&
  match List.rev (bytes_of s) with b :: _ => edge_byte b | [] => false end.
(** One label, or several joined by dots. *)
Definition ValidTrustDomain (s : string) : bool := forallb label_Match (split_at_byte Dot s).

Definition ParseSPIFFE (u : option URL) : res Principal :=
  match u with
  | None => Fail ErrOther
  | Some u =>
      if negb (String.eqb (u_Scheme u) "spiffe") || u_HasUser u || negb (String.eqb (u_Opaque u) "")
         || negb (String.eqb (u_RawQuery u) "") || negb (String.eqb (u_Fragment u) "") || negb (String.eqb (Port u) "")
      then Fail ErrOther
      else if negb (ValidTrustDomain (u_Host u)) then Fail ErrOther
      else match split_at_byte Slash (u_Path u) with
           | [p0; p1; p2; p3; p4] =>
               if negb (String.eqb p0 "") || negb (String.eqb p1 "ns") || negb (String.eqb p3 "sa")
                  || negb (label_Match p2) || negb (label_Match p4)
               then Fail ErrOther
               else Ok (mkPrincipal (u_Host u) p2 p4)
           | _ => Fail ErrOther
           end
  end.

(** A leaf certificate is its URI names. *)
Definition PeerPrincipal (leaf : option (list URL)) : res Principal :=
  match leaf with
  | Some [u] => ParseSPIFFE (Some u)
  | _ => Fail ErrOther
  end.

(** ** Policies *)

Definition AnyAuthenticated : Workload := mkWorkload "*" "*".
Abbreviation Policy := (gmap string (list Workload)).
Record Authorizer := mkAuthorizer { az_trustDomain : string; az_policy : Policy }.

Definition workload_valid (w : Workload) : bool :=
  bool_decide (w = AnyAuthenticated) || (label_Match (w_Namespace w) && label_Match (w_ServiceAccount w)).
Definition entry_valid (method : string) (allowed : list Workload) : bool :=
  HasPrefix method "/" && (count_byte Slash method =? 2)%nat && negb (List.length allowed =? 0)%nat
  && forallb workload_valid allowed.
Definition NewAuthorizer (trustDomain : string) (policy : Policy) : res Authorizer :=
  if negb (ValidTrustDomain trustDomain) then Fail ErrOther
  else if forallb (fun e => entry_valid e.1 e.2) (map_to_list policy) then Ok (mkAuthorizer trustDomain policy)
  else Fail ErrOther.

(** The services of a server with their methods ([GetServiceInfo]). *)
Abbreviation ServiceInfo := (list (string * list string)).
Definition full_methods (info : ServiceInfo) : list string :=
  flat_map (fun s => map (fun m => "/" +:+ s.1 +:+ "/" +:+ m) s.2) info.

(** The methods without entry and the entries without method; [None]: the
    policy is complete. *)
Definition Check_policy (a : Authorizer) (info : ServiceInfo) : option (list string * list string) :=
  let registered := full_methods info in
  let missing := slices_Sort (List.filter (fun m => match az_policy a !! m with None => true | _ => false end) registered) in
  let stale := slices_Sort (List.filter (fun m => negb (slices_Contains registered m)) (map fst (map_to_list (az_policy a)))) in
  if (0 <? List.length missing)%nat || (0 <? List.length stale)%nat then Some (missing, stale) else None.

Definition workload_is (p : Principal) (w : Workload) : bool :=
  bool_decide (w = AnyAuthenticated)
  || (String.eqb (w_Namespace w) (p_Namespace p) && String.eqb (w_ServiceAccount w) (p_ServiceAccount p)).
Definition Allowed (a : Authorizer) (method : string) (p : Principal) : bool :=
  String.eqb (p_TrustDomain p) (az_trustDomain a) && existsb (workload_is p) (default [] (az_policy a !! method)).

(** ** Enforcement *)

(** [google.golang.org/grpc/codes], those the service answers. *)
Inductive Code :=
| Canceled | InvalidArgument | DeadlineExceeded | NotFound | AlreadyExists | PermissionDenied
| ResourceExhausted | FailedPrecondition | Unavailable | Unauthenticated | Unknown.
#[export] Instance Code_eq_dec : EqDecision Code.
Proof. solve_decision. Defined.

(** The transport identity of a connection: none, another kind's, or a
    verified certificate's principal or why it carries none. *)
Inductive AuthInfo :=
| NoInfo
| OtherInfo
| PeerInfo (principal : res Principal).

(** [ctx] holds the peer of the call, if any. *)
Definition Authorize (a : Authorizer) (ctx : option AuthInfo) (method : string) : option Code :=
  match ctx with
  | None | Some NoInfo => Some Unauthenticated
  | Some OtherInfo => Some Unauthenticated
  | Some (PeerInfo (Err _)) => Some Unauthenticated
  | Some (PeerInfo (Ok p)) => if Allowed a method p then None else Some PermissionDenied
  end.
Definition Unary {A} (a : Authorizer) (ctx : option AuthInfo) (method : string) (handler : unit -> result Code A) : result Code A :=
  match Authorize a ctx method with Some c => Err c | None => handler tt end.

Definition Caller (ctx : option AuthInfo) : option Principal :=
  match ctx with Some (PeerInfo (Ok p)) => Some p | _ => None end.

(** ** The policy of this service *)

Definition api : Workload := mkWorkload "anvilkit-apps" "anvilkit-agent-api".
Definition backgroundWorker : Workload := mkWorkload "anvilkit-apps" "anvilkit-agent-background-worker".
Definition mcp : Workload := mkWorkload "anvilkit-apps" "anvilkit-agent-mcp".
Definition sidecar : Workload := mkWorkload "anvilkit-components" "anvilkit-job-access-sidecar".

Definition add_methods (prefix : string) (methods : list string) (allowed : list Workload) (p : Policy) : Policy :=
  fold_left (fun p m => <[prefix +:+ "/" +:+ m := allowed]> p) methods p.
Definition ServicePolicy : Policy :=
  let add service := add_methods ("/anvilkit.mcp.v1." +:+ service) in
  add_methods "/grpc.health.v1.Health" ["Check"; "Watch"; "List"] [AnyAuthenticated]
    (add "BackgroundTaskService" ["ClaimTask"; "HeartbeatTask"; "SubmitTaskResult"; "GetTask"] [backgroundWorker; mcp]
    (add "CatalogRefreshService" ["AdvanceRefresh"] [backgroundWorker]
    (add "CallService" ["ReconcileCall"] [api]
    (add "CallService" ["CreateCall"; "GetCall"] [api; sidecar]
    (add "GrantService" ["CreateGrant"; "GetGrant"; "ListGrants"; "RevokeGrant"; "GetRevocationProgress"] [api]
    (add "CatalogService" ["ListCatalog"; "GetDescriptor"; "DiscoverServer"; "ReviewDescriptor"; "DisableDescriptor"] [api] ∅)))))).

(** [None]: the method has no slash after its first byte and the slice
    expression panics. *)
Definition service_of (method : string) : option string :=
  let svc := TrimPrefix method "/" in
  i ← Index svc "/"; Some (before i svc).
Definition registeredOnly (p : Policy) (services : list string) : option Policy :=
  if forallb (fun e => match service_of e.1 with Some _ => true | None => false end) (map_to_list p)
  then Some (filter (fun e => slices_Contains services (default "" (service_of e.1)) = true) p)
  else None.
