(* ===== verification/IdentitySpec.v ===== *)
(** * IdentitySpec: identities and the policy that admits them

    A workload identity is its SPIFFE text; a handler runs only for the
    workloads its method's entry names, under the listener's trust domain. *)

From S2P Require Import Prelude Errors GoStrings GoTrim GoJson GoUrl UrlText Identity.
From Stdlib Require Import Ascii.

(** ** Labels *)

Lemma label_bytes s : label_Match s = true -> all_bytes name_byte s = true.
Proof. unfold label_Match. intros H. by repeat apply andb_prop in H as [H _]. Qed.
Lemma domain_bytes s : ValidTrustDomain s = true -> all_bytes dotted_byte s = true.
Proof.
  intros H. apply (split_bytes _ Dot); [done|]. revert H. unfold ValidTrustDomain. rewrite !forallb_forall. intros H w Hw.
  apply (all_bytes_impl _ _ _ name_dotted), label_bytes, (H _ Hw).
Qed.

(** ** The text of an identity *)

Definition principal_valid (p : Principal) : bool :=
  ValidTrustDomain (p_TrustDomain p) && label_Match (p_Namespace p) && label_Match (p_ServiceAccount p).
Definition principal_path (p : Principal) : string := "ns/" +:+ p_Namespace p +:+ "/sa/" +:+ p_ServiceAccount p.
Definition principal_url (p : Principal) : URL := mkURL "spiffe" "" false (p_TrustDomain p) ("/" +:+ principal_path p) "" "".

Lemma principal_text p : Principal_String p = "spiffe" +:+ ":" +:+ simple_rest (p_TrustDomain p) (principal_path p).
Proof. done. Qed.

Lemma principal_parses p : principal_valid p = true -> Parse_URL (Principal_String p) = Some (principal_url p).
Proof.
  unfold principal_valid. intros [[Hd Hn]%andb_prop Hs]%andb_prop. rewrite principal_text. apply simple_url; try done.
  - by apply domain_bytes.
  - unfold principal_path. rewrite !all_bytes_app. apply label_bytes in Hn, Hs.
    by rewrite (all_bytes_impl _ _ _ name_path Hn), (all_bytes_impl _ _ _ name_path Hs).
  - generalize (simple_rest (p_TrustDomain p) (principal_path p)) as r. intros r. unfold getScheme.
    change (scheme_length 0 (bytes_of ("spiffe" +:+ ":" +:+ r))) with (Some (Some 6%nat)). cbn [mbind option_bind].
    change 6%nat with (String.length "spiffe") at 1. rewrite before_app.
    change (drop_bytes 7 ("spiffe" +:+ ":" +:+ r)) with (drop_bytes (String.length "spiffe:") ("spiffe:" +:+ r)).
    by rewrite drop_bytes_app.
Qed.

Lemma Port_none u : has_byte Colon (u_Host u) = false -> Port u = "".
Proof. intros H. unfold Port, split_host_port. rewrite last_index_none by done. by case_match. Qed.
Lemma dotted_no_colon s : all_bytes dotted_byte s = true -> has_byte Colon s = false.
Proof. by apply all_bytes_not. Qed.
Lemma label_no_slash s : label_Match s = true -> has_byte Slash s = false.
Proof. intros H%label_bytes. by apply (all_bytes_not name_byte). Qed.

Lemma principal_split p : principal_valid p = true ->
  split_at_byte Slash ("/" +:+ principal_path p) = [""; "ns"; p_Namespace p; "sa"; p_ServiceAccount p].
Proof.
  unfold principal_valid. intros [[_ Hn]%andb_prop Hs]%andb_prop. unfold principal_path.
  change ("/" +:+ "ns/" +:+ p_Namespace p +:+ "/sa/" +:+ p_ServiceAccount p)
    with ("" +:+ String Slash ("ns" +:+ String Slash (p_Namespace p +:+ String Slash ("sa" +:+ String Slash (p_ServiceAccount p))))).
  rewrite !split_app by (done || by apply label_no_slash). by rewrite split_none by (by apply label_no_slash).
Qed.

Lemma ParseSPIFFE_url p : principal_valid p = true -> ParseSPIFFE (Some (principal_url p)) = Ok p.
Proof.
  intros Hp. pose proof Hp as Hp'. unfold principal_valid in Hp'. apply andb_prop in Hp' as [[Hd Hn]%andb_prop Hs].
  unfold ParseSPIFFE. rewrite Port_none by (by apply dotted_no_colon, domain_bytes). cbn -[split_at_byte].
  rewrite Hd. change (String "/" (principal_path p)) with ("/" +:+ principal_path p). rewrite principal_split by done.
  cbn. rewrite Hn, Hs. by destruct p.
Qed.

Lemma ParseSPIFFE_Ok u p : ParseSPIFFE u = Ok p -> exists v, u = Some v /\ principal_valid p = true /\
  u_Scheme v = "spiffe" /\ u_HasUser v = false /\ u_Host v = p_TrustDomain p /\ u_RawQuery v = "" /\ u_Fragment v = "" /\
  split_at_byte Slash (u_Path v) = [""; "ns"; p_Namespace p; "sa"; p_ServiceAccount p].
Proof.
  unfold ParseSPIFFE. destruct u as [v|]; [|done]. intros H. dif H as E1. dif H as E2. breflect.
  destruct (split_at_byte Slash (u_Path v)) as [|p0 [|p1 [|p2 [|p3 [|p4 [|]]]]]] eqn:Ep; try done. dif H as E3. injection H as <-.
  breflect. exists v. unfold principal_valid. cbn [p_TrustDomain p_Namespace p_ServiceAccount]. subst.
  rewrite E2. split_and!; try done. by apply andb_true_intro.
Qed.

(** C29. A workload identity is its text: exactly the principals with a
    DNS-shaped trust domain and two DNS labels are written as a URI name that
    is read back as the same principal, and whatever URI name is read as a
    principal names its trust domain as host and its namespace and service
    account as the labels of its path, with no user, query or fragment. *)
Theorem identity_is_its_text :
  (forall p, principal_valid p = true <-> exists u, Parse_URL (Principal_String p) = Some u /\ PeerPrincipal (Some [u]) = Ok p) /\
  (forall u p, PeerPrincipal (Some [u]) = Ok p -> principal_valid p = true /\ u_Scheme u = "spiffe" /\ u_HasUser u = false /\
     u_Host u = p_TrustDomain p /\ u_RawQuery u = "" /\ u_Fragment u = "" /\
     split_at_byte Slash (u_Path u) = [""; "ns"; p_Namespace p; "sa"; p_ServiceAccount p]).
Proof.
  unfold PeerPrincipal. split.
  - intros p. split.
    + intros Hp. exists (principal_url p). split; [by apply principal_parses|by apply ParseSPIFFE_url].
    + intros (u & _ & (v & _ & Hp & _)%ParseSPIFFE_Ok). done.
  - intros u p (v & [= <-] & H)%ParseSPIFFE_Ok. done.
Qed.
