(* ===== verification/Trust.v ===== *)
(** * Trust: identity material, its reload and the connections it verified

    [material.go], [reloader.go] and the server side of [credentials.go] in
    [internal/transport/identity].  What [crypto/tls], [crypto/x509] and
    [encoding/pem] read of a file is a parameter: a key pair's leaf, and the
    blocks of a bundle.  A handshake takes the material in force, and the
    connection is recorded once it is verified; a reload publishes the new
    material and then closes the connections of retired roots.  These are
    separate steps, of any interleaving. *)

From S2P Require Import Prelude Errors GoStrings GoCrypto GoUrl Identity.
From Stdlib Require Import Ascii.

(** ** Material *)

Record Files := mkFiles { fl_CertFile : string; fl_KeyFile : string; fl_CAFile : string }.
Record Leaf := mkLeaf { lf_NotBefore : Time; lf_NotAfter : Time; lf_URIs : list URL }.
(** A certificate of a bundle; its fingerprint is the digest of its bytes. *)
Record CACert := mkCACert { ca_Raw : bytes; ca_IsCA : bool }.
Definition fingerprint (c : CACert) : string := sha256_hex (ca_Raw c).
Record Material := mkMaterial { mt_Leaf : Leaf; mt_Roots : gmap string CACert; mt_Digest : string }.

Definition TrustsRoot (m : Material) (root : CACert) : bool :=
  match mt_Roots m !! fingerprint root with Some _ => true | None => false end.

Section Trust.
  (** [tls.X509KeyPair] with the parsed leaf, and [pem.Decode] to the end of
      the bundle: the type of each block and the certificate it holds. *)
  Context (X509KeyPair : bytes -> bytes -> option Leaf) (pem_blocks : bytes -> list (string * option CACert)).

Fixpoint bundle_roots (blocks : list (string * option CACert)) (roots : gmap string CACert) : res (gmap string CACert) :=
  match blocks with
  | [] => Ok roots
  | (type, cert) :: rest =>
      if negb (String.eqb type "CERTIFICATE") then bundle_roots rest roots
      else match cert with
           | None => Fail ErrOther
           | Some ca => if negb (ca_IsCA ca) then Fail ErrOther else bundle_roots rest (<[fingerprint ca := ca]> roots)
           end
  end.
Definition zero_byte : string := String (ascii_of_N 0) "".
Definition material_digest (certPEM keyPEM caPEM : bytes) : string :=
  sha256_hex (certPEM +:+ zero_byte +:+ keyPEM +:+ zero_byte +:+ caPEM +:+ zero_byte).
Definition Parse (certPEM keyPEM caPEM : bytes) (now : Time) : res Material :=
  match X509KeyPair certPEM keyPEM with
  | None => Fail ErrOther
  | Some leaf =>
      if Before now (lf_NotBefore leaf) || After now (lf_NotAfter leaf) then Fail ErrOther
      else
        roots ← bundle_roots (pem_blocks caPEM) ∅;
        if bool_decide (roots = ∅) then Fail ErrOther
        else Ok (mkMaterial leaf roots (material_digest certPEM keyPEM caPEM))
  end.

Abbreviation file_system := (string -> option bytes).
Definition read_files (fs : file_system) (f : Files) : option (bytes * bytes * bytes) :=
  cert ← fs (fl_CertFile f); key ← fs (fl_KeyFile f); ca ← fs (fl_CAFile f); Some (cert, key, ca).
Definition Load (fs : file_system) (f : Files) (now : Time) : res Material :=
  match read_files fs f with None => Fail ErrOther | Some (cert, key, ca) => Parse cert key ca now end.
Definition filesDigest (fs : file_system) (f : Files) : option string :=
  option_map (fun '(cert, key, ca) => material_digest cert key ca) (read_files fs f).

(** ** The reloader *)

Record Reloader := mkReloader { re_files : Files; re_interval : Duration; re_current : Material; re_failures : Z }.
Definition New (fs : file_system) (f : Files) (interval : Duration) (now : Time) : res Reloader :=
  if String.eqb (fl_CertFile f) "" || String.eqb (fl_KeyFile f) "" || String.eqb (fl_CAFile f) "" then Fail ErrOther
  else
    m ← Load fs f now;
    Ok (mkReloader f (if interval <=? 0 then 5 * Second else interval) m 0).
Definition rejected (r : Reloader) : Reloader := mkReloader (re_files r) (re_interval r) (re_current r) (re_failures r + 1).
(** One poll, which reads the files twice; [Some]: the material published. *)
Definition Reload (fs fs' : file_system) (now : Time) (r : Reloader) : Reloader * option Material :=
  match filesDigest fs (re_files r) with
  | None => (rejected r, None)
  | Some digest =>
      if String.eqb digest (mt_Digest (re_current r)) then (r, None)
      else match Load fs' (re_files r) now with
           | Err _ => (rejected r, None)
           | Ok m => (mkReloader (re_files r) (re_interval r) m 0, Some m)
           end
  end.
Definition RetiredRoots (previous current : Material) : list CACert :=
  map snd (map_to_list (filter (fun r => match mt_Roots current !! r.1 with None => true | Some _ => false end = true) (mt_Roots previous))).

(** ** Connections *)

(** A connection is a number; the tracker holds them by the fingerprint of
    the root that verified their peer. *)
Definition connTracker : Type := gmap string (gset nat).
Definition add (root : string) (c : nat) (t : connTracker) : connTracker := <[root := {[c]} ∪ default ∅ (t !! root)]> t.
Definition remove (root : string) (c : nat) (t : connTracker) : connTracker :=
  match t !! root with
  | None => t
  | Some conns => if bool_decide (conns ∖ {[c]} = ∅) then delete root t else <[root := conns ∖ {[c]}]> t
  end.
Definition closeRetired (current : Material) (t : connTracker) : connTracker :=
  filter (fun e => match mt_Roots current !! e.1 with Some _ => true | None => false end = true) t.

(** The listener: the reloader, the tracker, the materials whose callback has
    not run yet, and the handshakes under way with the material each took. *)
Record listener := mkListener {
  ln_reloader : Reloader; ln_tracker : connTracker; ln_pending : list Material; ln_handshakes : gmap nat Material }.

Inductive trust_step : listener -> listener -> Prop :=
(** A poll; [onChange] is called with what it published. *)
| ts_poll fs fs' now r t p h r' published :
    p = [] -> Reload fs fs' now r = (r', published) ->
    trust_step (mkListener r t p h) (mkListener r' t (match published with Some m => [m] | None => [] end) h)
| ts_close r t m p h : trust_step (mkListener r t (m :: p) h) (mkListener r (closeRetired m t) p h)
| ts_begin r t p h c : h !! c = None -> (forall root, c ∉ default ∅ (t !! root)) ->
    trust_step (mkListener r t p h) (mkListener r t p (<[c := re_current r]> h))
| ts_refused r t p h c : trust_step (mkListener r t p h) (mkListener r t p (delete c h))
(** The peer's chain ends in a root of the material the handshake took. *)
| ts_verified r t p h c m root : h !! c = Some m -> TrustsRoot m root = true ->
    trust_step (mkListener r t p h) (mkListener r (add (fingerprint root) c t) p (delete c h))
| ts_closed r t p h c root : trust_step (mkListener r t p h) (mkListener r (remove root c t) p h).

Definition listening (r : Reloader) : listener := mkListener r ∅ [] ∅.
Definition trust_run (r : Reloader) : listener -> Prop := rtc trust_step (listening r).

(** ** What is trusted *)

Definition trusted (l : listener) (root : string) : Prop := is_Some (mt_Roots (re_current (ln_reloader l)) !! root).
Definition tracked (l : listener) (root : string) (c : nat) : Prop := c ∈ default ∅ (ln_tracker l !! root).
(** The handshake of [c] took a material that is no longer in force. *)
Definition outdated (l : listener) (c : nat) : Prop :=
  exists m, ln_handshakes l !! c = Some m /\ m <> re_current (ln_reloader l).

Lemma TrustsRoot_spec m root : TrustsRoot m root = true <-> is_Some (mt_Roots m !! fingerprint root).
Proof. unfold TrustsRoot. destruct (mt_Roots m !! _); split; try done; by intros [? ?]. Qed.
Lemma add_tracked root c t root' c' : c' ∈ default ∅ (add root c t !! root') -> root' = root /\ c' = c \/ c' ∈ default ∅ (t !! root').
Proof.
  unfold add, connTracker in *. destruct (decide (root = root')) as [<-|Hn]; [|rewrite lookup_insert_ne by done; by right].
  rewrite lookup_insert_eq. cbn. rewrite elem_of_union, elem_of_singleton. intros [->|H]; by auto.
Qed.
Lemma remove_tracked root c t root' c' : c' ∈ default ∅ (remove root c t !! root') -> c' ∈ default ∅ (t !! root').
Proof.
  unfold remove, connTracker in *. destruct (t !! root) as [conns|] eqn:E; [|done].
  destruct (decide (root = root')) as [<-|Hn]; [|by case_bool_decide; [rewrite lookup_delete_ne|rewrite lookup_insert_ne]].
  case_bool_decide; [rewrite lookup_delete_eq|rewrite lookup_insert_eq, E]; cbn; set_solver.
Qed.
Lemma closeRetired_tracked m t root c : c ∈ default ∅ (closeRetired m t !! root) ->
  is_Some (mt_Roots m !! root) /\ c ∈ default ∅ (t !! root).
Proof.
  unfold closeRetired, connTracker in *. intros H. destruct (filter _ t !! root) as [conns|] eqn:E; [|by cbn in H; apply not_elem_of_empty in H].
  apply map_lookup_filter_Some in E as [E Hm]. rewrite E. split; [|done]. cbn in Hm. destruct (mt_Roots m !! root); [by eexists|done].
Qed.

(** Material that was parsed as a whole at some time. *)
Definition parsed (m : Material) : Prop := exists cert key ca now, Parse cert key ca now = Ok m.
Lemma bundle_roots_Ok blocks roots out : bundle_roots blocks roots = Ok out ->
  (forall fp ca, roots !! fp = Some ca -> ca_IsCA ca = true /\ fp = fingerprint ca) ->
  forall fp ca, out !! fp = Some ca -> ca_IsCA ca = true /\ fp = fingerprint ca.
Proof.
  revert roots. induction blocks as [|[type [cert|]] rest IH]; intros roots; cbn [bundle_roots].
  - by intros [= <-].
  - destruct (negb _); [by apply IH|]. destruct (ca_IsCA cert) eqn:Ec; cbn [negb]; [|done]. intros H Hr. apply (IH _ H).
    intros fp ca [[<- <-]|[_ Hl]]%lookup_insert_Some; [done|by apply Hr].
  - by destruct (negb _); [apply IH|].
Qed.
Lemma Parse_Ok cert key ca now m : Parse cert key ca now = Ok m ->
  mt_Roots m <> ∅ /\ (forall fp ca, mt_Roots m !! fp = Some ca -> ca_IsCA ca = true /\ fp = fingerprint ca) /\
  lf_NotBefore (mt_Leaf m) <= now <= lf_NotAfter (mt_Leaf m).
Proof.
  unfold Parse. intros H. destruct (X509KeyPair cert key) as [leaf|]; [|done]. dif H as E.
  apply bind_Ok in H as (roots & Hr & H). destruct (bool_decide _) eqn:Ed; [done|]. injection H as <-. cbn. breflect.
  split_and!; [done| |lia..]. eapply bundle_roots_Ok; [exact Hr|by intros ? ?; rewrite lookup_empty].
Qed.
Lemma Load_parsed fs f now m : Load fs f now = Ok m -> parsed m.
Proof. unfold Load, parsed. destruct (read_files fs f) as [[[cert key] ca]|]; [|done]. eauto. Qed.
Lemma New_parsed fs f interval now r : New fs f interval now = Ok r -> parsed (re_current r) /\ 0 < re_interval r.
Proof.
  unfold New. intros H. dif H as E. apply bind_Ok in H as (m & Hm%Load_parsed & [= <-]). cbn. split; [done|].
  destruct (interval <=? 0) eqn:Ei; breflect; unfold Second; lia.
Qed.
Lemma Load_valid fs f now m : Load fs f now = Ok m -> lf_NotBefore (mt_Leaf m) <= now <= lf_NotAfter (mt_Leaf m).
Proof. unfold Load. destruct (read_files fs f) as [[[cert key] ca]|]; [|done]. by intros (_ & _ & H)%Parse_Ok. Qed.
(** What a poll does to the material in force. *)
Lemma Reload_material fs fs' now r :
  match Reload fs fs' now r with
  | (r', None) => re_current r' = re_current r
  | (r', Some m) => re_current r' = m /\ Load fs' (re_files r) now = Ok m /\ lf_NotBefore (mt_Leaf m) <= now <= lf_NotAfter (mt_Leaf m)
  end.
Proof.
  unfold Reload. destruct (filesDigest _ _) as [d|]; [|done]. destruct (String.eqb _ _); [done|].
  destruct (Load fs' (re_files r) now) as [m|] eqn:E; [|done]. split_and!; [done..|by eapply Load_valid|by eapply Load_valid].
Qed.
Lemma store_cases fs fs' now r r' published : Reload fs fs' now r = (r', published) ->
  published = None /\ re_current r' = re_current r \/ published = Some (re_current r') /\ parsed (re_current r').
Proof.
  unfold Reload. destruct (filesDigest _ _) as [d|]; [|intros [= <- <-]; by left].
  destruct (String.eqb _ _); [intros [= <- <-]; by left|]. destruct (Load _ _ _) as [m|] eqn:E; [|intros [= <- <-]; by left].
  intros [= <- <-]. right. split; [done|]. by eapply Load_parsed.
Qed.

(** ** The invariant *)

(** A callback that has not run is the one of the material in force; when
    there is none, a connection whose root is not trusted was recorded by a
    handshake that spanned a reload. *)
Definition trust_inv (r : Reloader) (l : listener) : Prop :=
  parsed (re_current (ln_reloader l)) /\
  (ln_pending l = [re_current (ln_reloader l)] \/
   ln_pending l = [] /\ forall root c, tracked l root c -> trusted l root \/ exists l1, trust_run r l1 /\ rtc trust_step l1 l /\ outdated l1 c).

Lemma trust_inv_step r l l' : trust_run r l -> trust_inv r l -> trust_step l l' -> trust_inv r l'.
Proof.
  intros Hrun [Hp Hi] Hs. assert (Hl : rtc trust_step l l') by by apply rtc_once.
  assert (Hpast : forall c l1, trust_run r l1 /\ rtc trust_step l1 l /\ outdated l1 c ->
            exists l1, trust_run r l1 /\ rtc trust_step l1 l' /\ outdated l1 c).
  { intros c l1 (? & ? & ?). exists l1. split_and!; [done|by etrans|done]. }
  unfold trust_inv, tracked, trusted in *. destruct Hs; cbn in *.
  - destruct (store_cases _ _ _ _ _ _ H0) as [[-> E]|[-> Hn]]; [|by split; [|left]]. rewrite E. subst p. split; [done|].
    destruct Hi as [Hi|[_ Hi]]; [done|]. right. split; [done|]. intros root c Hc. destruct (Hi _ _ Hc) as [|(l1 & H1)]; [by left|right; by eapply Hpast].
  - split; [done|]. destruct Hi as [[= -> ->]|[? _]]; [|done]. right. split; [done|]. intros root c [Hr _]%closeRetired_tracked. by left.
  - split; [done|]. destruct Hi as [Hi|[Hi Hc]]; [by left|right; split; [done|]]. intros root c' Ht.
    destruct (Hc _ _ Ht) as [|(l1 & H1)]; [by left|right; by eapply Hpast].
  - split; [done|]. destruct Hi as [Hi|[Hi Hc]]; [by left|right; split; [done|]]. intros root c' Ht.
    destruct (Hc _ _ Ht) as [|(l1 & H1)]; [by left|right; by eapply Hpast].
  - split; [done|]. destruct Hi as [Hi|[Hi Hc]]; [by left|right; split; [done|]]. intros root' c' [[-> ->]|Ht]%add_tracked.
    + destruct (mt_Roots (re_current r0) !! fingerprint root) eqn:E; [by left|right]. eapply Hpast. split_and!; [exact Hrun|done|].
      exists m. cbn. split; [done|]. intros ->. apply TrustsRoot_spec in H0 as [? ?]. congruence.
    + destruct (Hc _ _ Ht) as [|(l1 & H1)]; [by left|right; by eapply Hpast].
  - split; [done|]. destruct Hi as [Hi|[Hi Hc]]; [by left|right; split; [done|]]. intros root' c' Ht%remove_tracked.
    destruct (Hc _ _ Ht) as [|(l1 & H1)]; [by left|right; by eapply Hpast].
Qed.
Lemma trust_run_inv r l : parsed (re_current r) -> trust_run r l -> trust_inv r l.
Proof.
  intros Hp Hr. apply (rtc_ind_r (R := trust_step) (trust_inv r) (listening r)); [| |exact Hr]; [|intros l1 l2 H1 Hs Hi].
  - split; [done|]. right. split; [done|]. intros root c Hc. unfold tracked in Hc. cbn in Hc. by apply not_elem_of_empty in Hc.
  - by eapply trust_inv_step.
Qed.

(** C28. Only trusted connections stay. From a reloader that started, over any
    polls, handshakes and closes in any interleaving, the material in force is
    what one set of files parsed to as a whole, at an instant within its leaf's
    validity (it stays in force when it expires), and trusts at least one root,
    each a CA under its own fingerprint. A poll either leaves the material in
    force, or puts the one its files hold in force, valid at the time of the
    poll. Whenever no callback is outstanding, every tracked connection was
    verified by a root the current material trusts, except one whose handshake
    had taken a material that was replaced before the connection was recorded;
    and a callback drops every connection of a root it does not trust. *)
Theorem only_trusted_connections_stay fs f interval now r l :
  New fs f interval now = Ok r -> trust_run r l ->
  let m := re_current (ln_reloader l) in
  (exists cert key ca at_, Parse cert key ca at_ = Ok m /\ lf_NotBefore (mt_Leaf m) <= at_ <= lf_NotAfter (mt_Leaf m)) /\
  mt_Roots m <> ∅ /\ (forall fp ca, mt_Roots m !! fp = Some ca -> ca_IsCA ca = true /\ fp = fingerprint ca) /\
  (forall fs1 fs2 at_, match Reload fs1 fs2 at_ (ln_reloader l) with
     | (r', None) => re_current r' = m
     | (r', Some m') => re_current r' = m' /\ Load fs2 (re_files (ln_reloader l)) at_ = Ok m' /\
         lf_NotBefore (mt_Leaf m') <= at_ <= lf_NotAfter (mt_Leaf m')
     end) /\
  (ln_pending l = [] \/ ln_pending l = [m]) /\
  (ln_pending l = [] -> forall root c, tracked l root c ->
     trusted l root \/ exists l1, trust_run r l1 /\ rtc trust_step l1 l /\ outdated l1 c) /\
  (forall t root c, c ∈ default ∅ (closeRetired m t !! root) -> trusted l root).
Proof.
  intros [Hp _]%New_parsed Hr. destruct (trust_run_inv _ _ Hp Hr) as [Hm Hi]. cbv zeta.
  destruct Hm as (cert & key & ca & at_ & Hm). pose proof (Parse_Ok _ _ _ _ _ Hm) as (Hne & Hca & Hleaf).
  split; [by exists cert, key, ca, at_|]. split; [done|]. split; [done|].
  split; [intros fs1 fs2 t; apply Reload_material|]. split; [by destruct Hi as [->|[-> _]]; auto|]. split.
  - intros E. destruct Hi as [Hi|[_ Hi]]; [by rewrite Hi in E|exact Hi].
  - by intros t root c [Hr' _]%closeRetired_tracked.
Qed.
End Trust.

(** ** A listener *)

(** A key pair is valid from 0 to 100; a bundle is one CA. *)
Definition demo_pair (cert key : bytes) : option Leaf := if String.eqb cert key then Some (mkLeaf 0 100 []) else None.
Definition demo_blocks (ca : bytes) : list (string * option CACert) := [("CERTIFICATE", Some (mkCACert ca true))].
Definition mounted (ca path : string) : option bytes := if String.eqb path "/ca" then Some ca else Some "pair".
Definition id_files : Files := mkFiles "/cert" "/key" "/ca".
Definition fingerprint_old : string := Eval vm_compute in sha256_hex "old".
Definition fingerprint_new : string := Eval vm_compute in sha256_hex "new".
Definition digest_old : string := Eval vm_compute in material_digest "pair" "pair" "old".
Definition digest_new : string := Eval vm_compute in material_digest "pair" "pair" "new".
Definition material_old : Material := mkMaterial (mkLeaf 0 100 []) {[ fingerprint_old := mkCACert "old" true ]} digest_old.
Definition material_new : Material := mkMaterial (mkLeaf 0 100 []) {[ fingerprint_new := mkCACert "new" true ]} digest_new.
Definition reloader_of (m : Material) : Reloader := mkReloader id_files (5 * Second) m 0.
Lemma reloader_starts : New demo_pair demo_blocks (mounted "old") id_files 0 50 = Ok (reloader_of material_old).
Proof. vm_compute. reflexivity. Qed.
Lemma reloader_rotates : Reload demo_pair demo_blocks (mounted "new") (mounted "new") 60 (reloader_of material_old) =
  (reloader_of material_new, Some material_new).
Proof. vm_compute. reflexivity. Qed.

Definition old_root : CACert := mkCACert "old" true.
Definition demo_step := trust_step demo_pair demo_blocks.
(** A handshake that spans a rotation is recorded after the retired root's
    connections were closed, and stays. *)
Definition late_listener : listener := mkListener (reloader_of material_new) (add (fingerprint old_root) 7 ∅) [] (delete 7%nat {[ 7%nat := material_old ]}).
Lemma late_connection : rtc demo_step (listening (reloader_of material_old)) late_listener /\
  tracked late_listener fingerprint_old 7 /\ mt_Roots material_new !! fingerprint_old = None.
Proof.
  split; [|split; [vm_compute; reflexivity|vm_compute; reflexivity]].
  eapply rtc_l; [apply ts_begin with (c := 7%nat); [done|intros root; unfold connTracker; rewrite lookup_empty; apply not_elem_of_empty]|].
  eapply rtc_l; [eapply ts_poll; [done|exact reloader_rotates]|]. eapply rtc_l; [apply ts_close|].
  eapply rtc_l; [eapply ts_verified with (c := 7%nat) (m := material_old) (root := old_root); [by apply lookup_insert_eq|by vm_compute]|].
  apply rtc_refl.
Qed.
(** A connection that the material in force verified. *)
Definition open_listener : listener := mkListener (reloader_of material_old) (add (fingerprint old_root) 7 ∅) [] (delete 7%nat {[ 7%nat := material_old ]}).
Lemma open_connection : trust_run demo_pair demo_blocks (reloader_of material_old) open_listener.
Proof.
  eapply rtc_l; [apply ts_begin with (c := 7%nat); [done|intros root; unfold connTracker; rewrite lookup_empty; apply not_elem_of_empty]|].
  eapply rtc_l; [eapply ts_verified with (c := 7%nat) (m := material_old) (root := old_root); [by apply lookup_insert_eq|by vm_compute]|].
  apply rtc_refl.
Qed.
(** A connection is tracked, and is trusted by the material that verified it
    or spanned a reload; and a poll of the rotated files is valid at its time. *)
Lemma only_trusted_connections_stay_witness :
  tracked open_listener fingerprint_old 7 /\
  (trusted open_listener fingerprint_old \/ exists l1, trust_run demo_pair demo_blocks (reloader_of material_old) l1 /\
     rtc demo_step l1 open_listener /\ outdated l1 7) /\
  lf_NotBefore (mt_Leaf material_new) <= 60 <= lf_NotAfter (mt_Leaf material_new).
Proof.
  destruct (only_trusted_connections_stay demo_pair demo_blocks (mounted "old") id_files 0 50 (reloader_of material_old)
    open_listener reloader_starts open_connection) as (_ & _ & _ & Hpoll & _ & Ht & _).
  assert (tracked open_listener fingerprint_old 7) as H by (vm_compute; reflexivity).
  split; [exact H|]. split; [exact (Ht eq_refl _ _ H)|].
  pose proof (Hpoll (mounted "new") (mounted "new") 60) as Hr. change (ln_reloader open_listener) with (reloader_of material_old) in Hr. rewrite reloader_rotates in Hr. exact (proj2 (proj2 Hr)).
Defined.
