(* ===== verification/GoTime.v ===== *)
(** * GoTime: instants read from texts

    [time.Parse] with the layouts [RFC3339] and [RFC3339Nano], which read the
    same texts, and [Time.Format] in the time's own zone.  A parsed time is its
    instant and the offset of its zone in seconds. *)

From S2P Require Import Prelude GoStrings GoJson GoNum.
From Stdlib Require Import Ascii.

(** ** Calendar *)

(** The day number of a civil date, the inverse of [civil]. *)
Definition days_from_civil (y m d : Z) : Z :=
  let y' := if m <=? 2 then y - 1 else y in
  let era := y' / 400 in let yoe := y' mod 400 in
  let doy := (153 * (if m <=? 2 then m + 9 else m - 3) + 2) / 5 + d - 1 in
  era * 146097 + yoe * 365 + yoe / 4 - yoe / 100 + doy - 719468.
Definition is_leap (y : Z) : bool := (y mod 4 =? 0) && (negb (y mod 100 =? 0) || (y mod 400 =? 0)).
Definition days_in (m y : Z) : Z :=
  if m =? 2 then (if is_leap y then 29 else 28)
  else if existsb (Z.eqb m) [4; 6; 9; 11] then 30 else 31.

(** ** The parser *)

Definition digit (b : Z) : Z := b - 48.
(** [getnum]: two digits, or one where the field is not fixed. *)
Definition getnum (fixed : bool) (l : list Z) : option (Z * list Z) :=
  match l with
  | a :: r =>
      if negb (is_digit a) then None
      else match r with
           | b :: r' => if is_digit b then Some (digit a * 10 + digit b, r') else if fixed then None else Some (digit a, r)
           | [] => if fixed then None else Some (digit a, r)
           end
  | [] => None
  end.
Definition year (l : list Z) : option (Z * list Z) :=
  match l with
  | a :: b :: c :: d :: r =>
      if forallb is_digit [a; b; c; d] then Some (digit a * 1000 + digit b * 100 + digit c * 10 + digit d, r) else None
  | _ => None
  end.
Definition literal (c : Z) (l : list Z) : option (list Z) :=
  match l with b :: r => if b =? c then Some r else None | [] => None end.
Definition in_range (lo hi x : Z) : option unit := if (lo <=? x) && (x <=? hi) then Some tt else None.

(** A fraction after the seconds, to the nanosecond; further digits are
    dropped. *)
Definition fraction (l : list Z) : Z * list Z :=
  match l with
  | c :: ((d :: _) as r) =>
      if ((c =? 46) || (c =? 44)) && is_digit d then
        let '(digits, rest) := take_digits r in
        let kept := firstn 9 digits in
        (fold_left (fun a b => a * 10 + digit b) kept 0 * 10 ^ (9 - Z.of_nat (List.length kept)), rest)
      else (0, l)
  | _ => (0, l)
  end.
(** [Z], or a signed offset with a colon. *)
Definition zone (l : list Z) : option (Z * list Z) :=
  match l with
  | 90 :: r => Some (0, r)
  | sign :: h1 :: h2 :: 58 :: m1 :: m2 :: r =>
      '(h, _) ← getnum true [h1; h2]; '(m, _) ← getnum true [m1; m2];
      _ ← in_range 0 24 h; _ ← in_range 0 60 m;
      let offset := (h * 60 + m) * 60 in
      if sign =? 43 then Some (offset, r) else if sign =? 45 then Some (- offset, r) else None
  | _ => None
  end.

Definition ParseRFC3339 (s : string) : option (Time * Z) :=
  '(y, l) ← year (bytes_of s); l ← literal 45 l;
  '(mo, l) ← getnum true l; _ ← in_range 1 12 mo; l ← literal 45 l;
  '(d, l) ← getnum true l; l ← literal 84 l;
  '(h, l) ← getnum false l; _ ← in_range 0 23 h; l ← literal 58 l;
  '(mi, l) ← getnum true l; _ ← in_range 0 59 mi; l ← literal 58 l;
  '(sec, l) ← getnum true l; _ ← in_range 0 59 sec;
  let '(nsec, l) := fraction l in
  '(offset, l) ← zone l;
  _ ← in_range 1 (days_in mo y) d;
  match l with
  | [] => Some ((days_from_civil y mo d * 86400 + h * 3600 + mi * 60 + sec - offset) * Second + nsec, offset)
  | _ => None
  end.

(** ** Formatting *)

(** [t.Format(time.RFC3339Nano)] in the zone of [offset]. *)
Definition format_zone (offset : Z) : string :=
  if offset =? 0 then "Z"
  else
    let m := Z.abs offset / 60 in
    (if offset <? 0 then "-" else "+") +:+ pad 2 (m / 60) +:+ ":" +:+ pad 2 (m mod 60).
Definition FormatNano (t : Time * Z) : string :=
  let frac := trim_zeros (pad 9 (t.1 mod Second)) in
  format_seconds (t.1 + t.2 * Second) +:+ (if String.eqb frac "" then "" else "." +:+ frac) +:+ format_zone t.2.

Example parsed_instants :
  map ParseRFC3339 ["2023-11-14T22:13:20Z"; "2023-11-14T23:13:20.5+01:00"; "2024-02-29T1:02:03,000000001Z"; "2023-02-29T00:00:00Z";
                    "2023-11-14T22:13:20"; "2023-11-14 22:13:20Z"] =
  [Some (1700000000 * Second, 0); Some (1700000000 * Second + 500000000, 3600); Some (1709168523 * Second + 1, 0); None; None; None].
Proof. vm_compute. reflexivity. Qed.
Example formatted_instants :
  map FormatNano [(1700000000 * Second, 3600); (1700000000 * Second + 5000, - 19800); (zero_time, 0)] =
  ["2023-11-14T23:13:20+01:00"; "2023-11-14T16:43:20.000005-05:30"; "0001-01-01T00:00:00Z"].
Proof. vm_compute. reflexivity. Qed.
