(* ===== verification/Config.v ===== *)
(** * Config: one validated configuration ([internal/config/config.go])

    The sections of a configuration with the source's fields, the rules a
    candidate is checked against as a whole, and what is derived from a valid
    one.  A failed rule is the text of its message up to the formatted values;
    a check that concerns several settings names the first. *)

From S2P Require Import Prelude Errors GoStrings GoTrim GoCrypto GoJson GoUrl Identity.

(** ** Sections *)

Record ClientTLS := mkClientTLS {
  ct_Mode : string; ct_CAFile : string; ct_CertFile : string; ct_KeyFile : string; ct_ServerName : string }.
(** A slice: [reflect.DeepEqual] tells the nil slice from an empty one. *)
Inductive slice (A : Type) := Nil | Items (l : list A).
Arguments Nil {A}.
Arguments Items {A}.
Definition items {A} (s : slice A) : list A := match s with Nil => [] | Items l => l end.
#[export] Instance slice_eq_dec {A} `{EqDecision A} : EqDecision (slice A). Proof. solve_decision. Defined.

Record ServerIdentity := mkServerIdentity {
  si_Mode : string; si_TrustDomain : string; si_CertFile : string; si_KeyFile : string; si_CAFile : string;
  si_MaxConnectionAge : Duration; si_ReloadInterval : Duration }.
Record ClientIdentity := mkClientIdentity { ci_Mode : string; ci_MTLS : ClientTLS }.
Record GRPC := mkGRPC {
  gr_Listen : string; gr_Capacity : Z; gr_ShutdownTimeout : Duration; gr_Identity : ServerIdentity }.
Record Database := mkDatabase { db_URL : string; db_URLFile : string; db_MaxConn : Z }.
Record TaskBounds := mkTaskBounds {
  tk_MaxInputBytes : Z; tk_MaxLease : Duration; tk_RetryDelay : Duration; tk_MaxAttempts : Z; tk_SweepInterval : Duration }.
Record Retention := mkRetention {
  rt_Outbox : Duration; rt_Inbox : Duration; rt_Attempts : Duration; rt_Interval : Duration; rt_Batch : Z }.
Record NATS := mkNATS {
  na_URL : string; na_PublishTimeout : Duration; na_Name : string; na_TLS : ClientTLS; na_CredsFile : string;
  na_CredsKind : string }.
Record Outbox := mkOutbox {
  ob_ForwarderEnabled : bool; ob_ConsumerGroup : string; ob_PollInterval : Duration; ob_AckDeadline : Duration;
  ob_ResendInterval : Duration; ob_BatchSize : Z; ob_NATS : NATS }.
Record ControlPlacement := mkControl { co_Address : string; co_Timeout : Duration; co_Identity : ClientIdentity }.
Record Apollo := mkApollo { ap_Mode : string; ap_SnapshotFile : string; ap_AppID : string }.
Record ReloadBounds := mkReload { rl_Interval : Duration; rl_DrainLimit : Duration }.
Record ContextForge := mkContextForge {
  cf_URL : string; cf_TokenFile : string; cf_Timeout : Duration; cf_CAFile : string; cf_ServerName : string }.
Record CatalogBounds := mkCatalog {
  ca_ContextForge : ContextForge; ca_AllowedHosts : slice string; ca_PrivateHosts : slice string; ca_RolesFile : string;
  ca_RefreshInterval : Duration }.
Record BarrierBounds := mkBarrierBounds { ba_ReconcileInterval : Duration; ba_ReconcileAge : Duration }.
Record Route := mkRoute { ro_Resource : string; ro_ProtocolVersion : string; ro_Transport : string; ro_Route : string }.
Record CallBounds := mkCalls {
  cl_QualifiedRoutes : slice Route; cl_SendTimeout : Duration; cl_Wait : Duration; cl_MaxResponseBytes : Z;
  cl_ReconcileInterval : Duration; cl_ReconcileAge : Duration; cl_CredentialsFile : string }.

(** A [float64]: [m * 2^e] when finite. *)
Inductive float64 := NaN | Inf (negative : bool) | Finite (m e : Z).
Record Telemetry := mkTelemetry { te_OTLPEndpoint : string; te_SampleRatio : float64; te_OTLPTLS : ClientTLS }.

Record Config := mkConfig {
  c_Development : bool; c_Telemetry : Telemetry; c_GRPC : GRPC; c_Health : string; c_Database : Database;
  c_Tasks : TaskBounds; c_Outbox : Outbox; c_Retention : Retention; c_Control : ControlPlacement; c_Apollo : Apollo;
  c_Reload : ReloadBounds; c_Catalog : CatalogBounds; c_Barrier : BarrierBounds; c_Calls : CallBounds }.

#[export] Instance ClientTLS_eq_dec : EqDecision ClientTLS. Proof. solve_decision. Defined.
#[export] Instance ServerIdentity_eq_dec : EqDecision ServerIdentity. Proof. solve_decision. Defined.
#[export] Instance ClientIdentity_eq_dec : EqDecision ClientIdentity. Proof. solve_decision. Defined.
#[export] Instance GRPC_eq_dec : EqDecision GRPC. Proof. solve_decision. Defined.
#[export] Instance Retention_eq_dec : EqDecision Retention. Proof. solve_decision. Defined.
#[export] Instance ControlPlacement_eq_dec : EqDecision ControlPlacement. Proof. solve_decision. Defined.
#[export] Instance Apollo_eq_dec : EqDecision Apollo. Proof. solve_decision. Defined.
#[export] Instance ContextForge_eq_dec : EqDecision ContextForge. Proof. solve_decision. Defined.
#[export] Instance CatalogBounds_eq_dec : EqDecision CatalogBounds. Proof. solve_decision. Defined.
#[export] Instance BarrierBounds_eq_dec : EqDecision BarrierBounds. Proof. solve_decision. Defined.
#[export] Instance Route_eq_dec : EqDecision Route. Proof. solve_decision. Defined.
#[export] Instance CallBounds_eq_dec : EqDecision CallBounds. Proof. solve_decision. Defined.
#[export] Instance float64_eq_dec : EqDecision float64. Proof. solve_decision. Defined.
#[export] Instance Telemetry_eq_dec : EqDecision Telemetry. Proof. solve_decision. Defined.

(** ** Rules *)

Definition float_negative (f : float64) : bool :=
  match f with NaN => false | Inf neg => neg | Finite m _ => m <? 0 end.
Definition float_above_one (f : float64) : bool :=
  match f with
  | NaN => false
  | Inf neg => negb neg
  | Finite m e => if 0 <=? e then 1 <? m * 2 ^ e else 2 ^ (- e) <? m
  end.

Definition check (ok : bool) (message : string) : list string := if ok then [] else [message].
(** [lo <= x <= hi], and [0 < x <= hi]. *)
Definition within (lo hi x : Z) : bool := (lo <=? x) && (x <=? hi).
Definition positive_to (hi x : Z) : bool := (0 <? x) && (x <=? hi).
Definition set (s : string) : bool := negb (String.eqb s "").
Definition scheme_in (schemes : list string) (u : option URL) : bool :=
  match u with Some u => existsb (String.eqb (u_Scheme u)) schemes | None => false end.
Definition has_host (u : option URL) : bool := match u with Some u => set (u_Host u) | None => false end.

Definition ApolloDisabled : string := "disabled".
Definition ApolloModeSnapshot : string := "snapshot".

(** The database connection: a postgres URL, whose last [sslmode] verifies the
    server outside development. *)
Definition check_database (development : bool) (d : Database) : list string :=
  check (set (db_URL d)) "database.url is required" ++
  (if set (db_URL d) then
     let u := Parse_URL (db_URL d) in
     let isURL := scheme_in ["postgres"; "postgresql"] u in
     check isURL "database.url must be a postgres URL" ++
     match u with
     | Some u =>
         if isURL && negb development then
           let q := Query u in
           check (String.eqb (List.last (query_values q "sslmode") "") "verify-full") "database.url: sslmode must be verify-full" ++
           check (negb (query_Has q "ssl")) "database.url: the ssl parameter is not accepted"
         else []
     | None => []
     end
   else []) ++
  check (within 1 256 (db_MaxConn d)) "database.max_conn must be within [1, 256]".

Definition check_tasks (t : TaskBounds) : list string :=
  check (positive_to 65536 (tk_MaxInputBytes t)) "tasks.max_input_bytes must be within (0, 65536]" ++
  check (positive_to Hour (tk_MaxLease t)) "tasks.max_lease must be within (0, 1h]" ++
  check (within 0 Hour (tk_RetryDelay t)) "tasks.retry_delay must be within [0, 1h]" ++
  check (within 1 100 (tk_MaxAttempts t)) "tasks.max_attempts must be within [1, 100]" ++
  check (positive_to Minute (tk_SweepInterval t)) "tasks.sweep_interval must be within (0, 1m]" ++
  check (tk_SweepInterval t <? tk_MaxLease t) "tasks.sweep_interval must be shorter than tasks.max_lease".
(** The three retentions are checked in the order of a map. *)
Definition check_retention (r : Retention) : list string :=
  check (within Hour (2160 * Hour) (rt_Outbox r)) "retention.outbox outside [1h, 2160h]" ++
  check (within Hour (2160 * Hour) (rt_Inbox r)) "retention.inbox outside [1h, 2160h]" ++
  check (within Hour (2160 * Hour) (rt_Attempts r)) "retention.attempts outside [1h, 2160h]" ++
  check (within Minute (24 * Hour) (rt_Interval r)) "retention.interval outside [1m, 24h]" ++
  check (within 1 10000 (rt_Batch r)) "retention.batch outside [1, 10000]".
Definition check_outbox (o : Outbox) : list string :=
  check (set (ob_ConsumerGroup o)) "outbox.consumer_group is required" ++
  check (positive_to Minute (ob_PollInterval o)) "outbox.poll_interval must be within (0, 1m]" ++
  check (positive_to (5 * Minute) (ob_AckDeadline o)) "outbox.ack_deadline must be within (0, 5m]" ++
  check (positive_to Minute (ob_ResendInterval o)) "outbox.resend_interval must be within (0, 1m]" ++
  check (within 1 1000 (ob_BatchSize o)) "outbox.batch_size must be within [1, 1000]" ++
  check (negb (ob_ForwarderEnabled o) || set (na_URL (ob_NATS o))) "outbox.nats.url is required while the forwarder is enabled" ++
  (if set (na_URL (ob_NATS o))
   then check (scheme_in ["nats"; "tls"] (Parse_URL (na_URL (ob_NATS o)))) "outbox.nats.url must be a nats:// or tls:// URL" else []) ++
  check (positive_to Minute (na_PublishTimeout (ob_NATS o))) "outbox.nats.publish_timeout must be within (0, 1m]".
Definition check_catalog (development : bool) (c : CatalogBounds) : list string :=
  let cf := ca_ContextForge c in
  (if set (cf_URL cf) then
     let u := Parse_URL (cf_URL cf) in
     check (scheme_in ["http"; "https"] u && has_host u) "catalog.contextforge.url must be an http(s) URL" ++
     check (set (cf_TokenFile cf)) "catalog.contextforge.token_file is required with catalog.contextforge.url" ++
     check (match u with None => true | Some _ => scheme_in ["https"] u || development end)
       "catalog.contextforge.url must be https outside development"
   else []) ++
  check (positive_to (5 * Minute) (cf_Timeout cf)) "catalog.contextforge.timeout must be within (0, 5m]" ++
  check ((List.length (items (ca_PrivateHosts c)) =? 0)%nat || development) "catalog.private_hosts requires development.enabled" ++
  check ((ca_RefreshInterval c =? 0) || within Minute (7 * 24 * Hour) (ca_RefreshInterval c))
    "catalog.refresh_interval must be 0 or within [1m, 168h]".
Definition check_route (r : Route) : list string :=
  let u := Parse_URL (ro_Resource r) in
  check (has_host u && scheme_in ["https"; "http"] u) "calls.qualified_routes[].resource must be an absolute http(s) URL" ++
  check (set (ro_ProtocolVersion r)) "calls.qualified_routes[].protocol_version is required" ++
  check (String.eqb (ro_Transport r) "streamable-http") "calls.qualified_routes[].transport must be streamable-http" ++
  check (String.eqb (ro_Route r) "go-sdk") "calls.qualified_routes[].route must be go-sdk".
Definition check_calls (c : CallBounds) : list string :=
  check (positive_to (10 * Minute) (cl_SendTimeout c)) "calls.send_timeout must be within (0, 10m]" ++
  check (within 0 (10 * Minute) (cl_Wait c)) "calls.wait must be within [0, 10m]" ++
  check (within 1024 (2 ^ 20) (cl_MaxResponseBytes c)) "calls.max_response_bytes must be within [1 KiB, 1 MiB]" ++
  check (positive_to Minute (cl_ReconcileInterval c)) "calls.reconcile_interval must be within (0, 1m]" ++
  check ((cl_SendTimeout c <? cl_ReconcileAge c) && (cl_ReconcileAge c <=? Hour))
    "calls.reconcile_age must exceed calls.send_timeout and be at most 1h" ++
  flat_map check_route (items (cl_QualifiedRoutes c)).

(** *** Identity and the outbound transports *)

Definition ClientTLS_validate (t : ClientTLS) (name : string) (development : bool) : list string :=
  if String.eqb (ct_Mode t) "development" then
    check development (name +:+ ".mode development (plaintext) requires development.enabled: true")
  else if String.eqb (ct_Mode t) "tls" then check (set (ct_CAFile t)) (name +:+ ".ca_file is required")
  else if String.eqb (ct_Mode t) "mtls" then
    check (set (ct_CAFile t) && set (ct_CertFile t) && set (ct_KeyFile t)) (name +:+ ".ca_file, cert_file and key_file are required")
  else [name +:+ ".mode is not one of development, tls, mtls"].

(** The Control client's material: its own files or the listener's. *)
Definition ControlMTLS (c : Config) : ClientTLS :=
  let m := ci_MTLS (co_Identity (c_Control c)) in
  let id := gr_Identity (c_GRPC c) in
  if negb (set (ct_CertFile m)) && negb (set (ct_KeyFile m)) && negb (set (ct_CAFile m))
  then mkClientTLS (ct_Mode m) (si_CAFile id) (si_CertFile id) (si_KeyFile id) (ct_ServerName m)
  else m.
Definition DevelopmentTrustDomain : string := "anvilkit.local".
Definition TrustDomain (c : Config) : string :=
  if set (si_TrustDomain (gr_Identity (c_GRPC c))) then si_TrustDomain (gr_Identity (c_GRPC c)) else DevelopmentTrustDomain.

Definition check_listener_identity (development : bool) (id : ServerIdentity) : list string :=
  (if String.eqb (si_Mode id) "mtls" then
     check (set (si_CertFile id) && set (si_KeyFile id) && set (si_CAFile id))
       "grpc.identity.cert_file, key_file and ca_file are required under grpc.identity.mode mtls"
   else if String.eqb (si_Mode id) "development" then
     check development "grpc.identity.mode development requires development.enabled: true"
   else ["grpc.identity.mode is not one of mtls, development"]) ++
  (if negb (set (si_TrustDomain id)) then
     if development then [] else ["grpc.identity.trust_domain is required outside development"]
   else check (ValidTrustDomain (si_TrustDomain id)) "grpc.identity.trust_domain is not a lowercase DNS name") ++
  check (within Minute (24 * Hour) (si_MaxConnectionAge id)) "grpc.identity.max_connection_age outside [1m, 24h]" ++
  check (within (100 * Millisecond) Hour (si_ReloadInterval id)) "grpc.identity.reload_interval outside [100ms, 1h]".
Definition check_control_identity (c : Config) : list string :=
  let mode := ci_Mode (co_Identity (c_Control c)) in
  let placed := set (co_Address (c_Control c)) in
  if String.eqb mode "mtls" then
    let m := ControlMTLS c in
    check (negb (placed && (negb (set (ct_CertFile m)) || negb (set (ct_KeyFile m)) || negb (set (ct_CAFile m)))))
      "control.identity.mtls.cert_file, key_file and ca_file are required under control.identity.mode mtls" ++
    check (set (ct_ServerName m)) "control.identity.mtls.server_name is required"
  else if String.eqb mode "development" then
    check (negb (placed && negb (c_Development c))) "control.identity.mode development requires development.enabled: true"
  else ["control.identity.mode is not one of mtls, development"].
Definition validateIdentity (c : Config) : list string :=
  check_listener_identity (c_Development c) (gr_Identity (c_GRPC c)) ++
  check_control_identity c ++
  (if ob_ForwarderEnabled (c_Outbox c) then
     ClientTLS_validate (na_TLS (ob_NATS (c_Outbox c))) "outbox.nats.tls" (c_Development c) ++
     check (negb (negb (set (na_CredsFile (ob_NATS (c_Outbox c)))) && negb (c_Development c)))
       "outbox.nats.creds_file is required outside development"
   else []) ++
  (if set (te_OTLPEndpoint (c_Telemetry c))
   then ClientTLS_validate (te_OTLPTLS (c_Telemetry c)) "telemetry.otlp_tls" (c_Development c) else []).

(** The rules a candidate breaks; it is admitted when there is none. *)
Definition validate (c : Config) : list string :=
  check (negb (float_negative (te_SampleRatio (c_Telemetry c)) || float_above_one (te_SampleRatio (c_Telemetry c))))
    "telemetry.sample_ratio outside [0, 1]" ++
  check (set (gr_Listen (c_GRPC c))) "grpc.listen is required" ++
  check (positive_to 4096 (gr_Capacity (c_GRPC c))) "grpc.capacity must be within [1, 4096]" ++
  check (positive_to (5 * Minute) (gr_ShutdownTimeout (c_GRPC c))) "grpc.shutdown_timeout must be within (0, 5m]" ++
  check (set (c_Health c)) "health.listen is required" ++
  check (negb (String.eqb (c_Health c) (gr_Listen (c_GRPC c)))) "health.listen must not be grpc.listen" ++
  validateIdentity c ++
  check_database (c_Development c) (c_Database c) ++
  check_tasks (c_Tasks c) ++ check_retention (c_Retention c) ++ check_outbox (c_Outbox c) ++
  check (positive_to Minute (co_Timeout (c_Control c))) "control.timeout must be within (0, 1m]" ++
  check (String.eqb (ap_Mode (c_Apollo c)) ApolloDisabled || String.eqb (ap_Mode (c_Apollo c)) ApolloModeSnapshot)
    "apollo.mode must be disabled or snapshot" ++
  check (negb (String.eqb (ap_Mode (c_Apollo c)) ApolloModeSnapshot) || set (ap_SnapshotFile (c_Apollo c)))
    "apollo.snapshot_file is required in snapshot mode" ++
  check (set (ap_AppID (c_Apollo c))) "apollo.app_id is required" ++
  check (positive_to Minute (rl_Interval (c_Reload c))) "reload.interval must be within (0, 1m]" ++
  check (positive_to (10 * Minute) (rl_DrainLimit (c_Reload c))) "reload.drain_limit must be within (0, 10m]" ++
  check_catalog (c_Development c) (c_Catalog c) ++
  check (positive_to Minute (ba_ReconcileInterval (c_Barrier c))) "barrier.reconcile_interval must be within (0, 1m]" ++
  check (within 0 Hour (ba_ReconcileAge (c_Barrier c))) "barrier.reconcile_age must be within [0, 1h]" ++
  check_calls (c_Calls c).
