(* ===== verification/ConfigLoad.v ===== *)
(** * ConfigLoad: from the inputs to a generation ([internal/config])

    The reviewed file, the snapshot of the central configuration
    ([apollo.go]), the environment and the mounted secrets, merged in their
    order, decoded, checked and digested ([LoadFrom]).  koanf, its YAML parser
    and mapstructure are an interface; the process's files, environment and
    clock are arguments. *)

From S2P Require Import Prelude Errors GoStrings GoTrim GoCrypto GoJson GoNum GoTime GoUrl Identity Config.
From Stdlib Require Import Ascii.

(** ** Snapshots *)

Record ApolloSnapshot := mkApolloSnapshot {
  as_SchemaVersion : Z; as_AppID : string; as_Cluster : string; as_Namespace : string; as_ReleaseKey : string;
  as_FetchedAt : string; as_ExpiresAt : string; as_Configurations : option (gmap string string) }.
#[export] Instance ApolloSnapshot_eta : Settable ApolloSnapshot := fun s =>
  mkApolloSnapshot (as_SchemaVersion s) (as_AppID s) (as_Cluster s) (as_Namespace s) (as_ReleaseKey s) (as_FetchedAt s)
    (as_ExpiresAt s) (as_Configurations s).

Fixpoint decode_texts (kv : list (string * json)) (m : gmap string string) : option (gmap string string) :=
  match kv with
  | [] => Some m
  | (k, v) :: r => s ← decode_string "" v; decode_texts r (<[k := s]> m)
  end.
Definition snapshot_fields : list string :=
  ["schemaVersion"; "appId"; "cluster"; "namespace"; "releaseKey"; "fetchedAt"; "expiresAt"; "configurations"].
Definition assign_snapshot (f : string) (v : json) (s : ApolloSnapshot) : option ApolloSnapshot :=
  if String.eqb f "schemaVersion" then n ← decode_int (as_SchemaVersion s) v; Some (s <| as_SchemaVersion := n |>)
  else if String.eqb f "appId" then t ← decode_string (as_AppID s) v; Some (s <| as_AppID := t |>)
  else if String.eqb f "cluster" then t ← decode_string (as_Cluster s) v; Some (s <| as_Cluster := t |>)
  else if String.eqb f "namespace" then t ← decode_string (as_Namespace s) v; Some (s <| as_Namespace := t |>)
  else if String.eqb f "releaseKey" then t ← decode_string (as_ReleaseKey s) v; Some (s <| as_ReleaseKey := t |>)
  else if String.eqb f "fetchedAt" then t ← decode_string (as_FetchedAt s) v; Some (s <| as_FetchedAt := t |>)
  else if String.eqb f "expiresAt" then t ← decode_string (as_ExpiresAt s) v; Some (s <| as_ExpiresAt := t |>)
  else match v with
       | JNull => Some (s <| as_Configurations := None |>)
       | JObj kv => m ← decode_texts kv (default ∅ (as_Configurations s)); Some (s <| as_Configurations := Some m |>)
       | _ => None
       end.
(** [Decode] of the first value, and the bytes after it. *)
Definition decode_snapshot (raw : bytes) : option (ApolloSnapshot * list Z) :=
  '(v, rest) ← parse_value (2 * String.length raw + 3) 0 (bytes_of raw);
  s ← decode_struct snapshot_fields true assign_snapshot v (mkApolloSnapshot 0 "" "" "" "" "" "" None);
  Some (s, rest).
(** [Decoder.More]: another element follows, closing brackets apart. *)
Definition More (rest : list Z) : bool :=
  match skip_ws rest with b :: _ => negb ((b =? 93) || (b =? 125)) | [] => false end.

(** [^[0-9]{14}-[0-9a-f]{12}$] *)
Definition hex_byte (b : Z) : bool := is_digit b || ((97 <=? b) && (b <=? 102)).
Definition releaseKey_Match (s : string) : bool :=
  match split_at_byte "-"%char s with
  | [a; b] => (String.length a =? 14)%nat && forallb is_digit (bytes_of a) && (String.length b =? 12)%nat && forallb hex_byte (bytes_of b)
  | _ => false
  end.
(** Names of lower-case letters, digits and underscores, joined by dots. *)
Definition key_byte (b : Z) : bool := is_digit b || ((97 <=? b) && (b <=? 122)) || (b =? 95).
Definition key_label (s : string) : bool :=
  match bytes_of s with b :: _ => (97 <=? b) && (b <=? 122) && forallb key_byte (bytes_of s) | [] => false end.
Definition configKey_Match (s : string) : bool := forallb key_label (split_at_byte Dot s).
(** The last part of a key names a secret or a placement. *)
Definition secret_names : list string :=
  ["url"; "url_file"; "address"; "token"; "secret"; "password"; "access_key_id"; "secret_access_key"; "snapshot_file"].
Definition secretKey_Match (s : string) : bool := slices_Contains secret_names (List.last (split_at_byte Dot s) "").

Definition ParseApolloSnapshot (raw : bytes) (appID : string) (now : Time) : res ApolloSnapshot :=
  match decode_snapshot raw with
  | None => Fail ErrOther
  | Some (s, rest) =>
      if More rest then Fail ErrOther
      else if negb (as_SchemaVersion s =? 1) then Fail ErrOther
      else if negb (String.eqb (as_AppID s) appID) then Fail ErrOther
      else if String.eqb (as_Cluster s) "" || String.eqb (as_Namespace s) "" then Fail ErrOther
      else if negb (releaseKey_Match (as_ReleaseKey s)) then Fail ErrOther
      else match as_Configurations s with
      | None => Fail ErrOther
      | Some values =>
          match ParseRFC3339 (as_FetchedAt s), ParseRFC3339 (as_ExpiresAt s) with
          | Some (fetched, _), Some (expires, _) =>
              if negb (After expires fetched) then Fail ErrOther
              else if negb (After expires now) then Fail ErrOther
              else if forallb (fun kv => configKey_Match kv.1 && negb (secretKey_Match kv.1)) (map_to_list values)
              then Ok s else Fail ErrOther
          | _, _ => Fail ErrOther
          end
      end
  end.

(** ** Keys *)

Definition envPrefix : string := "ANVILKIT_MCP_".
Definition EnvConfigFile : string := "ANVILKIT_MCP_CONFIG".
Definition DefaultConfigFile : string := "config.yaml".
Definition envOverrides : list (string * string) :=
  [("ANVILKIT_MCP_LISTEN", "grpc.listen"); ("ANVILKIT_MCP_HEALTH_LISTEN", "health.listen");
   ("ANVILKIT_MCP_IDENTITY_CERT_FILE", "grpc.identity.cert_file"); ("ANVILKIT_MCP_IDENTITY_KEY_FILE", "grpc.identity.key_file");
   ("ANVILKIT_MCP_IDENTITY_CA_FILE", "grpc.identity.ca_file");
   ("ANVILKIT_MCP_IDENTITY_TRUST_DOMAIN", "grpc.identity.trust_domain");
   ("ANVILKIT_MCP_TELEMETRY_OTLP_ENDPOINT", "telemetry.otlp_endpoint"); ("ANVILKIT_MCP_DATABASE_URL", "database.url");
   ("ANVILKIT_MCP_DATABASE_URL_FILE", "database.url_file"); ("ANVILKIT_MCP_NATS_URL", "outbox.nats.url");
   ("ANVILKIT_MCP_NATS_CREDS_FILE", "outbox.nats.creds_file"); ("ANVILKIT_MCP_NATS_TLS_MODE", "outbox.nats.tls.mode");
   ("ANVILKIT_MCP_NATS_TLS_CA_FILE", "outbox.nats.tls.ca_file"); ("ANVILKIT_MCP_NATS_TLS_CERT_FILE", "outbox.nats.tls.cert_file");
   ("ANVILKIT_MCP_NATS_TLS_KEY_FILE", "outbox.nats.tls.key_file"); ("ANVILKIT_MCP_NATS_TLS_SERVER_NAME", "outbox.nats.tls.server_name");
   ("ANVILKIT_MCP_CONTROL_ADDRESS", "control.address"); ("ANVILKIT_MCP_APOLLO_SNAPSHOT_FILE", "apollo.snapshot_file");
   ("ANVILKIT_MCP_CONTEXTFORGE_URL", "catalog.contextforge.url");
   ("ANVILKIT_MCP_CONTEXTFORGE_TOKEN_FILE", "catalog.contextforge.token_file");
   ("ANVILKIT_MCP_CONTEXTFORGE_CA_FILE", "catalog.contextforge.ca_file"); ("ANVILKIT_MCP_ROLES_FILE", "catalog.roles_file");
   ("ANVILKIT_MCP_UPSTREAM_CREDENTIALS_FILE", "calls.credentials_file")].
Definition secretKeys : list string := ["database.url"].
Definition placementKeys : list string :=
  ["database.url_file"; "outbox.nats.url"; "outbox.nats.creds_file"; "control.address"; "apollo.snapshot_file";
   "catalog.contextforge.url"; "catalog.contextforge.token_file"; "catalog.contextforge.ca_file"; "catalog.roles_file";
   "calls.credentials_file"].
Definition forbiddenKeys : list string := secretKeys ++ placementKeys.

Inductive value := VBool (b : bool) | VInt (n : Z) | VText (s : string) | VList.
Definition defaults : list (string * value) :=
  [("grpc.listen", VText "127.0.0.1:9106"); ("telemetry.sample_ratio", VInt 1); ("grpc.capacity", VInt 64);
   ("grpc.shutdown_timeout", VText "20s"); ("grpc.identity.mode", VText "mtls");
   ("grpc.identity.max_connection_age", VText "1h"); ("grpc.identity.reload_interval", VText "5s");
   ("development.enabled", VBool false); ("control.identity.mode", VText "mtls");
   ("control.identity.mtls.server_name", VText "anvilkit-agent-control"); ("outbox.nats.tls.mode", VText "tls");
   ("telemetry.otlp_tls.mode", VText "tls"); ("health.listen", VText "127.0.0.1:9116"); ("database.max_conn", VInt 8);
   ("tasks.max_input_bytes", VInt 65536); ("tasks.max_lease", VText "10m"); ("tasks.retry_delay", VText "5s");
   ("tasks.max_attempts", VInt 3); ("tasks.sweep_interval", VText "2s"); ("retention.outbox", VText "168h");
   ("retention.inbox", VText "168h"); ("retention.attempts", VText "720h"); ("retention.interval", VText "10m");
   ("retention.batch", VInt 1000); ("outbox.forwarder_enabled", VBool true);
   ("outbox.consumer_group", VText "anvilkit-agent-mcp-forwarder"); ("outbox.poll_interval", VText "500ms");
   ("outbox.ack_deadline", VText "30s"); ("outbox.resend_interval", VText "1s"); ("outbox.batch_size", VInt 100);
   ("outbox.nats.publish_timeout", VText "5s"); ("outbox.nats.name", VText "anvilkit-agent-mcp");
   ("control.timeout", VText "5s"); ("apollo.mode", VText ApolloDisabled); ("apollo.app_id", VText "anvilkit-agent-mcp");
   ("reload.interval", VText "2s"); ("reload.drain_limit", VText "30s"); ("catalog.contextforge.timeout", VText "60s");
   ("catalog.allowed_hosts", VList); ("catalog.private_hosts", VList); ("catalog.refresh_interval", VText "0s");
   ("barrier.reconcile_interval", VText "2s"); ("barrier.reconcile_age", VText "5s"); ("calls.qualified_routes", VList);
   ("calls.send_timeout", VText "60s"); ("calls.wait", VText "30s"); ("calls.max_response_bytes", VInt 1048576);
   ("calls.reconcile_interval", VText "2s"); ("calls.reconcile_age", VText "2m")].

(** ** koanf *)

(** A tree of settings: loading a flat map, a YAML file, reading a text,
    merging, setting, all settings (a value that JSON cannot hold is [None]),
    and decoding into the configuration. *)
Class Koanf := {
  koanf : Type; koanf_New : koanf;
  k_Load : koanf -> list (string * value) -> option koanf;
  k_YAML : bytes -> option koanf;
  k_Exists : koanf -> string -> bool;
  k_String : koanf -> string -> string;
  k_Merge : koanf -> koanf -> option koanf;
  k_Set : koanf -> string -> string -> option koanf;
  k_All : koanf -> gmap string (option json);
  k_Unmarshal : koanf -> option Config }.

(** ** Secrets and digests *)

Definition digestOf (s : string) : string := sha256_hex s.
Definition NATSCredsUser : string := "user".
Definition NATSCredsNKey : string := "nkey".
Definition natsUserJWTMarker : string := "-----BEGIN NATS USER JWT-----".
Definition firstNonEmptyLine (raw : bytes) : string :=
  default "" (List.find (fun l => negb (String.eqb l "")) (map TrimSpace (split_at_byte (ascii_of_N 10) raw))).
(** The kind and the digest of a credential. *)
Definition readNATSCredentials (files : string -> option bytes) (path : string) : res (string * string) :=
  match files path with
  | None => Fail ErrOther
  | Some raw =>
      match Index raw natsUserJWTMarker with
      | Some _ => Ok (NATSCredsUser, digestOf raw)
      | None => if HasPrefix (firstNonEmptyLine raw) "SU" then Ok (NATSCredsNKey, digestOf raw) else Fail ErrOther
      end
  end.
(** What the secret revision digests. *)
Definition secret_text (c : Config) (natsCreds : string) : string :=
  "database.url=" +:+ db_URL (c_Database c) +:+
  (if set natsCreds then String (ascii_of_N 10) ("outbox.nats.creds_file=" +:+ natsCreds) else "").
Definition secretRevision (c : Config) (natsCreds : string) : string := digestOf (secret_text c natsCreds).

Record Generation := mkGeneration {
  gn_Number : Z; gn_Config : Config; gn_Digest : string; gn_SecretRevision : string; gn_Profiles : list (string * string);
  gn_ApolloRelease : string; gn_BuiltAt : Time; gn_ExpiresAt : Time * Z }.
Definition Inputs (g : Generation) : string :=
  gn_Digest g +:+ "/" +:+ gn_SecretRevision g +:+ "/" +:+ gn_ApolloRelease g +:+ "/" +:+ FormatNano (gn_ExpiresAt g).

(** ** Loading *)

Section Load.
  Context `{Koanf}.
  (** The process: its files and what the clock says when the snapshot is
      checked and when the generation is built. *)
  Context (files : string -> option bytes) (now built : Time).

Fixpoint collect_env (k : koanf) (environ : list string) (unknown : list string) : option (koanf * list string) :=
  match environ with
  | [] => Some (k, unknown)
  | kv :: rest =>
      let '(name, text) := cut_at "="%char kv in
      if negb (HasPrefix name envPrefix) || String.eqb name EnvConfigFile then collect_env k rest unknown
      else match List.find (fun o => String.eqb o.1 name) envOverrides with
           | None => collect_env k rest (unknown ++ [name])
           | Some (_, key) => k' ← k_Set k key (default "" text); collect_env k' rest unknown
           end
  end.
Definition applyEnv (k : koanf) (environ : list string) : res koanf :=
  match collect_env k environ [] with
  | Some (k, []) => Ok k
  | _ => Fail ErrOther
  end.

Definition nonSecretDigest (k : koanf) : res string :=
  let all := filter (fun kv => kv.1 ∉ secretKeys) (k_All k) in
  match mapM (fun kv => option_map (pair kv.1) kv.2) (map_to_list all) with
  | None => Fail ErrOther
  | Some members => Ok (digestOf (Marshal (jmap members)))
  end.

Definition of_option {A} (o : option A) : res A := match o with Some a => Ok a | None => Fail ErrOther end.

(** The reviewed file, without secrets and placements. *)
Definition load_reviewed (path : string) : res koanf :=
  match files path with
  | None => Fail ErrOther
  | Some raw =>
      reviewed ← of_option (k_YAML raw);
      if existsb (k_Exists reviewed) forbiddenKeys then Fail ErrOther else Ok reviewed
  end.
(** The settings of the snapshot under those of the environment, its release
    and its end. *)
Definition load_snapshot (k : koanf) (snapshotFile : string) : res (koanf * string * (Time * Z)) :=
  match files snapshotFile with
  | None => Fail ErrOther
  | Some raw =>
      snap ← ParseApolloSnapshot raw (k_String k "apollo.app_id") now;
      let values := default ∅ (as_Configurations snap) in
      if existsb (fun kv => slices_Contains forbiddenKeys kv.1) (map_to_list values) then Fail ErrOther
      else
        k' ← of_option (k_Load k (map (fun kv => (kv.1, VText kv.2)) (map_to_list values)));
        Ok (k', as_ReleaseKey snap, default (zero_time, 0) (ParseRFC3339 (as_ExpiresAt snap)))
  end.
(** The database URL of the mounted file, unless one was given. *)
Definition database_url (d : Database) : res Database :=
  if negb (set (db_URL d)) && set (db_URLFile d) then
    match files (db_URLFile d) with
    | None => Fail ErrOther
    | Some raw => Ok (mkDatabase (TrimSpace raw) (db_URLFile d) (db_MaxConn d))
    end
  else Ok d.
Definition with_database (c : Config) (d : Database) : Config :=
  mkConfig (c_Development c) (c_Telemetry c) (c_GRPC c) (c_Health c) d (c_Tasks c) (c_Outbox c) (c_Retention c) (c_Control c)
    (c_Apollo c) (c_Reload c) (c_Catalog c) (c_Barrier c) (c_Calls c).
(** The kind of the NATS credential of an enabled forwarder, and its digest. *)
Definition nats_credentials (o : Outbox) : res (Outbox * string) :=
  let n := ob_NATS o in
  if ob_ForwarderEnabled o && set (na_CredsFile n) then
    '(kind, revision) ← readNATSCredentials files (na_CredsFile n);
    Ok (mkOutbox (ob_ForwarderEnabled o) (ob_ConsumerGroup o) (ob_PollInterval o) (ob_AckDeadline o) (ob_ResendInterval o)
          (ob_BatchSize o) (mkNATS (na_URL n) (na_PublishTimeout n) (na_Name n) (na_TLS n) (na_CredsFile n) kind), revision)
  else Ok (o, "").
Definition with_outbox (c : Config) (o : Outbox) : Config :=
  mkConfig (c_Development c) (c_Telemetry c) (c_GRPC c) (c_Health c) (c_Database c) (c_Tasks c) o (c_Retention c) (c_Control c)
    (c_Apollo c) (c_Reload c) (c_Catalog c) (c_Barrier c) (c_Calls c).

Definition LoadFrom (path : string) (environ : list string) (number : Z) : res Generation :=
  k ← of_option (k_Load koanf_New defaults);
  reviewed ← load_reviewed path;
  k ← of_option (k_Merge k reviewed);
  env ← applyEnv koanf_New environ;
  let mode := if k_Exists env "apollo.mode" then k_String env "apollo.mode" else k_String k "apollo.mode" in
  '(k, release, expiresAt) ←
    (if String.eqb mode ApolloModeSnapshot then load_snapshot k (k_String env "apollo.snapshot_file")
     else Ok (k, "", (zero_time, 0)));
  k ← of_option (k_Merge k env);
  c ← of_option (k_Unmarshal k);
  d ← database_url (c_Database c);
  '(o, natsCreds) ← nats_credentials (c_Outbox (with_database c d));
  let c := with_outbox (with_database c d) o in
  match validate c with
  | [] =>
      digest ← nonSecretDigest k;
      Ok (mkGeneration number c digest (secretRevision c natsCreds) [("local-check-v1", digestOf "local-check-v1")] release built
            expiresAt)
  | _ => Fail ErrOther
  end.
End Load.
