(* ===== verification/ConfigSpec.v ===== *)
(** * ConfigSpec: what an admitted configuration guarantees

    Outside development no connection of an admitted configuration is
    plaintext; its bounds are those the components rely on; a generation is
    only built from inputs within the precedence rules; and a change of its
    inputs or of its secrets is a change of [Inputs]. *)

From S2P Require Import Prelude Errors GoStrings GoTrim GoCrypto GoJson GoNum GoTime GoUrl UrlText Identity Config ConfigLoad.
From Stdlib Require Import Ascii.

(** ** Rules *)

Lemma check_nil ok m : check ok m = [] -> ok = true.
Proof. by destruct ok. Qed.
Lemma set_spec s : set s = true <-> s <> "".
Proof. unfold set. destruct (String.eqb_spec s ""); cbn; intuition congruence. Qed.
Lemma within_spec lo hi x : within lo hi x = true <-> lo <= x <= hi.
Proof. unfold within. rewrite andb_true_iff, !Z.leb_le. lia. Qed.
Lemma positive_to_spec hi x : positive_to hi x = true <-> 0 < x <= hi.
Proof. unfold positive_to. rewrite andb_true_iff, Z.ltb_lt, Z.leb_le. lia. Qed.

(** Every rule of a list that breaks none holds. *)
Ltac checks :=
  repeat match goal with
  | H : _ ++ _ = [] |- _ => apply app_eq_nil in H as [? ?]
  | H : check _ _ = [] |- _ => apply check_nil in H
  | H : _ && _ = true |- _ => apply andb_prop in H as [? ?]
  | H : within _ _ _ = true |- _ => apply within_spec in H
  | H : positive_to _ _ = true |- _ => apply positive_to_spec in H
  end.

(** A transport that verifies its server. *)
Definition verified_tls (t : ClientTLS) : Prop :=
  (ct_Mode t = "tls" \/ ct_Mode t = "mtls" /\ set (ct_CertFile t) = true /\ set (ct_KeyFile t) = true) /\ set (ct_CAFile t) = true.
Lemma ClientTLS_verified t name : ClientTLS_validate t name false = [] -> verified_tls t.
Proof.
  unfold ClientTLS_validate, verified_tls. destruct (String.eqb_spec (ct_Mode t) "development"); [done|].
  destruct (String.eqb_spec (ct_Mode t) "tls"); [intros H; checks; by auto|].
  destruct (String.eqb_spec (ct_Mode t) "mtls"); [intros H; checks; by auto|done].
Qed.

Section Valid.
  Context (c : Config) (Hvalid : validate c = []).

Lemma valid_identity : validateIdentity c = [].
Proof using Hvalid. unfold validate in Hvalid. checks. done. Qed.
Lemma valid_database : check_database (c_Development c) (c_Database c) = [].
Proof using Hvalid. unfold validate in Hvalid. checks. done. Qed.
Lemma valid_catalog : check_catalog (c_Development c) (c_Catalog c) = [].
Proof using Hvalid. unfold validate in Hvalid. checks. done. Qed.
Lemma valid_tasks : check_tasks (c_Tasks c) = [].
Proof using Hvalid. unfold validate in Hvalid. checks. done. Qed.
Lemma valid_calls : check_calls (c_Calls c) = [].
Proof using Hvalid. unfold validate in Hvalid. checks. done. Qed.
Lemma valid_outbox : check_outbox (c_Outbox c) = [].
Proof using Hvalid. unfold validate in Hvalid. checks. done. Qed.

Lemma valid_listener : check_listener_identity (c_Development c) (gr_Identity (c_GRPC c)) = [].
Proof using Hvalid. pose proof valid_identity as H. unfold validateIdentity in H. by checks. Qed.
Lemma valid_control : check_control_identity c = [].
Proof using Hvalid. pose proof valid_identity as H. unfold validateIdentity in H. by checks. Qed.
Lemma valid_forwarder : ob_ForwarderEnabled (c_Outbox c) = true -> c_Development c = false ->
  verified_tls (na_TLS (ob_NATS (c_Outbox c))) /\ set (na_CredsFile (ob_NATS (c_Outbox c))) = true.
Proof using Hvalid.
  intros Hf Hd. pose proof valid_identity as H. unfold validateIdentity in H. rewrite Hf, Hd in H. checks.
  split; [by eapply ClientTLS_verified|]. by destruct (set _).
Qed.
Lemma valid_telemetry : set (te_OTLPEndpoint (c_Telemetry c)) = true -> c_Development c = false ->
  verified_tls (te_OTLPTLS (c_Telemetry c)).
Proof using Hvalid.
  intros Hf Hd. pose proof valid_identity as H. unfold validateIdentity in H. rewrite Hf, Hd in H. checks.
  by eapply ClientTLS_verified.
Qed.

(** The database connection of a valid configuration. *)
Definition verified_database (d : Database) : Prop :=
  exists u, Parse_URL (db_URL d) = Some u /\ (u_Scheme u = "postgres" \/ u_Scheme u = "postgresql") /\
    List.last (query_values (Query u) "sslmode") "" = "verify-full" /\ query_Has (Query u) "ssl" = false.
Lemma scheme_in_spec l u : scheme_in l u = true -> exists v, u = Some v /\ In (u_Scheme v) l.
Proof. unfold scheme_in. destruct u as [v|]; [|done]. intros (x & Hx & E)%existsb_exists. breflect. exists v. by subst. Qed.
Lemma valid_database_verified : c_Development c = false -> verified_database (c_Database c).
Proof using Hvalid.
  intros Hd. pose proof valid_database as H. unfold check_database in H. rewrite Hd in H. checks. rewrite H in H0.
  cbv zeta in H0. checks. rewrite H0 in H2. apply scheme_in_spec in H0 as (u & Hu & Hs). rewrite Hu in H2. cbn in H2. checks.
  exists u. breflect. split_and!; [done| |done|by destruct (query_Has _ _)]. cbn in Hs. intuition congruence.
Qed.
End Valid.

Lemma listener_mtls id : check_listener_identity false id = [] ->
  si_Mode id = "mtls" /\ set (si_CertFile id) = true /\ set (si_KeyFile id) = true /\ set (si_CAFile id) = true /\
  set (si_TrustDomain id) = true /\ ValidTrustDomain (si_TrustDomain id) = true.
Proof.
  unfold check_listener_identity. intros H. checks. destruct (String.eqb_spec (si_Mode id) "mtls").
  - checks. destruct (set (si_TrustDomain id)); [|done]. cbn in *. by checks.
  - by destruct (String.eqb (si_Mode id) "development").
Qed.
Lemma control_mtls c : check_control_identity c = [] -> c_Development c = false -> set (co_Address (c_Control c)) = true ->
  let m := ControlMTLS c in
  ci_Mode (co_Identity (c_Control c)) = "mtls" /\ set (ct_CertFile m) = true /\ set (ct_KeyFile m) = true /\
  set (ct_CAFile m) = true /\ set (ct_ServerName m) = true.
Proof.
  unfold check_control_identity. intros H Hd Ha. rewrite Ha, Hd in H. cbv zeta in *.
  destruct (String.eqb_spec (ci_Mode (co_Identity (c_Control c))) "mtls").
  - checks. destruct (set (ct_CertFile _)), (set (ct_KeyFile _)), (set (ct_CAFile _)); done.
  - by destruct (String.eqb _ "development").
Qed.
Lemma catalog_https cat : check_catalog false cat = [] ->
  (set (cf_URL (ca_ContextForge cat)) = true ->
   exists u, Parse_URL (cf_URL (ca_ContextForge cat)) = Some u /\ u_Scheme u = "https" /\ u_Host u <> "" /\
     set (cf_TokenFile (ca_ContextForge cat)) = true) /\
  items (ca_PrivateHosts cat) = [].
Proof.
  unfold check_catalog. cbv zeta. intros H. checks. split.
  - intros Hs. rewrite Hs in H. checks. apply scheme_in_spec in H as (u & Hu & _). rewrite Hu in *. exists u.
    match goal with H : _ || false = true |- _ => rewrite orb_false_r in H; apply scheme_in_spec in H as (v & [= <-] & [->|[]]) end.
    cbn in *. rewrite <- set_spec. done.
  - by destruct (items (ca_PrivateHosts cat)).
Qed.

(** C33. Outside development nothing is plaintext. An admitted configuration
    without the development guard serves mTLS under a lowercase DNS trust
    domain with all its files; reaches Control, when placed, with a client
    certificate under a server name; verifies the database's certificate and
    host name; verifies NATS, with a credential, while the forwarder runs, and
    the collector when one is placed; reaches ContextForge, when placed, over
    https with a token; and names no private host. *)
Theorem outside_development_nothing_is_plaintext c :
  validate c = [] -> c_Development c = false ->
  let id := gr_Identity (c_GRPC c) in
  (si_Mode id = "mtls" /\ set (si_CertFile id) = true /\ set (si_KeyFile id) = true /\ set (si_CAFile id) = true /\
   TrustDomain c = si_TrustDomain id /\ ValidTrustDomain (TrustDomain c) = true) /\
  (set (co_Address (c_Control c)) = true ->
   let m := ControlMTLS c in
   ci_Mode (co_Identity (c_Control c)) = "mtls" /\ set (ct_CertFile m) = true /\ set (ct_KeyFile m) = true /\
   set (ct_CAFile m) = true /\ set (ct_ServerName m) = true) /\
  verified_database (c_Database c) /\
  (ob_ForwarderEnabled (c_Outbox c) = true ->
   verified_tls (na_TLS (ob_NATS (c_Outbox c))) /\ set (na_CredsFile (ob_NATS (c_Outbox c))) = true) /\
  (set (te_OTLPEndpoint (c_Telemetry c)) = true -> verified_tls (te_OTLPTLS (c_Telemetry c))) /\
  (set (cf_URL (ca_ContextForge (c_Catalog c))) = true ->
   exists u, Parse_URL (cf_URL (ca_ContextForge (c_Catalog c))) = Some u /\ u_Scheme u = "https" /\ u_Host u <> "" /\
     set (cf_TokenFile (ca_ContextForge (c_Catalog c))) = true) /\
  items (ca_PrivateHosts (c_Catalog c)) = [].
Proof.
  intros Hv Hd id. pose proof (valid_listener c Hv) as Hl. pose proof (valid_catalog c Hv) as Hg. rewrite Hd in Hl, Hg.
  apply listener_mtls in Hl as (Hm & H1 & H2 & H3 & Ht & Htd). apply catalog_https in Hg as [Hcf Hp].
  split; [|split; [|split; [|split; [|split]]]].
  - unfold TrustDomain. subst id. rewrite Ht. done.
  - intros Ha. by apply control_mtls; [apply valid_control| |].
  - by apply valid_database_verified.
  - intros Hf. by apply valid_forwarder.
  - intros Hf. by apply valid_telemetry.
  - done.
Qed.

(** A production configuration. *)
Definition no_tls : ClientTLS := mkClientTLS "tls" "" "" "" "".
Definition production : Config :=
  mkConfig false (mkTelemetry "" (Finite 1 (-1)) no_tls)
    (mkGRPC "0.0.0.0:9106" 64 (20 * Second) (mkServerIdentity "mtls" "mesh.example" "/id/tls.crt" "/id/tls.key" "/id/ca.crt" Hour (5 * Second)))
    "127.0.0.1:9116"
    (mkDatabase "postgres://app:pw@db:5432/mcp?sslmode=verify-full" "" 8)
    (mkTaskBounds 65536 (10 * Minute) (5 * Second) 3 (2 * Second))
    (mkOutbox true "forwarder" (500 * Millisecond) (30 * Second) Second 100
       (mkNATS "tls://nats:4222" (5 * Second) "mcp" (mkClientTLS "tls" "/nats/ca.crt" "" "" "nats") "/nats/user.creds" "user"))
    (mkRetention (168 * Hour) (168 * Hour) (720 * Hour) (10 * Minute) 1000)
    (mkControl "control:9106" (5 * Second) (mkClientIdentity "mtls" (mkClientTLS "" "" "" "" "anvilkit-agent-control")))
    (mkApollo ApolloDisabled "" "anvilkit-agent-mcp") (mkReload (2 * Second) (30 * Second))
    (mkCatalog (mkContextForge "https://forge.internal" "/forge/token" Minute "/forge/ca.crt" "forge") (Items ["mcp.example.com"]) Nil "" 0)
    (mkBarrierBounds (2 * Second) (5 * Second))
    (mkCalls (Items [mkRoute "https://mcp.example.com/" "2025-06-18" "streamable-http" "go-sdk"]) Minute (30 * Second) 1048576 (2 * Second)
       (2 * Minute) "").
Lemma production_valid : validate production = [].
Proof. vm_compute. reflexivity. Qed.
Lemma outside_development_nothing_is_plaintext_witness : c_Development production = false /\ verified_database (c_Database production).
Proof.
  split; [reflexivity|].
  exact (proj1 (proj2 (proj2 (outside_development_nothing_is_plaintext production production_valid eq_refl)))).
Defined.

(** ** Loading *)

Section Loading.
  Context `{Koanf} (files : string -> option bytes) (now built : Time).

Lemma of_option_Ok {A} (o : option A) a : of_option o = Ok a -> o = Some a.
Proof. destruct o; [by intros [= <-]|done]. Qed.

Lemma load_reviewed_Ok path reviewed : load_reviewed files path = Ok reviewed ->
  exists raw, files path = Some raw /\ k_YAML raw = Some reviewed /\ forall key, key ∈ forbiddenKeys -> k_Exists reviewed key = false.
Proof.
  unfold load_reviewed. destruct (files path) as [raw|]; [|done]. intros (k & Hk%of_option_Ok & Hf)%bind_Ok.
  destruct (existsb _ _) eqn:E; [done|]. injection Hf as <-. exists raw. split_and!; [done..|]. intros key Hin.
  destruct (k_Exists k key) eqn:Ex; [|done]. rewrite <- E. symmetry. apply existsb_exists. exists key. by rewrite <- list_elem_of_In.
Qed.

Definition env_allowed (kv : string) : Prop :=
  let name := (cut_at "="%char kv).1 in
  HasPrefix name envPrefix = true -> name <> EnvConfigFile -> exists key, (name, key) ∈ envOverrides.
Lemma collect_env_unknown environ k u k' u' : collect_env k environ u = Some (k', u') ->
  exists v, u' = u ++ v /\ (v = [] -> Forall env_allowed environ).
Proof.
  revert k u. induction environ as [|kv environ IH]; intros k u.
  { intros [= <- <-]. exists []. by rewrite app_nil_r. }
  cbn [collect_env]. destruct (cut_at _ kv) as [name text] eqn:Ec.
  assert (Hname : (cut_at "="%char kv).1 = name) by by rewrite Ec.
  destruct (negb _ || _) eqn:Es.
  - intros (v & -> & Hv)%IH. exists v. split; [done|]. intros Hn. constructor; [|by auto].
    unfold env_allowed. rewrite Hname. intros Hp Hne. rewrite Hp in Es. cbn in Es. by apply String.eqb_eq in Es.
  - destruct (List.find _ envOverrides) as [[n key]|] eqn:Ef.
    + intros (k1 & _ & (v & -> & Hv)%IH)%bind_Some. exists v. split; [done|]. intros Hn. constructor; [|by auto].
      unfold env_allowed. rewrite Hname. intros _ _. apply find_some in Ef as [Hin E]. cbn in E. apply String.eqb_eq in E as ->.
      exists key. by apply list_elem_of_In.
    + intros (v & -> & _)%IH. exists (name :: v). split; [by rewrite <- app_assoc|done].
Qed.
Lemma applyEnv_Ok k environ k' : applyEnv k environ = Ok k' -> Forall env_allowed environ.
Proof.
  unfold applyEnv. destruct (collect_env k environ []) as [[k1 [|]]|] eqn:E; [|done..]. intros _.
  by apply collect_env_unknown in E as (v & Hv & Ha); apply Ha.
Qed.

(** A snapshot that may start a generation at [now]. *)
Definition usable_snapshot (raw : bytes) (appID : string) (s : ApolloSnapshot) : Prop :=
  ParseApolloSnapshot raw appID now = Ok s /\
  (exists expires, ParseRFC3339 (as_ExpiresAt s) = Some expires /\ now < expires.1) /\
  releaseKey_Match (as_ReleaseKey s) = true /\
  forall key, is_Some (default ∅ (as_Configurations s) !! key) -> key ∉ forbiddenKeys /\ secretKey_Match key = false.
Lemma snapshot_keys raw appID s : ParseApolloSnapshot raw appID now = Ok s ->
  (exists expires, ParseRFC3339 (as_ExpiresAt s) = Some expires /\ now < expires.1) /\ releaseKey_Match (as_ReleaseKey s) = true /\
  forall key, is_Some (default ∅ (as_Configurations s) !! key) -> configKey_Match key = true /\ secretKey_Match key = false.
Proof.
  unfold ParseApolloSnapshot. destruct (decode_snapshot raw) as [[t rest]|]; [|done]. intros Hs.
  dif Hs as E1. dif Hs as E2. dif Hs as E3. dif Hs as E4. dif Hs as E5. destruct (as_Configurations t) as [values|] eqn:Ev; [|done].
  destruct (ParseRFC3339 (as_FetchedAt t)) as [[f ?]|]; [|done]. destruct (ParseRFC3339 (as_ExpiresAt t)) as [[x o]|] eqn:Ex; [|done].
  dif Hs as E6. dif Hs as E7. dif Hs as E8. injection Hs as <-. breflect. split_and!.
  - exists (x, o). done.
  - by destruct (releaseKey_Match _).
  - intros key [v Hk]. rewrite Ev in Hk. rewrite forallb_forall in E8. apply elem_of_map_to_list, list_elem_of_In in Hk.
    specialize (E8 _ Hk). cbn [fst] in E8. apply andb_prop in E8 as [? ?]. split; [done|]. by destruct (secretKey_Match key).
Qed.
Lemma load_snapshot_Ok k path k' release expires : load_snapshot files now k path = Ok (k', release, expires) ->
  exists raw s, files path = Some raw /\ usable_snapshot raw (k_String k "apollo.app_id") s /\ release = as_ReleaseKey s /\
    ParseRFC3339 (as_ExpiresAt s) = Some expires.
Proof.
  unfold load_snapshot. destruct (files path) as [raw|]; [|done]. intros (s & Hs & H1)%bind_Ok. dif H1 as E.
  apply bind_Ok in H1 as (k1 & _ & [= <- <- <-]). exists raw, s. split; [done|]. pose proof (snapshot_keys _ _ _ Hs) as (Hx & Hr & Hk).
  pose proof Hx as (x & Hx1 & _). rewrite Hx1. split; [|done]. split_and!; [done..|]. intros key Hkey. split; [|by apply Hk].
  destruct Hkey as [v Hv]. intros Hin. apply not_true_iff_false in E. apply E, existsb_exists. exists (key, v).
  split; [by apply list_elem_of_In, elem_of_map_to_list|]. by apply slices_Contains_spec.
Qed.

Lemma nats_credentials_Ok o o' digest : nats_credentials files o = Ok (o', digest) ->
  digest = "" /\ negb (ob_ForwarderEnabled o && set (na_CredsFile (ob_NATS o))) = true /\ o' = o \/
  exists raw, files (na_CredsFile (ob_NATS o)) = Some raw /\ digest = digestOf raw.
Proof.
  unfold nats_credentials. destruct (_ && _).
  - intros ([kind d] & Hr & [= _ <-])%bind_Ok. right. unfold readNATSCredentials in Hr. destruct (files _) as [raw|]; [|done].
    exists raw. split; [done|]. destruct (Index raw _); [congruence|]. destruct (HasPrefix _ _); congruence.
  - intros [= <- <-]. by left.
Qed.

(** The digest of a mounted credential, or of none. *)
Definition credential_of (creds : string) : Prop := creds = "" \/ exists file raw, files file = Some raw /\ creds = digestOf raw.

(** The stages of a load that answered a generation. *)
Lemma LoadFrom_stages path environ number g : LoadFrom files now built path environ number = Ok g ->
  exists reviewed env k release expires c creds digest,
    load_reviewed files path = Ok reviewed /\ applyEnv koanf_New environ = Ok env /\
    (release = "" /\ expires = (zero_time, 0) \/
     exists k1 k2, load_snapshot files now k1 (k_String env "apollo.snapshot_file") = Ok (k2, release, expires)) /\
    credential_of creds /\ validate c = [] /\ nonSecretDigest k = Ok digest /\
    g = mkGeneration number c digest (secretRevision c creds) [("local-check-v1", digestOf "local-check-v1")] release built expires.
Proof.
  unfold LoadFrom. intros (k0 & _ & H1)%bind_Ok. apply bind_Ok in H1 as (reviewed & Hrev & H1).
  apply bind_Ok in H1 as (k1 & _ & H1). apply bind_Ok in H1 as (env & Henv & H1).
  cbv zeta in H1. apply bind_Ok in H1 as ([[k2 release] expires] & Hsnap & H1).
  apply bind_Ok in H1 as (k3 & _ & H1). apply bind_Ok in H1 as (c & _ & H1). apply bind_Ok in H1 as (d & _ & H1).
  apply bind_Ok in H1 as ([o creds] & Hcreds & H1). destruct (validate _) eqn:Ev; [|done].
  apply bind_Ok in H1 as (digest & Hd & [= <-]).
  exists reviewed, env, k3, release, expires, (with_outbox (with_database c d) o), creds, digest. split_and!; try done.
  - destruct (String.eqb _ _); [|injection Hsnap as <- <- <-; by left]. right. eauto.
  - unfold credential_of. apply nats_credentials_Ok in Hcreds as [(-> & _)|(raw & Hf & ->)]; eauto.
Qed.

(** C34. A generation is built only from guarded inputs. When loading answers
    a generation, its configuration breaks no rule; the reviewed file holds no
    key of a secret or a placement in its exact spelling (koanf keeps the case
    of a key and mapstructure ignores it, so a key in another case is not caught
    and may set them); every variable of the environment with the
    service's prefix is an allowed override (or the path of the file); a
    release comes from a snapshot that parsed as a whole,
    has not expired and holds none of those keys either, and the generation
    ends when the snapshot does; and its secret revision covers the database
    URL in force and the content of the NATS credential, when it uses one. *)
Theorem loaded_generation_is_guarded path environ number g :
  LoadFrom files now built path environ number = Ok g ->
  gn_Number g = number /\ validate (gn_Config g) = [] /\
  (exists raw reviewed, files path = Some raw /\ k_YAML raw = Some reviewed /\
     forall key, key ∈ forbiddenKeys -> k_Exists reviewed key = false) /\
  Forall env_allowed environ /\
  (gn_ApolloRelease g = "" /\ gn_ExpiresAt g = (zero_time, 0) \/
   exists snapshot raw appID s, files snapshot = Some raw /\ usable_snapshot raw appID s /\ gn_ApolloRelease g = as_ReleaseKey s /\
     ParseRFC3339 (as_ExpiresAt s) = Some (gn_ExpiresAt g)) /\
  exists creds, gn_SecretRevision g = secretRevision (gn_Config g) creds /\ credential_of creds.
Proof.
  intros (reviewed & env & k & release & expires & c & creds & digest & Hr & He & Hs & Hc & Hv & _ & ->)%LoadFrom_stages.
  split_and!; [done|done|by eapply load_reviewed_Ok in Hr; naive_solver|by eapply applyEnv_Ok| |by exists creds].
  destruct Hs as [Hs|(k1 & k2 & (raw & s & Hf & Hu & -> & Hx)%load_snapshot_Ok)]; [by left|right; eauto 10].
Qed.
End Loading.

(** ** Rotation *)

Lemma digest_length m : String.length (digestOf m) = 71%nat.
Proof. pose proof (sha256_hex_pattern m) as H. unfold digestPattern_Match in H. apply andb_prop in H as [_ H]. by apply Nat.eqb_eq in H. Qed.
Lemma credential_length {files} creds : credential_of files creds -> creds = "" \/ String.length creds = 71%nat.
Proof. intros [->|(f & raw & _ & ->)]; [by left|right; apply digest_length]. Qed.

Definition Newline : ascii := ascii_of_N 10.
Definition single_line (s : string) : Prop := has_byte Newline s = false.
Lemma set_string s : set s = true -> exists c r, s = String c r.
Proof. destruct s as [|c r]; [done|by exists c, r]. Qed.
Lemma secret_text_inj c1 c2 k1 k2 : (k1 = "" \/ String.length k1 = 71%nat) -> (k2 = "" \/ String.length k2 = 71%nat) ->
  single_line (db_URL (c_Database c1)) -> single_line (db_URL (c_Database c2)) ->
  secret_text c1 k1 = secret_text c2 k2 -> db_URL (c_Database c1) = db_URL (c_Database c2) /\ k1 = k2.
Proof.
  intros H1 H2 N1 N2. unfold secret_text. intros H%append_inj_l. revert H N1 N2. unfold single_line.
  generalize (db_URL (c_Database c1)) (db_URL (c_Database c2)). intros u1 u2 H N1 N2.
  destruct (set k1) eqn:E1, (set k2) eqn:E2.
  - apply split_first in H as [-> H]; [|done..]. by apply append_inj_l in H.
  - rewrite append_nil_r in H. rewrite <- H in N2. rewrite has_byte_app in N2. apply orb_false_iff in N2 as [_ N2]. done.
  - rewrite append_nil_r in H. rewrite H in N1. rewrite has_byte_app in N1. apply orb_false_iff in N1 as [_ N1]. done.
  - rewrite !append_nil_r in H. unfold set in E1, E2. apply negb_false_iff, String.eqb_eq in E1, E2. by subst.
Qed.

Lemma releaseKey_no_slash s : releaseKey_Match s = true -> has_byte Slash s = false.
Proof.
  intros H. apply (all_bytes_not (fun b => hex_byte b || (b =? 45))); [done|].
  apply (split_bytes _ "-"%char); [done|]. revert H. unfold releaseKey_Match.
  destruct (split_at_byte _ s) as [|a [|b [|]]]; try done. intros [[[_ Ha]%andb_prop _]%andb_prop Hb]%andb_prop.
  cbn. unfold all_bytes. rewrite !andb_true_iff, !forallb_forall in *. split_and!; [| |done]; intros x Hx.
  - unfold hex_byte. by rewrite (Ha x Hx).
  - by rewrite (Hb x Hx).
Qed.

Lemma nonSecretDigest_length `{Koanf} k d : nonSecretDigest k = Ok d -> String.length d = 71%nat.
Proof. unfold nonSecretDigest. cbv zeta. destruct (mapM _ _); [|done]. intros [= <-]. apply digest_length. Qed.
Lemma loaded_digests `{Koanf} files now built path environ number g : LoadFrom files now built path environ number = Ok g ->
  String.length (gn_Digest g) = 71%nat /\ has_byte Slash (gn_ApolloRelease g) = false /\
  exists creds, credential_of files creds /\ gn_SecretRevision g = secretRevision (gn_Config g) creds.
Proof.
  intros (reviewed & env & k & release & expires & c & creds & digest & _ & _ & Hs & Hc & _ & Hd & ->)%LoadFrom_stages.
  split_and!; [by eapply nonSecretDigest_length| |by exists creds].
  destruct Hs as [[-> _]|(k1 & k2 & (raw & s & _ & (_ & _ & Hk & _) & -> & _)%load_snapshot_Ok)]; [done|by apply releaseKey_no_slash].
Qed.

(** A rotated secret is a changed input. Two generations, however and
    wherever they were loaded, have the same [Inputs], the text the watcher
    compares, only when their settings have one digest, their releases and
    expiries agree, and their database URLs and NATS credentials agree, unless
    the texts of the secrets collide under SHA-256. The URLs must be single
    lines. *)
Theorem rotated_secret_changes_inputs `{Koanf} f1 f2 t1 t2 b1 b2 p1 p2 e1 e2 n1 n2 g1 g2 :
  LoadFrom f1 t1 b1 p1 e1 n1 = Ok g1 -> LoadFrom f2 t2 b2 p2 e2 n2 = Ok g2 ->
  single_line (db_URL (c_Database (gn_Config g1))) -> single_line (db_URL (c_Database (gn_Config g2))) ->
  Inputs g1 = Inputs g2 ->
  gn_Digest g1 = gn_Digest g2 /\ gn_ApolloRelease g1 = gn_ApolloRelease g2 /\
  FormatNano (gn_ExpiresAt g1) = FormatNano (gn_ExpiresAt g2) /\
  exists k1 k2, credential_of f1 k1 /\ credential_of f2 k2 /\
    gn_SecretRevision g1 = secretRevision (gn_Config g1) k1 /\ gn_SecretRevision g2 = secretRevision (gn_Config g2) k2 /\
    (db_URL (c_Database (gn_Config g1)) = db_URL (c_Database (gn_Config g2)) /\ k1 = k2 \/
     collision (secret_text (gn_Config g1) k1) (secret_text (gn_Config g2) k2)).
Proof.
  intros H1 H2 N1 N2 E. apply loaded_digests in H1 as (D1 & R1 & k1 & K1 & C1), H2 as (D2 & R2 & k2 & K2 & C2).
  unfold Inputs in E. apply append_inj_length in E as [Ed E]; [|congruence]. apply append_inj_l, append_inj_length in E as [Es E];
    [|rewrite C1, C2; unfold secretRevision; by rewrite !digest_length]. apply append_inj_l in E.
  apply split_first in E as [Er Ex]; [|done..]. split_and!; [done..|]. exists k1, k2. split_and!; [done..|].
  destruct (decide (secret_text (gn_Config g1) k1 = secret_text (gn_Config g2) k2)) as [Et|Et].
  - left. apply secret_text_inj in Et; [done| | |done..]; by eapply credential_length.
  - right. split; [done|]. unfold secretRevision, digestOf in *. congruence.
Qed.

(** ** A load *)

(** A flat koanf whose configuration is the production one under the URL it
    holds. *)
Definition flat_koanf : Koanf := {|
  koanf := gmap string string; koanf_New := ∅;
  k_Load k l := Some (fold_left (fun m kv => match kv.2 with VText t => <[kv.1 := t]> m | _ => m end) l k);
  k_YAML _ := Some ∅;
  k_Exists k key := match k !! key with Some _ => true | None => false end;
  k_String k key := default "" (k !! key);
  k_Merge k over := Some (over ∪ k);
  k_Set k key text := Some (<[key := text]> k);
  k_All k := (fun t => Some (JStr t)) <$> k;
  k_Unmarshal k := Some (with_database production (mkDatabase (default "" (k !! "database.url")) "" 8)) |}.
#[local] Existing Instance flat_koanf.
Definition demo_files (path : string) : option bytes :=
  if String.eqb path "config.yaml" then Some "grpc: {}"
  else if String.eqb path "/nats/user.creds" then Some "-----BEGIN NATS USER JWT-----" else None.
Definition demo_environ : list string :=
  ["PATH=/bin"; "ANVILKIT_MCP_DATABASE_URL=postgres://app:pw@db:5432/mcp?sslmode=verify-full"].
Definition demo_load : res Generation := LoadFrom demo_files 0 0 "config.yaml" demo_environ 1.
Definition loaded (r : res Generation) : bool :=
  match r with Ok g => negb (has_byte Newline (db_URL (c_Database (gn_Config g)))) | Err _ => false end.
Lemma demo_loads : loaded demo_load = true.
Proof. vm_compute. reflexivity. Qed.
Lemma loaded_generation_is_guarded_witness : exists g, demo_load = Ok g /\ validate (gn_Config g) = [].
Proof.
  pose proof demo_loads as H. destruct demo_load as [g|e] eqn:E; [|discriminate H]. exists g. split; [reflexivity|].
  exact (proj1 (proj2 (loaded_generation_is_guarded demo_files 0 0 "config.yaml" demo_environ 1 g E))).
Defined.
Lemma rotated_secret_changes_inputs_witness : exists g, demo_load = Ok g /\ gn_Digest g = gn_Digest g.
Proof.
  pose proof demo_loads as H. destruct demo_load as [g|e] eqn:E; [|discriminate H]. exists g. split; [reflexivity|].
  cbn in H. apply negb_true_iff in H.
  exact (proj1 (rotated_secret_changes_inputs demo_files demo_files 0 0 0 0 "config.yaml" "config.yaml" demo_environ demo_environ 1 1
    g g E E H H eq_refl)).
Defined.

(** The development guard is a key like any other of a snapshot, and closing
    brackets after the snapshot are not trailing content. *)
Definition snapshot_text (tail : string) : bytes :=
  let q s := String (ascii_of_N 34) (s +:+ String (ascii_of_N 34) "") in
  let f k v := q k +:+ ":" +:+ q v in
  "{" +:+ q "schemaVersion" +:+ ":1," +:+ f "appId" "anvilkit-agent-mcp" +:+ "," +:+ f "cluster" "default" +:+ "," +:+
  f "namespace" "application" +:+ "," +:+ f "releaseKey" "20240101000000-0123456789ab" +:+ "," +:+
  f "fetchedAt" "2024-01-01T00:00:00Z" +:+ "," +:+ f "expiresAt" "2024-02-01T00:00:00Z" +:+ "," +:+
  q "configurations" +:+ ":{" +:+ f "development.enabled" "true" +:+ "}}" +:+ tail.
Definition snapshot_keys_of (r : res ApolloSnapshot) : list string :=
  match r with Ok s => map fst (map_to_list (default ∅ (as_Configurations s))) | Err _ => [] end.
Lemma snapshot_may_name_the_guard :
  snapshot_keys_of (ParseApolloSnapshot (snapshot_text "}] trailing") "anvilkit-agent-mcp" 0) = ["development.enabled"] /\
  snapshot_keys_of (ParseApolloSnapshot (snapshot_text " trailing") "anvilkit-agent-mcp" 0) = [] /\
  existsb (String.eqb "development.enabled") forbiddenKeys = false.
Proof. vm_compute. done. Qed.
