(* ===== verification/Task.v ===== *)
(** * Task: durable background requests ([internal/domain/task.go])

    The request state machine of the owner: every transition is a decision,
    a pure function of the current row, the request and the clock. *)

From S2P Require Import Prelude Errors GoStrings GoCrypto GoJson.

(** ** Data *)

Inductive TaskState :=
| StatePending | StateLeased | StateResultSubmitted | StateAccepted
| StateRetryScheduled | StateDead | StateStale | StateCanceled.

#[export] Instance TaskState_eq_dec : EqDecision TaskState.
Proof. solve_decision. Defined.

Definition Terminal (s : TaskState) : bool :=
  match s with
  | StateAccepted | StateDead | StateStale | StateCanceled => true
  | _ => false
  end.

Abbreviation Effects := string (only parsing).
Definition EffectsReconstructible : Effects := "reconstructible".
Definition EffectsExternal : Effects := "external".

Definition AttemptSubmitted : string := "submitted".
Definition AttemptAccepted : string := "accepted".
Definition AttemptStale : string := "stale".
Definition AttemptExpired : string := "expired".
Definition AttemptFailed : string := "failed".

Definition FailureLeaseExpired : string := "LEASE_EXPIRED".
Definition FailureEffectUncertain : string := "EFFECT_UNCERTAIN".
Definition FailureProfileMismatch : string := "PROFILE_MISMATCH".
Definition FailureAuthorizationRevoked : string := "AUTHORIZATION_REVOKED".
Definition FailureCanceled : string := "CANCELED".
Definition FailureSuperseded : string := "SUPERSEDED".
Definition FailureAttemptsExhausted : string := "ATTEMPTS_EXHAUSTED".
Definition FailureHandler : string := "HANDLER_FAILED".

Definition KindCatalogRefresh : string := "mcp-catalog-refresh".
Definition KindLocalCheck : string := "local-check".
Definition LocalCheckProfile : string := "local-check-v1".
Definition CatalogRefreshProfile : string := "mcp-catalog-refresh-v1".

Record CatalogRefreshInput := mkCatalogRefreshInput {
  ri_SchemaVersion : Z; ri_ServerID : string; ri_Revision : Z; ri_DescriptorDigest : string }.
#[export] Instance CatalogRefreshInput_eta : Settable CatalogRefreshInput := fun r =>
  mkCatalogRefreshInput (ri_SchemaVersion r) (ri_ServerID r) (ri_Revision r) (ri_DescriptorDigest r).

Record RecordedResult := mkRecordedResult { rr_Ref : string; rr_Digest : string }.

(** The durable request row of one generation.  [Generation] and [Revision]
    are [uint64], the attempt counters [uint32]; [RetryAt] is a pointer. *)
Record Task := mkTask {
  t_TaskID : string; t_Generation : Z; t_TenantID : string; t_Kind : string;
  t_InputDigest : string; t_Input : string; t_State : TaskState; t_WorkerID : string;
  t_LeaseUntil : Time; t_AttemptCount : Z; t_MaxAttempts : Z; t_ResultProfile : string;
  t_Effects : Effects; t_DispatchID : string; t_AuthorizationRef : string;
  t_RetryAt : option Time; t_ResultRef : string; t_ResultDigest : string;
  t_FailureCode : string; t_Revision : Z; t_CorrelationID : string }.
#[export] Instance Task_eta : Settable Task := fun t =>
  mkTask (t_TaskID t) (t_Generation t) (t_TenantID t) (t_Kind t) (t_InputDigest t) (t_Input t)
    (t_State t) (t_WorkerID t) (t_LeaseUntil t) (t_AttemptCount t) (t_MaxAttempts t)
    (t_ResultProfile t) (t_Effects t) (t_DispatchID t) (t_AuthorizationRef t) (t_RetryAt t)
    (t_ResultRef t) (t_ResultDigest t) (t_FailureCode t) (t_Revision t) (t_CorrelationID t).

Record Attempt := mkAttempt {
  a_Ordinal : Z; a_WorkerID : string; a_LeasedAt : Time; a_LeaseUntil : Time; a_Outcome : string }.
(** [Attempt{}] *)
Definition no_attempt : Attempt := mkAttempt 0 "" zero_time zero_time "".

Record Bounds := mkBounds {
  b_MaxInputBytes : Z; b_MaxLease : Duration; b_RetryDelay : Duration; b_MaxAttempts : Z }.

(** ** Digests *)

Definition InputDigest (input : string) : string := sha256_hex input.

(** [digestJSON] of a value whose marshalling cannot fail (catalog.go). *)
Definition digestJSON (v : json) : string := sha256_hex (Marshal v).

Definition RefreshResult (taskID : string) (generation : Z) (serverID : string) (revision : Z)
    (reviewedDigest liveDigest : string) (drift : bool) : string * string :=
  let digest := digestJSON (jmap [
    ("schema", JStr "mcp-catalog-refresh-result-v1"); ("taskId", JStr taskID);
    ("generation", jint generation); ("serverId", JStr serverID); ("revision", jint revision);
    ("reviewedDigest", JStr reviewedDigest); ("liveDigest", JStr liveDigest); ("drift", JBool drift)]) in
  ("mcp-catalog-refresh:" +:+ taskID +:+ ":" +:+ format_int generation, digest).

(** ** Requests *)

Record LocalCheckInput := mkLocalCheckInput {
  li_SchemaVersion : Z; li_Computation : string; li_Bytes : string;
  li_HoldMs : Z; li_Fail : bool; li_WrongDigest : bool }.
#[export] Instance LocalCheckInput_eta : Settable LocalCheckInput := fun r =>
  mkLocalCheckInput (li_SchemaVersion r) (li_Computation r) (li_Bytes r) (li_HoldMs r)
    (li_Fail r) (li_WrongDigest r).

(** [json.Unmarshal(input, &in)]: [None] when it fails. *)
Definition unmarshal_local_check (input : string) : option LocalCheckInput :=
  let assign f v (acc : LocalCheckInput) :=
    if String.eqb f "schemaVersion" then n ← decode_int (li_SchemaVersion acc) v; Some (acc <| li_SchemaVersion := n |>)
    else if String.eqb f "computation" then s ← decode_string (li_Computation acc) v; Some (acc <| li_Computation := s |>)
    else if String.eqb f "bytes" then s ← decode_string (li_Bytes acc) v; Some (acc <| li_Bytes := s |>)
    else if String.eqb f "holdMs" then n ← decode_int (li_HoldMs acc) v; Some (acc <| li_HoldMs := n |>)
    else if String.eqb f "fail" then b ← decode_bool (li_Fail acc) v; Some (acc <| li_Fail := b |>)
    else b ← decode_bool (li_WrongDigest acc) v; Some (acc <| li_WrongDigest := b |>) in
  v ← Parse input;
  decode_struct ["schemaVersion"; "computation"; "bytes"; "holdMs"; "fail"; "wrongDigest"] false
    assign v (mkLocalCheckInput 0 "" "" 0 false false).

Definition assign_refresh (f : string) (v : json) (acc : CatalogRefreshInput) : option CatalogRefreshInput :=
  if String.eqb f "schemaVersion" then n ← decode_int (ri_SchemaVersion acc) v; Some (acc <| ri_SchemaVersion := n |>)
  else if String.eqb f "serverId" then s ← decode_string (ri_ServerID acc) v; Some (acc <| ri_ServerID := s |>)
  else if String.eqb f "revision" then n ← decode_uint (ri_Revision acc) v; Some (acc <| ri_Revision := n |>)
  else s ← decode_string (ri_DescriptorDigest acc) v; Some (acc <| ri_DescriptorDigest := s |>).
Definition refresh_fields : list string := ["schemaVersion"; "serverId"; "revision"; "descriptorDigest"].

(** [Decoder.Decode] with [DisallowUnknownFields]: the first value of the
    input; [json.Unmarshal]: the whole input. *)
Definition decode_refresh_strict (input : string) : option CatalogRefreshInput :=
  '(v, _) ← parse_value (2 * String.length input + 3) 0 (bytes_of input);
  decode_struct refresh_fields true assign_refresh v (mkCatalogRefreshInput 0 "" 0 "").
Definition unmarshal_refresh (input : string) : option CatalogRefreshInput :=
  v ← Parse input; decode_struct refresh_fields false assign_refresh v (mkCatalogRefreshInput 0 "" 0 "").

Definition checkProfileInput (profile input : string) : res unit :=
  if String.eqb profile LocalCheckProfile then
    match unmarshal_local_check input with
    | None => Fail ErrInvalid
    | Some i =>
        if negb (li_SchemaVersion i =? 1) || negb (String.eqb (li_Computation i) LocalCheckProfile)
        then Fail ErrInvalid
        else match base64_DecodeString (li_Bytes i) with
             | None => Fail ErrInvalid
             | Some _ => Ok tt
             end
    end
  else if String.eqb profile CatalogRefreshProfile then
    match decode_refresh_strict input with
    | None => Fail ErrInvalid
    | Some i =>
        if negb (ri_SchemaVersion i =? 1) || String.eqb (ri_ServerID i) "" || (ri_Revision i <? 1)
           || negb (digestPattern_Match (ri_DescriptorDigest i))
        then Fail ErrInvalid else Ok tt
    end
  else Fail ErrProfileUnknown.

Definition NewRequest (taskID tenantID kind profile input : string) (effects : Effects)
    (dispatchID authorizationRef correlationID : string) (bounds : Bounds) : res Task :=
  if String.eqb taskID "" || String.eqb tenantID "" || String.eqb correlationID "" then Fail ErrInvalid
  else if negb (String.eqb kind KindCatalogRefresh) && negb (String.eqb kind KindLocalCheck) then Fail ErrInvalid
  else if b_MaxInputBytes bounds <? len input then Fail ErrInputTooLarge
  else if negb (String.eqb effects EffectsReconstructible) && negb (String.eqb effects EffectsExternal) then Fail ErrInvalid
  else if String.eqb effects EffectsExternal && String.eqb dispatchID "" then Fail ErrInvalid
  else if negb (Valid input) then Fail ErrInvalid
  else
    checkProfileInput profile input ≫= fun _ =>
    Ok (mkTask taskID 1 tenantID kind (InputDigest input) input StatePending "" zero_time 0
          (b_MaxAttempts bounds) profile effects dispatchID authorizationRef None "" "" "" 1 correlationID).

Definition expectedResult (t : Task) (recorded : option RecordedResult) : res (string * string) :=
  if String.eqb (t_ResultProfile t) CatalogRefreshProfile then
    match recorded with
    | None => Fail ErrNoRecord
    | Some r => Ok (rr_Ref r, rr_Digest r)
    end
  else if String.eqb (t_ResultProfile t) LocalCheckProfile then
    match unmarshal_local_check (t_Input t) with
    | None => Fail ErrInvalid
    | Some i =>
        match base64_DecodeString (li_Bytes i) with
        | None => Fail ErrInvalid
        | Some raw => Ok ("local-check:" +:+ t_TaskID t +:+ ":" +:+ format_int (t_Generation t), sha256_hex raw)
        end
    end
  else Fail ErrProfileUnknown.

Definition ExpectedResult (t : Task) : res (string * string) := expectedResult t None.

Definition Supersede (prev : Task) : Task * bool :=
  if Terminal (t_State prev) then (prev, false)
  else (prev <| t_State := StateStale |> <| t_FailureCode := FailureSuperseded |>
             <| t_Revision := u64 (t_Revision prev + 1) |>, true).

(** ** Claim and heartbeat *)

Record ClaimDecision := mkClaimDecision {
  cd_Task : Task; cd_Attempt : Attempt; cd_ExpiredPrevious : bool }.

(** The claimable states; the boolean says that the previous lease expired. *)
Definition claim_state (t : Task) (now : Time) : res bool :=
  match t_State t with
  | StatePending => Ok false
  | StateRetryScheduled =>
      match t_RetryAt t with
      | Some at_ => if After at_ now then Fail ErrNotClaimable else Ok false
      | None => Ok false
      end
  | StateLeased =>
      if After (t_LeaseUntil t) now then Fail ErrAlreadyClaimed
      else if negb (String.eqb (t_Effects t) EffectsReconstructible) then Fail ErrEffectUncertain
      else Ok true
  | _ => Fail ErrNotClaimable
  end.

Definition DecideClaim (t : Task) (previous : list Attempt) (workerID : string)
    (lease : Duration) (now : Time) (bounds : Bounds) : res ClaimDecision :=
  if (lease <=? 0) || (b_MaxLease bounds <? lease) then Fail ErrInvalid
  else if existsb (fun a => String.eqb (a_WorkerID a) workerID) previous then Fail ErrDuplicateClaimID
  else
    expiredPrevious ← claim_state t now;
    if t_MaxAttempts t <=? t_AttemptCount t then Fail ErrNotClaimable
    else
      let t' := t <| t_State := StateLeased |> <| t_WorkerID := workerID |>
                  <| t_LeaseUntil := TAdd now lease |>
                  <| t_AttemptCount := u32 (t_AttemptCount t + 1) |>
                  <| t_RetryAt := None |> <| t_FailureCode := "" |>
                  <| t_Revision := u64 (t_Revision t + 1) |> in
      Ok (mkClaimDecision t'
            (mkAttempt (t_AttemptCount t') workerID now (t_LeaseUntil t') "") expiredPrevious).

Definition DecideHeartbeat (t : Task) (current : Attempt) (workerID : string) (now : Time) : res Task :=
  if negb (bool_decide (t_State t = StateLeased)) || negb (String.eqb (t_WorkerID t) workerID)
     || negb (String.eqb (a_WorkerID current) workerID)
  then Fail ErrStaleExecution
  else if negb (After (t_LeaseUntil t) now) then Fail ErrStaleExecution
  else Ok (t <| t_LeaseUntil := TAdd now (TSub (a_LeaseUntil current) (a_LeasedAt current)) |>
             <| t_Revision := u64 (t_Revision t + 1) |>).

(** ** Submit *)

Record Submission := mkSubmission {
  s_WorkerID : string; s_InputDigest : string; s_Succeeded : bool;
  s_ResultRef : string; s_ResultDigest : string; s_FailureCode : string }.

Inductive AuthorizationState := AuthorizationCurrent | AuthorizationRevoked.
#[export] Instance AuthorizationState_eq_dec : EqDecision AuthorizationState.
Proof. solve_decision. Defined.

Record SubmitDecision := mkSubmitDecision {
  sd_Task : Task; sd_AttemptOutcome : string; sd_Accepted : bool; sd_Existing : bool; sd_Changed : bool }.

Definition failAttempt (t : Task) (code : string) (now : Time) (bounds : Bounds) : SubmitDecision :=
  let t1 := t <| t_FailureCode := code |> <| t_Revision := u64 (t_Revision t + 1) |> in
  if t_MaxAttempts t <=? t_AttemptCount t
  then mkSubmitDecision (t1 <| t_State := StateDead |>) AttemptFailed false false true
  else mkSubmitDecision
         (t1 <| t_State := StateRetryScheduled |>
             <| t_RetryAt := Some (TAdd now (b_RetryDelay bounds)) |> <| t_WorkerID := "" |>)
         AttemptFailed false false true.

Definition DecideSubmitRecorded (t : Task) (current : Attempt) (sub : Submission)
    (auth : AuthorizationState) (now : Time) (bounds : Bounds) (recorded : option RecordedResult)
    : res SubmitDecision :=
  if negb (digestPattern_Match (s_InputDigest sub)) then Fail ErrInvalid
  else if bool_decide (t_State t = StateAccepted) then
    if String.eqb (t_WorkerID t) (s_WorkerID sub) && String.eqb (t_ResultDigest t) (s_ResultDigest sub)
       && String.eqb (t_ResultRef t) (s_ResultRef sub) && s_Succeeded sub
    then Ok (mkSubmitDecision t "" true true false)
    else Fail ErrStaleExecution
  else if negb (bool_decide (t_State t = StateLeased)) || negb (String.eqb (t_WorkerID t) (s_WorkerID sub))
          || negb (String.eqb (a_WorkerID current) (s_WorkerID sub))
  then Fail ErrStaleExecution
  else if negb (After (t_LeaseUntil t) now) then Fail ErrStaleExecution
  else if negb (String.eqb (s_InputDigest sub) (t_InputDigest t)) then Fail ErrInvalid
  else if bool_decide (auth = AuthorizationRevoked) then
    Ok (mkSubmitDecision
          (t <| t_State := StateCanceled |> <| t_FailureCode := FailureAuthorizationRevoked |>
             <| t_Revision := u64 (t_Revision t + 1) |>) AttemptStale false false true)
  else if negb (s_Succeeded sub) then
    let code := if String.eqb (s_FailureCode sub) "" then FailureHandler else s_FailureCode sub in
    Ok (failAttempt t code now bounds)
  else if negb (digestPattern_Match (s_ResultDigest sub)) then Fail ErrInvalid
  else
    match expectedResult t recorded with
    | Err e => if errors_Is e ErrNoRecord then Ok (failAttempt t FailureProfileMismatch now bounds) else Err e
    | Ok (ref, digest) =>
        if negb (String.eqb (s_ResultRef sub) ref) || negb (String.eqb (s_ResultDigest sub) digest)
        then Ok (failAttempt t FailureProfileMismatch now bounds)
        else Ok (mkSubmitDecision
                   (t <| t_State := StateAccepted |> <| t_ResultRef := s_ResultRef sub |>
                      <| t_ResultDigest := s_ResultDigest sub |> <| t_FailureCode := "" |>
                      <| t_Revision := u64 (t_Revision t + 1) |>) AttemptAccepted true false true)
    end.

Definition DecideSubmit (t : Task) (current : Attempt) (sub : Submission)
    (auth : AuthorizationState) (now : Time) (bounds : Bounds) : res SubmitDecision :=
  DecideSubmitRecorded t current sub auth now bounds None.

(** ** Cancel and expiry *)

Definition DecideCancel (t : Task) : Task * string * bool :=
  if Terminal (t_State t) then (t, "", false)
  else
    let attemptOutcome := if bool_decide (t_State t = StateLeased) then AttemptStale else "" in
    (t <| t_State := StateCanceled |> <| t_FailureCode := FailureCanceled |>
       <| t_Revision := u64 (t_Revision t + 1) |>, attemptOutcome, true).

Inductive DispatchOutcome := DispatchUnknown | DispatchNotSent | DispatchSent.
#[export] Instance DispatchOutcome_eq_dec : EqDecision DispatchOutcome.
Proof. solve_decision. Defined.

Definition DecideExpire (t : Task) (outcome : DispatchOutcome) (now : Time) (bounds : Bounds)
    : Task * string * bool :=
  if negb (bool_decide (t_State t = StateLeased)) || After (t_LeaseUntil t) now then (t, "", false)
  else if String.eqb (t_Effects t) EffectsExternal && negb (bool_decide (outcome = DispatchNotSent)) then
    (t <| t_State := StateDead |> <| t_FailureCode := FailureEffectUncertain |>
       <| t_Revision := u64 (t_Revision t + 1) |>, AttemptExpired, true)
  else
    let t1 := t <| t_Revision := u64 (t_Revision t + 1) |> <| t_WorkerID := "" |> in
    if t_MaxAttempts t <=? t_AttemptCount t then
      (t1 <| t_State := StateDead |> <| t_FailureCode := FailureAttemptsExhausted |>, AttemptExpired, true)
    else
      (t1 <| t_State := StateRetryScheduled |> <| t_RetryAt := Some (TAdd now (b_RetryDelay bounds)) |>
          <| t_FailureCode := FailureLeaseExpired |>, AttemptExpired, true).

(** ** What the decisions do, branch by branch *)

(** When a row may be claimed at [now]; the flag tells an expired lease. *)
Inductive claimable (t : Task) (now : Time) : bool -> Prop :=
| claimable_pending : t_State t = StatePending -> claimable t now false
| claimable_retry :
    t_State t = StateRetryScheduled -> (forall r, t_RetryAt t = Some r -> r <= now) -> claimable t now false
| claimable_expired :
    t_State t = StateLeased -> t_LeaseUntil t <= now -> t_Effects t = EffectsReconstructible ->
    claimable t now true.

Lemma claim_state_Ok t now e : claim_state t now = Ok e <-> claimable t now e.
Proof.
  unfold claim_state. split.
  - destruct (t_State t) eqn:Es; try discriminate.
    + intros [= <-]. by constructor.
    + destruct (After _ _) eqn:Ea; [done|]. destruct (String.eqb _ _) eqn:Ee; [|done].
      intros [= <-]. breflect. by constructor.
    + intros H. destruct (t_RetryAt t) as [r|] eqn:Er.
      * destruct (After r now) eqn:Ea; [done|]. simplify_eq. breflect.
        constructor; [done|]. intros; simplify_eq. lia.
      * simplify_eq. constructor; [done|]. intros; simplify_eq.
  - destruct 1 as [Hs | Hs H | Hs H He]; rewrite Hs; [done | |].
    + destruct (t_RetryAt t) as [r|]; [|done]. specialize (H r eq_refl).
      by rewrite (proj2 (After_false r now)).
    + by rewrite (proj2 (After_false _ now)), He.
Qed.

Lemma existsb_worker w previous :
  existsb (fun a => String.eqb (a_WorkerID a) w) previous = false <-> w ∉ map a_WorkerID previous.
Proof.
  induction previous as [|a l IH]; cbn; [split; [intros _ H; by inversion H|done]|].
  rewrite orb_false_iff, IH, String.eqb_neq, not_elem_of_cons.
  split; intros [? ?]; split; by auto.
Qed.

(** The row a successful claim writes. *)
Definition claimed (t : Task) (w : string) (lease : Duration) (now : Time) : Task :=
  t <| t_State := StateLeased |> <| t_WorkerID := w |> <| t_LeaseUntil := TAdd now lease |>
    <| t_AttemptCount := u32 (t_AttemptCount t + 1) |> <| t_RetryAt := None |> <| t_FailureCode := "" |>
    <| t_Revision := u64 (t_Revision t + 1) |>.

Lemma DecideClaim_inv t previous w lease now bounds d :
  DecideClaim t previous w lease now bounds = Ok d <->
  0 < lease <= b_MaxLease bounds /\ (w ∉ map a_WorkerID previous) /\
  claimable t now (cd_ExpiredPrevious d) /\ t_AttemptCount t < t_MaxAttempts t /\
  cd_Task d = claimed t w lease now /\
  cd_Attempt d = mkAttempt (u32 (t_AttemptCount t + 1)) w now (TAdd now lease) "".
Proof.
  unfold DecideClaim. rewrite <- existsb_worker, <- claim_state_Ok. split.
  - intros H. destruct (_ || _) eqn:El; [done|]. destruct (existsb _ _) eqn:Ew; [done|].
    apply bind_Ok in H as (e & He & H). destruct (t_MaxAttempts t <=? _) eqn:Ea; [done|]. breflect.
    simplify_eq/=. by split_and!.
  - intros (Hl & Hw & He & Ha & Ht & Hat). rewrite Hw, He.
    rewrite (proj2 (orb_false_iff _ _)) by (rewrite Z.leb_gt, Z.ltb_ge; lia). cbn.
    rewrite (proj2 (Z.leb_gt _ _)) by done. destruct d as [d1 d2 d3]. cbn in *. by subst.
Qed.

Lemma DecideHeartbeat_inv t current w now t' :
  DecideHeartbeat t current w now = Ok t' <->
  t_State t = StateLeased /\ t_WorkerID t = w /\ a_WorkerID current = w /\ now < t_LeaseUntil t /\
  t' = t <| t_LeaseUntil := TAdd now (TSub (a_LeaseUntil current) (a_LeasedAt current)) |>
         <| t_Revision := u64 (t_Revision t + 1) |>.
Proof.
  unfold DecideHeartbeat. split.
  - intros H. dif H as E. dif H as El. injection H as <-. breflect. by split_and!.
  - intros (Hs & Hw & Hc & Hl & ->). rewrite Hs, Hw, Hc, String.eqb_refl. cbn.
    by rewrite (proj2 (After_spec _ _) Hl).
Qed.

(** The submission is the current claimant's, in time, for the frozen input. *)
Definition current_claim (t : Task) (current : Attempt) (sub : Submission) (now : Time) : Prop :=
  t_State t = StateLeased /\ t_WorkerID t = s_WorkerID sub /\ a_WorkerID current = s_WorkerID sub /\
  now < t_LeaseUntil t /\ s_InputDigest sub = t_InputDigest t /\
  digestPattern_Match (s_InputDigest sub) = true.

(** What a decided submission is, one case per way the row can change. *)
Inductive submit_case (t : Task) (sub : Submission) (auth : AuthorizationState) (now : Time)
    (bounds : Bounds) (recorded : option RecordedResult) : SubmitDecision -> Prop :=
| submit_revoked :
    auth = AuthorizationRevoked ->
    submit_case t sub auth now bounds recorded
      (mkSubmitDecision (t <| t_State := StateCanceled |> <| t_FailureCode := FailureAuthorizationRevoked |>
                           <| t_Revision := u64 (t_Revision t + 1) |>) AttemptStale false false true)
| submit_failed :
    auth = AuthorizationCurrent -> s_Succeeded sub = false ->
    submit_case t sub auth now bounds recorded
      (failAttempt t (if String.eqb (s_FailureCode sub) "" then FailureHandler else s_FailureCode sub) now bounds)
| submit_mismatch :
    auth = AuthorizationCurrent -> s_Succeeded sub = true ->
    expectedResult t recorded <> Ok (s_ResultRef sub, s_ResultDigest sub) ->
    submit_case t sub auth now bounds recorded (failAttempt t FailureProfileMismatch now bounds)
| submit_accepted :
    auth = AuthorizationCurrent -> s_Succeeded sub = true -> digestPattern_Match (s_ResultDigest sub) = true ->
    expectedResult t recorded = Ok (s_ResultRef sub, s_ResultDigest sub) ->
    submit_case t sub auth now bounds recorded
      (mkSubmitDecision (t <| t_State := StateAccepted |> <| t_ResultRef := s_ResultRef sub |>
                           <| t_ResultDigest := s_ResultDigest sub |> <| t_FailureCode := "" |>
                           <| t_Revision := u64 (t_Revision t + 1) |>) AttemptAccepted true false true).

Lemma failAttempt_flags t code now bounds :
  sd_Changed (failAttempt t code now bounds) = true /\ sd_Accepted (failAttempt t code now bounds) = false
  /\ sd_Existing (failAttempt t code now bounds) = false.
Proof. unfold failAttempt. by destruct (_ <=? _). Qed.

Lemma DecideSubmitRecorded_inv t current sub auth now bounds recorded d :
  DecideSubmitRecorded t current sub auth now bounds recorded = Ok d ->
  (sd_Existing d = true /\ sd_Changed d = false /\ sd_Task d = t /\ t_State t = StateAccepted /\
     t_WorkerID t = s_WorkerID sub /\ t_ResultRef t = s_ResultRef sub /\
     t_ResultDigest t = s_ResultDigest sub /\ s_Succeeded sub = true) \/
  (sd_Existing d = false /\ sd_Changed d = true /\ current_claim t current sub now /\
     submit_case t sub auth now bounds recorded d).
Proof.
  unfold DecideSubmitRecorded. intros H. dif H as Ed. dif H as Ea; breflect.
  { dif H as Em. breflect. injection H as <-. left. by split_and!. }
  dif H as Ec. dif H as El. dif H as Ei. breflect.
  assert (current_claim t current sub now) as Hcc by (by split_and!). right.
  dif H as Er; breflect.
  { injection H as <-. split_and!; [done..|]. by constructor. }
  assert (auth = AuthorizationCurrent) as Hauth by (by destruct auth).
  dif H as Es; breflect.
  { injection H as <-. split_and!; try apply failAttempt_flags; [done|]. by constructor. }
  dif H as Erd; breflect. destruct (expectedResult t recorded) as [[ref digest]|e] eqn:Ee.
  - dif H as Ec2; injection H as <-.
    + split_and!; try apply failAttempt_flags; [done|]. apply submit_mismatch; [done..|].
      rewrite Ee. intros [= -> ->]. rewrite !String.eqb_refl in Ec2. done.
    + breflect. subst. split_and!; [done..|]. constructor; [done..|]. by rewrite Ee.
  - dif H as En. injection H as <-.
    split_and!; try apply failAttempt_flags; [done|]. apply submit_mismatch; [done..|]. by rewrite Ee.
Qed.

(** ** Properties of single decisions *)

(** A submission is newly accepted exactly when it is the current
    claimant's, within its lease, for the frozen input digest, under a current
    authorization, reported as succeeded, and carries the very reference and
    digest the profile expects (a well-formed digest); nothing else is ever
    accepted, and the accepted row records that result. *)
Theorem submit_accepts_iff t current sub auth now bounds recorded d :
  DecideSubmitRecorded t current sub auth now bounds recorded = Ok d /\ sd_Accepted d = true /\ sd_Existing d = false
  <->
  current_claim t current sub now /\ auth = AuthorizationCurrent /\ s_Succeeded sub = true /\
  digestPattern_Match (s_ResultDigest sub) = true /\
  expectedResult t recorded = Ok (s_ResultRef sub, s_ResultDigest sub) /\
  d = mkSubmitDecision (t <| t_State := StateAccepted |> <| t_ResultRef := s_ResultRef sub |>
        <| t_ResultDigest := s_ResultDigest sub |> <| t_FailureCode := "" |>
        <| t_Revision := u64 (t_Revision t + 1) |>) AttemptAccepted true false true.
Proof.
  split.
  - intros (H & Ha & He).
    apply DecideSubmitRecorded_inv in H as [(Hx & _)|(_ & _ & Hc & Hs)]; [congruence|].
    destruct Hs as [_ | _ _ | _ _ _ | Hau Hs Hp Hx]; [done | | | by split_and!];
      by rewrite (proj1 (proj2 (failAttempt_flags _ _ _ _))) in Ha.
  - intros ((Hst & Hw & Hcw & Hl & Hi & Hd) & -> & Hs & Hrd & He & ->).
    split; [|done]. unfold DecideSubmitRecorded.
    rewrite Hd, Hst, Hw, Hcw, Hi, !String.eqb_refl, (proj2 (After_spec _ _) Hl), Hs, Hrd, He. cbn.
    by rewrite !String.eqb_refl.
Qed.

(** A submission repeated after its acceptance answers that acceptance
    and changes nothing, whenever it arrives; any other submission to an
    accepted request is refused as a stale execution. *)
Theorem submit_after_acceptance t current sub auth now bounds recorded :
  t_State t = StateAccepted -> digestPattern_Match (s_InputDigest sub) = true ->
  DecideSubmitRecorded t current sub auth now bounds recorded =
  if bool_decide (t_WorkerID t = s_WorkerID sub /\ t_ResultDigest t = s_ResultDigest sub /\
                  t_ResultRef t = s_ResultRef sub /\ s_Succeeded sub = true)
  then Ok (mkSubmitDecision t "" true true false) else Fail ErrStaleExecution.
Proof.
  intros Hs Hd. unfold DecideSubmitRecorded. rewrite Hd, Hs.
  change (bool_decide (StateAccepted = StateAccepted)) with true. cbn.
  destruct (decide (t_WorkerID t = s_WorkerID sub /\ t_ResultDigest t = s_ResultDigest sub /\
    t_ResultRef t = s_ResultRef sub /\ s_Succeeded sub = true)) as [H|H].
  - rewrite bool_decide_true by done. destruct H as (Hw & Hr & Hf & Hk). by rewrite Hw, Hr, Hf, Hk, !String.eqb_refl.
  - rewrite bool_decide_false by done. destruct (_ && _) eqn:E; [|done]. breflect. naive_solver.
Qed.

Lemma NewRequest_inv taskID tenantID kind profile input effects dispatchID auth correlationID bounds t :
  NewRequest taskID tenantID kind profile input effects dispatchID auth correlationID bounds = Ok t ->
  checkProfileInput profile input = Ok tt /\ len input <= b_MaxInputBytes bounds /\
  (effects = EffectsExternal -> dispatchID <> "") /\
  t = mkTask taskID 1 tenantID kind (InputDigest input) input StatePending "" zero_time 0
        (b_MaxAttempts bounds) profile effects dispatchID auth None "" "" "" 1 correlationID.
Proof.
  unfold NewRequest. intros H. dif H as E1. dif H as E2. dif H as E3. dif H as E4. dif H as E5. dif H as E6.
  apply bind_Ok in H as ([] & Hc & H). injection H as <-. breflect. split_and!; try done.
  intros -> ->. destruct E5; done.
Qed.

(** A request is only created with an input its profile can judge: for
    the local-check profile the expected reference and digest are computable
    from the frozen input (and the digest is well formed), for the
    catalog-refresh profile the expectation is exactly the owner's record. *)
Theorem created_request_has_expectation taskID tenantID kind profile input effects dispatchID auth correlationID bounds t :
  NewRequest taskID tenantID kind profile input effects dispatchID auth correlationID bounds = Ok t ->
  digestPattern_Match (t_InputDigest t) = true /\
  ((profile = LocalCheckProfile /\ exists raw, forall recorded,
      expectedResult t recorded = Ok ("local-check:" +:+ taskID +:+ ":1", sha256_hex raw) /\
      digestPattern_Match (sha256_hex raw) = true) \/
   (profile = CatalogRefreshProfile /\ expectedResult t None = Fail ErrNoRecord /\
      forall r, expectedResult t (Some r) = Ok (rr_Ref r, rr_Digest r))).
Proof.
  intros (Hc & _ & _ & ->)%NewRequest_inv. split; [apply sha256_hex_pattern|].
  unfold checkProfileInput in Hc. destruct (String.eqb profile LocalCheckProfile) eqn:E1; breflect.
  - left. split; [done|]. subst. unfold expectedResult. cbn [t_ResultProfile t_Input t_TaskID t_Generation].
    change (String.eqb LocalCheckProfile CatalogRefreshProfile) with false. rewrite String.eqb_refl.
    destruct (unmarshal_local_check input) as [i|]; [|done]. dif Hc as E2.
    destruct (base64_DecodeString (li_Bytes i)) as [raw|]; [|done]. exists raw. intros _.
    split; [done|apply sha256_hex_pattern].
  - destruct (String.eqb profile CatalogRefreshProfile) eqn:E2; [|done]. breflect. right. by subst.
Qed.
