(* ===== verification/TaskLife.v ===== *)
(** * TaskLife: the life of one generation of a background request

    The abstract specification the database commands of [Tasks] implement:
    a generation is its request row with its attempts, and a labelled step
    relation applies the decisions of [Task] to it.  The invariant of the
    reachable generations, fencing, the bound on attempts and termination are
    proved here, free of the database. *)

From S2P Require Import Prelude Errors GoStrings GoCrypto GoJson Task.

(** ** Generations *)

(** [currentAttempt] (tasks.go): the attempt row of the current ordinal. *)
Fixpoint currentAttempt (task : Task) (attempts : list Attempt) : Attempt :=
  match attempts with
  | [] => no_attempt
  | a :: r => if u32 (a_Ordinal a) =? t_AttemptCount task then a else currentAttempt task r
  end.

(** Record an outcome on the attempts of an ordinal. *)
Definition set_outcome (ordinal : Z) (outcome : string) (attempts : list Attempt) : list Attempt :=
  map (fun a => if a_Ordinal a =? ordinal
                then mkAttempt (a_Ordinal a) (a_WorkerID a) (a_LeasedAt a) (a_LeaseUntil a) outcome
                else a) attempts.
(** What [apply] records: nothing without an outcome or an attempt. *)
Definition record_outcome (task : Task) (outcome : string) (attempts : list Attempt) : list Attempt :=
  if negb (String.eqb outcome "") && (0 <? t_AttemptCount task)
  then set_outcome (t_AttemptCount task) outcome attempts else attempts.

#[global] Arguments set_outcome : simpl never.
#[global] Arguments record_outcome : simpl never.

(** What reads back of a request and an attempt once written: a lease only
    while leased, times to the microsecond, no zero time. *)
Definition stored_task (t : Task) : Task :=
  t <| t_LeaseUntil := if negb (IsZero (t_LeaseUntil t)) && bool_decide (t_State t = StateLeased)
                       then us (t_LeaseUntil t) else zero_time |>
    <| t_RetryAt := match t_RetryAt t with Some r => if IsZero r then None else Some (us r) | None => None end |>.
Definition stored_attempt (a : Attempt) : Attempt :=
  mkAttempt (a_Ordinal a) (a_WorkerID a) (us (a_LeasedAt a)) (us (a_LeaseUntil a)) (a_Outcome a).

Record generation := mkGeneration { gen_task : Task; gen_attempts : list Attempt }.

Inductive event :=
| EvClaim (worker : string)
| EvHeartbeat (worker : string)
| EvSubmit (sub : Submission)
| EvCancel
| EvExpire (outcome : DispatchOutcome)
| EvSupersede.

Inductive gen_step (bounds : Bounds) : generation -> event -> generation -> Prop :=
| step_claim t atts w lease now d :
    DecideClaim t atts w lease now bounds = Ok d ->
    gen_step bounds (mkGeneration t atts) (EvClaim w)
      (mkGeneration (stored_task (cd_Task d))
         ((if cd_ExpiredPrevious d then set_outcome (t_AttemptCount t) AttemptExpired atts else atts)
            ++ [stored_attempt (cd_Attempt d)]))
| step_heartbeat t atts w now t' :
    DecideHeartbeat t (currentAttempt t atts) w now = Ok t' ->
    gen_step bounds (mkGeneration t atts) (EvHeartbeat w) (mkGeneration (stored_task t') atts)
| step_submit t atts sub auth now recorded d :
    DecideSubmitRecorded t (currentAttempt t atts) sub auth now bounds recorded = Ok d ->
    sd_Changed d = true ->
    gen_step bounds (mkGeneration t atts) (EvSubmit sub)
      (mkGeneration (stored_task (sd_Task d)) (record_outcome (sd_Task d) (sd_AttemptOutcome d) atts))
| step_cancel t atts t' outcome :
    DecideCancel t = (t', outcome, true) ->
    gen_step bounds (mkGeneration t atts) EvCancel (mkGeneration (stored_task t') (record_outcome t' outcome atts))
| step_expire t atts dispatch now t' outcome :
    DecideExpire t dispatch now bounds = (t', outcome, true) ->
    gen_step bounds (mkGeneration t atts) (EvExpire dispatch)
      (mkGeneration (stored_task t') (record_outcome t' outcome atts))
| step_supersede t atts t' :
    Supersede t = (t', true) ->
    gen_step bounds (mkGeneration t atts) EvSupersede
      (mkGeneration (stored_task t') (record_outcome t' (if bool_decide (t_State t = StateLeased) then AttemptStale else "") atts)).

(** Runs, with the events they took; each step may use other bounds (a new
    configuration generation replaces them). *)
Inductive gen_run : generation -> list event -> generation -> Prop :=
| run_nil g : gen_run g [] g
| run_cons bounds g e g1 es g2 :
    gen_step bounds g e g1 -> gen_run g1 es g2 -> gen_run g (e :: es) g2.

(** A generation as [Request] creates it. *)
Inductive created : generation -> Prop :=
| created_intro bounds taskID tenantID kind profile input effects dispatchID auth correlationID n t :
    is_u32 (b_MaxAttempts bounds) ->
    NewRequest taskID tenantID kind profile input effects dispatchID auth correlationID bounds = Ok t ->
    created (mkGeneration (t <| t_Generation := n |>) []).

Definition reachable (g : generation) : Prop := exists g0 es, created g0 /\ gen_run g0 es g.

(** ** The invariant *)

Record gen_inv (g : generation) : Prop := mkGenInv {
  inv_count : 0 <= t_AttemptCount (gen_task g) <= t_MaxAttempts (gen_task g);
  inv_max : is_u32 (t_MaxAttempts (gen_task g));
  inv_ordinals : map a_Ordinal (gen_attempts g) = seqZ 1 (t_AttemptCount (gen_task g));
  inv_workers : NoDup (map a_WorkerID (gen_attempts g));
  inv_leased : t_State (gen_task g) = StateLeased ->
    0 < t_AttemptCount (gen_task g) /\
    a_WorkerID (currentAttempt (gen_task g) (gen_attempts g)) = t_WorkerID (gen_task g);
  inv_pending : t_State (gen_task g) = StatePending -> gen_attempts g = [];
  inv_retry : t_State (gen_task g) = StateRetryScheduled ->
    t_WorkerID (gen_task g) = "";
  inv_submitted : t_State (gen_task g) <> StateResultSubmitted;
  inv_accepted : t_State (gen_task g) = StateAccepted ->
    exists recorded, expectedResult (gen_task g) recorded =
      Ok (t_ResultRef (gen_task g), t_ResultDigest (gen_task g)) }.

(** The progress measure: two steps per attempt left, one for the current
    lease and one for the final state. *)
Definition state_weight (s : TaskState) : Z :=
  match s with
  | StateLeased => 2
  | StatePending | StateResultSubmitted | StateRetryScheduled => 1
  | _ => 0
  end.
Definition measure (t : Task) : Z :=
  2 * (t_MaxAttempts t - t_AttemptCount t) + state_weight (t_State t).
Definition is_heartbeat (e : event) : bool := match e with EvHeartbeat _ => true | _ => false end.
Definition progress_steps (es : list event) : nat := List.length (List.filter (fun e => negb (is_heartbeat e)) es).

(** ** Attempt lists *)

Lemma set_outcome_ordinals o x l : map a_Ordinal (set_outcome o x l) = map a_Ordinal l.
Proof. unfold set_outcome. rewrite map_map. apply map_ext. intros a. by destruct (_ =? _). Qed.
Lemma set_outcome_workers o x l : map a_WorkerID (set_outcome o x l) = map a_WorkerID l.
Proof. unfold set_outcome. rewrite map_map. apply map_ext. intros a. by destruct (_ =? _). Qed.
Lemma record_outcome_ordinals t x l : map a_Ordinal (record_outcome t x l) = map a_Ordinal l.
Proof. unfold record_outcome. destruct (_ && _); [apply set_outcome_ordinals|done]. Qed.
Lemma record_outcome_workers t x l : map a_WorkerID (record_outcome t x l) = map a_WorkerID l.
Proof. unfold record_outcome. destruct (_ && _); [apply set_outcome_workers|done]. Qed.
#[export] Hint Rewrite set_outcome_ordinals set_outcome_workers
  record_outcome_ordinals record_outcome_workers : go_rw.

Lemma record_outcome_nil t x : record_outcome t x [] = [].
Proof. unfold record_outcome. by destruct (_ && _). Qed.

Lemma u32_ordinal_ne n l t :
  is_u32 (t_AttemptCount t) -> map a_Ordinal l = seqZ 1 n -> 0 <= n -> n < t_AttemptCount t ->
  Forall (fun a => (u32 (a_Ordinal a) =? t_AttemptCount t) = false) l.
Proof.
  intros [? ?] Ho ? ?. apply List.Forall_forall. intros a Ha. apply Z.eqb_neq.
  assert (a_Ordinal a ∈ seqZ 1 n) as Hs by (rewrite <- Ho; by apply list_elem_of_In, in_map).
  apply elem_of_seqZ in Hs. rewrite u32_id by (unfold is_u32; lia). lia.
Qed.

(** The attempt of a fresh claim is the current one. *)
Lemma currentAttempt_snoc n l a t :
  is_u32 (t_AttemptCount t) -> map a_Ordinal l = seqZ 1 n -> 0 <= n -> n < t_AttemptCount t ->
  a_Ordinal a = t_AttemptCount t -> currentAttempt t (l ++ [a]) = a.
Proof.
  intros Hu Ho Hn0 Hn Ha. pose proof (u32_ordinal_ne _ _ _ Hu Ho Hn0 Hn) as HF. clear Ho.
  induction HF as [|b l Hb _ IH]; cbn.
  - by rewrite Ha, (u32_id _ Hu), Z.eqb_refl.
  - by rewrite Hb.
Qed.

Lemma currentAttempt_count t t' l :
  t_AttemptCount t = t_AttemptCount t' -> currentAttempt t l = currentAttempt t' l.
Proof. intros E. induction l as [|a l IH]; cbn; [done|]. by rewrite E, IH. Qed.

Lemma seqZ_snoc n : 0 <= n -> seqZ 1 (n + 1) = seqZ 1 n ++ [n + 1].
Proof. intros. rewrite seqZ_app by lia. cbn. by rewrite Z.add_comm. Qed.

(** ** Preservation *)

Lemma failAttempt_cases t code now bounds :
  (t_MaxAttempts t <= t_AttemptCount t /\
   sd_Task (failAttempt t code now bounds) =
     t <| t_FailureCode := code |> <| t_Revision := u64 (t_Revision t + 1) |> <| t_State := StateDead |>) \/
  (t_AttemptCount t < t_MaxAttempts t /\
   sd_Task (failAttempt t code now bounds) =
     t <| t_FailureCode := code |> <| t_Revision := u64 (t_Revision t + 1) |>
       <| t_State := StateRetryScheduled |> <| t_RetryAt := Some (TAdd now (b_RetryDelay bounds)) |>
       <| t_WorkerID := "" |>).
Proof.
  unfold failAttempt. destruct (t_MaxAttempts t <=? t_AttemptCount t) eqn:E; breflect; [left|right]; done.
Qed.

(** A change that keeps the counters and the attempts and leads to a state
    that is neither leased nor pending. *)
Lemma gen_inv_settle g t' atts' :
  gen_inv g ->
  t_AttemptCount t' = t_AttemptCount (gen_task g) -> t_MaxAttempts t' = t_MaxAttempts (gen_task g) ->
  map a_Ordinal atts' = map a_Ordinal (gen_attempts g) ->
  map a_WorkerID atts' = map a_WorkerID (gen_attempts g) ->
  (t_State t' = StateDead \/ t_State t' = StateStale \/ t_State t' = StateCanceled \/
   (t_State t' = StateRetryScheduled /\ t_WorkerID t' = "") \/
   (t_State t' = StateAccepted /\ exists recorded, expectedResult t' recorded = Ok (t_ResultRef t', t_ResultDigest t'))) ->
  gen_inv (mkGeneration t' atts').
Proof.
  intros [Hc Hm Ho Hw _ _ _ _ _] E1 E2 E3 E4 Hs.
  constructor; cbn; rewrite ?E1, ?E2, ?E3, ?E4; try done;
    intros Hst; rewrite Hst in Hs; naive_solver.
Qed.

Ltac settle g :=
  apply (gen_inv_settle g); autorewrite with go_rw; cbn; try done; naive_solver eauto.

Lemma inv_claim g w lease now bounds d :
  gen_inv g -> DecideClaim (gen_task g) (gen_attempts g) w lease now bounds = Ok d ->
  gen_inv (mkGeneration (stored_task (cd_Task d))
    ((if cd_ExpiredPrevious d then set_outcome (t_AttemptCount (gen_task g)) AttemptExpired (gen_attempts g)
      else gen_attempts g) ++ [stored_attempt (cd_Attempt d)])).
Proof.
  intros [Hc Hm Ho Hw _ _ _ _ _] (Hl & Hfresh & Hcl & Ha & -> & ->)%DecideClaim_inv.
  destruct g as [t atts]. cbn in *.
  assert (u32 (t_AttemptCount t + 1) = t_AttemptCount t + 1) as Hu
    by (apply u32_id; unfold is_u32 in *; lia).
  set (atts' := if cd_ExpiredPrevious d then _ else _).
  assert (map a_Ordinal atts' = seqZ 1 (t_AttemptCount t)) as Ho'
    by (unfold atts'; destruct (cd_ExpiredPrevious d); by rewrite ?set_outcome_ordinals).
  assert (map a_WorkerID atts' = map a_WorkerID atts) as Hw'
    by (unfold atts'; destruct (cd_ExpiredPrevious d); by rewrite ?set_outcome_workers).
  constructor; cbn; rewrite ?Hu; try done.
  - lia.
  - rewrite map_app, Ho'. cbn. by rewrite seqZ_snoc by lia.
  - rewrite map_app, Hw'. cbn. apply NoDup_app. split_and!; [done| |apply NoDup_singleton].
    intros x Hx Hx'%list_elem_of_singleton. by subst x.
  - intros _. split; [lia|]. rewrite (currentAttempt_snoc (t_AttemptCount t)); cbn; try done; try lia.
    unfold is_u32 in *. lia.
Qed.

Lemma inv_submit g sub auth now bounds recorded d :
  gen_inv g ->
  DecideSubmitRecorded (gen_task g) (currentAttempt (gen_task g) (gen_attempts g)) sub auth now bounds recorded = Ok d ->
  sd_Changed d = true ->
  gen_inv (mkGeneration (stored_task (sd_Task d)) (record_outcome (sd_Task d) (sd_AttemptOutcome d) (gen_attempts g))).
Proof.
  intros Hi Hd Hch. apply DecideSubmitRecorded_inv in Hd as [(_ & Hn & _)|(_ & _ & _ & Hd)]; [congruence|].
  destruct Hd as [_|_ _|_ _ _|_ _ _ He]; [settle g| | |settle g];
    (edestruct failAttempt_cases as [[_ Ht]|[_ Ht]]; rewrite Ht; settle g).
Qed.

Lemma gen_step_inv bounds g e g' : gen_inv g -> gen_step bounds g e g' -> gen_inv g'.
Proof.
  intros Hi Hs. destruct Hs as [t atts w lease now d Hd|t atts w now t' Hd|t atts sub auth now rec d Hd Hch
    |t atts t' o Hd|t atts dis now t' o Hd|t atts t' Hd].
  - by eapply (inv_claim (mkGeneration t atts)).
  - apply DecideHeartbeat_inv in Hd as (Hst & Hw & Hc & _ & ->). destruct Hi.
    constructor; cbn in *; try done. intros _. erewrite (currentAttempt_count _ t) by done. by apply inv_leased0.
  - by eapply (inv_submit (mkGeneration t atts)).
  - unfold DecideCancel in Hd. destruct (Terminal _) eqn:E; [done|]. injection Hd as <- <-.
    settle (mkGeneration t atts).
  - unfold DecideExpire in Hd. destruct (_ || _) eqn:E; [done|].
    destruct (_ && _) eqn:E2; [|destruct (_ <=? _) eqn:E3]; injection Hd as <- <-;
      settle (mkGeneration t atts).
  - unfold Supersede in Hd. destruct (Terminal _) eqn:E; [done|]. injection Hd as <-.
    settle (mkGeneration t atts).
Qed.

(** ** What a step does to a row *)

(** The identity of a request, which no step changes. *)
Definition identity (t : Task) : string * Z * string * string * string * string * string * string * string * string * string * Z :=
  (t_TaskID t, t_Generation t, t_TenantID t, t_Kind t, t_InputDigest t, t_Input t, t_ResultProfile t,
   t_Effects t, t_DispatchID t, t_AuthorizationRef t, t_CorrelationID t, t_MaxAttempts t).

(** The row change of each event: the next state, whether the worker is kept
    and whether the attempt counter moves. *)
Definition row_change (t : Task) (e : event) (t' : Task) : Prop :=
  match e with
  | EvClaim w =>
      Terminal (t_State t) = false /\ t_State t' = StateLeased /\ t_WorkerID t' = w /\
      t_AttemptCount t < t_MaxAttempts t /\ t_AttemptCount t' = u32 (t_AttemptCount t + 1)
  | EvHeartbeat w =>
      t_State t = StateLeased /\ t_WorkerID t = w /\ t_State t' = StateLeased /\ t_WorkerID t' = w /\
      t_AttemptCount t' = t_AttemptCount t
  | EvSubmit sub =>
      t_State t = StateLeased /\ t_WorkerID t = s_WorkerID sub /\ t_State t' <> StateLeased /\
      t_State t' <> StatePending /\
      (t_WorkerID t' = t_WorkerID t \/ t_WorkerID t' = "") /\ t_AttemptCount t' = t_AttemptCount t
  | EvExpire dispatch =>
      t_State t = StateLeased /\
      (t_State t' = StateDead \/
       t_State t' = StateRetryScheduled /\ (t_Effects t = EffectsExternal -> dispatch = DispatchNotSent)) /\
      (t_WorkerID t' = t_WorkerID t \/ t_WorkerID t' = "") /\ t_AttemptCount t' = t_AttemptCount t
  | EvCancel | EvSupersede =>
      Terminal (t_State t) = false /\ Terminal (t_State t') = true /\ t_WorkerID t' = t_WorkerID t /\
      t_AttemptCount t' = t_AttemptCount t
  end.

Lemma claimable_not_terminal t now e : claimable t now e -> Terminal (t_State t) = false.
Proof. by destruct 1 as [Hs|Hs _|Hs _ _]; rewrite Hs. Qed.

Lemma step_row bounds g e g' :
  gen_step bounds g e g' ->
  row_change (gen_task g) e (gen_task g') /\ identity (gen_task g') = identity (gen_task g) /\
  t_Revision (gen_task g') = u64 (t_Revision (gen_task g) + 1).
Proof.
  intros Hs. destruct Hs as [t atts w lease now d Hd|t atts w now t' Hd|t atts sub auth now rec d Hd Hch
    |t atts t' o Hd|t atts dis now t' o Hd|t atts t' Hd]; cbn.
  - apply DecideClaim_inv in Hd as (_ & _ & Hcl & Ha & -> & _). apply claimable_not_terminal in Hcl.
    by split_and!.
  - apply DecideHeartbeat_inv in Hd as (Hst & Hw & _ & _ & ->). by split_and!.
  - apply DecideSubmitRecorded_inv in Hd as [(_ & Hn & _)|(_ & _ & (Hst & Hw & _) & Hd)]; [congruence|].
    destruct Hd as [_|_ _|_ _ _|_ _ _ He]; cbn;
      try (by split_and!; auto);
      (edestruct failAttempt_cases as [[_ Ht]|[_ Ht]]; rewrite Ht; by split_and!; auto).
  - unfold DecideCancel in Hd. destruct (Terminal _) eqn:E; [done|]. injection Hd as <- <-. by split_and!.
  - unfold DecideExpire in Hd. destruct (_ || _) eqn:E; [done|]. breflect.
    destruct (String.eqb (t_Effects t) _ && _) eqn:E2; [|destruct (_ <=? _) eqn:E3]; injection Hd as <- <-;
      split_and!; auto.
    right. split; [done|]. intros Hx. rewrite Hx, String.eqb_refl in E2. cbn in E2. breflect. done.
  - unfold Supersede in Hd. destruct (Terminal _) eqn:E; [done|]. injection Hd as <-. by split_and!.
Qed.

Lemma run_inv g es g' : gen_run g es g' -> gen_inv g -> gen_inv g'.
Proof. induction 1; eauto using gen_step_inv. Qed.

Lemma run_identity g es g' : gen_run g es g' -> identity (gen_task g') = identity (gen_task g).
Proof.
  induction 1 as [|b g e g1 es g2 Hs _ IH]; [done|]. rewrite IH. by apply step_row in Hs as (_ & Hi & _).
Qed.

Lemma created_inv g : created g -> gen_inv g.
Proof.
  intros [bounds taskID tenantID kind profile input effects dispatchID auth correlationID n t Hb Ht].
  apply NewRequest_inv in Ht as (_ & _ & _ & ->).
  constructor; cbn; try done; try apply NoDup_nil_2. unfold is_u32 in Hb. lia.
Qed.

Lemma run_app g es1 es2 g' :
  gen_run g (es1 ++ es2) g' <-> exists g1, gen_run g es1 g1 /\ gen_run g1 es2 g'.
Proof.
  split.
  - revert g. induction es1 as [|e es1 IH]; cbn; intros g Hr; [by eauto using run_nil|].
    inversion Hr as [|b ? ? g1 ? ? Hs Hr']; subst. apply IH in Hr' as (g2 & H1 & H2).
    eauto using run_cons.
  - intros (g1 & H1 & H2). induction H1; cbn; eauto using run_cons.
Qed.

Lemma reachable_run g es g' : reachable g -> gen_run g es g' -> reachable g'.
Proof. intros (g0 & es0 & Hc & H0) Hr. exists g0, (es0 ++ es). split; [done|]. apply run_app. eauto. Qed.

Lemma reachable_inv g : reachable g -> gen_inv g.
Proof. intros (g0 & es & Hc & Hr). eauto using run_inv, created_inv. Qed.

Lemma step_not_terminal bounds g e g' : gen_step bounds g e g' -> Terminal (t_State (gen_task g)) = false.
Proof. intros (Hr & _)%step_row. destruct e; cbn in Hr; destruct_and?; try done; by repeat match goal with H : t_State _ = _ |- _ => rewrite H end. Qed.

Lemma run_terminal g es g' : gen_run g es g' -> Terminal (t_State (gen_task g)) = true -> es = [] /\ g' = g.
Proof. destruct 1 as [|b g e g1 es g2 Hs _]; [done|]. apply step_not_terminal in Hs. congruence. Qed.

Definition new_workers (e : event) : list string := match e with EvClaim w => [w] | _ => [] end.

Lemma step_workers bounds g e g' :
  gen_step bounds g e g' ->
  map a_WorkerID (gen_attempts g') = map a_WorkerID (gen_attempts g) ++ new_workers e /\
  (forall w, e = EvClaim w -> w ∉ map a_WorkerID (gen_attempts g)).
Proof.
  intros Hs. destruct Hs as [t atts w lease now d Hd|t atts w now t' Hd|t atts sub auth now rec d Hd Hch
    |t atts t' o Hd|t atts dis now t' o Hd|t atts t' Hd]; cbn; autorewrite with go_rw; rewrite ?app_nil_r; try done.
  apply DecideClaim_inv in Hd as (_ & Hw & _ & _ & _ & ->). split.
  - rewrite map_app. cbn. by destruct (cd_ExpiredPrevious d); autorewrite with go_rw.
  - by intros ? [= <-].
Qed.

Lemma state_weight_terminal s : Terminal s = true -> state_weight s = 0.
Proof. by destruct s. Qed.
Lemma state_weight_live s : Terminal s = false -> 1 <= state_weight s.
Proof. destruct s; cbn; done || lia. Qed.
Lemma state_weight_other s : s <> StateLeased -> 0 <= state_weight s <= 1.
Proof. destruct s; cbn; done || lia. Qed.
Lemma state_weight_nonneg s : 0 <= state_weight s.
Proof. destruct s; cbn; lia. Qed.

Lemma step_measure bounds g e g' :
  gen_inv g -> gen_step bounds g e g' ->
  measure (gen_task g') + (if is_heartbeat e then 0 else 1) <= measure (gen_task g).
Proof.
  intros Hi Hs. apply step_row in Hs as (Hr & Hid & _). injection Hid as _ _ _ _ _ _ _ _ _ _ _ Hm.
  destruct Hi as [Hc Hmax _ _ _ _ _ _ _]. unfold is_u32 in Hmax.
  unfold measure. rewrite Hm.
  destruct e; cbn [row_change is_heartbeat] in *; destruct_and!;
    match goal with H : t_AttemptCount (gen_task g') = _ |- _ => rewrite H end;
    rewrite ?u32_id by (unfold is_u32; lia);
    repeat match goal with
    | H : Terminal (t_State (gen_task g)) = false |- _ => apply state_weight_live in H
    | H : Terminal (t_State (gen_task g')) = true |- _ => apply state_weight_terminal in H
    | H : t_State _ = StateLeased |- _ => rewrite H; clear H
    | H : t_State (gen_task g') <> StateLeased |- _ => apply state_weight_other in H
    | H : t_State (gen_task g') = _ \/ _ |- _ => destruct H as [-> | [-> _]]
    end; cbn [state_weight]; lia.
Qed.

Lemma measure_nonneg g : gen_inv g -> 0 <= measure (gen_task g).
Proof.
  intros [Hc _ _ _ _ _ _ _ _]. unfold measure. pose proof (state_weight_nonneg (t_State (gen_task g))). lia.
Qed.

Lemma run_measure g es g' :
  gen_inv g -> gen_run g es g' -> measure (gen_task g') + Z.of_nat (progress_steps es) <= measure (gen_task g).
Proof.
  intros Hi Hr. induction Hr as [g|b g e g1 es g2 Hs Hr IH]; cbn; [lia|].
  specialize (IH (gen_step_inv _ _ _ _ Hi Hs)). apply step_measure in Hs; [|done].
  unfold progress_steps in *. cbn. destruct (is_heartbeat e); cbn in *; lia.
Qed.

(** ** Properties of a generation's life *)

(** Every generation reachable from its creation keeps the invariant: the
    attempts are numbered 1..n with n the attempt counter, at most the frozen
    maximum, by pairwise distinct workers; a leased row's worker is the one of
    its current attempt; a row scheduled for retry has no worker and a retry
    time; the state RESULT_SUBMITTED never occurs; an accepted row carries the
    result its profile expects. *)
Theorem reachable_invariant g : reachable g -> gen_inv g.
Proof. apply reachable_inv. Qed.

(** C14. Termination: whatever the configuration changes in between, a request
    created with at most [max] attempts takes at most 2*max+1 steps other than
    heartbeats, and a terminal row takes no step at all. *)
Theorem life_is_bounded g0 es g :
  created g0 -> gen_run g0 es g ->
  Z.of_nat (progress_steps es) <= 2 * t_MaxAttempts (gen_task g0) + 1 /\
  (Terminal (t_State (gen_task g)) = true -> forall es' g', gen_run g es' g' -> es' = [] /\ g' = g).
Proof.
  intros Hc Hr. pose proof (created_inv _ Hc) as Hi. split.
  - pose proof (run_measure _ _ _ Hi Hr). pose proof (measure_nonneg _ (run_inv _ _ _ Hr Hi)).
    enough (measure (gen_task g0) = 2 * t_MaxAttempts (gen_task g0) + 1) by lia.
    destruct Hc as [? ? ? ? ? ? ? ? ? ? ? t ? (_ & _ & _ & ->)%NewRequest_inv].
    unfold measure. cbn. lia.
  - intros Ht es' g' Hr'. by eapply run_terminal.
Qed.

(** The owner answers a stale worker: no heartbeat, no submission, no claim. *)
Definition fenced (w : string) (g : generation) : Prop :=
  (forall now, DecideHeartbeat (gen_task g) (currentAttempt (gen_task g) (gen_attempts g)) w now = Fail ErrStaleExecution) /\
  (forall sub auth now bounds recorded d, s_WorkerID sub = w ->
     DecideSubmitRecorded (gen_task g) (currentAttempt (gen_task g) (gen_attempts g)) sub auth now bounds recorded <> Ok d) /\
  (forall lease now bounds d, DecideClaim (gen_task g) (gen_attempts g) w lease now bounds <> Ok d).

Lemma displaced_fenced w g :
  w ∈ map a_WorkerID (gen_attempts g) -> t_WorkerID (gen_task g) <> w -> fenced w g.
Proof.
  intros Hin Hne. split_and!.
  - intros now. unfold DecideHeartbeat. rewrite (proj2 (String.eqb_neq _ _) Hne), orb_true_r. done.
  - intros sub auth now bounds rec d <- Hd.
    apply DecideSubmitRecorded_inv in Hd as [Hd|(_ & _ & Hd & _)]; [|destruct Hd]; destruct_and!; congruence.
  - intros lease now bounds d (_ & Hnew & _)%DecideClaim_inv. done.
Qed.

Lemma displaced_step w bounds g e g' :
  w <> "" -> gen_step bounds g e g' -> w ∈ map a_WorkerID (gen_attempts g) -> t_WorkerID (gen_task g) <> w ->
  w ∈ map a_WorkerID (gen_attempts g') /\ t_WorkerID (gen_task g') <> w.
Proof.
  intros Hw Hs Hin Hne. pose proof (step_workers _ _ _ _ Hs) as [Ha Hf]. apply step_row in Hs as (Hr & _).
  split; [rewrite Ha; apply elem_of_app; by left|].
  destruct e as [w'| | | | |]; cbn in Hr; destruct_and!; try congruence;
    try (match goal with H : _ \/ _ |- _ => destruct H; congruence end).
  intros E. rewrite H0 in E. subst w. by apply (Hf w').
Qed.

(** C8. Fencing: once a worker that held an attempt is no longer the row's
    worker, it stays fenced for the rest of the generation's life: each of its
    heartbeats is stale, none of its submissions is decided and it can never
    claim again. *)
Theorem displaced_worker_stays_fenced g es g' w :
  gen_run g es g' -> w <> "" ->
  w ∈ map a_WorkerID (gen_attempts g) -> t_WorkerID (gen_task g) <> w -> fenced w g'.
Proof.
  intros Hr Hw Hin Hne. induction Hr as [g|b g e g1 es g2 Hs _ IH]; [by apply displaced_fenced|].
  destruct (displaced_step _ _ _ _ _ Hw Hs Hin Hne). auto.
Qed.

(** C7. An external effect is never handed to a second worker on mere lease
    expiry: on every run from a leased external request, a later claim is
    preceded by the holder's own submission or by an expiry for which the
    dispatch ledger proved that nothing was sent. *)
Theorem external_never_reassigned_blindly g es g' w :
  gen_run g es g' -> t_State (gen_task g) = StateLeased -> t_Effects (gen_task g) = EffectsExternal ->
  EvClaim w ∈ es ->
  exists es1 e es2, es = es1 ++ e :: es2 /\ EvClaim w ∈ es2 /\ Forall (fun x => is_heartbeat x = true) es1 /\
    (e = EvExpire DispatchNotSent \/ exists sub, e = EvSubmit sub /\ s_WorkerID sub = t_WorkerID (gen_task g)).
Proof.
  intros Hr Hl He Hin. induction Hr as [g|b g e g1 es g2 Hs Hr IH]; [by apply elem_of_nil in Hin|].
  pose proof Hs as (Hch & Hid & _)%step_row. injection Hid as _ _ _ _ _ _ _ Heff _ _ _ _.
  assert (forall x, e <> EvClaim x) as Hnc.
  { intros x ->. inversion Hs; subst. cbn in *.
    match goal with H : DecideClaim _ _ _ _ _ _ = Ok _ |- _ => apply DecideClaim_inv in H as (_ & _ & Hcl & _) end.
    destruct Hcl as [Hx | Hx _ | _ _ Hx]; [congruence..|]. rewrite He in Hx. discriminate Hx. }
  apply elem_of_cons in Hin as [Hin|Hin]; [by edestruct Hnc|].
  assert (forall s, t_State (gen_task g1) = s -> Terminal s = true -> False) as Hterm.
  { intros s <- Ht. apply (run_terminal _ _ _ Hr) in Ht as [-> _]. by apply elem_of_nil in Hin. }
  destruct e as [x|x|sub| |dis|]; cbn in Hch; destruct_and!; try (by edestruct Hterm).
  - by edestruct Hnc.
  - edestruct IH as (es1 & e & es2 & -> & Hi1 & Hi2 & Hi3); [done|congruence|done|].
    exists (EvHeartbeat x :: es1), e, es2. split_and!; auto.
    destruct Hi3 as [Hi3 | (sub & Hi3 & Hi4)]; [by left|right]. exists sub. split; [done|congruence].
  - exists [], (EvSubmit sub), es. split_and!; try done. right. by exists sub.
  - match goal with H : _ = StateDead \/ _ |- _ => destruct H as [Hx | [_ Hx]] end; [by edestruct Hterm|]. exists [], (EvExpire dis), es.
    split_and!; try done. left. by rewrite Hx.
Qed.

(** Every step of a generation raises the row's revision by exactly one
    (modulo 2^64), and no run changes what identifies the request: its ids,
    tenant, frozen input and digest, profile, effect class, authorization,
    correlation and bound on attempts. *)
Theorem steps_revise_and_keep_identity g es g' :
  gen_run g es g' ->
  identity (gen_task g') = identity (gen_task g) /\
  u64 (t_Revision (gen_task g')) = u64 (t_Revision (gen_task g) + Z.of_nat (List.length es)).
Proof.
  intros Hr. split; [by eapply run_identity|].
  induction Hr as [g|b g e g1 es g2 Hs Hr IH]; cbn [List.length]; [f_equal; lia|].
  rewrite IH. apply step_row in Hs as (_ & _ & ->). unfold u64.
  rewrite Zplus_mod_idemp_l. f_equal. lia.
Qed.

(** ** A concrete life *)

Definition demo_bounds : Bounds := mkBounds 4096 (60 * Second) (5 * Second) 3.
Definition demo_input : string := Eval vm_compute in
  Marshal (jmap [("schemaVersion", jint 1); ("computation", JStr LocalCheckProfile); ("bytes", JStr "aGVsbG8=")]).
Definition demo_task : Task := Eval vm_compute in
  match NewRequest "task-1" "tenant-1" KindLocalCheck LocalCheckProfile demo_input EffectsExternal
          "dispatch-1" "auth-1" "corr-1" demo_bounds with
  | Ok t => t
  | Err _ => mkTask "" 0 "" "" "" "" StatePending "" 0 0 0 "" "" "" "" None "" "" "" 0 ""
  end.
Definition demo_lease : Duration := 30 * Second.

(** Claimed by worker-1, expired, claimed by worker-2. *)
Definition demo_new : generation := Eval vm_compute in
  mkGeneration (demo_task <| t_Generation := 1 |>) [].
Definition demo_claim : Task := Eval vm_compute in claimed (gen_task demo_new) "worker-1" demo_lease 0.
Definition demo_leased : generation := Eval vm_compute in
  mkGeneration (stored_task demo_claim) [mkAttempt 1 "worker-1" 0 demo_lease ""].
Definition demo_expiry : Task := Eval vm_compute in
  (DecideExpire (gen_task demo_leased) DispatchNotSent demo_lease demo_bounds).1.1.
Definition demo_expired : generation := Eval vm_compute in
  mkGeneration (stored_task demo_expiry) (record_outcome demo_expiry AttemptExpired (gen_attempts demo_leased)).
Definition demo_reclaim : Task := Eval vm_compute in
  claimed (gen_task demo_expired) "worker-2" demo_lease (2 * demo_lease).
Definition demo_taken : generation := Eval vm_compute in
  mkGeneration (stored_task demo_reclaim)
    (gen_attempts demo_expired ++ [mkAttempt 2 "worker-2" (2 * demo_lease) (3 * demo_lease) ""]).

Lemma demo_created : created demo_new.
Proof.
  change demo_new with (mkGeneration (demo_task <| t_Generation := 1 |>) []).
  apply (created_intro demo_bounds "task-1" "tenant-1" KindLocalCheck LocalCheckProfile demo_input
           EffectsExternal "dispatch-1" "auth-1" "corr-1" 1).
  - unfold is_u32. cbn. lia.
  - vm_compute. reflexivity.
Qed.

Ltac demo_step H := apply H; vm_compute; reflexivity.

Lemma demo_step_claim : gen_step demo_bounds demo_new (EvClaim "worker-1") demo_leased.
Proof.
  demo_step (step_claim demo_bounds (gen_task demo_new) [] "worker-1" demo_lease 0
    (mkClaimDecision demo_claim (mkAttempt 1 "worker-1" 0 demo_lease "") false)).
Qed.
Lemma demo_step_expire : gen_step demo_bounds demo_leased (EvExpire DispatchNotSent) demo_expired.
Proof.
  demo_step (step_expire demo_bounds (gen_task demo_leased) (gen_attempts demo_leased) DispatchNotSent demo_lease
    demo_expiry AttemptExpired).
Qed.
Lemma demo_step_reclaim : gen_step demo_bounds demo_expired (EvClaim "worker-2") demo_taken.
Proof.
  demo_step (step_claim demo_bounds (gen_task demo_expired) (gen_attempts demo_expired) "worker-2" demo_lease
    (2 * demo_lease)
    (mkClaimDecision demo_reclaim (mkAttempt 2 "worker-2" (2 * demo_lease) (3 * demo_lease) "") false)).
Qed.

Lemma demo_run :
  gen_run demo_new [EvClaim "worker-1"; EvExpire DispatchNotSent; EvClaim "worker-2"]
    demo_taken.
Proof. eauto using run_nil, run_cons, demo_step_claim, demo_step_expire, demo_step_reclaim. Qed.
Lemma demo_rerun :
  gen_run demo_leased [EvExpire DispatchNotSent; EvClaim "worker-2"] demo_taken.
Proof. eauto using run_nil, run_cons, demo_step_expire, demo_step_reclaim. Qed.
Lemma demo_reachable : reachable demo_taken.
Proof. eexists _, _. eauto using demo_created, demo_run. Qed.

Lemma reachable_invariant_witness : gen_inv demo_taken.
Proof. apply (reachable_invariant demo_taken). apply demo_reachable. Defined.

Lemma life_is_bounded_witness :
  Z.of_nat (progress_steps [EvClaim "worker-1"; EvExpire DispatchNotSent; EvClaim "worker-2"]) <= 7.
Proof.
  exact (proj1 (life_is_bounded demo_new _ demo_taken demo_created demo_run)).
Defined.

Lemma displaced_worker_stays_fenced_witness :
  t_WorkerID (gen_task demo_taken) = "worker-2" /\ fenced "worker-1" demo_taken.
Proof.
  split; [vm_compute; reflexivity|].
  apply (displaced_worker_stays_fenced demo_taken [] demo_taken).
  - apply run_nil.
  - discriminate.
  - vm_compute. left.
  - vm_compute. discriminate.
Defined.

Lemma external_never_reassigned_blindly_witness :
  exists es1 e es2, [EvExpire DispatchNotSent; EvClaim "worker-2"] = es1 ++ e :: es2 /\ EvClaim "worker-2" ∈ es2 /\
    Forall (fun x => is_heartbeat x = true) es1 /\
    (e = EvExpire DispatchNotSent \/
     exists sub, e = EvSubmit sub /\ s_WorkerID sub = t_WorkerID (gen_task demo_leased)).
Proof.
  apply (external_never_reassigned_blindly _ _ _ "worker-2" demo_rerun); [reflexivity | vm_compute; reflexivity |].
  right. left.
Defined.

Lemma steps_revise_and_keep_identity_witness :
  identity (gen_task demo_taken) = identity (gen_task demo_new) /\
  u64 (t_Revision (gen_task demo_taken)) =
  u64 (t_Revision (gen_task demo_new) + 3).
Proof. exact (steps_revise_and_keep_identity _ _ _ demo_run). Defined.

Definition demo_submission : Submission := Eval vm_compute in
  mkSubmission "worker-1" (InputDigest demo_input) true "local-check:task-1:1" (sha256_hex "hello") "".

Lemma submit_accepts_iff_witness :
  match DecideSubmitRecorded (gen_task demo_leased)
          (currentAttempt (gen_task demo_leased) (gen_attempts demo_leased))
          demo_submission AuthorizationCurrent Second demo_bounds None with
  | Ok d => t_State (sd_Task d) = StateAccepted
  | Err _ => False
  end.
Proof.
  set (t := gen_task demo_leased).
  set (c := currentAttempt _ _).
  assert (DecideSubmitRecorded t c demo_submission AuthorizationCurrent Second demo_bounds None =
    Ok (mkSubmitDecision (t <| t_State := StateAccepted |> <| t_ResultRef := s_ResultRef demo_submission |>
        <| t_ResultDigest := s_ResultDigest demo_submission |> <| t_FailureCode := "" |>
        <| t_Revision := u64 (t_Revision t + 1) |>) AttemptAccepted true false true)) as ->; [|reflexivity].
  apply (submit_accepts_iff t c demo_submission AuthorizationCurrent Second demo_bounds None).
  split_and!; [split_and!|..]; vm_compute; reflexivity.
Defined.

Definition demo_accepted : Task := Eval vm_compute in
  (gen_task demo_leased) <| t_State := StateAccepted |>
    <| t_ResultRef := s_ResultRef demo_submission |> <| t_ResultDigest := s_ResultDigest demo_submission |>.
Lemma submit_after_acceptance_witness :
  DecideSubmitRecorded demo_accepted no_attempt demo_submission AuthorizationRevoked (99 * Second) demo_bounds None =
  Ok (mkSubmitDecision demo_accepted "" true true false).
Proof.
  rewrite (submit_after_acceptance demo_accepted no_attempt demo_submission AuthorizationRevoked (99 * Second)
    demo_bounds None); [| vm_compute; reflexivity..].
  vm_compute. reflexivity.
Defined.

Lemma created_request_has_expectation_witness :
  exists raw, expectedResult demo_task None = Ok ("local-check:task-1:1", sha256_hex raw).
Proof.
  destruct (created_request_has_expectation "task-1" "tenant-1" KindLocalCheck LocalCheckProfile demo_input
    EffectsExternal "dispatch-1" "auth-1" "corr-1" demo_bounds demo_task) as [_ [(_ & raw & H) | (H & _)]].
  - vm_compute. reflexivity.
  - exists raw. destruct (H None) as [Hr _]. exact Hr.
  - discriminate H.
Defined.
