(* ===== verification/Catalog.v ===== *)
(** * Catalog: the catalog rules ([internal/domain/catalog.go])

    What a descriptor revision binds, its digest, and who may review it. *)

From S2P Require Import Prelude Errors GoStrings GoCrypto GoJson GoNum GoUrl Task.

(** ** Data *)

Inductive CatalogState :=
| CatalogDiscovered | CatalogReviewPending | CatalogApproved | CatalogRejected | CatalogDisabled.
#[export] Instance CatalogState_eq_dec : EqDecision CatalogState.
Proof. solve_decision. Defined.

Definition dataClasses : list string := ["public"; "internal"; "confidential"; "restricted"].
Definition DataClassRank (c : string) : Z := slices_Index dataClasses c.
#[global] Arguments DataClassRank : simpl never.

Record Money := mkMoney { Currency : string; Amount : Z }.
#[export] Instance Money_eq_dec : EqDecision Money.
Proof. solve_decision. Defined.

Record ToolDeclaration := mkToolDeclaration {
  td_Method : string; td_InputSchemaDigest : string; td_OutputSchemaDigest : string;
  td_SideEffecting : bool; td_UnitPrice : Money; td_Idempotent : bool; td_QuerySupported : bool }.

Record Declaration := mkDeclaration {
  dc_CanonicalResource : string; dc_Transport : string; dc_ProtocolVersion : string; dc_Provenance : string;
  dc_ExpectedDigest : string; dc_Tools : list ToolDeclaration; dc_DataClass : string;
  dc_NetworkScope : list string; dc_Licenses : list string }.

Record LiveTool := mkLiveTool { lt_Name : string; lt_InputSchema : bytes; lt_OutputSchema : bytes; lt_Annotations : bytes }.
Record LiveNamed := mkLiveNamed { ln_Name : string; ln_URI : string }.
#[export] Instance LiveNamed_eq_dec : EqDecision LiveNamed.
Proof. solve_decision. Defined.
Record LiveServer := mkLiveServer {
  ls_Name : string; ls_Version : string; ls_ProtocolVersion : string; ls_Tools : list LiveTool;
  ls_Resources : list LiveNamed; ls_Prompts : list LiveNamed; ls_Evidence : string;
  ls_ConnectionRef : string; ls_Issuer : string }.

Record Tool := mkTool {
  tl_Method : string; tl_InputSchemaDigest : string; tl_OutputSchemaDigest : string; tl_AnnotationsDigest : string;
  tl_SideEffecting : bool; tl_UnitPrice : Money; tl_Idempotent : bool; tl_QuerySupported : bool }.
#[export] Instance Tool_eq_dec : EqDecision Tool.
Proof. solve_decision. Defined.
(** [Tool{}] *)
Definition no_tool : Tool := mkTool "" "" "" "" false (mkMoney "" 0) false false.

Record Descriptor := mkDescriptor {
  d_ServerID : string; d_TenantID : string; d_Revision : Z; d_CanonicalResource : string; d_Transport : string;
  d_ProtocolVersion : string; d_Provenance : string; d_Digest : string; d_Tools : list Tool;
  d_Resources : list LiveNamed; d_Prompts : list LiveNamed; d_ResourcesDigest : string; d_PromptsDigest : string;
  d_ServerName : string; d_ServerVersion : string; d_DataClass : string; d_NetworkScope : list string;
  d_Licenses : list string; d_InputSchemas : gmap string bytes; d_Issuer : string; d_RevisionEvidence : string;
  d_ConnectionRef : string; d_State : CatalogState; d_DiscoveredBy : string; d_Reviewer : string;
  d_ReviewID : string; d_CreatedAt : Time; d_UpdatedAt : Time }.
#[export] Instance Descriptor_eta : Settable Descriptor := fun d =>
  mkDescriptor (d_ServerID d) (d_TenantID d) (d_Revision d) (d_CanonicalResource d) (d_Transport d)
    (d_ProtocolVersion d) (d_Provenance d) (d_Digest d) (d_Tools d) (d_Resources d) (d_Prompts d)
    (d_ResourcesDigest d) (d_PromptsDigest d) (d_ServerName d) (d_ServerVersion d) (d_DataClass d)
    (d_NetworkScope d) (d_Licenses d) (d_InputSchemas d) (d_Issuer d) (d_RevisionEvidence d)
    (d_ConnectionRef d) (d_State d) (d_DiscoveredBy d) (d_Reviewer d) (d_ReviewID d) (d_CreatedAt d) (d_UpdatedAt d).

(** [Descriptor.Method] *)
Definition Method (d : Descriptor) (name : string) : option Tool :=
  List.find (fun t => String.eqb (tl_Method t) name) (d_Tools d).

(** ** Digests *)

Definition CanonicalDigest (raw : bytes) : res string :=
  if 0 <? len raw then
    match Parse raw with
    | None => Fail ErrInvalid
    | Some v => match canonical_json v with
                | None => Fail ErrInvalid
                | Some c => Ok (digestJSON c)
                end
    end
  else Ok (digestJSON JNull).

Record annotations := mkAnnotations {
  an_Title : option string; an_ReadOnly : option bool; an_Destructive : option bool;
  an_Idempotent : option bool; an_OpenWorld : option bool }.
#[export] Instance annotations_eta : Settable annotations := fun a =>
  mkAnnotations (an_Title a) (an_ReadOnly a) (an_Destructive a) (an_Idempotent a) (an_OpenWorld a).

Definition unmarshal_annotations (raw : bytes) : option annotations :=
  let assign f v (acc : annotations) :=
    if String.eqb f "title" then x ← decode_opt (decode_string "") v; Some (acc <| an_Title := x |>)
    else if String.eqb f "readOnlyHint" then x ← decode_opt (decode_bool false) v; Some (acc <| an_ReadOnly := x |>)
    else if String.eqb f "destructiveHint" then x ← decode_opt (decode_bool false) v; Some (acc <| an_Destructive := x |>)
    else if String.eqb f "idempotentHint" then x ← decode_opt (decode_bool false) v; Some (acc <| an_Idempotent := x |>)
    else x ← decode_opt (decode_bool false) v; Some (acc <| an_OpenWorld := x |>) in
  v ← Parse raw;
  decode_struct ["title"; "readOnlyHint"; "destructiveHint"; "idempotentHint"; "openWorldHint"] false
    assign v (mkAnnotations None None None None None).

Definition or_default (b : option bool) (def : bool) : bool := match b with Some b => b | None => def end.

(** The canonical meaning of a method's annotations. *)
Definition annotations_meaning (a : annotations) : json :=
  jmap [("schema", JStr "mcp-annotations-v1"); ("title", JStr (default "" (an_Title a)));
        ("readOnlyHint", JBool (or_default (an_ReadOnly a) false));
        ("destructiveHint", JBool (or_default (an_Destructive a) true));
        ("idempotentHint", JBool (or_default (an_Idempotent a) false));
        ("openWorldHint", JBool (or_default (an_OpenWorld a) true))].

Definition AnnotationsDigest (raw : bytes) : res string :=
  if 0 <? len raw then
    match unmarshal_annotations raw with
    | None => Fail ErrInvalid
    | Some a => Ok (digestJSON (annotations_meaning a))
    end
  else Ok (digestJSON (annotations_meaning (mkAnnotations None None None None None))).

Definition money_json (m : Money) : json := JObj [("currency", JStr (Currency m)); ("amount", jint (Amount m))].
Definition tool_json (t : Tool) : json :=
  JObj [("method", JStr (tl_Method t)); ("inputSchemaDigest", JStr (tl_InputSchemaDigest t));
        ("outputSchemaDigest", JStr (tl_OutputSchemaDigest t)); ("annotationsDigest", JStr (tl_AnnotationsDigest t));
        ("sideEffecting", JBool (tl_SideEffecting t)); ("unitPrice", money_json (tl_UnitPrice t));
        ("idempotent", JBool (tl_Idempotent t)); ("querySupported", JBool (tl_QuerySupported t))].
Definition named_json (n : LiveNamed) : json :=
  JObj (("name", JStr (ln_Name n)) :: (if String.eqb (ln_URI n) "" then [] else [("uri", JStr (ln_URI n))])).
(** A nil slice marshals as null: the tools of a server without any. *)
Definition tools_json (l : list Tool) : json := match l with [] => JNull | _ => jarr tool_json l end.

Definition descriptor_json (d : Descriptor) : json :=
  jmap [("schema", JStr "mcp-descriptor-v1"); ("canonicalResource", JStr (d_CanonicalResource d));
        ("transport", JStr (d_Transport d)); ("protocolVersion", JStr (d_ProtocolVersion d));
        ("serverName", JStr (d_ServerName d)); ("serverVersion", JStr (d_ServerVersion d));
        ("tools", tools_json (d_Tools d)); ("resourcesDigest", JStr (d_ResourcesDigest d));
        ("promptsDigest", JStr (d_PromptsDigest d)); ("dataClass", JStr (d_DataClass d));
        ("networkScope", jarr JStr (d_NetworkScope d)); ("licenses", jarr JStr (d_Licenses d));
        ("issuer", JStr (d_Issuer d))].
Definition DescriptorDigest (d : Descriptor) : string := digestJSON (descriptor_json d).

(** ** Building a descriptor *)

Definition CheckResource (raw : string) (allowHTTP : bool) : res string :=
  match Parse_URL raw with
  | None => Fail ErrInvalid
  | Some u =>
      if negb (IsAbs u) || String.eqb (u_Host u) "" || negb (String.eqb (u_Opaque u) "") then Fail ErrInvalid
      else if u_HasUser u || negb (String.eqb (u_Fragment u) "") || negb (String.eqb (u_RawQuery u) "") then Fail ErrInvalid
      else if String.eqb (u_Scheme u) "https" then Ok (ToLower (Hostname u))
      else if String.eqb (u_Scheme u) "http" then
        if negb allowHTTP then Fail ErrDomainForbidden else Ok (ToLower (Hostname u))
      else Fail ErrInvalid
  end.

Definition normalizeSet (xs : list string) : list string :=
  slices_Compact (slices_Sort
    (List.filter (fun x => negb (String.eqb x "")) (map (fun x => ToLower (TrimSpace x)) xs))).

Definition named_key (n : LiveNamed) : string := ln_Name n +:+ nul +:+ ln_URI n.
Definition sortNamed (xs : list LiveNamed) : list LiveNamed :=
  sort_by (fun a b => String.leb (named_key a) (named_key b)) xs.

(** The declared methods by name. *)
Fixpoint declare (tools : list ToolDeclaration) (declared : gmap string ToolDeclaration)
    : res (gmap string ToolDeclaration) :=
  match tools with
  | [] => Ok declared
  | t :: r =>
      if bool_decide (is_Some (declared !! td_Method t)) || String.eqb (td_Method t) "" then Fail ErrInvalid
      else if (Amount (td_UnitPrice t) <? 0) || negb (len (Currency (td_UnitPrice t)) =? 3) then Fail ErrInvalid
      else declare r (<[td_Method t := t]> declared)
  end.

Definition bind_tool (lt : LiveTool) (decl : ToolDeclaration) : res Tool :=
  input ← CanonicalDigest (lt_InputSchema lt);
  output ← CanonicalDigest (lt_OutputSchema lt);
  ann ← AnnotationsDigest (lt_Annotations lt);
  if (negb (String.eqb (td_InputSchemaDigest decl) "") && negb (String.eqb (td_InputSchemaDigest decl) input))
     || (negb (String.eqb (td_OutputSchemaDigest decl) "") && negb (String.eqb (td_OutputSchemaDigest decl) output))
  then Fail ErrDescriptorMismatch
  else Ok (mkTool (lt_Name lt) input output ann (td_SideEffecting decl) (td_UnitPrice decl)
             (td_Idempotent decl) (td_QuerySupported decl)).

(** The live methods against the declared ones: the tools, the schemas and
    the declarations no live method answered. *)
Fixpoint bind_tools (live : list LiveTool) (declared : gmap string ToolDeclaration)
    (tools : list Tool) (schemas : gmap string bytes)
    : res (list Tool * gmap string bytes * gmap string ToolDeclaration) :=
  match live with
  | [] => Ok (tools, schemas, declared)
  | lt :: r =>
      match declared !! lt_Name lt with
      | None => Fail ErrDescriptorMismatch
      | Some decl =>
          tool ← bind_tool lt decl;
          bind_tools r (delete (lt_Name lt) declared) (tools ++ [tool])
            (if 0 <? len (lt_InputSchema lt) then <[lt_Name lt := lt_InputSchema lt]> schemas else schemas)
      end
  end.

Definition sort_tools (l : list Tool) : list Tool :=
  sort_by (fun a b => String.leb (tl_Method a) (tl_Method b)) l.

Definition BuildDescriptor (d : Declaration) (live : LiveServer) : res Descriptor :=
  if negb (String.eqb (dc_Transport d) "streamable-http") then Fail ErrDomainForbidden
  else if DataClassRank (dc_DataClass d) <? 0 then Fail ErrInvalid
  else
    host ← CheckResource (dc_CanonicalResource d) true;
    let scope0 := normalizeSet (dc_NetworkScope d) in
    let scope := if slices_Contains scope0 host then scope0 else normalizeSet (scope0 ++ [host]) in
    if negb (String.eqb (ls_ProtocolVersion live) (dc_ProtocolVersion d)) then Fail ErrDescriptorMismatch
    else
      declared ← declare (dc_Tools d) ∅;
      '(tools, schemas, missing) ← bind_tools (ls_Tools live) declared [] ∅;
      if negb (bool_decide (missing = ∅)) then Fail ErrDescriptorMismatch
      else
        let resources := sortNamed (ls_Resources live) in
        let prompts := sortNamed (ls_Prompts live) in
        let desc0 :=
          mkDescriptor "" "" 0 (dc_CanonicalResource d) (dc_Transport d) (dc_ProtocolVersion d) (dc_Provenance d) ""
            (sort_tools tools) resources prompts (digestJSON (jarr named_json resources))
            (digestJSON (jarr named_json prompts)) (ls_Name live) (ls_Version live) (dc_DataClass d) scope
            (normalizeSet (dc_Licenses d)) schemas (ls_Issuer live) (ls_Evidence live) (ls_ConnectionRef live)
            CatalogReviewPending "" "" "" zero_time zero_time in
        let desc := desc0 <| d_Digest := DescriptorDigest desc0 |> in
        if negb (String.eqb (dc_ExpectedDigest d) "") && negb (String.eqb (dc_ExpectedDigest d) (d_Digest desc))
        then Fail ErrDescriptorMismatch else Ok desc.

(** ** Review *)

Definition ReviewDecision := string.
Definition ReviewApprove : ReviewDecision := "approve".
Definition ReviewReject : ReviewDecision := "reject".

Definition CheckReview (d : Descriptor) (reviewer digest : string) (decision : ReviewDecision) : res CatalogState :=
  if negb (String.eqb (d_Digest d) digest) then Fail ErrDescriptorMismatch
  else if String.eqb reviewer (d_DiscoveredBy d) then Fail ErrDomainForbidden
  else if negb (bool_decide (d_State d = CatalogReviewPending)) then Fail ErrInvalidTransition
  else if String.eqb decision ReviewApprove then Ok CatalogApproved
  else if String.eqb decision ReviewReject then Ok CatalogRejected
  else Fail ErrInvalid.
