(* ===== verification/Grant.v ===== *)
(** * Grant: grant rules ([internal/domain/grant.go])

    A grant revision binds its security dimensions; the policy digest and the
    cache identity are computed from all of them. *)

From S2P Require Import Prelude Errors GoStrings GoCrypto GoJson GoNum Task Catalog.
From Stdlib Require Import Ascii Sorted.

Inductive GrantState :=
| GrantPending | GrantActive | GrantRevoking | GrantRevoked | GrantExpired | GrantRegistrationFailed.
#[export] Instance GrantState_eq_dec : EqDecision GrantState.
Proof. solve_decision. Defined.

Record Grant := mkGrant {
  g_GrantID : string; g_Revision : Z; g_TenantID : string; g_SubjectType : string; g_SubjectID : string;
  g_ServerID : string; g_DescriptorRevision : Z; g_DescriptorDigest : string; g_CanonicalResource : string;
  g_Transport : string; g_ProtocolVersion : string; g_Issuer : string; g_Audience : string;
  g_Methods : list string; g_ResourceSelectors : list string; g_PromptSelectors : list string;
  g_Purpose : string; g_DataClass : string; g_CostCap : Money; g_ExpiresAt : option Time;
  g_PolicyDigest : string; g_PolicyEpoch : Z; g_State : GrantState; g_ControlReceiptID : string;
  g_FailureCode : string; g_RegistrationCmdID : string; g_RevocationCmdID : string; g_FencedAt : option Time;
  g_InFlightCalls : Z; g_UnknownCalls : Z; g_ControlState : string; g_RevokedAt : option Time;
  g_CommandID : string; g_RequestDigest : string; g_CreatedAt : Time; g_UpdatedAt : Time }.
#[export] Instance Grant_eta : Settable Grant := fun g =>
  mkGrant (g_GrantID g) (g_Revision g) (g_TenantID g) (g_SubjectType g) (g_SubjectID g) (g_ServerID g)
    (g_DescriptorRevision g) (g_DescriptorDigest g) (g_CanonicalResource g) (g_Transport g) (g_ProtocolVersion g)
    (g_Issuer g) (g_Audience g) (g_Methods g) (g_ResourceSelectors g) (g_PromptSelectors g) (g_Purpose g)
    (g_DataClass g) (g_CostCap g) (g_ExpiresAt g) (g_PolicyDigest g) (g_PolicyEpoch g) (g_State g)
    (g_ControlReceiptID g) (g_FailureCode g) (g_RegistrationCmdID g) (g_RevocationCmdID g) (g_FencedAt g)
    (g_InFlightCalls g) (g_UnknownCalls g) (g_ControlState g) (g_RevokedAt g) (g_CommandID g)
    (g_RequestDigest g) (g_CreatedAt g) (g_UpdatedAt g).

Record GrantRequest := mkGrantRequest {
  gr_SubjectType : string; gr_SubjectID : string; gr_ServerID : string; gr_DescriptorRev : Z;
  gr_DescriptorDigest : string; gr_Methods : list string; gr_ResourceSelectors : list string;
  gr_PromptSelectors : list string; gr_Purpose : string; gr_DataClass : string; gr_CostCap : Money;
  gr_ExpiresAt : option Time }.

Definition normalizeExact (xs : list string) : list string := slices_Compact (slices_Sort xs).

Definition check_subject (tenantID projectID : string) (req : GrantRequest) : res unit :=
  if String.eqb (gr_SubjectType req) "tenant" then
    if negb (String.eqb (gr_SubjectID req) tenantID) then Fail ErrDomainForbidden else Ok tt
  else if String.eqb (gr_SubjectType req) "project" then
    if String.eqb projectID "" || negb (String.eqb (gr_SubjectID req) projectID) then Fail ErrDomainForbidden else Ok tt
  else if String.eqb (gr_SubjectType req) "actor" || String.eqb (gr_SubjectType req) "role" then Ok tt
  else Fail ErrInvalid.

Definition all_methods (d : Descriptor) (methods : list string) : bool :=
  forallb (fun m => match Method d m with Some _ => true | None => false end) methods.
Definition all_named (xs : list LiveNamed) (names : list string) : bool :=
  forallb (slices_Contains (map ln_Name xs)) names.

Definition NewGrant (tenantID projectID : string) (req : GrantRequest) (d : Descriptor) (now : Time) : res Grant :=
  if negb (String.eqb (d_TenantID d) tenantID) || negb (String.eqb (d_ServerID d) (gr_ServerID req))
     || negb (d_Revision d =? gr_DescriptorRev req)
  then Fail ErrNotFound
  else if negb (String.eqb (d_Digest d) (gr_DescriptorDigest req)) then Fail ErrDescriptorMismatch
  else if negb (bool_decide (d_State d = CatalogApproved)) then Fail ErrDomainForbidden
  else
    _ ← check_subject tenantID projectID req;
    let methods := normalizeExact (gr_Methods req) in
    if (List.length methods =? 0)%nat || negb (List.length methods =? List.length (gr_Methods req))%nat then Fail ErrInvalid
    else if negb (all_methods d methods) then Fail ErrDomainForbidden
    else
      let resources := normalizeExact (gr_ResourceSelectors req) in
      let prompts := normalizeExact (gr_PromptSelectors req) in
      if negb (all_named (d_Resources d) resources) then Fail ErrDomainForbidden
      else if negb (all_named (d_Prompts d) prompts) then Fail ErrDomainForbidden
      else
        let class := if String.eqb (gr_DataClass req) "" then d_DataClass d else gr_DataClass req in
        if (DataClassRank class <? 0) || (DataClassRank (d_DataClass d) <? DataClassRank class) then Fail ErrDomainForbidden
        else if negb (len (Currency (gr_CostCap req)) =? 3) || (Amount (gr_CostCap req) <? 0) then Fail ErrInvalid
        else if (match gr_ExpiresAt req with Some e => negb (Before now e) | None => false end) then Fail ErrInvalid
        else
          let expires := option_map (fun e => Truncate e Microsecond) (gr_ExpiresAt req) in
          if String.eqb (TrimSpace (gr_Purpose req)) "" then Fail ErrInvalid
          else Ok (mkGrant "" 1 tenantID (gr_SubjectType req) (gr_SubjectID req) (d_ServerID d) (d_Revision d)
                     (d_Digest d) (d_CanonicalResource d) (d_Transport d) (d_ProtocolVersion d) (d_Issuer d)
                     (d_CanonicalResource d) methods resources prompts (gr_Purpose req) class (gr_CostCap req)
                     expires "" 0 GrantPending "" "" "" "" None 0 0 "none" None "" "" zero_time zero_time).

(** ** Digests *)

Definition dimensions (g : Grant) : list string :=
  let exp := match g_ExpiresAt g with Some e => RFC3339Nano e | None => "" end in
  ["grant=" +:+ g_GrantID g; "revision=" +:+ format_int (g_Revision g); "tenant=" +:+ g_TenantID g;
   "subject=" +:+ g_SubjectType g +:+ ":" +:+ g_SubjectID g; "server=" +:+ g_ServerID g;
   "resource=" +:+ g_CanonicalResource g; "issuer=" +:+ g_Issuer g; "audience=" +:+ g_Audience g;
   "protocol=" +:+ g_ProtocolVersion g; "transport=" +:+ g_Transport g;
   "descriptor=" +:+ format_int (g_DescriptorRevision g) +:+ "@" +:+ g_DescriptorDigest g;
   "methods=" +:+ strings_Join (g_Methods g) ","; "resources=" +:+ strings_Join (g_ResourceSelectors g) ",";
   "prompts=" +:+ strings_Join (g_PromptSelectors g) ","; "purpose=" +:+ g_Purpose g; "dataClass=" +:+ g_DataClass g;
   "costCap=" +:+ Currency (g_CostCap g) +:+ ":" +:+ format_int (Amount (g_CostCap g)); "expires=" +:+ exp].

(** What [digestLines] hashes: every line length-prefixed. *)
Fixpoint framed (lines : list string) : string :=
  match lines with
  | [] => ""
  | l :: r => format_int (len l) +:+ ":" +:+ l +:+ newline +:+ framed r
  end.
Definition digest_input (prefix : string) (lines : list string) : string := prefix +:+ newline +:+ framed lines.
Definition digestLines (prefix : string) (lines : list string) : string := sha256_hex (digest_input prefix lines).

Definition policy_prefix : string := "mcp-grant-policy-v1".
Definition cache_prefix : string := "mcp-grant-cache-v1".
Definition ComputePolicyDigest (g : Grant) : string := digestLines policy_prefix (dimensions g).
Definition CacheKey (g : Grant) : string := digestLines cache_prefix (dimensions g).

Definition Executable (g : Grant) (now : Time) : bool :=
  bool_decide (g_State g = GrantActive) && negb (String.eqb (g_ControlReceiptID g) "") &&
  match g_ExpiresAt g with None => true | Some e => Before now e end.

Definition DigestBytes (b : bytes) : string := sha256_hex b.

(** ** The digests separate grants *)

Lemma framed_inj l1 l2 : framed l1 = framed l2 -> l1 = l2.
Proof.
  assert (forall a b r, format_int (len a) +:+ ":" +:+ b +:+ r <> "") as Hne.
  { intros a b r H. apply (f_equal String.length) in H. rewrite !length_append in H. cbn in H. lia. }
  revert l2. induction l1 as [|a l1 IH]; intros [|b l2] H; cbn [framed] in H; [done| | |].
  - symmetry in H. by apply Hne in H.
  - by apply Hne in H.
  - change (":" +:+ ?x) with (String ":" x) in H.
    apply split_first in H as [Hl H]; [|apply format_int_no_sep; [unfold len; lia|by left]..].
    apply format_int_inj in Hl. apply append_inj_length in H as [-> H]; [|unfold len in Hl; lia].
    apply append_inj_l in H. by rewrite (IH l2).
Qed.

Lemma digest_input_inj p l1 l2 : digest_input p l1 = digest_input p l2 -> l1 = l2.
Proof. unfold digest_input. intros H. do 2 apply append_inj_l in H. by apply framed_inj. Qed.

(** The security dimensions of a grant revision, one by one: all but the names,
    the names it lists, and their texts. *)
Definition dimensions_but_names (g : Grant) :=
  (g_GrantID g, g_Revision g, g_TenantID g, g_SubjectType g, g_SubjectID g, g_ServerID g, g_CanonicalResource g,
   g_Issuer g, g_Audience g, g_ProtocolVersion g, g_Transport g, g_DescriptorRevision g, g_DescriptorDigest g,
   g_Purpose g, g_DataClass g, g_CostCap g, option_map RFC3339Nano (g_ExpiresAt g)).
Definition listed_names (g : Grant) := (g_Methods g, g_ResourceSelectors g, g_PromptSelectors g).
Definition joined_names (g : Grant) :=
  (strings_Join (g_Methods g) ",", strings_Join (g_ResourceSelectors g) ",", strings_Join (g_PromptSelectors g) ",").

(** A subject, a currency and a revision as [NewGrant] takes them. *)
Definition grant_fields (g : Grant) : bool :=
  slices_Contains ["tenant"; "project"; "actor"; "role"] (g_SubjectType g) &&
  (len (Currency (g_CostCap g)) =? 3) && (0 <=? g_DescriptorRevision g).
(** No name it lists is empty or holds a comma. *)
Definition plain_names (g : Grant) : bool :=
  forallb plain_name (g_Methods g) && forallb plain_name (g_ResourceSelectors g) &&
  forallb plain_name (g_PromptSelectors g).
Lemma plain_names_inj g1 g2 : plain_names g1 = true -> plain_names g2 = true -> joined_names g1 = joined_names g2 ->
  listed_names g1 = listed_names g2.
Proof.
  unfold plain_names, joined_names, listed_names. intros P1 P2 [= E1 E2 E3]. breflect.
  apply join_plain_inj in E1; [|done..]. apply join_plain_inj in E2; [|done..]. apply join_plain_inj in E3; [|done..]. by rewrite E1, E2, E3.
Qed.

Lemma subject_no_colon s :
  slices_Contains ["tenant"; "project"; "actor"; "role"] s = true -> has_byte ":"%char s = false.
Proof. unfold slices_Contains. cbn. intros H. breflect.
  repeat match goal with
  | H : _ \/ _ |- _ => destruct H as [H|H]; breflect
  end; subst; done.
Qed.

Lemma RFC3339Nano_nonempty t : RFC3339Nano t <> "".
Proof.
  intros H. apply (f_equal String.length) in H. unfold RFC3339Nano in H. rewrite !length_append in H. cbn in H. lia.
Qed.

Lemma dimensions_inj g1 g2 :
  grant_fields g1 = true -> grant_fields g2 = true -> dimensions g1 = dimensions g2 ->
  dimensions_but_names g1 = dimensions_but_names g2 /\ joined_names g1 = joined_names g2.
Proof.
  unfold grant_fields, dimensions, dimensions_but_names, joined_names. intros P1 P2 H. breflect.
  injection H as E1 E2 E3 E4 E5 E6 E7 E8 E9 E10 E11 E12 E13 E14 E15 E16 E17 E18.
  repeat match goal with H : _ +:+ _ = _ +:+ _ |- _ => apply append_inj_l in H end.
  apply format_int_inj in E2.
  change (":" +:+ ?x) with (String ":" x) in E4. apply split_first in E4 as [E4 E4']; [|by apply subject_no_colon..].
  change ("@" +:+ ?x) with (String "@" x) in E11.
  apply split_first in E11 as [E11 E11']; [|by apply format_int_no_sep; [done|right]..].
  apply format_int_inj in E11.
  apply append_inj_length in E17 as [E17 E17']; [|unfold len in *; lia].
  apply append_inj_l, format_int_inj in E17'.
  assert (g_CostCap g1 = g_CostCap g2) as -> by (destruct (g_CostCap g1), (g_CostCap g2); cbn in *; congruence).
  rewrite E1, E2, E3, E4, E4', E5, E6, E7, E8, E9, E10, E11, E11', E12, E13, E14, E15, E16.
  split; [|done]. f_equal. destruct (g_ExpiresAt g1), (g_ExpiresAt g2); cbn; try done; [by rewrite E18|..];
    by edestruct RFC3339Nano_nonempty.
Qed.

(** C36. Two grant revisions, each with a subject, a currency and a revision
    as [NewGrant] takes them, share a policy digest, or a cached credential or
    connection (DD-08, the cache identity), only when every security dimension
    but the listed names agrees, and the methods, resources and prompts they
    list have the same texts joined by commas; or their texts collide under
    SHA-256. When no listed name is empty or holds a comma, the listed names
    agree too. And no policy digest is ever a cache identity without such a
    collision. *)
Theorem digests_separate_grants g1 g2 :
  grant_fields g1 = true -> grant_fields g2 = true ->
  let agree := dimensions_but_names g1 = dimensions_but_names g2 /\ joined_names g1 = joined_names g2 in
  (CacheKey g1 = CacheKey g2 ->
     agree \/ collision (digest_input cache_prefix (dimensions g1)) (digest_input cache_prefix (dimensions g2))) /\
  (ComputePolicyDigest g1 = ComputePolicyDigest g2 ->
     agree \/ collision (digest_input policy_prefix (dimensions g1)) (digest_input policy_prefix (dimensions g2))) /\
  (agree -> plain_names g1 = true -> plain_names g2 = true -> listed_names g1 = listed_names g2) /\
  (ComputePolicyDigest g1 = CacheKey g2 ->
     collision (digest_input policy_prefix (dimensions g1)) (digest_input cache_prefix (dimensions g2))).
Proof.
  intros P1 P2 agree.
  assert (forall p, digestLines p (dimensions g1) = digestLines p (dimensions g2) -> agree \/
     collision (digest_input p (dimensions g1)) (digest_input p (dimensions g2))) as Hp.
  { intros p H. destruct (decide (digest_input p (dimensions g1) = digest_input p (dimensions g2))) as [E|E].
    - left. apply digest_input_inj in E. by apply dimensions_inj.
    - by right. }
  unfold CacheKey, ComputePolicyDigest. split_and!; [exact (Hp cache_prefix)|exact (Hp policy_prefix)|..].
  - intros [_ Hj] N1 N2. by apply plain_names_inj.
  - intros H. split; [discriminate|exact H].
Qed.

Definition demo_grant (methods : list string) (expires : option Time) : Grant :=
  mkGrant "grant-1" 1 "tenant-1" "actor" "alice" "srv-1" 3 "sha256:00" "https://mcp.example.com/" "streamable-http"
    "2025-06-18" "" "https://mcp.example.com/" methods [] [] "reports" "internal" (mkMoney "EUR" 500) expires
    "" 0 GrantPending "" "" "" "" None 0 0 "none" None "" "" 0 0.

(** The separation needs the names to be free of commas: a grant of the
    one method named [a,b] and a grant of the two methods [a] and [b] have one
    policy digest and one cache identity. *)
Theorem joined_names_share_a_digest :
  g_Methods (demo_grant ["a,b"] None) <> g_Methods (demo_grant ["a"; "b"] None) /\
  CacheKey (demo_grant ["a,b"] None) = CacheKey (demo_grant ["a"; "b"] None) /\
  ComputePolicyDigest (demo_grant ["a,b"] None) = ComputePolicyDigest (demo_grant ["a"; "b"] None).
Proof. split; [discriminate|]. split; reflexivity. Qed.

Lemma digests_separate_grants_witness :
  CacheKey (demo_grant ["a"; "b"] None) <> CacheKey (demo_grant ["a"] None) \/
  collision (digest_input cache_prefix (dimensions (demo_grant ["a"; "b"] None)))
    (digest_input cache_prefix (dimensions (demo_grant ["a"] None))).
Proof.
  destruct (decide (CacheKey (demo_grant ["a"; "b"] None) = CacheKey (demo_grant ["a"] None))) as [E|E].
  - right. destruct (proj1 (digests_separate_grants (demo_grant ["a"; "b"] None) (demo_grant ["a"] None) eq_refl eq_refl) E)
      as [[_ Hj]|Hc]; [discriminate Hj|exact Hc].
  - left. exact E.
Defined.

(** ** What [NewGrant] binds *)

Lemma normalizeExact_sorted xs : StronglySorted string_lt (normalizeExact xs).
Proof. apply slices_Compact_sorted, slices_Sort_sorted. Qed.
Lemma normalizeExact_elem xs x : x ∈ normalizeExact xs <-> x ∈ xs.
Proof. unfold normalizeExact. by rewrite slices_Compact_elem, slices_Sort_elem. Qed.

Lemma all_named_spec xs names : all_named xs names = true -> forall n, n ∈ names -> n ∈ map ln_Name xs.
Proof.
  unfold all_named. rewrite forallb_forall. intros H n Hn. apply slices_Contains_spec, H. by apply list_elem_of_In.
Qed.
Lemma all_methods_spec d names : all_methods d names = true -> forall m, m ∈ names -> is_Some (Method d m).
Proof.
  unfold all_methods. rewrite forallb_forall. intros H m Hm. apply list_elem_of_In, H in Hm.
  destruct (Method d m); [eauto|done].
Qed.

Lemma Truncate_micro e : e - Microsecond < Truncate e Microsecond <= e.
Proof.
  unfold Truncate, Microsecond. cbn. pose proof (Z.mod_pos_bound (e - zero_time) 1000 ltac:(lia)). lia.
Qed.

(** Who a grant may name. *)
Definition subject_allowed (tenantID projectID : string) (g : Grant) : Prop :=
  (g_SubjectType g = "tenant" /\ g_SubjectID g = tenantID) \/
  (g_SubjectType g = "project" /\ g_SubjectID g = projectID /\ projectID <> "") \/
  g_SubjectType g = "actor" \/ g_SubjectType g = "role".

Lemma check_subject_Ok tenantID projectID req :
  check_subject tenantID projectID req = Ok tt ->
  (gr_SubjectType req = "tenant" /\ gr_SubjectID req = tenantID) \/
  (gr_SubjectType req = "project" /\ gr_SubjectID req = projectID /\ projectID <> "") \/
  gr_SubjectType req = "actor" \/ gr_SubjectType req = "role".
Proof.
  unfold check_subject. intros H.
  destruct (String.eqb (gr_SubjectType req) "tenant") eqn:E1; [dif H as E; breflect; auto|].
  destruct (String.eqb (gr_SubjectType req) "project") eqn:E2; [dif H as E; breflect; auto|].
  dif H as E. breflect. destruct E; breflect; auto.
Qed.

Record grant_binds (tenantID projectID : string) (req : GrantRequest) (d : Descriptor) (now : Time) (g : Grant) : Prop := {
  gb_descriptor : g_TenantID g = d_TenantID d /\ g_ServerID g = d_ServerID d /\
    g_DescriptorRevision g = d_Revision d /\ g_DescriptorDigest g = d_Digest d /\
    g_CanonicalResource g = d_CanonicalResource d /\ g_Audience g = d_CanonicalResource d /\
    g_Transport g = d_Transport d /\ g_ProtocolVersion g = d_ProtocolVersion d /\ g_Issuer g = d_Issuer d;
  gb_approved : d_State d = CatalogApproved /\ d_TenantID d = tenantID;
  gb_subject : subject_allowed tenantID projectID g;
  gb_methods : g_Methods g <> [] /\ StronglySorted string_lt (g_Methods g) /\
    (forall m, m ∈ g_Methods g <-> m ∈ gr_Methods req) /\ (forall m, m ∈ g_Methods g -> is_Some (Method d m));
  gb_selectors : (forall r, r ∈ g_ResourceSelectors g -> r ∈ map ln_Name (d_Resources d)) /\
    (forall p, p ∈ g_PromptSelectors g -> p ∈ map ln_Name (d_Prompts d));
  gb_class : 0 <= DataClassRank (g_DataClass g) <= DataClassRank (d_DataClass d);
  gb_cap : len (Currency (g_CostCap g)) = 3 /\ 0 <= Amount (g_CostCap g);
  gb_expiry : forall e, g_ExpiresAt g = Some e -> now - Microsecond < e;
  gb_pending : g_Revision g = 1 /\ g_State g = GrantPending /\ g_ControlReceiptID g = "" /\ forall t, Executable g t = false }.

Lemma NewGrant_Ok tenantID projectID req d now g :
  NewGrant tenantID projectID req d now = Ok g ->
  grant_binds tenantID projectID req d now g /\ d_ServerID d = gr_ServerID req /\ d_Revision d = gr_DescriptorRev req.
Proof.
  unfold NewGrant. intros H. dif H as E1. dif H as E2. dif H as E3.
  apply bind_Ok in H as ([] & Hs & H). apply check_subject_Ok in Hs. cbv zeta in H.
  dif H as E4. dif H as E5. dif H as E6. dif H as E7. dif H as E8. dif H as E9. dif H as E10. dif H as E11.
  injection H as <-. breflect. split; [|by split]. constructor; cbn.
  - by subst.
  - by subst.
  - exact Hs.
  - split_and!; [intros Hn; by rewrite Hn in *|apply normalizeExact_sorted|apply normalizeExact_elem|].
    by apply all_methods_spec.
  - split; by apply all_named_spec.
  - lia.
  - done.
  - intros e He. destruct (gr_ExpiresAt req) as [e0|]; [|done]. injection He as <-. breflect.
    pose proof (Truncate_micro e0). lia.
  - by split_and!.
Qed.

(** C17. A new grant binds exactly the approved descriptor revision it names
    and exactly the requested methods (a non-empty, sorted, duplicate-free list
    of methods that revision has), selects only resources and prompts of that
    revision, never exceeds its data class, names a subject the caller may
    name, and is never executable before Control's receipt. *)
Theorem new_grant_binds tenantID projectID req d now g :
  NewGrant tenantID projectID req d now = Ok g -> grant_binds tenantID projectID req d now g.
Proof. intros H. by apply NewGrant_Ok in H as [H _]. Qed.

Definition demo_descriptor : Descriptor :=
  mkDescriptor "srv-1" "tenant-1" 3 "https://mcp.example.com/" "streamable-http" "2025-06-18" "" "sha256:00"
    [mkTool "read" "" "" "" false (mkMoney "EUR" 1) true false; mkTool "write" "" "" "" true (mkMoney "EUR" 1) false false]
    [mkLiveNamed "docs" ""] [] "" "" "srv" "1" "confidential" ["mcp.example.com"] [] ∅ "" "" "" CatalogApproved
    "bob" "carol" "review-1" 0 0.
Definition demo_grant_request (expires : option Time) : GrantRequest :=
  mkGrantRequest "tenant" "tenant-1" "srv-1" 3 "sha256:00" ["write"; "read"] ["docs"] [] "reports" "internal"
    (mkMoney "EUR" 500) expires.

Lemma new_grant_binds_witness :
  exists g, NewGrant "tenant-1" "" (demo_grant_request (Some 2000)) demo_descriptor 1000 = Ok g /\
    g_Methods g = ["read"; "write"] /\ grant_binds "tenant-1" "" (demo_grant_request (Some 2000)) demo_descriptor 1000 g.
Proof.
  eexists. split; [vm_compute; reflexivity|]. split; [reflexivity|].
  apply (new_grant_binds "tenant-1" "" (demo_grant_request (Some 2000)) demo_descriptor 1000). vm_compute. reflexivity.
Defined.

(** The expiry check runs before the expiry is truncated to the stored
    microsecond: a grant can be created whose stored expiry has already
    passed, so that no registration ever makes it executable. *)
Theorem expiry_checked_before_truncation :
  exists g e, NewGrant "tenant-1" "" (demo_grant_request (Some 1999)) demo_descriptor 1500 = Ok g /\
    g_ExpiresAt g = Some e /\ e <= 1500 /\
    forall t, 1500 <= t -> Executable (g <| g_State := GrantActive |> <| g_ControlReceiptID := "receipt" |>) t = false.
Proof.
  eexists _, 1000. split; [vm_compute; reflexivity|]. split; [reflexivity|]. split; [lia|].
  intros t Ht. unfold Executable. cbn. apply Z.ltb_ge. lia.
Qed.
