(* ===== verification/Call.v ===== *)
(** * Call: tool call rules ([internal/domain/call.go])

    The tracked call, what a CreateCall command must carry, and the check of
    its argument bytes. *)

From S2P Require Import Prelude Errors GoStrings GoCrypto GoJson GoNum Catalog Grant.
From Stdlib Require Import Ascii Sorted.

Inductive CallState :=
| CallAccepted | CallAdmitted | CallSent | CallSucceeded | CallFailed | CallDenied | CallUnknown | CallCanceled.
#[export] Instance CallState_eq_dec : EqDecision CallState.
Proof. solve_decision. Defined.

Definition CallGrantNotExecutable : string := "GRANT_NOT_EXECUTABLE".
Definition CallAuthorizationDenied : string := "AUTHORIZATION_DENIED".
Definition CallRecoveryRestricted : string := "RECOVERY_RESTRICTED".
Definition CallRouteUnqualified : string := "PROFILE_UNQUALIFIED".
Definition CallProtocolMismatch : string := "PROTOCOL_MISMATCH".
Definition CallSchemaDrift : string := "SCHEMA_DRIFT".
Definition CallDescriptorDrift : string := "DESCRIPTOR_DRIFT".
Definition CallArgumentsInvalid : string := "ARGUMENTS_INVALID".
Definition CallSchemaUnavailable : string := "SCHEMA_UNAVAILABLE".
Definition CallAuthorization : string := "AUTHORIZATION_SUBSTITUTED".
Definition CallEgressRefused : string := "EGRESS_REFUSED".
Definition CallUpstreamUnavailable : string := "UPSTREAM_UNAVAILABLE".
Definition CallNotSent : string := "SEND_NOT_ATTEMPTED".
Definition CallToolError : string := "TOOL_ERROR".
Definition CallProtocolError : string := "UPSTREAM_REFUSED".
Definition CallOutcomeUnknown : string := "OUTCOME_UNKNOWN".
Definition CallResultTooLarge : string := "RESULT_TOO_LARGE".

Record Call := mkCall {
  c_CallID : string; c_TenantID : string; c_GrantID : string; c_GrantRevision : Z; c_ServerID : string;
  c_DescriptorRevision : Z; c_DescriptorDigest : string; c_ProtocolVersion : string; c_Transport : string;
  c_Route : string; c_Method : string; c_SideEffecting : bool; c_Exposure : Money; c_ArgumentRef : string;
  c_ArgumentDigest : string; c_Arguments : bytes; c_OperationID : string; c_AttemptID : string;
  c_InstanceID : string; c_ExecutionEpoch : Z; c_State : CallState; c_DispatchID : string;
  c_FailureCode : string; c_Result : option bytes; c_ResultDigest : string; c_ResultRef : string;
  c_UsageUnits : option Z; c_SendMarkerAt : option Time; c_ObservedAt : option Time; c_ObservationSeq : Z;
  c_CommandID : string; c_RequestDigest : string; c_Deadline : Time; c_CreatedAt : Time; c_UpdatedAt : Time }.
#[export] Instance Call_eta : Settable Call := fun c =>
  mkCall (c_CallID c) (c_TenantID c) (c_GrantID c) (c_GrantRevision c) (c_ServerID c) (c_DescriptorRevision c)
    (c_DescriptorDigest c) (c_ProtocolVersion c) (c_Transport c) (c_Route c) (c_Method c) (c_SideEffecting c)
    (c_Exposure c) (c_ArgumentRef c) (c_ArgumentDigest c) (c_Arguments c) (c_OperationID c) (c_AttemptID c)
    (c_InstanceID c) (c_ExecutionEpoch c) (c_State c) (c_DispatchID c) (c_FailureCode c) (c_Result c)
    (c_ResultDigest c) (c_ResultRef c) (c_UsageUnits c) (c_SendMarkerAt c) (c_ObservedAt c)
    (c_ObservationSeq c) (c_CommandID c) (c_RequestDigest c) (c_Deadline c) (c_CreatedAt c) (c_UpdatedAt c).

(** [Call.Terminal] *)
Definition call_Terminal (s : CallState) : bool :=
  match s with
  | CallSucceeded | CallFailed | CallDenied | CallCanceled => true
  | _ => false
  end.

Record CallRequest := mkCallRequest {
  cr_GrantID : string; cr_GrantRevision : Z; cr_Method : string; cr_ArgumentRef : string;
  cr_ArgumentDigest : string; cr_Arguments : bytes; cr_OperationID : string; cr_AttemptID : string;
  cr_InstanceID : string; cr_ExecutionEpoch : Z; cr_Deadline : Time }.

(** ** The argument bytes

    The decoder's token stream is the traversal of the parsed document, so
    the walk is over its tree: the decoder refuses exactly the texts the
    parser refuses. *)

Fixpoint walkValue (depth : Z) (v : json) : bool :=
  if 64 <? depth then false
  else match v with
  | JObj kv =>
      if 64 <? depth + 1 then false
      else (fix walkObject (seen : list string) (kv : list (string * json)) : bool :=
              match kv with
              | [] => true
              | (key, x) :: r =>
                  if slices_Contains seen key then false
                  else walkValue (depth + 1) x && walkObject (key :: seen) r
              end) [] kv
  | JArr l => forallb (walkValue (depth + 1)) l
  | _ => true
  end.
Fixpoint walkObject (depth : Z) (seen : list string) (kv : list (string * json)) : bool :=
  match kv with
  | [] => true
  | (key, x) :: r =>
      if slices_Contains seen key then false else walkValue depth x && walkObject depth (key :: seen) r
  end.

Definition checkObject (raw : bytes) : bool :=
  match Parse raw with
  | Some (JObj kv) => walkObject 1 [] kv
  | _ => false
  end.

Definition CheckCallRequest (r : CallRequest) (now : Time) : res unit :=
  if String.eqb (cr_OperationID r) "" || String.eqb (cr_AttemptID r) "" || (cr_ExecutionEpoch r =? 0) then Fail ErrInvalid
  else if negb (After (cr_Deadline r) now) then Fail ErrInvalid
  else if negb (String.eqb (DigestBytes (cr_Arguments r)) (cr_ArgumentDigest r)) then Fail ErrInvalid
  else if negb (checkObject (cr_Arguments r)) then Fail ErrInvalid
  else Ok tt.

(** The schema library ([jsonschema-go]): the schema a text holds, its
    resolution without remote references, and validation of an instance. *)
Class SchemaLibrary := {
  Schema : Type;
  Resolved : Type;
  schema_Unmarshal : bytes -> option Schema;
  schema_Resolve : Schema -> option Resolved;
  schema_Validate : Resolved -> json -> bool }.

Definition CheckArguments `{SchemaLibrary} (schema args : bytes) : res unit :=
  if len schema =? 0 then Err (errorc ErrDomainForbidden CallSchemaUnavailable)
  else match schema_Unmarshal schema with
  | None => Err (errorc ErrDomainForbidden CallSchemaUnavailable)
  | Some s =>
      match schema_Resolve s with
      | None => Err (errorc ErrDomainForbidden CallSchemaUnavailable)
      | Some resolved =>
          match (v ← Parse args; canonical_json v) with
          | None => Err (errorc ErrInvalid CallArgumentsInvalid)
          | Some instance =>
              if negb (schema_Validate resolved instance) then Err (errorc ErrInvalid CallArgumentsInvalid) else Ok tt
          end
      end
  end.

(** ** What the walk accepts *)

(** No object of the document repeats a key. *)
Inductive unique_keys : json -> Prop :=
| uk_null : unique_keys JNull
| uk_bool b : unique_keys (JBool b)
| uk_num n : unique_keys (JNum n)
| uk_str s : unique_keys (JStr s)
| uk_arr l : List.Forall unique_keys l -> unique_keys (JArr l)
| uk_obj kv : NoDup (map fst kv) -> List.Forall (fun p => unique_keys (snd p)) kv -> unique_keys (JObj kv).

(** The nesting of containers. *)
Fixpoint nesting (v : json) : Z :=
  match v with
  | JArr l => 1 + fold_right (fun x m => Z.max (nesting x) m) 0 l
  | JObj kv => 1 + fold_right (fun p m => Z.max (nesting (snd p)) m) 0 kv
  | _ => 0
  end.

Lemma walkValue_obj depth kv :
  walkValue depth (JObj kv) = if 64 <? depth then false else if 64 <? depth + 1 then false else walkObject (depth + 1) [] kv.
Proof.
  cbn. destruct (64 <? depth); [done|]. destruct (64 <? depth + 1); [done|]. generalize (@nil string).
  induction kv as [|[k x] r IH]; intros seen; cbn; [done|]. destruct (slices_Contains seen k); [done|]. by rewrite IH.
Qed.

Lemma walkObject_spec depth kv :
  List.Forall (fun p => forall d, walkValue d (snd p) = true -> unique_keys (snd p) /\ d + nesting (snd p) <= 65) kv ->
  forall seen, walkObject depth seen kv = true ->
  NoDup (map fst kv) /\ (forall k, k ∈ map fst kv -> k ∉ seen) /\ List.Forall (fun p => unique_keys (snd p)) kv /\
  List.Forall (fun p => depth + nesting (snd p) <= 65) kv.
Proof.
  induction 1 as [|[k x] r Hx _ IH]; intros seen Hw; cbn in *.
  - split_and!; try constructor. intros k Hk. by apply elem_of_nil in Hk.
  - destruct (slices_Contains seen k) eqn:Es; [done|]. breflect. apply Hx in H as [Hu Hd].
    apply IH in H0 as (Hn & Hs & Hk & Hb). split_and!; try by constructor.
    + constructor; [|done]. intros Hin. by apply (Hs k Hin), elem_of_cons; left.
    + intros k' [->|Hin]%elem_of_cons.
      * intros Hc%slices_Contains_spec. congruence.
      * intros Hc. by apply (Hs k' Hin), elem_of_cons; right.
Qed.

Lemma walkValue_spec v : forall depth, walkValue depth v = true -> unique_keys v /\ depth + nesting v <= 65.
Proof.
  induction v as [|b|n|s|l IH|kv IH] using json_rect'; intros depth Hw.
  1-4: cbn in Hw; destruct (64 <? depth) eqn:E; [done|]; breflect; split; [constructor|cbn; lia].
  - cbn in Hw. destruct (64 <? depth) eqn:E; [done|]. breflect. rewrite forallb_forall in Hw.
    assert (List.Forall (fun x => unique_keys x /\ depth + 1 + nesting x <= 65) l) as Hl.
    { rewrite List.Forall_forall in *. intros x Hx. by apply IH, Hw. }
    split; [constructor; eapply List.Forall_impl; [|exact Hl]; by intros ? []|]. cbn. clear Hw IH.
    enough (fold_right (fun x m => Z.max (nesting x) m) 0 l <= 64 - depth) by lia.
    induction Hl as [|x l [_ Hx] _ IHl]; cbn; lia.
  - rewrite walkValue_obj in Hw. destruct (64 <? depth) eqn:E; [done|]. destruct (64 <? depth + 1) eqn:E2; [done|]. breflect.
    apply (walkObject_spec _ _ IH) in Hw as (Hn & _ & Hu & Hb). split; [by constructor|]. cbn.
    enough (fold_right (fun p m => Z.max (nesting (snd p)) m) 0 kv <= 64 - depth) by lia. clear -Hb E2.
    induction Hb as [|x l Hx _ IHl]; cbn; lia.
Qed.

(** A call request is accepted only with a complete execution binding, a
    deadline ahead, and argument bytes that hash to the declared digest and are
    one JSON object in which no object, at any depth, repeats a key (so that
    every parser reads the same arguments), nested at most 65 deep. *)
Theorem call_request_checked r now :
  CheckCallRequest r now = Ok tt ->
  cr_OperationID r <> "" /\ cr_AttemptID r <> "" /\ cr_ExecutionEpoch r <> 0 /\ now < cr_Deadline r /\
  cr_ArgumentDigest r = sha256_hex (cr_Arguments r) /\
  exists kv, Parse (cr_Arguments r) = Some (JObj kv) /\ unique_keys (JObj kv) /\ nesting (JObj kv) <= 65.
Proof.
  unfold CheckCallRequest. intros H. dif H as E1. dif H as E2. dif H as E3. dif H as E4. clear H. breflect.
  split_and!; try done.
  unfold checkObject in E4. destruct (Parse _) as [[| | | | |kv]|]; try done. exists kv. split; [done|].
  apply walkObject_spec in E4 as (Hn & _ & Hu & Hb).
  - split; [by constructor|]. cbn.
    enough (fold_right (fun p m => Z.max (nesting (snd p)) m) 0 kv <= 64) by lia. clear -Hb.
    induction Hb as [|x l Hx _ IHl]; cbn; lia.
  - apply List.Forall_forall. intros p _ d. apply walkValue_spec.
Qed.

Definition demo_arguments : bytes := Eval vm_compute in Marshal (JObj [("path", JStr "/reports"); ("limit", jint 5)]).
Definition demo_call_request : CallRequest := Eval vm_compute in
  mkCallRequest "grant-1" 1 "read" "arg-1" (DigestBytes demo_arguments) demo_arguments "op-1" "attempt-1" "" 7 1000.

Lemma call_request_checked_witness :
  exists kv, Parse (cr_Arguments demo_call_request) = Some (JObj kv) /\ unique_keys (JObj kv) /\ nesting (JObj kv) <= 65.
Proof.
  destruct (call_request_checked demo_call_request 500) as (_ & _ & _ & _ & _ & H); [vm_compute; reflexivity|exact H].
Defined.
