(* ===== verification/Event.v ===== *)
(** * Event: the owner's events ([internal/domain/event.go])

    The envelope of each event and its payload, and the bytes it is published
    as.  An event id is a fresh UUID, an argument of the constructors. *)

From S2P Require Import Prelude Errors GoStrings GoCrypto GoJson GoNum GoRaw Task Catalog Grant.

Definition Producer : string := "anvilkit-agent-mcp".
Definition SubjectBackgroundRequested : string := "anvilkit.mcp.background.requested".
Definition AggregateBackgroundRequest : string := "background_request".
Definition SubjectCatalogReviewed : string := "anvilkit.mcp.mcp.catalog-reviewed".
Definition SubjectGrantRevoked : string := "anvilkit.mcp.mcp.grant-revoked".
Definition AggregateDescriptor : string := "descriptor".
Definition AggregateGrant : string := "grant".

Record Envelope := mkEnvelope {
  e_EventID : string; e_EventType : string; e_SchemaVersion : Z; e_Producer : string; e_Subject : string;
  e_TenantID : string; e_AggregateType : string; e_AggregateID : string; e_AggregateRevision : string;
  e_OccurredAt : string; e_CorrelationID : string; e_Payload : bytes }.

(** The texts of the state columns. *)
Definition catalog_text (s : CatalogState) : string :=
  match s with
  | CatalogDiscovered => "discovered" | CatalogReviewPending => "review_pending" | CatalogApproved => "approved"
  | CatalogRejected => "rejected" | CatalogDisabled => "disabled"
  end.
Definition grant_text (s : GrantState) : string :=
  match s with
  | GrantPending => "pending" | GrantActive => "active" | GrantRevoking => "revoking" | GrantRevoked => "revoked"
  | GrantExpired => "expired" | GrantRegistrationFailed => "registration_failed"
  end.

Definition envelope (eventID : string) (t : Task) (eventType subject : string) (now : Time) (payload : json) : Envelope :=
  mkEnvelope eventID eventType 1 Producer subject (t_TenantID t) AggregateBackgroundRequest (t_TaskID t)
    (format_int (t_Generation t)) (RFC3339Micro now) (t_CorrelationID t) (Marshal payload).

Definition RequestedEvent (eventID : string) (t : Task) (now : Time) : Envelope :=
  envelope eventID t "background.requested" SubjectBackgroundRequested now
    (JObj [("kind", JStr "background.requested"); ("taskId", JStr (t_TaskID t));
           ("generation", JStr (format_int (t_Generation t))); ("taskKind", JStr (t_Kind t));
           ("inputDigest", JStr (t_InputDigest t))]).

Definition aggregateEnvelope (eventID tenantID eventType subject aggregateType aggregateID : string) (revision : Z)
    (correlationID : string) (now : Time) (payload : json) : Envelope :=
  mkEnvelope eventID eventType 1 Producer subject tenantID aggregateType aggregateID (format_int revision)
    (RFC3339Micro now) correlationID (Marshal payload).

Definition CatalogReviewedEvent (eventID : string) (d : Descriptor) (eventRevision : Z) (correlationID : string)
    (now : Time) : Envelope :=
  aggregateEnvelope eventID (d_TenantID d) "mcp.catalog-reviewed" SubjectCatalogReviewed AggregateDescriptor
    (d_ServerID d) eventRevision correlationID now
    (JObj [("kind", JStr "mcp.catalog-reviewed"); ("serverId", JStr (d_ServerID d));
           ("revision", JStr (format_int (d_Revision d))); ("state", JStr (catalog_text (d_State d)))]).

Definition GrantRevokedEvent (eventID : string) (g : Grant) (eventRevision : Z) (correlationID : string)
    (now : Time) : Envelope :=
  aggregateEnvelope eventID (g_TenantID g) "mcp.grant-revoked" SubjectGrantRevoked AggregateGrant (g_GrantID g)
    eventRevision correlationID now
    (JObj [("kind", JStr "mcp.grant-revoked"); ("grantId", JStr (g_GrantID g));
           ("revision", JStr (format_int (g_Revision g))); ("state", JStr (grant_text (g_State g)))]).

(** ** The message of an event *)

#[export] Instance Envelope_eta : Settable Envelope := fun e =>
  mkEnvelope (e_EventID e) (e_EventType e) (e_SchemaVersion e) (e_Producer e) (e_Subject e) (e_TenantID e) (e_AggregateType e)
    (e_AggregateID e) (e_AggregateRevision e) (e_OccurredAt e) (e_CorrelationID e) (e_Payload e).

(** [json.Marshal] of an envelope: a nil payload is written [null], any other
    is compacted. *)
Definition Marshal_Envelope (e : Envelope) : res string :=
  payload ← (if String.eqb (e_Payload e) "" then Ok "null" else compact (e_Payload e));
  Ok ("{" +:+ strings_Join (map (fun f => quote_json (fst f) +:+ ":" +:+ snd f)
    [("eventId", quote_json (e_EventID e)); ("eventType", quote_json (e_EventType e)); ("schemaVersion", format_int (e_SchemaVersion e));
     ("producer", quote_json (e_Producer e)); ("subject", quote_json (e_Subject e)); ("tenantId", quote_json (e_TenantID e));
     ("aggregateType", quote_json (e_AggregateType e)); ("aggregateId", quote_json (e_AggregateID e));
     ("aggregateRevision", quote_json (e_AggregateRevision e)); ("occurredAt", quote_json (e_OccurredAt e));
     ("correlationId", quote_json (e_CorrelationID e)); ("payload", payload)]) "," +:+ "}").

(** [json.Unmarshal] into an envelope: the payload keeps its text. *)
Definition envelope_names : list string :=
  ["eventId"; "eventType"; "schemaVersion"; "producer"; "subject"; "tenantId"; "aggregateType"; "aggregateId"; "aggregateRevision";
   "occurredAt"; "correlationId"; "payload"].
Definition assign_envelope (f raw : string) (e : Envelope) : option Envelope :=
  if String.eqb f "eventId" then s ← raw_string (e_EventID e) raw; Some (e <| e_EventID := s |>)
  else if String.eqb f "eventType" then s ← raw_string (e_EventType e) raw; Some (e <| e_EventType := s |>)
  else if String.eqb f "schemaVersion" then v ← Parse raw; n ← decode_int (e_SchemaVersion e) v; Some (e <| e_SchemaVersion := n |>)
  else if String.eqb f "producer" then s ← raw_string (e_Producer e) raw; Some (e <| e_Producer := s |>)
  else if String.eqb f "subject" then s ← raw_string (e_Subject e) raw; Some (e <| e_Subject := s |>)
  else if String.eqb f "tenantId" then s ← raw_string (e_TenantID e) raw; Some (e <| e_TenantID := s |>)
  else if String.eqb f "aggregateType" then s ← raw_string (e_AggregateType e) raw; Some (e <| e_AggregateType := s |>)
  else if String.eqb f "aggregateId" then s ← raw_string (e_AggregateID e) raw; Some (e <| e_AggregateID := s |>)
  else if String.eqb f "aggregateRevision" then s ← raw_string (e_AggregateRevision e) raw; Some (e <| e_AggregateRevision := s |>)
  else if String.eqb f "occurredAt" then s ← raw_string (e_OccurredAt e) raw; Some (e <| e_OccurredAt := s |>)
  else if String.eqb f "correlationId" then s ← raw_string (e_CorrelationID e) raw; Some (e <| e_CorrelationID := s |>)
  else Some (e <| e_Payload := raw |>).
Definition unmarshal_envelope (raw : string) : option Envelope :=
  decode_raw envelope_names assign_envelope (mkEnvelope "" "" 0 "" "" "" "" "" "" "" "" "") raw.
