(* ===== verification/App.v ===== *)
(** * App: commands, scopes and roles ([application/catalog.go], [grants.go], [authz.go])

    What every use case is called with, the identities it derives, and who may
    perform which action.  Casbin evaluates the reviewed model; what is relied
    on is its documented RBAC with domains ([CasbinLaws]). *)

From S2P Require Import Prelude Errors GoStrings GoCrypto GoJson GoNum Task Catalog Grant Call.

(** ** Commands *)

Record Command := mkCommand { cmd_TenantID : string; cmd_CommandID : string; cmd_ActorID : string; cmd_RequestDigest : string }.
Record Scope := mkScope { sc_TenantID : string; sc_ProjectID : string; sc_ActorID : string; sc_Roles : list string }.
Record ControlCommand := mkControlCommand {
  ctl_TenantID : string; ctl_CommandID : string; ctl_ActorID : string; ctl_RequestDigest : string }.

Definition OwnerIdentity : string := "anvilkit-agent-mcp".

Definition checkCommand (cmd : Command) (scope : Scope) : res unit :=
  if negb (String.eqb (cmd_TenantID cmd) (sc_TenantID scope)) || negb (String.eqb (cmd_ActorID cmd) (sc_ActorID scope))
  then Fail ErrForbidden else Ok tt.

(** The parts, each closed by a zero byte, hashed together. *)
Fixpoint id_input (parts : list string) : string :=
  match parts with [] => "" | p :: r => p +:+ nul +:+ id_input r end.
Definition idOf (prefix : string) (parts : list string) : string :=
  prefix +:+ String.substring 0 32 (hex_EncodeToString (Sum256 (id_input parts))).

(** Who may send under a grant. *)
Definition callerMaySend (scope : Scope) (g : Grant) : bool :=
  if String.eqb (g_SubjectType g) "tenant" then true
  else if String.eqb (g_SubjectType g) "project"
  then negb (String.eqb (sc_ProjectID scope) "") && String.eqb (g_SubjectID g) (sc_ProjectID scope)
  else if String.eqb (g_SubjectType g) "actor" then String.eqb (g_SubjectID g) (sc_ActorID scope)
  else if String.eqb (g_SubjectType g) "role" then slices_Contains (sc_Roles scope) (g_SubjectID g)
  else false.

(** ** Roles *)

Definition ActCatalogDiscover : string := "catalog.discover".
Definition ActCatalogReview : string := "catalog.review".
Definition ActCatalogDisable : string := "catalog.disable".
Definition ActCatalogReadPending : string := "catalog.read_pending".
Definition ActGrantCreate : string := "grant.create".
Definition ActGrantRevoke : string := "grant.revoke".
Definition ActGrantReadAll : string := "grant.read_all".
Definition ActCallReconcile : string := "call.reconcile".

Definition RoleCatalogManager : string := "catalog_manager".
Definition RoleCatalogReviewer : string := "catalog_reviewer".
Definition RoleGrantManager : string := "grant_manager".
Definition RoleCallOperator : string := "call_operator".
Definition roles : list string := [RoleCatalogManager; RoleCatalogReviewer; RoleGrantManager; RoleCallOperator].

Definition authzPolicies : list (string * string) :=
  [(RoleCatalogManager, ActCatalogDiscover); (RoleCatalogManager, ActCatalogDisable);
   (RoleCatalogManager, ActCatalogReadPending);
   (RoleCatalogReviewer, ActCatalogReview); (RoleCatalogReviewer, ActCatalogDisable);
   (RoleCatalogReviewer, ActCatalogReadPending);
   (RoleGrantManager, ActGrantCreate); (RoleGrantManager, ActGrantRevoke); (RoleGrantManager, ActGrantReadAll);
   (RoleCallOperator, ActCallReconcile)].

Record RoleBinding := mkRoleBinding { rb_TenantID : string; rb_ActorID : string; rb_Role : string }.

(** The roles held so far, by tenant and actor. *)
Definition held_key (b : RoleBinding) : string := rb_TenantID b +:+ nul +:+ rb_ActorID b.
Fixpoint add_bindings (bindings : list RoleBinding) (held : gmap string (list string)) : res unit :=
  match bindings with
  | [] => Ok tt
  | b :: r =>
      if String.eqb (rb_TenantID b) "" || String.eqb (rb_ActorID b) "" then Fail ErrOther
      else if negb (slices_Contains roles (rb_Role b)) then Fail ErrOther
      else
        let now := default [] (held !! held_key b) ++ [rb_Role b] in
        if slices_Contains now RoleCatalogReviewer && slices_Contains now RoleGrantManager then Fail ErrOther
        else add_bindings r (<[held_key b := now]> held)
  end.

(** The enforcer: its policies [(role, act)], its grouping [(actor, role,
    tenant)], and [Enforce(sub, dom, act)]. *)
Class Casbin := Enforce : list (string * string) -> list (string * string * string) -> string -> string -> string -> bool.

(** [g(sub, role, dom)]: the same name, or a chain of groupings of the domain,
    of a length. *)
Inductive has_link (groups : list (string * string * string)) (dom : string) : nat -> string -> string -> Prop :=
| link_same n : has_link groups dom 0 n n
| link_step k n m r : (n, m, dom) ∈ groups -> has_link groups dom k m r -> has_link groups dom (S k) n r.

(** Casbin's documented RBAC with domains under the reviewed model: a request
    is allowed only by a policy of a role the subject links to, and by every
    such policy within the role hierarchy's bound of ten levels. *)
Class CasbinLaws `{Casbin} := {
  enforce_sound : forall policies groups sub dom act, Enforce policies groups sub dom act = true ->
    exists role k, (role, act) ∈ policies /\ has_link groups dom k sub role;
  enforce_complete : forall policies groups sub dom act role k,
    (role, act) ∈ policies -> has_link groups dom k sub role -> (k < 10)%nat ->
    Enforce policies groups sub dom act = true }.

Record Authorizer := mkAuthorizer { az_groups : list (string * string * string) }.
Definition group_of (b : RoleBinding) : string * string * string := (rb_ActorID b, rb_Role b, rb_TenantID b).
Definition NewAuthorizer (bindings : list RoleBinding) : res Authorizer :=
  _ ← add_bindings bindings ∅;
  Ok (mkAuthorizer (map group_of bindings)).

(** A missing authorizer allows nothing. *)
Definition Allowed `{Casbin} (a : option Authorizer) (tenantID actorID action : string) : bool :=
  match a with
  | None => false
  | Some a => Enforce authzPolicies (az_groups a) actorID tenantID action
  end.
Definition Require_ `{Casbin} (a : option Authorizer) (tenantID actorID action : string) : res unit :=
  if Allowed a tenantID actorID action then Ok tt else Fail ErrForbidden.
