(* ===== verification/Authz.v ===== *)
(** * Authz: separation of duties ([application/authz.go])

    Bindings the loader accepts never let one principal both review a catalog
    revision and hand out access to it in one tenant, unless they bind an actor
    of that tenant that is named like a role. *)

From S2P Require Import Prelude Errors GoStrings GoCrypto GoJson GoNum Task Catalog Grant Call App.

(** ** Bindings *)

(** The bindings of the tenant bind an actor that is named like a role. *)
Definition role_named (bindings : list RoleBinding) (tenantID : string) : Prop :=
  exists b, b ∈ bindings /\ rb_TenantID b = tenantID /\ rb_ActorID b ∈ roles.
Lemma role_named_dec bindings tenantID : role_named bindings tenantID \/ ~ role_named bindings tenantID.
Proof.
  destruct (decide (Exists (fun b => rb_TenantID b = tenantID /\ rb_ActorID b ∈ roles) bindings)) as [H|H]; rewrite Exists_exists in H.
  - left. destruct H as (b & ?). by exists b.
  - right. intros (b & ?). apply H. by exists b.
Qed.

Lemma add_bindings_held bindings : forall held,
  add_bindings bindings held = Ok tt ->
  (forall b, b ∈ bindings -> rb_Role b ∈ roles) /\
  (forall b1 b2, b1 ∈ bindings -> b2 ∈ bindings -> held_key b1 = held_key b2 ->
     rb_Role b1 = RoleCatalogReviewer -> rb_Role b2 <> RoleGrantManager) /\
  (forall b, b ∈ bindings -> rb_Role b = RoleCatalogReviewer -> RoleGrantManager ∉ default [] (held !! held_key b)) /\
  (forall b, b ∈ bindings -> rb_Role b = RoleGrantManager -> RoleCatalogReviewer ∉ default [] (held !! held_key b)).
Proof.
  induction bindings as [|b r IH]; cbn [add_bindings]; intros held H.
  { split_and!; [by intros ? ?%elem_of_nil|by intros ? ? ?%elem_of_nil|by intros ? ?%elem_of_nil..]. }
  dif H as E1. dif H as E2. dif H as E3. apply negb_false_iff, slices_Contains_spec in E2.
  set (now := default [] (held !! held_key b) ++ [rb_Role b]) in *.
  destruct (IH _ H) as (Hroles & Hpair & Hrev & Hman). clear IH.
  assert (~ (RoleCatalogReviewer ∈ now /\ RoleGrantManager ∈ now)) as Hnow.
  { intros [H1 H2]. apply slices_Contains_spec in H1, H2. by rewrite H1, H2 in E3. }
  unfold now in Hnow. rewrite !elem_of_app, !list_elem_of_singleton in Hnow.
  assert (forall b', b' ∈ r -> held_key b' = held_key b ->
    (rb_Role b' = RoleCatalogReviewer -> RoleGrantManager ∉ now) /\
    (rb_Role b' = RoleGrantManager -> RoleCatalogReviewer ∉ now)) as Hsame.
  { intros b' Hb' Hk. specialize (Hrev b' Hb'). specialize (Hman b' Hb'). rewrite Hk, lookup_insert_eq in *. done. }
  split_and!.
  - intros b' [->|Hb']%elem_of_cons; auto.
  - unfold now in Hsame. setoid_rewrite elem_of_app in Hsame. setoid_rewrite list_elem_of_singleton in Hsame.
    intros b1 b2 [->|H1]%elem_of_cons [->|H2]%elem_of_cons Hk Hr1 Hr2; [by rewrite Hr1 in Hr2| | |exact (Hpair _ _ H1 H2 Hk Hr1 Hr2)].
    + destruct (Hsame b2 H2 (eq_sym Hk)) as [_ Hs]. apply Hs; [done|by right].
    + destruct (Hsame b1 H1 Hk) as [Hs _]. apply Hs; [done|by right].
  - intros b' [->|Hb']%elem_of_cons Hr'; [naive_solver|].
    destruct (decide (held_key b' = held_key b)) as [Hk|Hk].
    + destruct (Hsame b' Hb' Hk) as [Hs _]. intros Hin. apply Hs; [done|]. apply elem_of_app. left. by rewrite <- Hk.
    + specialize (Hrev b' Hb' Hr'). by rewrite lookup_insert_ne in Hrev by done.
  - intros b' [->|Hb']%elem_of_cons Hr'; [naive_solver|].
    destruct (decide (held_key b' = held_key b)) as [Hk|Hk].
    + destruct (Hsame b' Hb' Hk) as [_ Hs]. intros Hin. apply Hs; [done|]. apply elem_of_app. left. by rewrite <- Hk.
    + specialize (Hman b' Hb' Hr'). by rewrite lookup_insert_ne in Hman by done.
Qed.

(** The policies of the reviewed model. *)
Lemma policies_roles role action : (role, action) ∈ authzPolicies -> role ∈ roles.
Proof.
  intros Hp. repeat (apply elem_of_cons in Hp as [[= -> _]|Hp]; [vm_compute; set_solver|]). by apply elem_of_nil in Hp.
Qed.
Lemma policies_of action role :
  (role, action) ∈ authzPolicies -> role ∈ map fst (List.filter (fun p => String.eqb p.2 action) authzPolicies).
Proof.
  intros Hp. apply list_elem_of_In, in_map_iff. exists (role, action). split; [done|]. apply filter_In.
  split; [by apply list_elem_of_In|by apply String.eqb_eq].
Qed.

Section Separation.
  Context `{CasbinLaws}.

(** Where no actor is named like a role, what is linked to a policy's role is
    that role or is bound to it. *)
Lemma link_bound bindings dom sub role k :
  add_bindings bindings ∅ = Ok tt -> ~ role_named bindings dom -> role ∈ roles ->
  has_link (map group_of bindings) dom k sub role ->
  sub = role \/ exists b, b ∈ bindings /\ rb_TenantID b = dom /\ rb_ActorID b = sub /\ rb_Role b = role.
Proof.
  intros Hadd Hplain Hrole Hl. apply add_bindings_held in Hadd as (Hroles & _).
  destruct Hl as [|k n m r Hin Hl]; [by left|right].
  apply list_elem_of_In, in_map_iff in Hin as (b & Hb & Hin). apply list_elem_of_In in Hin. injection Hb as E1 E2 E3.
  destruct Hl as [|k m m' r Hin' _]; [by exists b|]. exfalso.
  apply list_elem_of_In, in_map_iff in Hin' as (b' & Hb' & Hin'). apply list_elem_of_In in Hin'. injection Hb' as E4 E5 E6.
  apply Hplain. exists b'. split_and!; [done..|]. rewrite E4, <- E2. by apply Hroles.
Qed.
(** What an action that is allowed there comes from. *)
Lemma allowed_bound bindings tenantID actorID action :
  add_bindings bindings ∅ = Ok tt -> ~ role_named bindings tenantID ->
  Enforce authzPolicies (map group_of bindings) actorID tenantID action = true ->
  exists role, (role, action) ∈ authzPolicies /\
    (actorID = role \/ exists b, b ∈ bindings /\ rb_TenantID b = tenantID /\ rb_ActorID b = actorID /\ rb_Role b = role).
Proof.
  intros Hadd Hplain (role & k & Hp & Hl)%enforce_sound. exists role. split; [done|].
  assert (role ∈ roles) as Hrole by (by apply (policies_roles role action)). by apply (link_bound _ _ _ _ k).
Qed.

(** Where no actor is named like a role, any other actor of a tenant may
    perform an action exactly when a binding of that tenant gives the actor a role with
    that action. *)
Theorem allowed_iff_bound bindings a tenantID actorID action :
  NewAuthorizer bindings = Ok a -> ~ role_named bindings tenantID -> actorID ∉ roles ->
  Allowed (Some a) tenantID actorID action = true <->
  exists b, b ∈ bindings /\ rb_TenantID b = tenantID /\ rb_ActorID b = actorID /\ (rb_Role b, action) ∈ authzPolicies.
Proof.
  unfold NewAuthorizer. intros Hn Hplain Hsub. apply bind_Ok in Hn as ([] & Hadd & [= <-]). unfold Allowed. cbn [az_groups].
  split.
  - intros (role & Hp & [->|(b & Hb & E1 & E2 & E3)])%allowed_bound; [|exists b; by rewrite E3|done..].
    by destruct Hsub; apply (policies_roles role action).
  - intros (b & Hb & <- & <- & Hp). eapply (enforce_complete _ _ _ _ _ _ 1 Hp); [|lia].
    eapply link_step; [|apply link_same]. apply list_elem_of_In, in_map_iff. exists b. split; [done|by apply list_elem_of_In].
Qed.

(** C18. Separation of duties: from bindings the loader accepts, in each tenant
    no actor may both review a catalog revision and create (or revoke) a grant,
    unless the bindings of that tenant bind an actor that is named like a role,
    which the loader does not refuse. *)
Theorem reviewer_never_manages_grants bindings a tenantID :
  NewAuthorizer bindings = Ok a ->
  role_named bindings tenantID \/
  forall actorID, Allowed (Some a) tenantID actorID ActCatalogReview = true ->
    Allowed (Some a) tenantID actorID ActGrantCreate = false /\ Allowed (Some a) tenantID actorID ActGrantRevoke = false.
Proof.
  unfold NewAuthorizer. intros Hn. apply bind_Ok in Hn as ([] & Hadd & [= <-]). unfold Allowed. cbn [az_groups].
  destruct (role_named_dec bindings tenantID) as [|Hplain]; [by left|right]. intros actorID.
  pose proof (proj1 (proj2 (add_bindings_held _ _ Hadd))) as Hpair.
  assert (forall action, action = ActGrantCreate \/ action = ActGrantRevoke ->
    Enforce authzPolicies (map group_of bindings) actorID tenantID ActCatalogReview = true ->
    Enforce authzPolicies (map group_of bindings) actorID tenantID action = false) as Hno.
  { intros action Ha (r1 & P1 & H1)%allowed_bound; [|done..]. apply not_true_iff_false.
    intros (r2 & P2 & H2)%allowed_bound; [|done..]. apply (policies_of ActCatalogReview) in P1.
    assert (r1 = RoleCatalogReviewer) as -> by (vm_compute in P1; set_solver).
    assert (r2 = RoleGrantManager) as -> by (apply policies_of in P2; destruct Ha as [-> | ->]; vm_compute in P2; set_solver).
    destruct H1 as [->|(b1 & H1 & T1 & A1 & R1)], H2 as [E|(b2 & H2 & T2 & A2 & R2)].
    - discriminate E.
    - apply Hplain. exists b2. split_and!; [done..|]. rewrite A2. vm_compute. set_solver.
    - apply Hplain. exists b1. split_and!; [done..|]. rewrite A1, E. vm_compute. set_solver.
    - apply (Hpair b1 b2 H1 H2); [unfold held_key; congruence|done..]. }
  intros Hr. split; apply Hno; auto.
Qed.

Definition role_named_bindings : list RoleBinding :=
  [mkRoleBinding "t1" RoleGrantManager RoleCatalogReviewer; mkRoleBinding "t1" "alice" RoleGrantManager].

(** The separation depends on the names: a binding whose actor is named
    [grant_manager] makes that role a member of [catalog_reviewer], and then an
    actor bound to [grant_manager] alone may both review and create grants,
    although the loader accepts the bindings. *)
Theorem role_named_actor_breaks_separation :
  exists a, NewAuthorizer role_named_bindings = Ok a /\
    Allowed (Some a) "t1" "alice" ActCatalogReview = true /\ Allowed (Some a) "t1" "alice" ActGrantCreate = true.
Proof.
  eexists. split; [vm_compute; reflexivity|]. unfold Allowed. cbn [az_groups]. split.
  - apply (enforce_complete _ _ _ _ _ RoleCatalogReviewer 2); [vm_compute; set_solver| |lia].
    apply (link_step _ _ _ _ RoleGrantManager); [right; left|].
    apply (link_step _ _ _ _ RoleCatalogReviewer); [left|apply link_same].
  - apply (enforce_complete _ _ _ _ _ RoleGrantManager 1); [vm_compute; set_solver| |lia].
    apply (link_step _ _ _ _ RoleGrantManager); [right; left|apply link_same].
Qed.
End Separation.

(** ** Witnesses: an enforcer that follows the groupings ten levels deep *)

Fixpoint linked (groups : list (string * string * string)) (dom : string) (depth : nat) (sub : string) : list string :=
  sub :: match depth with
         | O => []
         | S n => flat_map (fun g => if String.eqb g.1.1 sub && String.eqb g.2 dom then linked groups dom n g.1.2 else []) groups
         end.
Definition demo_enforcer : Casbin := fun policies groups sub dom act =>
  existsb (fun p => String.eqb p.2 act && slices_Contains (linked groups dom 10 sub) p.1) policies.

Lemma linked_spec groups dom depth : forall sub role,
  role ∈ linked groups dom depth sub <-> exists k, (k <= depth)%nat /\ has_link groups dom k sub role.
Proof.
  induction depth as [|n IH]; intros sub role; cbn [linked].
  - rewrite list_elem_of_singleton. split.
    + intros ->. exists 0%nat. split; [lia|constructor].
    + intros (k & Hk & Hl). destruct Hl; [done|lia].
  - rewrite elem_of_cons. split.
    + intros [->|Hin]; [exists 0%nat; split; [lia|constructor]|].
      apply list_elem_of_In, in_flat_map in Hin as ([[a m] d] & Hg & Hin). cbn in Hin.
      destruct (String.eqb a sub) eqn:E1; [|done]. destruct (String.eqb d dom) eqn:E2; [|done]. cbn in Hin. breflect. subst.
      apply list_elem_of_In, IH in Hin as (k & Hk & Hl). exists (S k). split; [lia|].
      eapply link_step; [by apply list_elem_of_In|done].
    + intros (k & Hk & Hl). destruct Hl as [|k sub m role Hg Hl]; [by left|right].
      apply list_elem_of_In, in_flat_map. exists (sub, m, dom). split; [by apply list_elem_of_In|].
      cbn. rewrite !String.eqb_refl. cbn. apply list_elem_of_In, IH. exists k. split; [lia|done].
Qed.

#[local] Existing Instance demo_enforcer.
#[local] Instance demo_enforcer_laws : CasbinLaws.
Proof.
  constructor; unfold Enforce, demo_enforcer.
  - intros policies groups sub dom act ([role a] & Hp & H)%existsb_exists. cbn [fst snd] in H.
    apply andb_true_iff in H as [Ha H]. apply String.eqb_eq in Ha as ->.
    apply slices_Contains_spec, linked_spec in H as (k & _ & Hl). exists role, k.
    split; [by apply list_elem_of_In|done].
  - intros policies groups sub dom act role k Hp Hl Hk. apply existsb_exists. exists (role, act).
    split; [by apply list_elem_of_In|]. cbn [fst snd]. rewrite String.eqb_refl, andb_true_l.
    apply slices_Contains_spec, linked_spec. exists k. split; [lia|done].
Qed.

Definition demo_bindings : list RoleBinding :=
  [mkRoleBinding "t1" "bob" RoleCatalogReviewer; mkRoleBinding "t1" "alice" RoleGrantManager; mkRoleBinding "t2" "bob" RoleGrantManager].
Definition demo_authorizer : Authorizer := mkAuthorizer (map group_of demo_bindings).
Lemma demo_plain tenantID : ~ role_named demo_bindings tenantID.
Proof.
  intros (b & Hb & _ & Hr). unfold demo_bindings in Hb.
  repeat (apply elem_of_cons in Hb as [->|Hb]; [vm_compute in Hr; set_solver|]). by apply elem_of_nil in Hb.
Qed.

Lemma allowed_iff_bound_witness : Allowed (Some demo_authorizer) "t1" "bob" ActCatalogReview = true.
Proof.
  apply (allowed_iff_bound demo_bindings demo_authorizer "t1" "bob" ActCatalogReview); [vm_compute; reflexivity|apply demo_plain| |].
  - vm_compute. set_solver.
  - exists (mkRoleBinding "t1" "bob" RoleCatalogReviewer). split_and!; [unfold demo_bindings; set_solver|reflexivity..|vm_compute; set_solver].
Defined.
Lemma reviewer_never_manages_grants_witness :
  Allowed (Some demo_authorizer) "t1" "bob" ActGrantCreate = false /\ Allowed (Some demo_authorizer) "t1" "bob" ActGrantRevoke = false.
Proof.
  destruct (reviewer_never_manages_grants demo_bindings demo_authorizer "t1") as [H|H]; [vm_compute; reflexivity|by destruct (demo_plain "t1")|].
  apply (H "bob"). vm_compute. reflexivity.
Defined.
Lemma role_named_actor_breaks_separation_witness :
  exists a, NewAuthorizer role_named_bindings = Ok a /\ Allowed (Some a) "t1" "alice" ActCatalogReview = true /\
    Allowed (Some a) "t1" "alice" ActGrantCreate = true.
Proof. exact role_named_actor_breaks_separation. Defined.
