(* ===== verification/Wire.v ===== *)
(** * Wire: the messages of the service and what they stand for ([internal/transport/grpc])

    The generated messages are the fields the handlers read and write; a
    generated enumeration constant is its name, a timestamp its instant, and a
    nil message its zero.  Revisions, generations and amounts are decimal
    texts. *)

From S2P Require Import Prelude Errors GoStrings GoCrypto GoJson GoNum GoBase64 GoUrl UrlText GoScan Task Catalog Grant Call Event App Identity.

(** ** Status codes ([toStatus]) *)

(** [other] is the code an error that wraps no sentinel of the program
    carries: that of a context's end or of a gRPC status, if it is one. *)
Definition toStatus (other : option Code) (e : error) : Code :=
  match err_is e with
  | ErrNotFound => NotFound
  | ErrInvalid | ErrInputTooLarge => InvalidArgument
  | ErrAlreadyClaimed | ErrNotClaimable | ErrDuplicateClaimID => FailedPrecondition
  | ErrStaleExecution => FailedPrecondition
  | ErrEffectUncertain => FailedPrecondition
  | ErrProfileUnknown => FailedPrecondition
  | ErrForbidden | ErrDomainForbidden => PermissionDenied
  | ErrCommandConflict => AlreadyExists
  | ErrDescriptorMismatch | ErrRevisionMismatch | ErrInvalidTransition => FailedPrecondition
  | ErrUpstream => FailedPrecondition
  | ErrUnavailable => Unavailable
  | ErrDuplicateKey => FailedPrecondition
  | _ => default Unavailable other
  end.

(** ** Numbers *)

Definition parseGeneration (s : string) : res Z :=
  match Sscanf_uint s with
  | Some g => if g =? 0 then Fail ErrInvalid else Ok g
  | None => Fail ErrInvalid
  end.

Record MoneyMsg := mkMoneyMsg { mm_Currency : string; mm_Amount : string }.
Definition money (m : Money) : MoneyMsg := mkMoneyMsg (Currency m) (format_int (Amount m)).
Definition moneyOf (m : option MoneyMsg) : res Money :=
  match m with
  | None => Fail ErrInvalid
  | Some m => match ParseInt (mm_Amount m) with
              | None => Fail ErrInvalid
              | Some n => Ok (mkMoney (mm_Currency m) n)
              end
  end.
Definition revisionOf (s : string) : res Z :=
  if String.eqb s "" then Ok 0 else match ParseUint s with None => Fail ErrInvalid | Some n => Ok n end.

(** ** Who calls *)

(** The messages [CommandIdentity] and [Scope] have the fields of [Command]
    and [Scope]. *)
Definition cmdOf (c : Command) : Command := mkCommand (cmd_TenantID c) (cmd_CommandID c) (cmd_ActorID c) (cmd_RequestDigest c).
Definition scopeOf (ctx : option AuthInfo) (s : Scope) : Scope :=
  let roles := match Caller ctx with
               | Some p => if String.eqb (p_Namespace p) (w_Namespace api) && String.eqb (p_ServiceAccount p) (w_ServiceAccount api)
                           then sc_Roles s else []
               | None => []
               end in
  mkScope (sc_TenantID s) (sc_ProjectID s) (sc_ActorID s) roles.

(** ** Background tasks *)

Definition stateOf (s : TaskState) : string :=
  match s with
  | StatePending => "TASK_STATE_PENDING" | StateLeased => "TASK_STATE_LEASED"
  | StateResultSubmitted => "TASK_STATE_RESULT_SUBMITTED" | StateAccepted => "TASK_STATE_ACCEPTED"
  | StateRetryScheduled => "TASK_STATE_RETRY_SCHEDULED" | StateDead => "TASK_STATE_DEAD"
  | StateStale => "TASK_STATE_STALE" | StateCanceled => "TASK_STATE_CANCELED"
  end.
Record BackgroundTask := mkBackgroundTask {
  bt_TaskId : string; bt_Generation : string; bt_TaskKind : string; bt_InputDigest : string; bt_State : string;
  bt_AttemptCount : string; bt_WorkerId : option string; bt_LeaseUntil : option Time }.
(** [proto.String(s)] of a text that is not empty. *)
Definition present (s : string) : option string := if String.eqb s "" then None else Some s.
Definition toProto (t : Task) : BackgroundTask :=
  mkBackgroundTask (t_TaskID t) (format_int (t_Generation t)) (t_Kind t) (t_InputDigest t) (stateOf (t_State t))
    (format_int (t_AttemptCount t)) (present (t_WorkerID t))
    (if bool_decide (t_State t = StateLeased) && negb (IsZero (t_LeaseUntil t)) then Some (t_LeaseUntil t) else None).

(** ** The catalog *)

(** [catalogStateTo] and, from the request's enumeration, [catalogStateOf]. *)
Definition catalogStateTo (s : CatalogState) : string :=
  match s with
  | CatalogDiscovered => "CATALOG_STATE_DISCOVERED" | CatalogReviewPending => "CATALOG_STATE_REVIEW_PENDING"
  | CatalogApproved => "CATALOG_STATE_APPROVED" | CatalogRejected => "CATALOG_STATE_REJECTED"
  | CatalogDisabled => "CATALOG_STATE_DISABLED"
  end.
Definition catalogStateOf (s : string) : string :=
  if String.eqb s "CATALOG_STATE_DISCOVERED" then "discovered"
  else if String.eqb s "CATALOG_STATE_REVIEW_PENDING" then "review_pending"
  else if String.eqb s "CATALOG_STATE_APPROVED" then "approved"
  else if String.eqb s "CATALOG_STATE_REJECTED" then "rejected"
  else if String.eqb s "CATALOG_STATE_DISABLED" then "disabled" else "".

Record ToolSchema := mkToolSchema {
  ts_Method : string; ts_InputSchemaDigest : string; ts_OutputSchemaDigest : string; ts_SideEffecting : bool;
  ts_UnitPrice : option MoneyMsg; ts_Idempotent : bool; ts_QuerySupported : bool; ts_AnnotationsDigest : string }.
Record DescriptorMsg := mkDescriptorMsg {
  dm_ServerId : string; dm_Revision : string; dm_CanonicalResource : string; dm_Transport : string;
  dm_ProtocolVersion : string; dm_Provenance : string; dm_DescriptorDigest : string; dm_State : string;
  dm_CreatedAt : Time; dm_UpdatedAt : Time; dm_ServerName : string; dm_ServerVersion : string;
  dm_ResourcesDigest : string; dm_PromptsDigest : string; dm_DataClass : string; dm_NetworkScope : list string;
  dm_Licenses : list string; dm_RevisionEvidence : string; dm_DiscoveredBy : string; dm_ReviewId : option string;
  dm_Reviewer : option string; dm_Tools : list ToolSchema }.
Definition toToolSchema (t : Tool) : ToolSchema :=
  mkToolSchema (tl_Method t) (tl_InputSchemaDigest t) (tl_OutputSchemaDigest t) (tl_SideEffecting t)
    (Some (money (tl_UnitPrice t))) (tl_Idempotent t) (tl_QuerySupported t) (tl_AnnotationsDigest t).
Definition toDescriptor (d : Descriptor) : DescriptorMsg :=
  mkDescriptorMsg (d_ServerID d) (format_int (d_Revision d)) (d_CanonicalResource d) (d_Transport d) (d_ProtocolVersion d)
    (d_Provenance d) (d_Digest d) (catalogStateTo (d_State d)) (d_CreatedAt d) (d_UpdatedAt d) (d_ServerName d)
    (d_ServerVersion d) (d_ResourcesDigest d) (d_PromptsDigest d) (d_DataClass d) (d_NetworkScope d) (d_Licenses d)
    (d_RevisionEvidence d) (d_DiscoveredBy d) (present (d_ReviewID d)) (present (d_Reviewer d)) (map toToolSchema (d_Tools d)).
(** The message of [domain.Descriptor{}]. *)
Definition zero_descriptor : DescriptorMsg :=
  mkDescriptorMsg "" "0" "" "" "" "" "" "CATALOG_STATE_UNSPECIFIED" zero_time zero_time "" "" "" "" "" [] [] "" "" None None [].

Record DiscoverServerRequest := mkDiscoverServerRequest {
  ds_Command : Command; ds_Scope : Scope; dq_CanonicalResource : string; dq_Transport : string; dq_ProtocolVersion : string;
  dq_Provenance : string; dq_DescriptorDigest : string; dq_DataClass : string; dq_NetworkScope : list string;
  dq_Licenses : list string; dq_Tools : list ToolSchema }.
Fixpoint declarations_of (tools : list ToolSchema) : res (list ToolDeclaration) :=
  match tools with
  | [] => Ok []
  | t :: rest =>
      price ← moneyOf (ts_UnitPrice t);
      out ← declarations_of rest;
      mret (mkToolDeclaration (ts_Method t) (ts_InputSchemaDigest t) (ts_OutputSchemaDigest t) (ts_SideEffecting t) price
              (ts_Idempotent t) (ts_QuerySupported t) :: out)
  end.
Definition declarationOf (q : DiscoverServerRequest) : res Declaration :=
  tools ← declarations_of (dq_Tools q);
  mret (mkDeclaration (dq_CanonicalResource q) (dq_Transport q) (dq_ProtocolVersion q) (dq_Provenance q)
          (dq_DescriptorDigest q) tools (dq_DataClass q) (dq_NetworkScope q) (dq_Licenses q)).

(** ** Grants *)

Definition grantStateTo (s : GrantState) : string :=
  match s with
  | GrantPending => "GRANT_STATE_PENDING" | GrantActive => "GRANT_STATE_ACTIVE" | GrantRevoking => "GRANT_STATE_REVOKING"
  | GrantRevoked => "GRANT_STATE_REVOKED" | GrantExpired => "GRANT_STATE_EXPIRED"
  | GrantRegistrationFailed => "GRANT_STATE_REGISTRATION_FAILED"
  end.
Definition grantStateOf (s : string) : string :=
  if String.eqb s "GRANT_STATE_PENDING" then "pending" else if String.eqb s "GRANT_STATE_ACTIVE" then "active"
  else if String.eqb s "GRANT_STATE_REVOKING" then "revoking" else if String.eqb s "GRANT_STATE_REVOKED" then "revoked"
  else if String.eqb s "GRANT_STATE_EXPIRED" then "expired"
  else if String.eqb s "GRANT_STATE_REGISTRATION_FAILED" then "registration_failed" else "".

Record GrantMsg := mkGrantMsg {
  gm_GrantId : string; gm_Revision : string; gm_TenantId : string; gm_SubjectType : string; gm_SubjectId : string;
  gm_ServerId : string; gm_DescriptorRevision : string; gm_DescriptorDigest : string; gm_Methods : list string;
  gm_Purpose : string; gm_CostCap : MoneyMsg; gm_State : string; gm_CreatedAt : Time; gm_UpdatedAt : Time;
  gm_CanonicalResource : string; gm_Transport : string; gm_ProtocolVersion : string; gm_Issuer : string;
  gm_Audience : string; gm_ResourceSelectors : list string; gm_PromptSelectors : list string; gm_DataClass : string;
  gm_PolicyDigest : string; gm_PolicyEpoch : string; gm_ControlReceiptId : option string; gm_ExpiresAt : option Time;
  gm_FailureCode : option string }.
Definition toGrant (g : Grant) : GrantMsg :=
  mkGrantMsg (g_GrantID g) (format_int (g_Revision g)) (g_TenantID g) (g_SubjectType g) (g_SubjectID g) (g_ServerID g)
    (format_int (g_DescriptorRevision g)) (g_DescriptorDigest g) (g_Methods g) (g_Purpose g) (money (g_CostCap g))
    (grantStateTo (g_State g)) (g_CreatedAt g) (g_UpdatedAt g) (g_CanonicalResource g) (g_Transport g) (g_ProtocolVersion g)
    (g_Issuer g) (g_Audience g) (g_ResourceSelectors g) (g_PromptSelectors g) (g_DataClass g) (g_PolicyDigest g)
    (if g_PolicyEpoch g =? 0 then "" else format_int (g_PolicyEpoch g)) (present (g_ControlReceiptID g)) (g_ExpiresAt g)
    (present (g_FailureCode g)).

Record CreateGrantRequest := mkCreateGrantRequest {
  gq_Command : Command; gq_Scope : Scope; gq_SubjectType : string; gq_SubjectId : string; gq_ServerId : string;
  gq_DescriptorRevision : string; gq_DescriptorDigest : string; gq_Methods : list string;
  gq_ResourceSelectors : list string; gq_PromptSelectors : list string; gq_Purpose : string; gq_DataClass : string;
  gq_CostCap : option MoneyMsg; gq_ExpiresAt : option Time }.
Definition grantRequestOf (q : CreateGrantRequest) : res GrantRequest :=
  rev ← revisionOf (gq_DescriptorRevision q);
  cap ← moneyOf (gq_CostCap q);
  mret (mkGrantRequest (gq_SubjectType q) (gq_SubjectId q) (gq_ServerId q) rev (gq_DescriptorDigest q) (gq_Methods q)
          (gq_ResourceSelectors q) (gq_PromptSelectors q) (gq_Purpose q) (gq_DataClass q) cap (gq_ExpiresAt q)).

(** ** Calls *)

Definition callStateTo (s : CallState) : string :=
  match s with
  | CallAccepted => "CALL_STATE_ACCEPTED" | CallAdmitted => "CALL_STATE_ADMITTED" | CallSent => "CALL_STATE_SENT"
  | CallSucceeded => "CALL_STATE_SUCCEEDED" | CallFailed => "CALL_STATE_FAILED" | CallDenied => "CALL_STATE_DENIED"
  | CallUnknown => "CALL_STATE_UNKNOWN" | CallCanceled => "CALL_STATE_CANCELED"
  end.
Record ToolCall := mkToolCall {
  tc_CallId : string; tc_TenantId : string; tc_GrantId : string; tc_GrantRevision : string; tc_ServerId : string;
  tc_Method : string; tc_ArgumentDigest : string; tc_State : string; tc_CreatedAt : Time; tc_UpdatedAt : Time;
  tc_Result : option bytes; tc_DescriptorRevision : string; tc_DescriptorDigest : string; tc_ProtocolVersion : string;
  tc_ControlDispatchId : option string; tc_ResultRef : option string; tc_ResultDigest : option string;
  tc_FailureCode : option string }.
Definition toCall (c : Call) : ToolCall :=
  mkToolCall (c_CallID c) (c_TenantID c) (c_GrantID c) (format_int (c_GrantRevision c)) (c_ServerID c) (c_Method c)
    (c_ArgumentDigest c) (callStateTo (c_State c)) (c_CreatedAt c) (c_UpdatedAt c) (c_Result c)
    (format_int (c_DescriptorRevision c)) (c_DescriptorDigest c) (c_ProtocolVersion c) (present (c_DispatchID c))
    (present (c_ResultRef c)) (if String.eqb (c_ResultRef c) "" then None else Some (c_ResultDigest c))
    (present (c_FailureCode c)).

Record CreateCallRequest := mkCreateCallRequest {
  cq_Command : Command; cq_Scope : Scope; cq_GrantId : string; cq_GrantRevision : string; cq_Method : string;
  cq_ArgumentRef : string; cq_ArgumentDigest : string; cq_Arguments : bytes; cq_OperationId : string;
  cq_AttemptId : string; cq_InstanceId : string; cq_ExecutionEpoch : string; cq_Deadline : option Time }.
(** [AsTime] of an absent deadline is the Unix epoch. *)
Definition callRequestOf (q : CreateCallRequest) : res CallRequest :=
  rev ← revisionOf (cq_GrantRevision q);
  epoch ← revisionOf (cq_ExecutionEpoch q);
  mret (mkCallRequest (cq_GrantId q) rev (cq_Method q) (cq_ArgumentRef q) (cq_ArgumentDigest q) (cq_Arguments q)
          (cq_OperationId q) (cq_AttemptId q) (cq_InstanceId q) epoch (default 0 (cq_Deadline q))).
