(* ===== verification/WireSpec.v ===== *)
(** * WireSpec: the texts of numbers and states

    What the service writes into a message it reads back as the same value,
    and what it reads from a request is within the width it is kept at. *)

From S2P Require Import Prelude Errors GoStrings GoCrypto GoJson GoNum GoBase64 GoUrl UrlText GoScan Task Catalog Grant Call Event App Identity Wire.
From Stdlib Require Import Ascii.

(** ** Signed decimals *)

Lemma pretty_neg p : format_int (Z.neg p) = "-" +:+ format_int (Z.pos p).
Proof. done. Qed.
Lemma digits_no_sign s : forallb is_digit (bytes_of s) = true -> s <> "" ->
  ParseInt s = match parse_digits 0 s with Some n => if n <? 2 ^ 63 then Some n else None | None => None end.
Proof.
  destruct s as [|c s]; [done|]. cbn [bytes_of forallb]. intros [Hc _]%andb_prop _. unfold ParseInt.
  destruct c as [[] [] [] [] [] [] [] []]; by cbn in Hc.
Qed.
Lemma format_not_empty z : 0 <= z -> format_int z <> "".
Proof. intros Hz E. destruct (format_digits z Hz) as (_ & _ & Hn). by rewrite E in Hn. Qed.
Lemma parse_format z : 0 <= z -> parse_digits 0 (format_int z) = Some z.
Proof.
  intros Hz. destruct (format_digits z Hz) as (Hd & Hv & _). rewrite parse_digits_value by done. f_equal. exact Hv.
Qed.
Lemma ParseInt_minus s : s <> "" ->
  ParseInt ("-" +:+ s) = match parse_digits 0 s with Some n => if n <=? 2 ^ 63 then Some (- n) else None | None => None end.
Proof. by destruct s. Qed.
Lemma ParseInt_format z : is_i64 z -> ParseInt (format_int z) = Some z.
Proof.
  intros [Hl Hu]. destruct (decide (0 <= z)) as [Hz|Hz].
  - rewrite digits_no_sign by (by apply format_digits || by apply format_not_empty). rewrite parse_format by done.
    by rewrite (proj2 (Z.ltb_lt _ _)).
  - destruct z as [|p|p]; try lia. rewrite pretty_neg, ParseInt_minus by (by apply format_not_empty).
    rewrite parse_format by done. rewrite (proj2 (Z.leb_le _ _)) by lia. done.
Qed.

(** ** Ranges *)

Lemma parse_digits_nonneg s acc n : 0 <= acc -> parse_digits acc s = Some n -> 0 <= n.
Proof.
  revert acc. induction s as [|c s IH]; intros acc Ha; cbn; [by intros [= <-]|]. destruct (_ && _) eqn:E; [|done].
  apply IH. breflect. lia.
Qed.
Lemma ParseUint_range s n : ParseUint s = Some n -> is_u64 n.
Proof.
  unfold ParseUint, is_u64. destruct s as [|c s]; [done|]. destruct (parse_digits 0 _) as [m|] eqn:E; [|done].
  destruct (m <? 2 ^ 64) eqn:El; [|done]. intros [= <-]. apply parse_digits_nonneg in E; [|done]. breflect. done.
Qed.
Lemma ParseInt_range s n : ParseInt s = Some n -> is_i64 n.
Proof.
  unfold ParseInt. destruct (match s with String "-" r => _ | String "+" r => _ | _ => _ end) as [neg d].
  destruct d as [|c d]; [done|]. destruct (parse_digits 0 _) as [m|] eqn:E; [|done]. apply parse_digits_nonneg in E; [|done].
  unfold is_i64. destruct neg; [destruct (m <=? _) eqn:El|destruct (m <? _) eqn:El]; try done; intros [= <-]; breflect; lia.
Qed.
Lemma take_digits_prefix l d r : take_digits l = (d, r) -> forallb is_digit d = true.
Proof.
  revert d r. induction l as [|b l IH]; cbn; [by intros d r [= <- <-]|]. intros d r. destruct (is_digit b) eqn:Eb; [|by intros [= <- <-]].
  destruct (take_digits l) as [d' r'] eqn:E. intros [= <- <-]. cbn. rewrite Eb. by eapply IH.
Qed.
Lemma digits_nonneg d acc : forallb is_digit d = true -> 0 <= acc -> 0 <= fold_left (fun a b => a * 10 + (b - 48)) d acc.
Proof.
  revert acc. induction d as [|b d IH]; intros acc; cbn; [done|]. intros [Hb Hd]%andb_prop Ha. apply IH; [done|].
  unfold is_digit in Hb. breflect. lia.
Qed.
Lemma Sscanf_uint_range s n : Sscanf_uint s = Some n -> is_u64 n.
Proof.
  unfold Sscanf_uint, scan_uint. destruct (SkipSpace _) as [l|]; [|done]. cbn [mbind option_bind].
  destruct (take_digits l) as [d r] eqn:E. apply take_digits_prefix in E. destruct d as [|b d]; [done|].
  cbv zeta. destruct (_ <? _) eqn:El; [|done]. intros [= <-]. apply Z.ltb_lt in El. split; [by apply digits_nonneg|done].
Qed.

(** ** The texts of a message *)

(** C32. Numbers and states cross the wire unchanged. An amount, a revision or
    a generation the service writes is the one it reads back from that text,
    the enumeration of a state stands for the text of its column and for no
    other state, and whatever a request's text is read as fits the width it is
    kept at: an amount is an [int64], a revision a [uint64] and a generation a
    [uint64] that is not zero. *)
Theorem wire_values_roundtrip :
  (forall m, is_i64 (Amount m) -> moneyOf (Some (money m)) = Ok m) /\
  (forall r, is_u64 r -> revisionOf (format_int r) = Ok r /\ parseGeneration (format_int r) = if r =? 0 then Fail ErrInvalid else Ok r) /\
  (forall s, catalogStateOf (catalogStateTo s) = catalog_text s) /\ (forall s, grantStateOf (grantStateTo s) = grant_text s) /\
  (forall m v, moneyOf m = Ok v -> is_i64 (Amount v)) /\ (forall s r, revisionOf s = Ok r -> is_u64 r) /\
  (forall s g, parseGeneration s = Ok g -> is_u64 g /\ g <> 0).
Proof.
  split_and!; [| | | | | |]; try (by intros []).
  - intros [c a] Ha. cbn in *. by rewrite ParseInt_format.
  - intros r Hr. unfold revisionOf, parseGeneration. rewrite scan_uint_format by done. split; [|done].
    rewrite (proj2 (String.eqb_neq _ _)) by (apply format_not_empty; by destruct Hr). by rewrite ParseUint_format.
  - unfold moneyOf. intros [m|] v; [|done]. destruct (ParseInt _) as [n|] eqn:E; [|done]. intros [= <-]. by apply ParseInt_range in E.
  - unfold revisionOf. intros s r. destruct (String.eqb s ""); [by intros [= <-]|]. destruct (ParseUint s) as [n|] eqn:E; [|done].
    intros [= <-]. by apply ParseUint_range in E.
  - unfold parseGeneration. intros s g. destruct (Sscanf_uint s) as [n|] eqn:E; [|done]. destruct (n =? 0) eqn:E0; [done|].
    intros [= <-]. apply Sscanf_uint_range in E. apply Z.eqb_neq in E0. done.
Qed.

(** A generation is read from the digits in front of its text, and leading
    zeros do not make another revision. *)
Lemma lenient_texts : parseGeneration "7x" = Ok 7 /\ revisionOf "007" = Ok 7 /\ revisionOf "" = Ok 0.
Proof. by vm_compute. Qed.
