(* ===== verification/Rows.v ===== *)
(** * Rows: the tables and the row mapping ([sqlc/models.go], [store.go])

    A table is a finite map from its key to its rows; a nullable column is an
    [option].  Columns the program compares with the constants of one
    enumeration have that enumeration's type, and the JSON columns of a
    descriptor hold the decoded values.  [timestamptz] keeps microseconds. *)

From S2P Require Import Prelude Errors GoStrings GoCrypto GoJson GoNum Task TaskLife Catalog Grant Call Event.

(** ** Rows *)

Record BackgroundRequest := mkBackgroundRequest {
  br_TaskID : string; br_Generation : Z; br_TaskKind : string; br_InputDigest : string; br_Input : string;
  br_State : TaskState; br_WorkerID : option string; br_LeaseUntil : option Time; br_AttemptCount : Z;
  br_ResultRef : option string; br_ResultDigest : option string; br_FailureCode : option string;
  br_CreatedAt : option Time; br_UpdatedAt : option Time; br_TenantID : string; br_Revision : Z;
  br_ResultProfile : string; br_Effects : string; br_DispatchID : option string;
  br_AuthorizationRef : string; br_MaxAttempts : Z; br_RetryAt : option Time; br_CorrelationID : string;
  br_CompletedAt : option Time }.
#[export] Instance BackgroundRequest_eta : Settable BackgroundRequest := fun r =>
  mkBackgroundRequest (br_TaskID r) (br_Generation r) (br_TaskKind r) (br_InputDigest r) (br_Input r)
    (br_State r) (br_WorkerID r) (br_LeaseUntil r) (br_AttemptCount r) (br_ResultRef r) (br_ResultDigest r)
    (br_FailureCode r) (br_CreatedAt r) (br_UpdatedAt r) (br_TenantID r) (br_Revision r)
    (br_ResultProfile r) (br_Effects r) (br_DispatchID r) (br_AuthorizationRef r) (br_MaxAttempts r)
    (br_RetryAt r) (br_CorrelationID r) (br_CompletedAt r).

Record TaskAttempt := mkTaskAttempt {
  ta_TaskID : string; ta_Generation : Z; ta_Ordinal : Z; ta_WorkerID : string; ta_LeasedAt : option Time;
  ta_LeaseUntil : option Time; ta_Outcome : option string; ta_SubmittedAt : option Time }.
#[export] Instance TaskAttempt_eta : Settable TaskAttempt := fun r =>
  mkTaskAttempt (ta_TaskID r) (ta_Generation r) (ta_Ordinal r) (ta_WorkerID r) (ta_LeasedAt r)
    (ta_LeaseUntil r) (ta_Outcome r) (ta_SubmittedAt r).

Record Server := mkServer {
  sv_ServerID : string; sv_TenantID : string; sv_CanonicalResource : string; sv_Transport : string;
  sv_CurrentRevision : Z; sv_CreatedAt : option Time }.
#[export] Instance Server_eta : Settable Server := fun r =>
  mkServer (sv_ServerID r) (sv_TenantID r) (sv_CanonicalResource r) (sv_Transport r) (sv_CurrentRevision r)
    (sv_CreatedAt r).

Record DescriptorRow := mkDescriptorRow {
  dr_ServerID : string; dr_Revision : Z; dr_ProtocolVersion : string; dr_Provenance : string;
  dr_DescriptorDigest : string; dr_Tools : list Tool; dr_State : CatalogState; dr_CommandID : string;
  dr_RequestDigest : string; dr_CreatedAt : option Time; dr_UpdatedAt : option Time; dr_ServerName : string;
  dr_ServerVersion : string; dr_Resources : list LiveNamed; dr_Prompts : list LiveNamed;
  dr_ResourcesDigest : string; dr_PromptsDigest : string; dr_DataClass : string;
  dr_NetworkScope : list string; dr_Licenses : list string; dr_Issuer : string;
  dr_RevisionEvidence : string; dr_ConnectionRef : string; dr_DiscoveredBy : string;
  dr_Reviewer : option string; dr_ReviewID : option string; dr_InputSchemas : gmap string bytes }.
#[export] Instance DescriptorRow_eta : Settable DescriptorRow := fun r =>
  mkDescriptorRow (dr_ServerID r) (dr_Revision r) (dr_ProtocolVersion r) (dr_Provenance r)
    (dr_DescriptorDigest r) (dr_Tools r) (dr_State r) (dr_CommandID r) (dr_RequestDigest r) (dr_CreatedAt r)
    (dr_UpdatedAt r) (dr_ServerName r) (dr_ServerVersion r) (dr_Resources r) (dr_Prompts r)
    (dr_ResourcesDigest r) (dr_PromptsDigest r) (dr_DataClass r) (dr_NetworkScope r) (dr_Licenses r)
    (dr_Issuer r) (dr_RevisionEvidence r) (dr_ConnectionRef r) (dr_DiscoveredBy r) (dr_Reviewer r)
    (dr_ReviewID r) (dr_InputSchemas r).

Record Review := mkReview {
  rw_ReviewID : string; rw_ServerID : string; rw_Revision : Z; rw_DescriptorDigest : string;
  rw_Reviewer : string; rw_Decision : string; rw_ReasonCode : option string; rw_CommandID : string;
  rw_RequestDigest : string; rw_DecidedAt : option Time; rw_TenantID : string }.

Record CatalogCommand := mkCatalogCommand {
  cc_TenantID : string; cc_CommandID : string; cc_CommandKind : string; cc_RequestDigest : string;
  cc_ServerID : string; cc_Revision : Z; cc_CreatedAt : option Time }.

Record GrantRow := mkGrantRow {
  gw_GrantID : string; gw_Revision : Z; gw_TenantID : string; gw_SubjectType : string;
  gw_SubjectID : string; gw_ServerID : string; gw_DescriptorRevision : Z; gw_DescriptorDigest : string;
  gw_Methods : list string; gw_Purpose : string; gw_CostCapCurrency : string; gw_CostCapAmount : Z;
  gw_State : GrantState; gw_ControlReceiptID : option string; gw_ExpiresAt : option Time;
  gw_CommandID : string; gw_RequestDigest : string; gw_CreatedAt : option Time; gw_UpdatedAt : option Time;
  gw_CanonicalResource : string; gw_Transport : string; gw_ProtocolVersion : string; gw_Issuer : string;
  gw_Audience : string; gw_ResourceSelectors : list string; gw_PromptSelectors : list string;
  gw_DataClass : string; gw_PolicyDigest : string; gw_PolicyEpoch : option Z;
  gw_FailureCode : option string; gw_RegistrationCommandID : string; gw_RevocationCommandID : option string;
  gw_FencedAt : option Time; gw_InFlightCalls : Z; gw_UnknownCalls : Z; gw_ControlState : string;
  gw_RevokedAt : option Time }.
#[export] Instance GrantRow_eta : Settable GrantRow := fun r =>
  mkGrantRow (gw_GrantID r) (gw_Revision r) (gw_TenantID r) (gw_SubjectType r) (gw_SubjectID r)
    (gw_ServerID r) (gw_DescriptorRevision r) (gw_DescriptorDigest r) (gw_Methods r) (gw_Purpose r)
    (gw_CostCapCurrency r) (gw_CostCapAmount r) (gw_State r) (gw_ControlReceiptID r) (gw_ExpiresAt r)
    (gw_CommandID r) (gw_RequestDigest r) (gw_CreatedAt r) (gw_UpdatedAt r) (gw_CanonicalResource r)
    (gw_Transport r) (gw_ProtocolVersion r) (gw_Issuer r) (gw_Audience r) (gw_ResourceSelectors r)
    (gw_PromptSelectors r) (gw_DataClass r) (gw_PolicyDigest r) (gw_PolicyEpoch r) (gw_FailureCode r)
    (gw_RegistrationCommandID r) (gw_RevocationCommandID r) (gw_FencedAt r) (gw_InFlightCalls r)
    (gw_UnknownCalls r) (gw_ControlState r) (gw_RevokedAt r).

Record GrantDecision := mkGrantDecision {
  gd_DecisionID : string; gd_GrantID : string; gd_FromRevision : Z; gd_ToRevision : Z; gd_Decision : string;
  gd_Decider : string; gd_ReasonCode : option string; gd_CommandID : string; gd_RequestDigest : string;
  gd_DecidedAt : option Time; gd_TenantID : string }.

Record ToolRequest := mkToolRequest {
  tr_CallID : string; tr_TenantID : string; tr_GrantID : string; tr_GrantRevision : Z; tr_ServerID : string;
  tr_DescriptorRevision : Z; tr_Method : string; tr_ArgumentRef : string; tr_ArgumentDigest : string;
  tr_OperationID : option string; tr_AttemptID : option string; tr_State : CallState;
  tr_ControlDispatchID : option string; tr_ResultRef : option string; tr_ResultDigest : option string;
  tr_FailureCode : option string; tr_CommandID : string; tr_RequestDigest : string;
  tr_Deadline : option Time; tr_CreatedAt : option Time; tr_UpdatedAt : option Time; tr_InstanceID : string;
  tr_ExecutionEpoch : Z; tr_Arguments : string; tr_DescriptorDigest : string; tr_ProtocolVersion : string;
  tr_Transport : string; tr_Route : string; tr_SideEffecting : bool; tr_ExposureCurrency : string;
  tr_ExposureAmount : Z; tr_SendMarkerAt : option Time; tr_ObservedAt : option Time;
  tr_ObservationSequence : Z; tr_UsageUnits : option Z; tr_NativeEvidence : option string;
  tr_Result : option string }.
#[export] Instance ToolRequest_eta : Settable ToolRequest := fun r =>
  mkToolRequest (tr_CallID r) (tr_TenantID r) (tr_GrantID r) (tr_GrantRevision r) (tr_ServerID r)
    (tr_DescriptorRevision r) (tr_Method r) (tr_ArgumentRef r) (tr_ArgumentDigest r) (tr_OperationID r)
    (tr_AttemptID r) (tr_State r) (tr_ControlDispatchID r) (tr_ResultRef r) (tr_ResultDigest r)
    (tr_FailureCode r) (tr_CommandID r) (tr_RequestDigest r) (tr_Deadline r) (tr_CreatedAt r)
    (tr_UpdatedAt r) (tr_InstanceID r) (tr_ExecutionEpoch r) (tr_Arguments r) (tr_DescriptorDigest r)
    (tr_ProtocolVersion r) (tr_Transport r) (tr_Route r) (tr_SideEffecting r) (tr_ExposureCurrency r)
    (tr_ExposureAmount r) (tr_SendMarkerAt r) (tr_ObservedAt r) (tr_ObservationSequence r) (tr_UsageUnits r)
    (tr_NativeEvidence r) (tr_Result r).

Record CatalogRefresh := mkCatalogRefresh {
  rf_TaskID : string; rf_Generation : Z; rf_WorkerID : string; rf_ServerID : string; rf_Revision : Z;
  rf_ReviewedDigest : string; rf_LiveDigest : option string; rf_Drift : bool;
  rf_DriftReason : option string; rf_ResultRef : string; rf_ResultDigest : string;
  rf_RefreshedAt : option Time }.

(** ** The database

    The attempts of a generation are one ordered list; the outbox is the
    sequence of committed envelopes; [db_now] is the transaction time. *)

Record DB := mkDB {
  db_now : Time; db_requests : gmap (string * Z) BackgroundRequest;
  db_attempts : gmap (string * Z) (list TaskAttempt); db_servers : gmap string Server;
  db_descriptors : gmap (string * Z) DescriptorRow; db_reviews : gmap string Review;
  db_commands : gmap (string * string) CatalogCommand; db_grants : gmap string GrantRow;
  db_decisions : gmap string GrantDecision; db_tools : gmap string ToolRequest;
  db_refreshes : gmap (string * Z) CatalogRefresh; db_event_revisions : gmap (string * string) Z;
  db_outbox : list Envelope }.
#[export] Instance DB_eta : Settable DB := fun r =>
  mkDB (db_now r) (db_requests r) (db_attempts r) (db_servers r) (db_descriptors r) (db_reviews r)
    (db_commands r) (db_grants r) (db_decisions r) (db_tools r) (db_refreshes r) (db_event_revisions r)
    (db_outbox r).

(** The empty database at a time. *)
Definition empty_db (now : Time) : DB := mkDB now ∅ ∅ ∅ ∅ ∅ ∅ ∅ ∅ ∅ ∅ ∅ [].

(** ** Parameters of the wider statements *)

Record UpdateRequestParams := mkUpdateRequestParams {
  up_TaskID : string; up_Generation : Z; up_State : TaskState; up_WorkerID : option string;
  up_LeaseUntil : option Time; up_AttemptCount : Z; up_RetryAt : option Time; up_ResultRef : option string;
  up_ResultDigest : option string; up_FailureCode : option string; up_Revision : Z;
  up_CompletedAt : option Time; up_ExpectedRevision : Z }.

Record InsertRequestParams := mkInsertRequestParams {
  ip_TaskID : string; ip_Generation : Z; ip_TenantID : string; ip_TaskKind : string;
  ip_InputDigest : string; ip_Input : string; ip_State : TaskState; ip_MaxAttempts : Z;
  ip_ResultProfile : string; ip_Effects : string; ip_DispatchID : option string;
  ip_AuthorizationRef : string; ip_CorrelationID : string }.

Record UpdateGrantBarrierParams := mkUpdateGrantBarrierParams {
  ub_GrantID : string; ub_State : GrantState; ub_ControlReceiptID : option string;
  ub_PolicyEpoch : option Z; ub_FailureCode : option string; ub_RevocationCommandID : option string;
  ub_FencedAt : option Time; ub_InFlightCalls : Z; ub_UnknownCalls : Z; ub_ControlState : string;
  ub_RevokedAt : option Time; ub_ExpectedState : GrantState }.

Record InsertGrantParams := mkInsertGrantParams {
  ig_GrantID : string; ig_Revision : Z; ig_TenantID : string; ig_SubjectType : string;
  ig_SubjectID : string; ig_ServerID : string; ig_DescriptorRevision : Z; ig_DescriptorDigest : string;
  ig_Methods : list string; ig_Purpose : string; ig_CostCapCurrency : string; ig_CostCapAmount : Z;
  ig_State : GrantState; ig_ExpiresAt : option Time; ig_CommandID : string; ig_RequestDigest : string;
  ig_CanonicalResource : string; ig_Transport : string; ig_ProtocolVersion : string; ig_Issuer : string;
  ig_Audience : string; ig_ResourceSelectors : list string; ig_PromptSelectors : list string;
  ig_DataClass : string; ig_PolicyDigest : string; ig_RegistrationCommandID : string }.

Record InsertDescriptorParams := mkInsertDescriptorParams {
  ds_ServerID : string; ds_Revision : Z; ds_ProtocolVersion : string; ds_Provenance : string;
  ds_DescriptorDigest : string; ds_Tools : list Tool; ds_State : CatalogState; ds_CommandID : string;
  ds_RequestDigest : string; ds_ServerName : string; ds_ServerVersion : string;
  ds_Resources : list LiveNamed; ds_Prompts : list LiveNamed; ds_ResourcesDigest : string;
  ds_PromptsDigest : string; ds_DataClass : string; ds_NetworkScope : list string;
  ds_Licenses : list string; ds_Issuer : string; ds_RevisionEvidence : string; ds_ConnectionRef : string;
  ds_DiscoveredBy : string; ds_InputSchemas : gmap string bytes }.

Record InsertToolRequestParams := mkInsertToolRequestParams {
  it_CallID : string; it_TenantID : string; it_GrantID : string; it_GrantRevision : Z; it_ServerID : string;
  it_DescriptorRevision : Z; it_Method : string; it_ArgumentRef : string; it_ArgumentDigest : string;
  it_OperationID : option string; it_AttemptID : option string; it_CommandID : string;
  it_RequestDigest : string; it_Deadline : option Time; it_InstanceID : string; it_ExecutionEpoch : Z;
  it_Arguments : string; it_DescriptorDigest : string; it_ProtocolVersion : string; it_Transport : string;
  it_Route : string; it_SideEffecting : bool; it_ExposureCurrency : string; it_ExposureAmount : Z }.

Record SetToolRequestOutcomeParams := mkSetToolRequestOutcomeParams {
  so_CallID : string; so_State : CallState; so_FailureCode : option string; so_Result : option string;
  so_ResultDigest : option string; so_ResultRef : option string; so_NativeEvidence : option string;
  so_UsageUnits : option Z; so_Expected : list CallState }.

(** ** Column values *)

Definition str (p : option string) : string := match p with None => "" | Some s => s end.
Definition optStr (s : string) : option string := if String.eqb s "" then None else Some s.
Definition ts (t : option Time) : Time := match t with None => zero_time | Some t => t end.
Definition optTs (t : option Time) : option Time :=
  match t with None => None | Some t => if IsZero t then None else Some t end.
Definition timestamptz (t : option Time) : option Time := option_map us t.

(** ** Row mapping *)

Definition TaskFromRow (r : BackgroundRequest) : Task :=
  mkTask (br_TaskID r) (u64 (br_Generation r)) (br_TenantID r) (br_TaskKind r) (br_InputDigest r) (br_Input r)
    (br_State r) (str (br_WorkerID r)) (ts (br_LeaseUntil r)) (u32 (br_AttemptCount r)) (u32 (br_MaxAttempts r))
    (br_ResultProfile r) (br_Effects r) (str (br_DispatchID r)) (br_AuthorizationRef r) (br_RetryAt r)
    (str (br_ResultRef r)) (str (br_ResultDigest r)) (str (br_FailureCode r)) (u64 (br_Revision r))
    (br_CorrelationID r).

Definition AttemptFromRow (r : TaskAttempt) : Attempt :=
  mkAttempt (u32 (ta_Ordinal r)) (ta_WorkerID r) (ts (ta_LeasedAt r)) (ts (ta_LeaseUntil r)) (str (ta_Outcome r)).

Definition UpdateParams (t : Task) (readRevision : Z) (now : Time) : UpdateRequestParams :=
  let lease := if negb (IsZero (t_LeaseUntil t)) && bool_decide (t_State t = StateLeased)
               then Some (t_LeaseUntil t) else None in
  let completed := if Terminal (t_State t) then Some now else None in
  mkUpdateRequestParams (t_TaskID t) (i64 (t_Generation t)) (t_State t) (optStr (t_WorkerID t)) lease
    (i32 (t_AttemptCount t)) (optTs (t_RetryAt t)) (optStr (t_ResultRef t)) (optStr (t_ResultDigest t))
    (optStr (t_FailureCode t)) (i64 (t_Revision t)) completed (i64 readRevision).

Definition InsertParams (t : Task) : InsertRequestParams :=
  mkInsertRequestParams (t_TaskID t) (i64 (t_Generation t)) (t_TenantID t) (t_Kind t) (t_InputDigest t) (t_Input t)
    (t_State t) (i32 (t_MaxAttempts t)) (t_ResultProfile t) (t_Effects t) (optStr (t_DispatchID t))
    (t_AuthorizationRef t) (t_CorrelationID t).

Definition DescriptorFromRow (r : DescriptorRow) (s : Server) : Descriptor :=
  mkDescriptor (dr_ServerID r) (sv_TenantID s) (u64 (dr_Revision r)) (sv_CanonicalResource s) (sv_Transport s)
    (dr_ProtocolVersion r) (dr_Provenance r) (dr_DescriptorDigest r) (dr_Tools r) (dr_Resources r) (dr_Prompts r)
    (dr_ResourcesDigest r) (dr_PromptsDigest r) (dr_ServerName r) (dr_ServerVersion r) (dr_DataClass r)
    (dr_NetworkScope r) (dr_Licenses r) (dr_InputSchemas r) (dr_Issuer r) (dr_RevisionEvidence r)
    (dr_ConnectionRef r) (dr_State r) (dr_DiscoveredBy r) (str (dr_Reviewer r)) (str (dr_ReviewID r))
    (ts (dr_CreatedAt r)) (ts (dr_UpdatedAt r)).

Definition GrantFromRow (r : GrantRow) : Grant :=
  mkGrant (gw_GrantID r) (u64 (gw_Revision r)) (gw_TenantID r) (gw_SubjectType r) (gw_SubjectID r) (gw_ServerID r)
    (u64 (gw_DescriptorRevision r)) (gw_DescriptorDigest r) (gw_CanonicalResource r) (gw_Transport r)
    (gw_ProtocolVersion r) (gw_Issuer r) (gw_Audience r) (gw_Methods r) (gw_ResourceSelectors r)
    (gw_PromptSelectors r) (gw_Purpose r) (gw_DataClass r) (mkMoney (gw_CostCapCurrency r) (gw_CostCapAmount r))
    (gw_ExpiresAt r) (gw_PolicyDigest r) (match gw_PolicyEpoch r with Some e => u64 e | None => 0 end)
    (gw_State r) (str (gw_ControlReceiptID r)) (str (gw_FailureCode r)) (gw_RegistrationCommandID r)
    (str (gw_RevocationCommandID r)) (gw_FencedAt r) (u64 (gw_InFlightCalls r)) (u64 (gw_UnknownCalls r))
    (gw_ControlState r) (gw_RevokedAt r) (gw_CommandID r) (gw_RequestDigest r) (ts (gw_CreatedAt r))
    (ts (gw_UpdatedAt r)).

Definition BarrierParams (g : Grant) (expected : GrantState) : UpdateGrantBarrierParams :=
  mkUpdateGrantBarrierParams (g_GrantID g) (g_State g) (optStr (g_ControlReceiptID g))
    (if g_PolicyEpoch g =? 0 then None else Some (i64 (g_PolicyEpoch g))) (optStr (g_FailureCode g))
    (optStr (g_RevocationCmdID g)) (optTs (g_FencedAt g)) (i64 (g_InFlightCalls g)) (i64 (g_UnknownCalls g))
    (g_ControlState g) (optTs (g_RevokedAt g)) expected.

Definition CallFromRow (r : ToolRequest) : Call :=
  mkCall (tr_CallID r) (tr_TenantID r) (tr_GrantID r) (u64 (tr_GrantRevision r)) (tr_ServerID r)
    (u64 (tr_DescriptorRevision r)) (tr_DescriptorDigest r) (tr_ProtocolVersion r) (tr_Transport r) (tr_Route r)
    (tr_Method r) (tr_SideEffecting r) (mkMoney (tr_ExposureCurrency r) (tr_ExposureAmount r)) (tr_ArgumentRef r)
    (tr_ArgumentDigest r) (tr_Arguments r) (str (tr_OperationID r)) (str (tr_AttemptID r)) (tr_InstanceID r)
    (u64 (tr_ExecutionEpoch r)) (tr_State r) (str (tr_ControlDispatchID r)) (str (tr_FailureCode r)) (tr_Result r)
    (str (tr_ResultDigest r)) (str (tr_ResultRef r)) (option_map u64 (tr_UsageUnits r)) (tr_SendMarkerAt r)
    (tr_ObservedAt r) (u64 (tr_ObservationSequence r)) (tr_CommandID r) (tr_RequestDigest r) (ts (tr_Deadline r))
    (ts (tr_CreatedAt r)) (ts (tr_UpdatedAt r)).
