(* ===== verification/Retention.v ===== *)
(** * Retention: pruning the delivery tables ([internal/adapters/outbox/retention.go])

    One pass deletes a bounded batch of each table: acknowledged outbox rows,
    old inbox entries and the attempts of terminal requests.  Which of the
    matching rows a batch takes is the database's choice, so a pass is a
    relation; a table is its rows in any order. *)

From S2P Require Import Prelude Errors GoStrings GoCrypto GoJson GoNum Task TaskLife Catalog Grant Call Event Rows.

(** ** The tables *)

(** An outbox row of the forwarder's schema; [created_at] is a wall-clock time
    of the session's zone. *)
Record outbox_row := mkOutboxRow { ob_offset : Z; ob_transaction_id : Z; ob_created_at : Time }.
Record offsets_row := mkOffsetsRow { of_last_processed_transaction_id : Z; of_offset_acked : option Z }.
Record delivery := mkDelivery {
  dl_outbox : list outbox_row; dl_offsets : gmap string offsets_row; dl_inbox : list Time; dl_db : DB }.
#[export] Instance delivery_eta : Settable delivery := fun d => mkDelivery (dl_outbox d) (dl_offsets d) (dl_inbox d) (dl_db d).
Record Bounds := mkBounds {
  bo_ConsumerGroup : string; bo_OutboxBefore : Time; bo_InboxBefore : Time; bo_AttemptsBefore : Time; bo_Batch : nat }.

(** ** The statements *)

Definition acknowledged (f : offsets_row) (o : outbox_row) : bool :=
  (ob_transaction_id o <? of_last_processed_transaction_id f)
  || ((ob_transaction_id o =? of_last_processed_transaction_id f) && (ob_offset o <=? default 0 (of_offset_acked f))).
Section Retain.
  (** [AT TIME ZONE current_setting('TimeZone')] *)
  Context (wall : Time -> Time).
Definition outbox_matches (b : Bounds) (d : delivery) (o : outbox_row) : bool :=
  match dl_offsets d !! bo_ConsumerGroup b with
  | Some f => acknowledged f o && (ob_created_at o <? wall (bo_OutboxBefore b))
  | None => false
  end.
Definition inbox_matches (b : Bounds) (accepted : Time) : bool := accepted <? bo_InboxBefore b.
(** The rows of [task_attempts] with the key of their request. *)
Definition attempt_rows (db : DB) : list ((string * Z) * TaskAttempt) :=
  flat_map (fun kv => map (pair kv.1) kv.2) (map_to_list (db_attempts db)).
Definition terminal_states : list TaskState := [StateAccepted; StateDead; StateStale; StateCanceled].
Definition attempt_matches (b : Bounds) (db : DB) (a : (string * Z) * TaskAttempt) : bool :=
  match db_requests db !! a.1 with
  | Some r => bool_decide (br_State r ∈ terminal_states) && match br_UpdatedAt r with Some u => u <? bo_AttemptsBefore b | None => false end
  | None => false
  end.

(** [DELETE ... WHERE ctid IN (SELECT ... LIMIT n)] over the rows of a table. *)
Record pruned {A} (matches : A -> bool) (batch : nat) (rows rows' : list A) (n : nat) : Prop := {
  pn_split : exists gone, rows ≡ₚ gone ++ rows' /\ Forall (fun a => matches a = true) gone /\ List.length gone = n;
  pn_limit : n = Nat.min batch (List.length (List.filter matches rows)) }.

(** The three statements of a pass, each its own transaction.  The attempts of
    a request that stay keep their order. *)
Inductive table := OutboxTable | InboxTable | AttemptsTable.
Inductive prune (b : Bounds) : table -> delivery -> delivery -> nat -> Prop :=
| prune_outbox d rows n : pruned (outbox_matches b d) (bo_Batch b) (dl_outbox d) rows n ->
    prune b OutboxTable d (d <| dl_outbox := rows |>) n
| prune_inbox d rows n : pruned (inbox_matches b) (bo_Batch b) (dl_inbox d) rows n ->
    prune b InboxTable d (d <| dl_inbox := rows |>) n
| prune_attempts d attempts n :
    (forall k, default [] (attempts !! k) `sublist_of` default [] (db_attempts (dl_db d) !! k)) ->
    pruned (attempt_matches b (dl_db d)) (bo_Batch b) (attempt_rows (dl_db d)) (attempt_rows ((dl_db d) <| db_attempts := attempts |>)) n ->
    prune b AttemptsTable d (d <| dl_db := (dl_db d) <| db_attempts := attempts |> |>) n.
(** [Retain]: the statements in order up to the first that fails, and the
    counts of those that ran. *)
Inductive retain (b : Bounds) : list table -> delivery -> delivery -> list (table * nat) -> Prop :=
| retain_done d : retain b [] d d []
| retain_failed t ts d : retain b (t :: ts) d d []
| retain_next t ts d d1 d2 n counts : prune b t d d1 n -> retain b ts d1 d2 counts -> retain b (t :: ts) d d2 ((t, n) :: counts).
Definition Retain (b : Bounds) := retain b [OutboxTable; InboxTable; AttemptsTable].

(** ** What a pass leaves *)

Lemma filter_matching {A} (m : A -> bool) l : Forall (fun a => m a = true) l ->
  List.filter m l = l /\ List.filter (fun a => negb (m a)) l = [].
Proof. induction 1 as [|a l Ha _ [E1 E2]]; [done|]. cbn. rewrite Ha, E1, E2. done. Qed.
Lemma filter_perm {A} (m : A -> bool) l l' : l ≡ₚ l' -> List.filter m l ≡ₚ List.filter m l'.
Proof.
  induction 1 as [|x l l' _ IH|x y l|l l1 l2 _ IH1 _ IH2]; cbn; [done| | |by etransitivity].
  - destruct (m x); [by constructor|done].
  - destruct (m x), (m y); try done. constructor.
Qed.

(** Rows that do not match stay, and of those that match a batch goes. *)
Record spared {A} (matches : A -> bool) (batch : nat) (rows rows' : list A) (n : nat) : Prop := {
  sp_rest : List.filter (fun a => negb (matches a)) rows ≡ₚ List.filter (fun a => negb (matches a)) rows';
  sp_none_new : forall a, a ∈ rows' -> a ∈ rows;
  sp_count : (n <= batch)%nat;
  sp_left : List.length (List.filter matches rows') = (List.length (List.filter matches rows) - batch)%nat }.
Lemma pruned_spared {A} (m : A -> bool) batch rows rows' n : pruned m batch rows rows' n -> spared m batch rows rows' n.
Proof.
  intros [(gone & Hp & Hg & Hn) Hl]. destruct (filter_matching m gone Hg) as [E1 E2]. split.
  - rewrite (filter_perm _ _ _ Hp), List.filter_app, E2. done.
  - intros a Ha. rewrite Hp. apply elem_of_app. by right.
  - lia.
  - pose proof (Permutation_length (filter_perm m _ _ Hp)) as H. rewrite List.filter_app, length_app, E1 in H. lia.
Qed.

(** What a pass does not touch at all. *)
Definition rest_of (d : delivery) := (dl_offsets d, (dl_db d) <| db_attempts := ∅ |>).
(** The rows of a table that a pass must leave. *)
Definition kept (b : Bounds) (d d' : delivery) : Prop :=
  (List.filter (fun o => negb (outbox_matches b d o)) (dl_outbox d) ≡ₚ List.filter (fun o => negb (outbox_matches b d' o)) (dl_outbox d')) /\
  (List.filter (fun o => negb (inbox_matches b o)) (dl_inbox d) ≡ₚ List.filter (fun o => negb (inbox_matches b o)) (dl_inbox d')) /\
  (List.filter (fun a => negb (attempt_matches b (dl_db d) a)) (attempt_rows (dl_db d)) ≡ₚ
   List.filter (fun a => negb (attempt_matches b (dl_db d') a)) (attempt_rows (dl_db d'))).
(** The rows of a table still to be pruned. *)
Definition left_over (b : Bounds) (t : table) (d : delivery) : nat :=
  match t with
  | OutboxTable => List.length (List.filter (outbox_matches b d) (dl_outbox d))
  | InboxTable => List.length (List.filter (inbox_matches b) (dl_inbox d))
  | AttemptsTable => List.length (List.filter (attempt_matches b (dl_db d)) (attempt_rows (dl_db d)))
  end.
#[export] Instance table_eq_dec : EqDecision table.
Proof. solve_decision. Defined.

Lemma prune_spec b t d d' n : prune b t d d' n ->
  rest_of d' = rest_of d /\ kept b d d' /\ (n <= bo_Batch b)%nat /\ left_over b t d' = (left_over b t d - bo_Batch b)%nat /\
  forall t', t' <> t -> left_over b t' d' = left_over b t' d.
Proof.
  intros H. destruct H as [d rows n H|d rows n H|d attempts n _ H]; apply pruned_spared in H as [H1 _ H3 H4]; destruct d as [ob offs ib dbs].
  - split_and!; [done|by split_and!|done|exact H4|]. by intros [].
  - split_and!; [done|by split_and!|done|exact H4|]. by intros [].
  - split_and!; [done| |done|exact H4|]. { split_and!; [done..|]. exact H1. } by intros [].
Qed.

Lemma retain_spec b d d' counts : Retain b d d' counts ->
  rest_of d' = rest_of d /\ kept b d d' /\
  (forall t n, (t, n) ∈ counts -> (n <= bo_Batch b)%nat /\ left_over b t d' = (left_over b t d - bo_Batch b)%nat) /\
  (forall t, t ∉ counts.*1 -> left_over b t d' = left_over b t d).
Proof.
  unfold Retain. assert (Hnd : NoDup [OutboxTable; InboxTable; AttemptsTable]) by (repeat constructor; set_solver).
  revert Hnd. generalize [OutboxTable; InboxTable; AttemptsTable] as ts. intros ts Hnd H.
  assert (counts.*1 ⊆ ts) as Hsub.
  { clear Hnd. induction H as [| |t ts d d1 d2 n counts _ _ IH]; cbn; [set_solver..|]. set_solver. }
  revert Hnd Hsub. induction H as [d|t ts d|t ts d d1 d2 n counts Hp Hr IH]; intros Hnd Hsub.
  - split_and!; [done|by split_and!|by intros ? ? ?%elem_of_nil|done].
  - split_and!; [done|by split_and!|by intros ? ? ?%elem_of_nil|done].
  - apply prune_spec in Hp as (E1 & K1 & N1 & L1 & O1). apply NoDup_cons in Hnd as [Hni Hnd].
    assert (counts.*1 ⊆ ts) as Hsub'.
    { clear -Hr. induction Hr as [| |t ts d d1 d2 n counts _ _ IH]; cbn; [set_solver..|]. set_solver. }
    destruct (IH Hnd Hsub') as (E2 & K2 & C2 & O2). split_and!.
    + congruence.
    + destruct K1 as (A1 & A2 & A3), K2 as (B1 & B2 & B3). split_and!; (etransitivity; [eassumption|done]).
    + intros t' n' [Hx|Hin]%elem_of_cons.
      * injection Hx as -> ->. split; [done|]. rewrite O2, L1; [done|]. intros Hx. by apply Hni, Hsub'.
      * destruct (C2 _ _ Hin) as [? ->]. split; [done|]. rewrite O1; [done|]. intros ->. apply Hni, Hsub'.
        apply list_elem_of_fmap. by exists (t, n').
    + intros t' [Hne Hin]%not_elem_of_cons. by rewrite O2, O1.
Qed.

(** Of a table whose kept rows stay, what is gone matched. *)
Lemma gone_matched {A} (m m' : A -> bool) rows rows' a :
  List.filter (fun a => negb (m a)) rows ≡ₚ List.filter (fun a => negb (m' a)) rows' -> a ∈ rows -> a ∉ rows' -> m a = true.
Proof.
  intros Hp Ha Hn. destruct (m a) eqn:E; [done|]. exfalso. apply Hn.
  assert (a ∈ List.filter (fun a => negb (m' a)) rows') as Hin.
  { rewrite <- Hp, list_elem_of_In. apply filter_In. split; [by apply list_elem_of_In|by rewrite E]. }
  apply list_elem_of_In, filter_In in Hin as [Hin _]. by apply list_elem_of_In.
Qed.
(** A row the consumer group has acknowledged: at or before its position. *)
Definition consumed (f : offsets_row) (o : outbox_row) : Prop :=
  ob_transaction_id o < of_last_processed_transaction_id f \/
  ob_transaction_id o = of_last_processed_transaction_id f /\ ob_offset o <= default 0 (of_offset_acked f).
Lemma outbox_gone b d o : outbox_matches b d o = true ->
  exists f, dl_offsets d !! bo_ConsumerGroup b = Some f /\ consumed f o /\ ob_created_at o < wall (bo_OutboxBefore b).
Proof.
  unfold outbox_matches, acknowledged, consumed. destruct (_ !! _) as [f|]; [|done]. intros H. exists f. split; [done|]. lia.
Qed.
Lemma attempt_gone b db a : attempt_matches b db a = true ->
  exists r u, db_requests db !! a.1 = Some r /\ Terminal (br_State r) = true /\ br_UpdatedAt r = Some u /\ u < bo_AttemptsBefore b.
Proof.
  unfold attempt_matches. destruct (_ !! _) as [r|]; [|done]. intros [Hs Hu]%andb_true_iff. breflect.
  destruct (br_UpdatedAt r) as [u|] eqn:Eu; [|done]. exists r, u. split_and!; [done| |done|lia].
  unfold terminal_states in Hs. rewrite !elem_of_cons, elem_of_nil in Hs. by destruct Hs as [->|[->|[->|[->|[]]]]].
Qed.

(** The attempts of one request among all. *)
Lemma attempt_rows_of db k : List.filter (fun a => bool_decide (a.1 = k)) (attempt_rows db) ≡ₚ map (pair k) (default [] (db_attempts db !! k)).
Proof.
  assert (forall k' l, List.filter (fun a => bool_decide (a.1 = k)) (map (pair k') l) = (if bool_decide (k' = k) then map (pair k') l else []) :> list ((string * Z) * TaskAttempt)) as Hm.
  { intros k' l. induction l as [|a l IH]; cbn; [by case_bool_decide|]. rewrite IH. by case_bool_decide. }
  assert (forall m : gmap (string * Z) (list TaskAttempt), m !! k = None ->
    List.filter (fun a => bool_decide (a.1 = k)) (flat_map (fun kv => map (pair kv.1) kv.2) (map_to_list m)) = []) as Hnone.
  { intros m Hk. assert (forall kv, kv ∈ map_to_list m -> kv.1 <> k) as Hne.
    { intros [k' l] Hin ->%eq_sym. apply elem_of_map_to_list in Hin. cbn in Hk. congruence. }
    induction (map_to_list m) as [|kv l IH]; [done|]. cbn. rewrite List.filter_app, Hm, bool_decide_eq_false_2 by (apply Hne; by left).
    apply IH. intros x Hx. apply Hne. by right. }
  unfold attempt_rows. destruct (db_attempts db !! k) as [l|] eqn:E; [|by rewrite Hnone].
  rewrite <- (insert_delete_id _ _ _ E).
  rewrite (filter_perm _ _ _ (Permutation_flat_map _ (map_to_list_insert (delete k (db_attempts db)) k l (lookup_delete_eq _ _)))).
  cbn. rewrite List.filter_app, Hm, bool_decide_eq_true_2 by done. rewrite (Hnone (delete k (db_attempts db))) by apply lookup_delete_eq. by rewrite app_nil_r.
Qed.
Lemma sublist_same {A} (l l' : list A) : l `sublist_of` l' -> List.length l = List.length l' -> l = l'.
Proof.
  induction 1 as [|x l l' _ IH|x l l' Hs IH]; cbn; [done| |]; intros E; [f_equal; auto|]. apply sublist_length in Hs. lia.
Qed.
(** Attempts go from terminal requests only, and the rest keep their order. *)
Lemma prune_attempts_spec b d d' n : prune b AttemptsTable d d' n ->
  db_requests (dl_db d') = db_requests (dl_db d) /\
  forall k, default [] (db_attempts (dl_db d') !! k) `sublist_of` default [] (db_attempts (dl_db d) !! k) /\
    ((forall r, db_requests (dl_db d) !! k = Some r -> Terminal (br_State r) = false) ->
     default [] (db_attempts (dl_db d') !! k) = default [] (db_attempts (dl_db d) !! k)).
Proof.
  intros H. inversion H as [| |d0 attempts n0 Hsub [(gone & Hp & Hg & _) _]]; subst. split; [done|]. intros k. split; [apply Hsub|].
  intros Hlive. apply sublist_same; [apply Hsub|].
  apply (filter_perm (fun a => bool_decide (a.1 = k))), Permutation_length in Hp. rewrite List.filter_app, length_app in Hp.
  rewrite !(Permutation_length (attempt_rows_of _ k)), !length_map in Hp.
  assert (List.filter (fun a => bool_decide (a.1 = k)) gone = []) as E; [|rewrite E in Hp; cbn in *; lia].
  clear Hp. induction Hg as [|a gone Ha _ IH]; [done|]. cbn. destruct (bool_decide_reflect (a.1 = k)) as [<-|]; [exfalso|exact IH].
  destruct (attempt_gone b (dl_db d) a Ha) as (r & u & Hr & Ht & _). by rewrite (Hlive r Hr) in Ht.
Qed.

(** C40. Retention prunes only what is done. Whichever matching rows the
    database picks and whichever statement of a pass fails: an outbox row that
    is gone was at or before the position the consumer group acknowledged and
    older than its bound, an inbox entry that is gone was older than its bound,
    and an attempt that is gone belonged to a request in a terminal state, last
    changed before its bound; every other row of these tables stays with its
    multiplicity, and every other table is untouched. A table's statement
    deletes at most a batch, and after it exactly a batch fewer matching rows
    are left, so repeated passes end with none. *)
Theorem retention_prunes_what_is_done b d d' counts : Retain b d d' counts ->
  (forall o, o ∈ dl_outbox d -> o ∉ dl_outbox d' ->
     exists f, dl_offsets d !! bo_ConsumerGroup b = Some f /\ consumed f o /\ ob_created_at o < wall (bo_OutboxBefore b)) /\
  (forall t, t ∈ dl_inbox d -> t ∉ dl_inbox d' -> t < bo_InboxBefore b) /\
  (forall a, a ∈ attempt_rows (dl_db d) -> a ∉ attempt_rows (dl_db d') ->
     exists r u, db_requests (dl_db d) !! a.1 = Some r /\ Terminal (br_State r) = true /\ br_UpdatedAt r = Some u /\ u < bo_AttemptsBefore b) /\
  rest_of d' = rest_of d /\ kept b d d' /\
  (forall t n, (t, n) ∈ counts -> (n <= bo_Batch b)%nat /\ left_over b t d' = (left_over b t d - bo_Batch b)%nat) /\
  (forall t, t ∉ counts.*1 -> left_over b t d' = left_over b t d).
Proof.
  intros H%retain_spec. pose proof H as (_ & (K1 & K2 & K3) & _). split_and!; [..|apply H|apply H|apply H|apply H].
  - intros o Hin Hn. apply outbox_gone. by eapply gone_matched.
  - intros t Hin Hn. assert (inbox_matches b t = true) as Hm by by eapply gone_matched. unfold inbox_matches in Hm. lia.
  - intros a Hin Hn. apply attempt_gone. by eapply gone_matched.
Qed.
End Retain.

(** Three delivered rows of which two are acknowledged, and a batch of one. *)
Definition pass_bounds : Bounds := mkBounds "forwarder" 100 100 100 1.
Definition before_pass : delivery :=
  mkDelivery [mkOutboxRow 1 7 10; mkOutboxRow 2 7 20; mkOutboxRow 3 7 30] {["forwarder" := mkOffsetsRow 7 (Some 2)]} [] (empty_db 0).
Definition after_pass : delivery := before_pass <| dl_outbox := [mkOutboxRow 2 7 20; mkOutboxRow 3 7 30] |>.
Lemma retention_prunes_what_is_done_witness :
  Retain id pass_bounds before_pass after_pass [(OutboxTable, 1%nat); (InboxTable, 0%nat)] /\
  left_over id pass_bounds OutboxTable after_pass = 1%nat /\ kept id pass_bounds before_pass after_pass.
Proof.
  assert (H : Retain id pass_bounds before_pass after_pass [(OutboxTable, 1%nat); (InboxTable, 0%nat)]).
  { apply (retain_next id _ _ _ _ after_pass); [|apply (retain_next id _ _ _ _ after_pass); [|apply retain_failed]].
    - apply prune_outbox. split; [|reflexivity]. exists [mkOutboxRow 1 7 10]. split; [reflexivity|]. split; [|reflexivity]. by repeat constructor.
    - apply (prune_inbox id pass_bounds after_pass []). split; [|reflexivity]. exists []. split; [reflexivity|]. split; [constructor|reflexivity]. }
  destruct (retention_prunes_what_is_done id _ _ _ _ H) as (_ & _ & _ & _ & Hk & Hc & _).
  split; [exact H|]. split; [|exact Hk]. exact (proj2 (Hc OutboxTable 1%nat (list_elem_of_here _ _))).
Defined.
