(* ===== verification/Sql.v ===== *)
(** * Sql: transactions and statements ([store.go], [sqlc/*.sql.go])

    A transaction is a function of the database that fails without a trace
    ([InTx] rolls back) or returns the database it commits.  Each statement is
    its SQL text read on the tables; a [:one] query returns the row it finds,
    if any ([pgx.ErrNoRows] otherwise), an [:execrows] update the number of
    rows.  The schema is migrated by another repository: a table's key is the
    one its queries select by, and an insert that finds its key taken fails
    with [ErrDuplicateKey] (the unique violation [InTx] reports); columns an
    insert leaves out are null, zero or the transaction time. *)

From S2P Require Import Prelude Errors GoStrings GoCrypto GoJson GoNum Task TaskLife Catalog Grant Call Event Rows.

(** ** Transactions *)

Definition tx (A : Type) : Type := DB -> res (A * DB).
#[export] Instance tx_ret : MRet tx := fun A a db => Ok (a, db).
#[export] Instance tx_bind : MBind tx := fun A B k m db =>
  match m db with Ok (a, db') => k a db' | Err e => Err e end.

Definition tx_fail {A} (e : error) : tx A := fun _ => Err e.
Abbreviation TxFail s := (tx_fail (errorf s)).
(** A pure decision inside a transaction. *)
Definition lift {A} (r : res A) : tx A := fun db => match r with Ok a => Ok (a, db) | Err e => Err e end.
Definition gets {A} (f : DB -> A) : tx A := fun db => Ok (f db, db).
Definition modify (f : DB -> DB) : tx unit := fun db => Ok (tt, f db).
(** A failing call whose error the caller handles. *)
Definition unwrap {A} (none : error) (m : tx (option A)) : tx A :=
  x ← m; match x with Some a => mret a | None => tx_fail none end.

(** [InTx]: commit or roll back. *)
Definition InTx {A} (m : tx A) (db : DB) : res A * DB :=
  match m db with Ok (a, db') => (Ok a, db') | Err e => (Err e, db) end.

(** The text of a [jsonb] value: [None] for a text that is not JSON. *)
Class Jsonb := jsonb_text : string -> option string.

(** The canonical text is its own canonical text. *)
Class JsonbLaws `{Jsonb} := jsonb_canonical : forall s c, jsonb_text s = Some c -> jsonb_text c = Some c.

Definition db_stamp (db : DB) : option Time := Some (us (db_now db)).

(** The first of the rows a query selects, in an order of its own. *)
Definition rows_of {K V} `{Countable K} (m : gmap K V) : list V := map snd (map_to_list m).

(** ** background.sql *)

Section Background.
  Context `{Jsonb}.

Definition GetRequest (taskID : string) (generation : Z) : tx (option BackgroundRequest) :=
  gets (fun db => db_requests db !! (taskID, generation)).
Definition GetRequestForUpdate := GetRequest.

Definition newest (rows : list BackgroundRequest) : option BackgroundRequest :=
  fold_right (fun r best => match best with
                            | Some b => if br_Generation b <? br_Generation r then Some r else Some b
                            | None => Some r
                            end) None rows.
Definition GetLatestRequest (taskID : string) : tx (option BackgroundRequest) :=
  gets (fun db => newest (List.filter (fun r => String.eqb (br_TaskID r) taskID) (rows_of (db_requests db)))).
Definition GetLatestRequestForUpdate := GetLatestRequest.

Definition InsertRequest (p : InsertRequestParams) : tx unit := fun db =>
  match db_requests db !! (ip_TaskID p, ip_Generation p), jsonb_text (ip_Input p) with
  | Some _, _ => Fail ErrDuplicateKey
  | None, None => Fail ErrOther
  | None, Some input =>
      let row := mkBackgroundRequest (ip_TaskID p) (ip_Generation p) (ip_TaskKind p) (ip_InputDigest p) input
                   (ip_State p) None None 0 None None None (db_stamp db) (db_stamp db) (ip_TenantID p) 1
                   (ip_ResultProfile p) (ip_Effects p) (ip_DispatchID p) (ip_AuthorizationRef p) (ip_MaxAttempts p)
                   None (ip_CorrelationID p) None in
      Ok (tt, db <| db_requests := <[(ip_TaskID p, ip_Generation p) := row]> (db_requests db) |>)
  end.

(** The row an update writes. *)
Definition updated_row (r : BackgroundRequest) (p : UpdateRequestParams) (stamp : option Time) : BackgroundRequest :=
  r <| br_State := up_State p |> <| br_WorkerID := up_WorkerID p |> <| br_LeaseUntil := timestamptz (up_LeaseUntil p) |>
    <| br_AttemptCount := up_AttemptCount p |> <| br_RetryAt := timestamptz (up_RetryAt p) |>
    <| br_ResultRef := up_ResultRef p |> <| br_ResultDigest := up_ResultDigest p |>
    <| br_FailureCode := up_FailureCode p |> <| br_Revision := up_Revision p |>
    <| br_CompletedAt := timestamptz (up_CompletedAt p) |> <| br_UpdatedAt := stamp |>.

Definition UpdateRequest (p : UpdateRequestParams) : tx Z := fun db =>
  match db_requests db !! (up_TaskID p, up_Generation p) with
  | Some r =>
      if br_Revision r =? up_ExpectedRevision p
      then Ok (1, db <| db_requests := <[(up_TaskID p, up_Generation p) := updated_row r p (db_stamp db)]> (db_requests db) |>)
      else Ok (0, db)
  | None => Ok (0, db)
  end.

Definition attempts_of (db : DB) (taskID : string) (generation : Z) : list TaskAttempt :=
  default [] (db_attempts db !! (taskID, generation)).
Definition ListAttempts (taskID : string) (generation : Z) : tx (list TaskAttempt) :=
  gets (fun db => attempts_of db taskID generation).

Definition InsertAttempt (taskID : string) (generation ordinal : Z) (workerID : string) (leasedAt leaseUntil : Time)
    : tx unit := fun db =>
  let l := attempts_of db taskID generation in
  if existsb (fun a => ta_Ordinal a =? ordinal) l then Fail ErrDuplicateKey
  else
    let row := mkTaskAttempt taskID generation ordinal workerID (Some (us leasedAt)) (Some (us leaseUntil)) None None in
    Ok (tt, db <| db_attempts := <[(taskID, generation) :=
                    insert_sorted (fun a b => ta_Ordinal a <=? ta_Ordinal b) row l]> (db_attempts db) |>).

Definition SetAttemptOutcome (taskID : string) (generation ordinal : Z) (outcome : option string) (submittedAt : Time)
    : tx unit :=
  modify (fun db => db <| db_attempts := alter (map (fun a =>
    if ta_Ordinal a =? ordinal then a <| ta_Outcome := outcome |> <| ta_SubmittedAt := Some (us submittedAt) |> else a))
    (taskID, generation) (db_attempts db) |>).

Definition ListExpiredLeases (leaseUntil : Time) (limit : nat) : tx (list (string * Z)) :=
  gets (fun db =>
    map (fun r => (br_TaskID r, br_Generation r))
      (firstn limit (sort_by (fun a b => ts (br_LeaseUntil a) <=? ts (br_LeaseUntil b))
        (List.filter (fun r => bool_decide (br_State r = StateLeased) &&
           match br_LeaseUntil r with Some l => l <? us leaseUntil | None => false end) (rows_of (db_requests db)))))).

Definition CanonicalJSON (input : string) : tx (option string) := gets (fun _ => jsonb_text input).

(** [GetGrantState]: tenant, state, expiry and receipt. *)
Definition GetGrantState (grantID : string) : tx (option (string * GrantState * option Time * option string)) :=
  gets (fun db => option_map (fun g => (gw_TenantID g, gw_State g, gw_ExpiresAt g, gw_ControlReceiptID g))
                    (db_grants db !! grantID)).
End Background.

(** [GrantAuthorization] (store.go): a reference [grant:<id>] is current while
    the grant is the tenant's, active, receipted and unexpired. *)
Definition GrantAuthorization (ref tenantID : string) (now : Time) : tx AuthorizationState :=
  if (len ref <=? len "grant:") || negb (HasPrefix ref "grant:") then TxFail ErrInvalid
  else
    grant ← GetGrantState (drop_bytes (String.length "grant:") ref);
    match grant with
    | None => mret AuthorizationRevoked
    | Some (tenant, state, expires, receipt) =>
        if String.eqb tenant tenantID && bool_decide (state = GrantActive) && negb (bool_decide (receipt = None))
           && match expires with None => true | Some e => Before now e end
        then mret AuthorizationCurrent else mret AuthorizationRevoked
    end.

(** [outbox.Publish]: the envelope joins the outbox of the same transaction. *)
Definition Publish (env : Envelope) : tx unit := modify (fun db => db <| db_outbox := db_outbox db ++ [env] |>).

(** ** Reasoning about transactions *)

Lemma tx_bind_Ok {A B} (m : tx A) (k : A -> tx B) db b db' :
  (m ≫= k) db = Ok (b, db') <-> exists a db1, m db = Ok (a, db1) /\ k a db1 = Ok (b, db').
Proof.
  unfold mbind, tx_bind. destruct (m db) as [[a db1]|e]; split.
  - eauto.
  - by intros (? & ? & [= <- <-] & ?).
  - done.
  - by intros (? & ? & ? & ?).
Qed.
Lemma tx_bind_Err {A B} (m : tx A) (k : A -> tx B) db e :
  (m ≫= k) db = Err e <-> m db = Err e \/ exists a db1, m db = Ok (a, db1) /\ k a db1 = Err e.
Proof. unfold mbind, tx_bind. destruct (m db) as [[a db1]|e']; naive_solver. Qed.
Lemma lift_Ok {A} (r : res A) db a db' : lift r db = Ok (a, db') <-> r = Ok a /\ db' = db.
Proof. unfold lift. destruct r; split; [intros [= -> ->]; done|intros [[= ->] ->]; done|done|intros [? ?]; done]. Qed.
Lemma gets_Ok {A} (f : DB -> A) db a db' : gets f db = Ok (a, db') <-> a = f db /\ db' = db.
Proof. unfold gets. split; [by intros [= <- <-]|by intros [-> ->]]. Qed.
Lemma modify_Ok f db u db' : modify f db = Ok (u, db') <-> db' = f db.
Proof. unfold modify. destruct u. split; [by intros [= <-]|by intros ->]. Qed.
Lemma mret_Ok {A} (a : A) db b db' : (mret a : tx A) db = Ok (b, db') <-> b = a /\ db' = db.
Proof. unfold mret, tx_ret. split; [by intros [= <- <-]|by intros [-> ->]]. Qed.
Lemma unwrap_Ok {A} e (m : tx (option A)) db a db' :
  unwrap e m db = Ok (a, db') <-> m db = Ok (Some a, db').
Proof.
  unfold unwrap. rewrite tx_bind_Ok. split.
  - intros (o & db1 & H & H2). destruct o; [|done]. apply mret_Ok in H2 as [-> ->]. done.
  - intros H. exists (Some a), db'. split; [done|]. by apply mret_Ok.
Qed.
Lemma unwrap_gets_Err {A} e (f : DB -> option A) db e' : unwrap e (gets f) db = Err e' -> e' = e.
Proof. unfold unwrap, gets, mbind, tx_bind. destruct (f db); by intros [= <-]. Qed.
Lemma tx_fail_Ok {A} e db (a : A) db' : tx_fail e db = Ok (a, db') <-> False.
Proof. done. Qed.

#[global] Arguments tx_fail : simpl never.
#[global] Arguments lift : simpl never.
#[global] Arguments gets : simpl never.
#[global] Arguments modify : simpl never.
#[global] Arguments unwrap : simpl never.

(** Take a transaction that committed apart, one statement at a time. *)
Ltac tx_step H :=
  lazymatch type of H with
  | (mbind _ _) _ = Ok _ =>
      let a := fresh "a" in let db := fresh "db" in let E := fresh "T" in
      apply tx_bind_Ok in H as (a & db & E & H); tx_step E
  | lift _ _ = Ok _ => let E := fresh "L" in apply lift_Ok in H as [E ->]
  | gets _ _ = Ok _ => apply gets_Ok in H as [-> ->]
  | modify _ _ = Ok _ => apply modify_Ok in H as ->
  | mret _ _ = Ok _ => apply mret_Ok in H as [-> ->]
  | tx_fail _ _ = Ok _ => by apply tx_fail_Ok in H
  | unwrap _ _ _ = Ok _ => apply unwrap_Ok in H; tx_step H
  | _ => idtac
  end.
Ltac tx_inv H := repeat (progress (tx_step H)).
