(* ===== verification/SqlCalls.v ===== *)
(** * SqlCalls: the statements of the guarded calls ([sqlc/calls.sql.go])

    The primary key of a tool request is its call id, and a tenant's command
    id is unique.  An age is a [Duration] here ([make_interval] takes its
    seconds) and the order of call ids is the order of their bytes. *)

From S2P Require Import Prelude Errors GoStrings GoCrypto GoJson GoNum Task TaskLife Catalog Grant Call Event Rows Sql.

(** ** Reads *)

Definition GetToolRequest (callID : string) : tx (option ToolRequest) := gets (fun db => db_tools db !! callID).

Definition by_command (tenantID commandID : string) (r : ToolRequest) : bool :=
  String.eqb (tr_TenantID r) tenantID && String.eqb (tr_CommandID r) commandID.
Definition GetToolRequestByCommand (tenantID commandID : string) : tx (option ToolRequest) :=
  gets (fun db => List.find (by_command tenantID commandID) (rows_of (db_tools db))).

Definition HasUnknownToolRequest (tenantID serverID : string) : tx bool :=
  gets (fun db => existsb (fun r => String.eqb (tr_TenantID r) tenantID && String.eqb (tr_ServerID r) serverID &&
                                    bool_decide (tr_State r = CallUnknown)) (rows_of (db_tools db))).

Definition GetGrant (grantID : string) : tx (option GrantRow) := gets (fun db => db_grants db !! grantID).
Definition GetGrantForShare := GetGrant.
Definition GetGrantForUpdate := GetGrant.
Definition GetDescriptor (serverID : string) (revision : Z) : tx (option DescriptorRow) :=
  gets (fun db => db_descriptors db !! (serverID, revision)).
Definition GetDescriptorForUpdate := GetDescriptor.
Definition GetServer (serverID : string) : tx (option Server) := gets (fun db => db_servers db !! serverID).

(** [now() - make_interval(secs => age)] against a column. *)
Definition older_than (db : DB) (t : option Time) (age : Duration) : bool :=
  match t with Some t => t <? us (db_now db) - us age | None => false end.

Record ListOpenToolRequestsParams := mkListOpenToolRequestsParams {
  lo_Limit : Z; lo_AgeSeconds : Duration; lo_SentAgeSeconds : Duration; lo_AfterAt : option Time; lo_AfterID : string }.

(** [(updated_at, call_id)] as a key, compared in order. *)
Definition cursor_le (a b : Time * string) : bool := (a.1 <? b.1) || ((a.1 =? b.1) && String.leb a.2 b.2).
Definition cursor_lt (a b : Time * string) : bool := negb (cursor_le b a).
Definition row_cursor (r : ToolRequest) : Time * string := (ts (tr_UpdatedAt r), tr_CallID r).

Definition open_row (db : DB) (age sentAge : Duration) (r : ToolRequest) : bool :=
  (match tr_State r with
   | CallAccepted | CallAdmitted | CallUnknown => true
   | CallSucceeded | CallFailed | CallCanceled =>
       bool_decide (tr_ObservedAt r = None) && negb (bool_decide (tr_ControlDispatchID r = None))
   | _ => false
   end && older_than db (tr_UpdatedAt r) age)
  || (bool_decide (tr_State r = CallSent) && older_than db (tr_SendMarkerAt r) sentAge).

Definition ListOpenToolRequests (p : ListOpenToolRequestsParams) : tx (list ToolRequest) :=
  gets (fun db =>
    firstn (Z.to_nat (lo_Limit p)) (sort_by (fun a b => cursor_le (row_cursor a) (row_cursor b))
      (List.filter (fun r => open_row db (lo_AgeSeconds p) (lo_SentAgeSeconds p) r &&
                             cursor_lt (ts (lo_AfterAt p), lo_AfterID p) (row_cursor r)) (rows_of (db_tools db))))).

(** ** Writes *)

(** The row [InsertToolRequest] writes. *)
Definition inserted_tool (p : InsertToolRequestParams) (stamp : option Time) : ToolRequest :=
  mkToolRequest (it_CallID p) (it_TenantID p) (it_GrantID p) (it_GrantRevision p) (it_ServerID p)
    (it_DescriptorRevision p) (it_Method p) (it_ArgumentRef p) (it_ArgumentDigest p) (it_OperationID p)
    (it_AttemptID p) CallAccepted None None None None (it_CommandID p) (it_RequestDigest p)
    (timestamptz (it_Deadline p)) stamp stamp (it_InstanceID p) (it_ExecutionEpoch p) (it_Arguments p)
    (it_DescriptorDigest p) (it_ProtocolVersion p) (it_Transport p) (it_Route p) (it_SideEffecting p)
    (it_ExposureCurrency p) (it_ExposureAmount p) None None 0 None None None.
Definition InsertToolRequest (p : InsertToolRequestParams) : tx unit := fun db =>
  if bool_decide (is_Some (db_tools db !! it_CallID p))
     || existsb (by_command (it_TenantID p) (it_CommandID p)) (rows_of (db_tools db))
  then Fail ErrDuplicateKey
  else Ok (tt, db <| db_tools := <[it_CallID p := inserted_tool p (db_stamp db)]> (db_tools db) |>).

(** An [UPDATE tool_requests ... WHERE call_id = $1 AND ...]: the number of
    rows it changed. *)
Definition update_tool (callID : string) (cond : DB -> ToolRequest -> bool) (f : DB -> ToolRequest -> ToolRequest)
    : tx Z := fun db =>
  match db_tools db !! callID with
  | Some r => if cond db r
              then Ok (1, db <| db_tools := <[callID := (f db r) <| tr_UpdatedAt := db_stamp db |>]> (db_tools db) |>)
              else Ok (0, db)
  | None => Ok (0, db)
  end.

Definition SetToolRequestAdmission (callID : string) (state : CallState) (dispatchID failureCode : option string) : tx Z :=
  update_tool callID (fun _ r => bool_decide (tr_State r = CallAccepted))
    (fun _ r => r <| tr_State := state |> <| tr_ControlDispatchID := dispatchID |> <| tr_FailureCode := failureCode |>).

Definition SetToolRequestMarker (callID : string) : tx Z :=
  update_tool callID (fun _ r => bool_decide (tr_State r = CallAdmitted) && bool_decide (tr_SendMarkerAt r = None))
    (fun db r => r <| tr_State := CallSent |> <| tr_SendMarkerAt := db_stamp db |>).

Definition SetToolRequestOutcome (p : SetToolRequestOutcomeParams) : tx Z :=
  update_tool (so_CallID p) (fun _ r => bool_decide (tr_State r ∈ so_Expected p))
    (fun _ r => r <| tr_State := so_State p |> <| tr_FailureCode := so_FailureCode p |> <| tr_Result := so_Result p |>
                  <| tr_ResultDigest := so_ResultDigest p |> <| tr_ResultRef := so_ResultRef p |>
                  <| tr_NativeEvidence := so_NativeEvidence p |> <| tr_UsageUnits := so_UsageUnits p |>).

Definition SetAbandonedToolRequestUnknown (callID : string) (failureCode : option string) (sentAge : Duration) : tx Z :=
  update_tool callID
    (fun db r => bool_decide (tr_State r = CallSent) && older_than db (tr_SendMarkerAt r) sentAge)
    (fun _ r => r <| tr_State := CallUnknown |> <| tr_FailureCode := failureCode |>).

Definition SetToolRequestObserved (callID : string) (sequence : Z) : tx Z :=
  update_tool callID (fun _ r => tr_ObservationSequence r =? sequence)
    (fun db r => r <| tr_ObservedAt := db_stamp db |> <| tr_ObservationSequence := tr_ObservationSequence r + 1 |>).

(** ** What a write does *)

Lemma update_tool_Ok callID cond f db n db' :
  update_tool callID cond f db = Ok (n, db') ->
  (n = 0 /\ db' = db) \/
  (n = 1 /\ exists r, db_tools db !! callID = Some r /\ cond db r = true /\
     db' = db <| db_tools := <[callID := (f db r) <| tr_UpdatedAt := db_stamp db |>]> (db_tools db) |>).
Proof.
  unfold update_tool. destruct (db_tools db !! callID) as [r|]; [|intros [= <- <-]; auto].
  destruct (cond db r) eqn:E; intros [= <- <-]; [right|left]; eauto.
Qed.

Lemma update_tool_total callID cond f db : exists n db', update_tool callID cond f db = Ok (n, db').
Proof. unfold update_tool. destruct (db_tools db !! callID); [destruct (cond db _)|]; eauto. Qed.

(** The cursor order is total. *)
Lemma cursor_le_total a b : cursor_le a b = true \/ cursor_le b a = true.
Proof.
  unfold cursor_le. destruct (Z.lt_trichotomy a.1 b.1) as [H|[H|H]].
  - left. by rewrite (proj2 (Z.ltb_lt _ _) H).
  - rewrite H, Z.ltb_irrefl, Z.eqb_refl. cbn. destruct (String.leb_total a.2 b.2); auto.
  - right. by rewrite (proj2 (Z.ltb_lt _ _) H).
Qed.
Lemma cursor_le_trans a b c : cursor_le a b = true -> cursor_le b c = true -> cursor_le a c = true.
Proof.
  unfold cursor_le. rewrite !orb_true_iff, !andb_true_iff, !Z.ltb_lt, !Z.eqb_eq.
  intros [?|[? ?]] [?|[? ?]]; [left; lia..|right]. split; [lia|]. by eapply leb_trans.
Qed.
Lemma cursor_lt_irrefl a : cursor_lt a a = false.
Proof. unfold cursor_lt. by destruct (cursor_le_total a a) as [-> | ->]. Qed.

Lemma rows_of_elem {K V} `{Countable K} (m : gmap K V) v : v ∈ rows_of m <-> exists k, m !! k = Some v.
Proof.
  unfold rows_of. rewrite list_elem_of_In, in_map_iff. split.
  - intros ([k v'] & <- & Hin%list_elem_of_In%elem_of_map_to_list). eauto.
  - intros (k & Hk). exists (k, v). split; [done|]. by apply list_elem_of_In, elem_of_map_to_list.
Qed.
Lemma rows_exist {K V} `{Countable K} (m : gmap K V) (p : V -> bool) :
  existsb p (rows_of m) = true <-> exists k v, m !! k = Some v /\ p v = true.
Proof.
  rewrite existsb_exists. unfold rows_of. split.
  - intros (v & ([k v'] & <- & Hin%list_elem_of_In%elem_of_map_to_list)%in_map_iff & Hp). eauto.
  - intros (k & v & Hk & Hp). exists v. split; [|done]. apply in_map_iff. exists (k, v).
    split; [done|]. by apply list_elem_of_In, elem_of_map_to_list.
Qed.
Lemma rows_exist_not {K V} `{Countable K} (m : gmap K V) (p : V -> bool) :
  existsb p (rows_of m) = false -> forall k v, m !! k = Some v -> p v = false.
Proof.
  intros Hf k v Hk. apply not_true_iff_false. intros Hp. apply not_true_iff_false in Hf. apply Hf, rows_exist. eauto.
Qed.

(** An insert needs its call id and its tenant's command id unused. *)
Lemma InsertToolRequest_Ok p d u d' :
  InsertToolRequest p d = Ok (u, d') <->
  db_tools d !! it_CallID p = None /\
  (forall c r, db_tools d !! c = Some r -> by_command (it_TenantID p) (it_CommandID p) r = false) /\
  d' = d <| db_tools := <[it_CallID p := inserted_tool p (db_stamp d)]> (db_tools d) |>.
Proof.
  unfold InsertToolRequest. destruct (db_tools d !! it_CallID p) as [r|] eqn:E.
  - rewrite bool_decide_eq_true_2 by eauto. cbn [orb]. split; [done|by intros (? & _)].
  - rewrite bool_decide_eq_false_2 by (by intros []). cbn [orb].
    destruct (existsb _ _) eqn:Ex; split; try done.
    + intros (_ & Hn & _). apply rows_exist in Ex as (c & r & Hr & Hc). by rewrite (Hn _ _ Hr) in Hc.
    + intros [= <- <-]. split_and!; [done|by apply rows_exist_not|done].
    + intros (_ & _ & ->). by destruct u.
Qed.

(** The two reasons an insert finds its key taken. *)
Lemma InsertToolRequest_Err p d e :
  InsertToolRequest p d = Err e ->
  e = errorf ErrDuplicateKey /\
  (is_Some (db_tools d !! it_CallID p) \/
   exists c r, db_tools d !! c = Some r /\ tr_TenantID r = it_TenantID p /\ tr_CommandID r = it_CommandID p).
Proof.
  unfold InsertToolRequest. destruct (bool_decide _) eqn:E1; cbn [orb].
  - intros [= <-]. split; [done|]. left. by breflect.
  - destruct (existsb _ _) eqn:E2; [|done]. intros [= <-]. split; [done|]. right.
    apply rows_exist in E2 as (c & r & Hr & Hc). unfold by_command in Hc. breflect. eauto.
Qed.

Lemma GetToolRequestByCommand_finds tenant command d c r :
  db_tools d !! c = Some r -> tr_TenantID r = tenant -> tr_CommandID r = command ->
  exists r', GetToolRequestByCommand tenant command d = Ok (Some r', d) /\
    tr_TenantID r' = tenant /\ tr_CommandID r' = command.
Proof.
  intros Hr <- <-. unfold GetToolRequestByCommand, gets.
  destruct (List.find _ _) as [r'|] eqn:E.
  - apply List.find_some in E as [_ E]. unfold by_command in E. breflect. eauto.
  - exfalso.
    assert (In r (rows_of (db_tools d))) as Hin.
    { unfold rows_of. apply in_map_iff. exists (c, r). split; [done|]. by apply list_elem_of_In, elem_of_map_to_list. }
    apply (List.find_none _ _ E) in Hin. unfold by_command in Hin. by rewrite !String.eqb_refl in Hin.
Qed.
