(* ===== verification/SqlCatalog.v ===== *)
(** * SqlCatalog: the statements of the catalog and the grants ([sqlc/catalog.sql.go])

    A grant's key is its id and a tenant's command id is unique among grants;
    a server's key is its id and a tenant has one server per resource; a
    descriptor's key is its server and revision; a review, a decision, a
    command and a refresh have the keys their queries select by.
    [control_state] starts as [none].  Ids are ordered by their bytes. *)

From S2P Require Import Prelude Errors GoStrings GoCrypto GoJson GoNum Task TaskLife Catalog Grant Call Event Rows Sql SqlCalls.

(** [LIMIT $n]: a negative limit is an error. *)
Definition limited {A} (n : Z) (f : DB -> list A) : tx (list A) :=
  if n <? 0 then TxFail ErrOther else gets (fun db => firstn (Z.to_nat n) (f db)).

(** ** Grants *)

Definition CountOpenToolRequests (grantID : string) (grantRevision : Z) : tx Z :=
  gets (fun db => Z.of_nat (List.length (List.filter (fun r =>
    String.eqb (tr_GrantID r) grantID && (tr_GrantRevision r =? grantRevision) &&
    match tr_State r with CallAccepted | CallAdmitted | CallSent | CallUnknown => true | _ => false end)
    (rows_of (db_tools db))))).

Definition grant_by_command (tenantID commandID : string) (g : GrantRow) : bool :=
  String.eqb (gw_TenantID g) tenantID && String.eqb (gw_CommandID g) commandID.
Definition GetGrantByCommand (tenantID commandID : string) : tx (option GrantRow) :=
  gets (fun db => List.find (grant_by_command tenantID commandID) (rows_of (db_grants db))).

Definition GetGrantDecisionByCommand (tenantID commandID decision : string) : tx (option GrantDecision) :=
  gets (fun db => List.find (fun r => String.eqb (gd_TenantID r) tenantID && String.eqb (gd_CommandID r) commandID &&
                                      String.eqb (gd_Decision r) decision) (rows_of (db_decisions db))).

(** [min(decided_at)] of the revoke decisions, and the transaction time. *)
Definition earliest (a b : option Time) : option Time :=
  match a, b with Some x, Some y => Some (Z.min x y) | None, b => b | a, None => a end.
Definition GetRevocationRequest (grantID : string) (toRevision : Z) : tx (option Time * option Time) :=
  gets (fun db => (fold_right earliest None (map gd_DecidedAt (List.filter (fun r =>
    String.eqb (gd_GrantID r) grantID && (gd_ToRevision r =? toRevision) && String.eqb (gd_Decision r) "revoke")
    (rows_of (db_decisions db)))), db_stamp db)).

(** The row [InsertGrant] writes. *)
Definition inserted_grant (p : InsertGrantParams) (stamp : option Time) : GrantRow :=
  mkGrantRow (ig_GrantID p) (ig_Revision p) (ig_TenantID p) (ig_SubjectType p) (ig_SubjectID p) (ig_ServerID p)
    (ig_DescriptorRevision p) (ig_DescriptorDigest p) (ig_Methods p) (ig_Purpose p) (ig_CostCapCurrency p)
    (ig_CostCapAmount p) (ig_State p) None (timestamptz (ig_ExpiresAt p)) (ig_CommandID p) (ig_RequestDigest p)
    stamp stamp (ig_CanonicalResource p) (ig_Transport p) (ig_ProtocolVersion p) (ig_Issuer p) (ig_Audience p)
    (ig_ResourceSelectors p) (ig_PromptSelectors p) (ig_DataClass p) (ig_PolicyDigest p) None None
    (ig_RegistrationCommandID p) None None 0 0 "none" None.
Definition InsertGrant (p : InsertGrantParams) : tx unit := fun db =>
  if bool_decide (is_Some (db_grants db !! ig_GrantID p))
     || existsb (grant_by_command (ig_TenantID p) (ig_CommandID p)) (rows_of (db_grants db))
  then Fail ErrDuplicateKey
  else Ok (tt, db <| db_grants := <[ig_GrantID p := inserted_grant p (db_stamp db)]> (db_grants db) |>).

Record InsertGrantDecisionParams := mkInsertGrantDecisionParams {
  id_DecisionID : string; id_GrantID : string; id_FromRevision : Z; id_ToRevision : Z; id_Decision : string;
  id_Decider : string; id_ReasonCode : option string; id_CommandID : string; id_RequestDigest : string;
  id_TenantID : string }.
Definition InsertGrantDecision (p : InsertGrantDecisionParams) : tx unit := fun db =>
  if bool_decide (is_Some (db_decisions db !! id_DecisionID p)) then Fail ErrDuplicateKey
  else
    let row := mkGrantDecision (id_DecisionID p) (id_GrantID p) (id_FromRevision p) (id_ToRevision p) (id_Decision p)
                 (id_Decider p) (id_ReasonCode p) (id_CommandID p) (id_RequestDigest p) (db_stamp db) (id_TenantID p) in
    Ok (tt, db <| db_decisions := <[id_DecisionID p := row]> (db_decisions db) |>).

(** The row [UpdateGrantBarrier] writes. *)
Definition barrier_row (g : GrantRow) (p : UpdateGrantBarrierParams) (stamp : option Time) : GrantRow :=
  g <| gw_State := ub_State p |> <| gw_ControlReceiptID := ub_ControlReceiptID p |>
    <| gw_PolicyEpoch := ub_PolicyEpoch p |> <| gw_FailureCode := ub_FailureCode p |>
    <| gw_RevocationCommandID := ub_RevocationCommandID p |> <| gw_FencedAt := timestamptz (ub_FencedAt p) |>
    <| gw_InFlightCalls := ub_InFlightCalls p |> <| gw_UnknownCalls := ub_UnknownCalls p |>
    <| gw_ControlState := ub_ControlState p |> <| gw_RevokedAt := timestamptz (ub_RevokedAt p) |>
    <| gw_UpdatedAt := stamp |>.
Definition UpdateGrantBarrier (p : UpdateGrantBarrierParams) : tx Z := fun db =>
  match db_grants db !! ub_GrantID p with
  | Some g =>
      if bool_decide (gw_State g = ub_ExpectedState p)
      then Ok (1, db <| db_grants := <[ub_GrantID p := barrier_row g p (db_stamp db)]> (db_grants db) |>)
      else Ok (0, db)
  | None => Ok (0, db)
  end.

(** The order of rows whose key may be null: nulls last. *)
Definition nulls_last (a b : option Time) : bool :=
  match a, b with Some x, Some y => x <=? y | Some _, None => true | None, Some _ => false | None, None => true end.

Definition ListExpiredGrants (expiresAt : Time) (limit : Z) : tx (list string) :=
  limited limit (fun db => map gw_GrantID
    (sort_by (fun a b => nulls_last (gw_ExpiresAt a) (gw_ExpiresAt b))
      (List.filter (fun g => bool_decide (gw_State g = GrantActive) &&
         match gw_ExpiresAt g with Some e => e <=? us expiresAt | None => false end) (rows_of (db_grants db))))).

Definition ListOpenBarriers (age : Duration) (limit : Z) : tx (list string) :=
  limited limit (fun db => map gw_GrantID
    (sort_by (fun a b => nulls_last (gw_UpdatedAt a) (gw_UpdatedAt b))
      (List.filter (fun g => match gw_State g with GrantPending | GrantRevoking => true | _ => false end &&
         match gw_UpdatedAt g with Some t => t <=? us (db_now db) - us age | None => false end) (rows_of (db_grants db))))).

Definition ListGrantsOfDescriptor (serverID : string) (revision : Z) : tx (list string) :=
  gets (fun db => slices_Sort (map gw_GrantID
    (List.filter (fun g => String.eqb (gw_ServerID g) serverID && (gw_DescriptorRevision g =? revision) &&
       match gw_State g with GrantPending | GrantActive => true | _ => false end) (rows_of (db_grants db))))).

Record ListGrantsParams := mkListGrantsParams {
  lg_TenantID : string; lg_State : string; lg_ReadAll : bool; lg_ProjectID : string; lg_ActorID : string;
  lg_AfterGrant : string; lg_PageLimit : Z }.
Definition listed_grant (p : ListGrantsParams) (g : GrantRow) : bool :=
  String.eqb (gw_TenantID g) (lg_TenantID p) &&
  (String.eqb (lg_State p) "" || String.eqb (grant_text (gw_State g)) (lg_State p)) &&
  (lg_ReadAll p || String.eqb (gw_SubjectType g) "tenant"
   || (String.eqb (gw_SubjectType g) "project" && String.eqb (gw_SubjectID g) (lg_ProjectID p))
   || (String.eqb (gw_SubjectType g) "actor" && String.eqb (gw_SubjectID g) (lg_ActorID p))).
Definition ListGrants (p : ListGrantsParams) : tx (list GrantRow) :=
  limited (lg_PageLimit p) (fun db => sort_by (fun a b => String.leb (gw_GrantID a) (gw_GrantID b))
    (List.filter (fun g => listed_grant p g && String.ltb (lg_AfterGrant p) (gw_GrantID g)) (rows_of (db_grants db)))).

(** ** The catalog *)

Definition GetCatalogCommand (tenantID commandID : string) : tx (option CatalogCommand) :=
  gets (fun db => db_commands db !! (tenantID, commandID)).
Definition InsertCatalogCommand (tenantID commandID kind requestDigest serverID : string) (revision : Z) : tx unit := fun db =>
  if bool_decide (is_Some (db_commands db !! (tenantID, commandID))) then Fail ErrDuplicateKey
  else
    let row := mkCatalogCommand tenantID commandID kind requestDigest serverID revision (db_stamp db) in
    Ok (tt, db <| db_commands := <[(tenantID, commandID) := row]> (db_commands db) |>).

Definition at_resource (tenantID resource : string) (s : Server) : bool :=
  String.eqb (sv_TenantID s) tenantID && String.eqb (sv_CanonicalResource s) resource.
Definition GetServerByResourceForUpdate (tenantID resource : string) : tx (option Server) :=
  gets (fun db => List.find (at_resource tenantID resource) (rows_of (db_servers db))).
Definition InsertServer (serverID tenantID resource transport : string) : tx unit := fun db =>
  if bool_decide (is_Some (db_servers db !! serverID)) || existsb (at_resource tenantID resource) (rows_of (db_servers db))
  then Fail ErrDuplicateKey
  else Ok (tt, db <| db_servers := <[serverID := mkServer serverID tenantID resource transport 0 (db_stamp db)]> (db_servers db) |>).
Definition SetServerRevision (serverID : string) (revision : Z) : tx unit :=
  modify (fun db => db <| db_servers := alter (fun s => s <| sv_CurrentRevision := revision |>) serverID (db_servers db) |>).

Definition of_digest (serverID digest : string) (d : DescriptorRow) : bool :=
  String.eqb (dr_ServerID d) serverID && String.eqb (dr_DescriptorDigest d) digest.
Definition GetDescriptorByDigest (serverID digest : string) : tx (option DescriptorRow) :=
  gets (fun db => List.find (of_digest serverID digest) (rows_of (db_descriptors db))).

Definition inserted_descriptor (p : InsertDescriptorParams) (stamp : option Time) : DescriptorRow :=
  mkDescriptorRow (ds_ServerID p) (ds_Revision p) (ds_ProtocolVersion p) (ds_Provenance p) (ds_DescriptorDigest p)
    (ds_Tools p) (ds_State p) (ds_CommandID p) (ds_RequestDigest p) stamp stamp (ds_ServerName p) (ds_ServerVersion p)
    (ds_Resources p) (ds_Prompts p) (ds_ResourcesDigest p) (ds_PromptsDigest p) (ds_DataClass p) (ds_NetworkScope p)
    (ds_Licenses p) (ds_Issuer p) (ds_RevisionEvidence p) (ds_ConnectionRef p) (ds_DiscoveredBy p) None None
    (ds_InputSchemas p).
Definition InsertDescriptor (p : InsertDescriptorParams) : tx unit := fun db =>
  if bool_decide (is_Some (db_descriptors db !! (ds_ServerID p, ds_Revision p))) then Fail ErrDuplicateKey
  else Ok (tt, db <| db_descriptors := <[(ds_ServerID p, ds_Revision p) := inserted_descriptor p (db_stamp db)]> (db_descriptors db) |>).

(** [COALESCE($4, reviewer)]. *)
Definition coalesce (a b : option string) : option string := match a with Some _ => a | None => b end.
Definition UpdateDescriptorState (serverID : string) (revision : Z) (state : CatalogState) (reviewer reviewID : option string) : tx unit :=
  modify (fun db => db <| db_descriptors := alter (fun d =>
    d <| dr_State := state |> <| dr_Reviewer := coalesce reviewer (dr_Reviewer d) |>
      <| dr_ReviewID := coalesce reviewID (dr_ReviewID d) |> <| dr_UpdatedAt := db_stamp db |>)
    (serverID, revision) (db_descriptors db) |>).

Record InsertReviewParams := mkInsertReviewParams {
  iv_ReviewID : string; iv_ServerID : string; iv_Revision : Z; iv_DescriptorDigest : string; iv_Reviewer : string;
  iv_Decision : string; iv_ReasonCode : option string; iv_CommandID : string; iv_RequestDigest : string;
  iv_TenantID : string }.
Definition InsertReview (p : InsertReviewParams) : tx unit := fun db =>
  if bool_decide (is_Some (db_reviews db !! iv_ReviewID p)) then Fail ErrDuplicateKey
  else
    let row := mkReview (iv_ReviewID p) (iv_ServerID p) (iv_Revision p) (iv_DescriptorDigest p) (iv_Reviewer p)
                 (iv_Decision p) (iv_ReasonCode p) (iv_CommandID p) (iv_RequestDigest p) (db_stamp db) (iv_TenantID p) in
    Ok (tt, db <| db_reviews := <[iv_ReviewID p := row]> (db_reviews db) |>).

Record ListDescriptorsParams := mkListDescriptorsParams {
  ld_TenantID : string; ld_State : string; ld_IncludePending : bool; ld_AfterServer : string; ld_AfterRevision : Z;
  ld_PageLimit : Z }.
(** [(server_id, revision)] as a key, compared in order. *)
Definition revision_le (a b : string * Z) : bool := String.ltb a.1 b.1 || (String.eqb a.1 b.1 && (a.2 <=? b.2)).
Definition descriptor_key (d : DescriptorRow) : string * Z := (dr_ServerID d, dr_Revision d).
Definition listed_descriptor (db : DB) (p : ListDescriptorsParams) (d : DescriptorRow) : bool :=
  match db_servers db !! dr_ServerID d with
  | None => false
  | Some s =>
      String.eqb (sv_TenantID s) (ld_TenantID p) &&
      (String.eqb (ld_State p) "" || String.eqb (catalog_text (dr_State d)) (ld_State p)) &&
      (ld_IncludePending p || match dr_State d with CatalogApproved | CatalogDisabled => true | _ => false end)
  end.
Definition ListDescriptors (p : ListDescriptorsParams) : tx (list DescriptorRow) :=
  limited (ld_PageLimit p) (fun db => sort_by (fun a b => revision_le (descriptor_key a) (descriptor_key b))
    (List.filter (fun d => listed_descriptor db p d &&
                           negb (revision_le (descriptor_key d) (ld_AfterServer p, ld_AfterRevision p)))
       (rows_of (db_descriptors db)))).

(** ** The refresh *)

Definition GetRefresh (taskID : string) (generation : Z) : tx (option CatalogRefresh) :=
  gets (fun db => db_refreshes db !! (taskID, generation)).
Record InsertRefreshParams := mkInsertRefreshParams {
  ir_TaskID : string; ir_Generation : Z; ir_WorkerID : string; ir_ServerID : string; ir_Revision : Z;
  ir_ReviewedDigest : string; ir_LiveDigest : option string; ir_Drift : bool; ir_DriftReason : option string;
  ir_ResultRef : string; ir_ResultDigest : string }.
(** [ON CONFLICT DO NOTHING] *)
Definition InsertRefresh (p : InsertRefreshParams) : tx unit := fun db =>
  match db_refreshes db !! (ir_TaskID p, ir_Generation p) with
  | Some _ => Ok (tt, db)
  | None =>
      let row := mkCatalogRefresh (ir_TaskID p) (ir_Generation p) (ir_WorkerID p) (ir_ServerID p) (ir_Revision p)
                   (ir_ReviewedDigest p) (ir_LiveDigest p) (ir_Drift p) (ir_DriftReason p) (ir_ResultRef p)
                   (ir_ResultDigest p) (db_stamp db) in
      Ok (tt, db <| db_refreshes := <[(ir_TaskID p, ir_Generation p) := row]> (db_refreshes db) |>)
  end.

(** The grants a revision's refresh may be authorized by, the oldest first. *)
Definition refresh_grants (db : DB) (now : Time) (d : DescriptorRow) : list GrantRow :=
  sort_by (fun a b => nulls_last (gw_CreatedAt a) (gw_CreatedAt b) &&
                      (negb (nulls_last (gw_CreatedAt b) (gw_CreatedAt a)) || String.leb (gw_GrantID a) (gw_GrantID b)))
    (List.filter (fun g => String.eqb (gw_ServerID g) (dr_ServerID d) && (gw_DescriptorRevision g =? dr_Revision d) &&
       bool_decide (gw_State g = GrantActive) && negb (bool_decide (gw_ControlReceiptID g = None)) &&
       match gw_ExpiresAt g with None => true | Some e => us now <? e end) (rows_of (db_grants db))).
Record RefreshTarget := mkRefreshTarget {
  rt_ServerID : string; rt_Revision : Z; rt_DescriptorDigest : string; rt_TenantID : string; rt_GrantID : string }.
Definition refresh_target (db : DB) (now : Time) (d : DescriptorRow) : option RefreshTarget :=
  match db_servers db !! dr_ServerID d, refresh_grants db now d with
  | Some s, g :: _ =>
      Some (mkRefreshTarget (dr_ServerID d) (dr_Revision d) (dr_DescriptorDigest d) (sv_TenantID s) (gw_GrantID g))
  | _, _ => None
  end.
Definition ListRefreshTargets (now : Time) (max : Z) : tx (list RefreshTarget) :=
  limited max (fun db => omap (refresh_target db now)
    (sort_by (fun a b => revision_le (descriptor_key a) (descriptor_key b))
      (List.filter (fun d => bool_decide (dr_State d = CatalogApproved)) (rows_of (db_descriptors db))))).

(** ** Events *)

(** The column is a [bigint]. *)
Definition NextEventRevision (aggregateType aggregateID : string) : tx Z := fun db =>
  let n := match db_event_revisions db !! (aggregateType, aggregateID) with None => 1 | Some r => r + 1 end in
  if n <? 2 ^ 63 then Ok (n, db <| db_event_revisions := <[(aggregateType, aggregateID) := n]> (db_event_revisions db) |>)
  else Fail ErrOther.
