(* ===== verification/CallLife.v ===== *)
(** * CallLife: the life of a stored call

    The transitions of a call, what its row never changes, and the order on
    the table of calls that every transaction follows: no row is deleted,
    every row goes on with its life and every new one starts it. *)

From S2P Require Import Prelude Table Errors GoStrings GoCrypto GoJson GoNum Task TaskLife Catalog Grant Call Event Rows Sql SqlCalls.

(** ** Transitions *)

(** The transitions of a call. *)
Inductive call_move : CallState -> CallState -> Prop :=
| cm_admit : call_move CallAccepted CallAdmitted
| cm_deny : call_move CallAccepted CallDenied
| cm_send : call_move CallAdmitted CallSent
| cm_cancel : call_move CallAdmitted CallCanceled
| cm_succeed : call_move CallSent CallSucceeded
| cm_fail : call_move CallSent CallFailed
| cm_unknown : call_move CallSent CallUnknown
| cm_resolve_succeeded : call_move CallUnknown CallSucceeded
| cm_resolve_failed : call_move CallUnknown CallFailed.

(** What a row never changes. *)
Definition call_identity (r : ToolRequest) :=
  (tr_CallID r, tr_TenantID r, tr_GrantID r, tr_GrantRevision r, tr_ServerID r, tr_DescriptorRevision r, tr_Method r,
   tr_ArgumentDigest r, tr_Arguments r, tr_OperationID r, tr_AttemptID r, tr_CommandID r, tr_RequestDigest r,
   tr_Deadline r, (tr_InstanceID r, tr_ExecutionEpoch r, tr_DescriptorDigest r, tr_ProtocolVersion r, tr_Transport r,
   tr_Route r, tr_SideEffecting r, tr_ExposureCurrency r, tr_ExposureAmount r)).

(** One statement: a transition, which sets the marker exactly when it is the
    one to [sent]; or an observation, which changes neither. *)
Definition row_step (r r' : ToolRequest) : Prop :=
  call_identity r' = call_identity r /\
  ((tr_State r' = tr_State r /\ tr_SendMarkerAt r' = tr_SendMarkerAt r) \/
   (call_move (tr_State r) (tr_State r') /\
    if bool_decide (tr_State r' = CallSent) then tr_SendMarkerAt r' <> None else tr_SendMarkerAt r' = tr_SendMarkerAt r)).
Definition row_le : ToolRequest -> ToolRequest -> Prop := rtc row_step.

(** A row as [InsertToolRequest] writes it. *)
Definition fresh_row (r : ToolRequest) : Prop :=
  tr_State r = CallAccepted /\ tr_SendMarkerAt r = None /\ tr_ControlDispatchID r = None /\ tr_ObservedAt r = None.

Definition was_sent (s : CallState) : bool :=
  match s with CallSent | CallSucceeded | CallFailed | CallUnknown => true | _ => false end.

(** A stored row: filed under its id, marked exactly when its state says so. *)
Definition row_ok (c : string) (r : ToolRequest) : Prop :=
  tr_CallID r = c /\ bool_decide (tr_SendMarkerAt r = None) = negb (was_sent (tr_State r)).
Definition tools_ok : gmap string ToolRequest -> Prop := all_rows row_ok.

(** No row is deleted, every row goes on with its life, every new one starts
    it. *)
Definition tools_le : gmap string ToolRequest -> gmap string ToolRequest -> Prop := table_le row_step fresh_row.

Definition marked (t : gmap string ToolRequest) (c : string) : Prop :=
  exists r, t !! c = Some r /\ tr_SendMarkerAt r <> None.

Lemma row_step_ok c r r' : row_step r r' -> row_ok c r -> row_ok c r'.
Proof.
  intros [Hid Hs] [Hc Hm]. injection Hid as E1 _ _ _ _ _ _ _ _ _ _ _ _ _ _ _ _ _ _ _ _ _ _.
  split; [congruence|]. destruct Hs as [[-> ->]|[Hmv Hmk]]; [done|].
  destruct Hmv; cbn in *; rewrite ?Hmk; try done. by rewrite bool_decide_eq_false_2.
Qed.
Lemma row_step_marker r r' : row_step r r' -> tr_SendMarkerAt r <> None -> tr_SendMarkerAt r' <> None.
Proof. intros [_ [[_ ->]|[_ Hm]]]; [done|]. destruct (bool_decide _); congruence. Qed.
Lemma row_le_marker r r' : row_le r r' -> tr_SendMarkerAt r <> None -> tr_SendMarkerAt r' <> None.
Proof. induction 1; eauto using row_step_marker. Qed.
Lemma row_le_ok c r r' : row_le r r' -> row_ok c r -> row_ok c r'.
Proof. induction 1; eauto using row_step_ok. Qed.

Lemma tools_le_marked t t' c : tools_le t t' -> marked t c -> marked t' c.
Proof.
  intros [H _] (r & E & Hm). apply H in E as (r' & E' & L). exists r'. split; [done|]. by eapply row_le_marker.
Qed.

(** The final states of a call, and what a row keeps along its life. *)
Definition call_final (s : CallState) : bool :=
  match s with CallSucceeded | CallFailed | CallDenied | CallCanceled => true | _ => false end.
Lemma row_le_keeps r r' : row_le r r' ->
  call_identity r' = call_identity r /\ (call_final (tr_State r) = true -> tr_State r' = tr_State r).
Proof.
  induction 1 as [r|r r1 r' [Hid Hs] _ (IHid & IHf)]; [auto|]. split; [congruence|].
  destruct Hs as [[Hst _]|[Hmv _]]; [by rewrite <- Hst|by destruct Hmv].
Qed.
Lemma row_le_keeps_marker c r r' : row_le r r' -> row_ok c r ->
  tr_SendMarkerAt r <> None -> tr_SendMarkerAt r' = tr_SendMarkerAt r.
Proof.
  induction 1 as [r|r r1 r' Hs _ IH]; intros Hok Hm; [done|]. pose proof (row_step_ok _ _ _ Hs Hok) as Hok1.
  pose proof (row_step_marker _ _ Hs Hm) as Hm1. rewrite (IH Hok1 Hm1). destruct Hs as [_ [[_ ->]|[Hmv Hmk]]]; [done|].
  destruct Hok as [_ E]. rewrite bool_decide_eq_false_2 in E by done. by destruct Hmv.
Qed.

(** The states [CountOpenToolRequests] counts. *)
Definition is_open (s : CallState) : bool :=
  match s with CallAccepted | CallAdmitted | CallSent | CallUnknown => true | _ => false end.
Lemma row_le_closed r r' : row_le r r' -> is_open (tr_State r) = false -> is_open (tr_State r') = false.
Proof.
  induction 1 as [r|r r1 r' [_ [[Hs _]|[Hm _]]] _ IH]; [done| |]; intros Ho; apply IH; [by rewrite Hs|].
  by destruct Hm.
Qed.
