(* ===== verification/Invariant.v ===== *)
(** * Invariant: what every transaction of the service keeps

    The invariant of the database, table by table; the order every
    transaction follows (what is recorded is never lost or rewritten, every
    row goes on with its life, and a closed grant's calls are frozen); and the
    elementary steps transactions are made of, each of which keeps both. *)

From S2P Require Import Prelude Table Errors GoStrings GoCrypto GoJson GoNum Task TaskLife Catalog Grant Call Event App Rows Sql SqlCalls SqlCatalog CallLife.

(** ** The life of a grant *)

Inductive grant_move : GrantState -> GrantState -> Prop :=
| gm_activate : grant_move GrantPending GrantActive
| gm_refuse : grant_move GrantPending GrantRegistrationFailed
| gm_expire : grant_move GrantActive GrantExpired
| gm_revoke s : s <> GrantRevoking -> s <> GrantRevoked -> grant_move s GrantRevoking
| gm_converge : grant_move GrantRevoking GrantRevoked.

(** What a grant's row never changes. *)
Definition grant_identity (g : GrantRow) :=
  (gw_GrantID g, gw_Revision g, gw_TenantID g, gw_SubjectType g, gw_SubjectID g, gw_ServerID g, gw_DescriptorRevision g,
   gw_DescriptorDigest g, gw_Methods g, gw_Purpose g, gw_CostCapCurrency g, gw_CostCapAmount g, gw_ExpiresAt g,
   (gw_CommandID g, gw_RequestDigest g, gw_CreatedAt g, gw_CanonicalResource g, gw_Transport g, gw_ProtocolVersion g,
    gw_Issuer g, gw_Audience g, gw_ResourceSelectors g, gw_PromptSelectors g, gw_DataClass g, gw_PolicyDigest g,
    gw_RegistrationCommandID g)).

(** One update of the barrier columns; a revoked grant has none. *)
Definition grant_step (g g' : GrantRow) : Prop :=
  grant_identity g' = grant_identity g /\ gw_State g <> GrantRevoked /\
  (gw_State g' = gw_State g \/ grant_move (gw_State g) (gw_State g')) /\
  (gw_State g' = GrantRevoked -> gw_ControlState g' = "converged").
Definition grant_le : GrantRow -> GrantRow -> Prop := rtc grant_step.

(** The states new calls are refused in for good, and those a revision's
    disabling revokes. *)
Definition closed (s : GrantState) : bool := match s with GrantPending | GrantActive => false | _ => true end.

Definition pending_grant (g : GrantRow) : Prop := gw_State g = GrantPending.
Definition grants_le : gmap string GrantRow -> gmap string GrantRow -> Prop := table_le grant_step pending_grant.

(** ** The life of a descriptor revision *)

Inductive descriptor_move : CatalogState -> CatalogState -> Prop :=
| dm_approve : descriptor_move CatalogReviewPending CatalogApproved
| dm_reject : descriptor_move CatalogReviewPending CatalogRejected
| dm_disable s : s <> CatalogDisabled -> descriptor_move s CatalogDisabled.

Definition descriptor_identity (d : DescriptorRow) :=
  (dr_ServerID d, dr_Revision d, dr_ProtocolVersion d, dr_Provenance d, dr_DescriptorDigest d, dr_Tools d, dr_CommandID d,
   dr_RequestDigest d, dr_CreatedAt d, dr_ServerName d, dr_ServerVersion d, dr_Resources d, dr_Prompts d,
   (dr_ResourcesDigest d, dr_PromptsDigest d, dr_DataClass d, dr_NetworkScope d, dr_Licenses d, dr_Issuer d,
    dr_RevisionEvidence d, dr_ConnectionRef d, dr_DiscoveredBy d, dr_InputSchemas d)).

(** A review names its reviewer for good; disabling keeps it. *)
Definition descriptor_step (d d' : DescriptorRow) : Prop :=
  descriptor_identity d' = descriptor_identity d /\ descriptor_move (dr_State d) (dr_State d') /\
  (dr_State d <> CatalogReviewPending -> dr_Reviewer d' = dr_Reviewer d /\ dr_ReviewID d' = dr_ReviewID d).
Definition descriptor_le : DescriptorRow -> DescriptorRow -> Prop := rtc descriptor_step.

Definition pending_descriptor (d : DescriptorRow) : Prop := dr_State d = CatalogReviewPending.
Definition descriptors_le : gmap (string * Z) DescriptorRow -> gmap (string * Z) DescriptorRow -> Prop :=
  table_le descriptor_step pending_descriptor.

Definition server_identity (s : Server) := (sv_ServerID s, sv_TenantID s, sv_CanonicalResource s, sv_Transport s, sv_CreatedAt s).
Definition servers_le (t t' : gmap string Server) : Prop :=
  forall id s, t !! id = Some s -> exists s', t' !! id = Some s' /\ server_identity s' = server_identity s.

(** ** The invariant *)

(** Every grant is filed under its id, at a revision its column holds. *)
Definition grants_ok : gmap string GrantRow -> Prop := all_rows (fun id g => gw_GrantID g = id /\ 0 < gw_Revision g < 2 ^ 63).

(** Every call is of a grant, at its revision. *)
Definition calls_ok (tools : gmap string ToolRequest) (grants : gmap string GrantRow) : Prop :=
  forall c r, tools !! c = Some r -> exists g, grants !! tr_GrantID r = Some g /\ gw_Revision g = tr_GrantRevision r.

(** No call of the grant is open. *)
Definition no_open_call (tools : gmap string ToolRequest) (id : string) : Prop :=
  forall c r, tools !! c = Some r -> tr_GrantID r = id -> is_open (tr_State r) = false.

(** A revoked grant's barrier converged, and none of its calls is open. *)
Definition revoked_ok (tools : gmap string ToolRequest) (grants : gmap string GrantRow) : Prop :=
  forall id g, grants !! id = Some g -> gw_State g = GrantRevoked -> gw_ControlState g = "converged" /\ no_open_call tools id.

Definition servers_ok : gmap string Server -> Prop := all_rows (fun id s => sv_ServerID s = id /\ is_i64 (sv_CurrentRevision s)).
Definition descriptors_ok (descs : gmap (string * Z) DescriptorRow) (servers : gmap string Server) : Prop :=
  forall k d, descs !! k = Some d -> (dr_ServerID d, dr_Revision d) = k /\ is_i64 (dr_Revision d) /\
    is_Some (servers !! dr_ServerID d).
(** A server has one revision per digest. *)
Definition digests_ok (descs : gmap (string * Z) DescriptorRow) : Prop :=
  forall k1 k2 d1 d2, descs !! k1 = Some d1 -> descs !! k2 = Some d2 -> dr_ServerID d1 = dr_ServerID d2 ->
    dr_DescriptorDigest d1 = dr_DescriptorDigest d2 -> k1 = k2.

(** A grant is bound to a revision of its tenant's server by its digest, and
    that revision is approved while the grant is pending or active - except
    for the grants of one revision, in the middle of its disabling. *)
Definition bound_to (g : GrantRow) (descs : gmap (string * Z) DescriptorRow) (servers : gmap string Server)
    (d : DescriptorRow) : Prop :=
  descs !! (gw_ServerID g, gw_DescriptorRevision g) = Some d /\ dr_DescriptorDigest d = gw_DescriptorDigest g /\
  exists s, servers !! gw_ServerID g = Some s /\ sv_TenantID s = gw_TenantID g.
Definition bound_ok (except : option (string * Z)) (grants : gmap string GrantRow)
    (descs : gmap (string * Z) DescriptorRow) (servers : gmap string Server) : Prop :=
  forall id g, grants !! id = Some g -> exists d, bound_to g descs servers d /\
    (closed (gw_State g) = false -> except = Some (gw_ServerID g, gw_DescriptorRevision g) \/ dr_State d = CatalogApproved).

(** The review that decided a revision. *)
Definition decided_by (reviews : gmap string Review) (d : DescriptorRow) (decision : string) : Prop :=
  exists reviewer id w, dr_Reviewer d = Some reviewer /\ dr_ReviewID d = Some id /\ reviews !! id = Some w /\
    rw_Reviewer w = reviewer /\ rw_Decision w = decision /\
    (rw_ServerID w, rw_Revision w, rw_DescriptorDigest w) = (dr_ServerID d, dr_Revision d, dr_DescriptorDigest d).
(** Four eyes: a revision's reviewer is not its discoverer, and an approved or
    rejected revision has the review of exactly its digest. *)
Definition reviewed_ok (descs : gmap (string * Z) DescriptorRow) (reviews : gmap string Review) : Prop :=
  forall k d, descs !! k = Some d ->
    dr_Reviewer d <> Some (dr_DiscoveredBy d) /\
    (dr_State d = CatalogApproved -> decided_by reviews d ReviewApprove) /\
    (dr_State d = CatalogRejected -> decided_by reviews d ReviewReject).

(** The revisions of an aggregate's events, in the order they committed. *)
Definition of_aggregate (ty id : string) (e : Envelope) : bool :=
  String.eqb (e_AggregateType e) ty && String.eqb (e_AggregateID e) id.
Definition event_revisions (ty id : string) (outbox : list Envelope) : list string :=
  map e_AggregateRevision (List.filter (of_aggregate ty id) outbox).
Definition counted (ty : string) : bool := String.eqb ty AggregateGrant || String.eqb ty AggregateDescriptor.
(** The events of a grant or a server are numbered 1, 2, 3, ... in commit
    order. *)
Definition events_ok (revs : gmap (string * string) Z) (outbox : list Envelope) : Prop :=
  forall ty id, counted ty = true -> let n := default 0 (revs !! (ty, id)) in
    0 <= n < 2 ^ 63 /\
    event_revisions ty id outbox = map (fun i => format_int (Z.of_nat i)) (seq 1 (Z.to_nat n)).

(** What an event announces: that a grant of the row's tenant is closed, or
    that a revision of a server of the row's tenant was decided. *)
Inductive announces (grants : gmap string GrantRow) (servers : gmap string Server) : Envelope -> Prop :=
| an_grant eventID g revision correlation now row : grants !! g_GrantID g = Some row -> gw_TenantID row = g_TenantID g ->
    closed (gw_State row) = true -> announces grants servers (GrantRevokedEvent eventID g revision correlation now)
| an_server eventID d revision correlation now s : servers !! d_ServerID d = Some s -> sv_TenantID s = d_TenantID d ->
    announces grants servers (CatalogReviewedEvent eventID d revision correlation now).
Definition announced_ok (grants : gmap string GrantRow) (servers : gmap string Server) (outbox : list Envelope) : Prop :=
  forall env, env ∈ outbox -> counted (e_AggregateType env) = true -> announces grants servers env.

(** A grant is withdrawn from its revocation on, and a revision when it is
    rejected or disabled; every withdrawal has its event. *)
Definition withdrawn_grant (s : GrantState) : bool := match s with GrantRevoking | GrantRevoked => true | _ => false end.
Definition withdrawn_revision (s : CatalogState) : bool := match s with CatalogRejected | CatalogDisabled => true | _ => false end.
Definition grant_announced (id : string) (outbox : list Envelope) : Prop :=
  exists e, e ∈ outbox /\ of_aggregate AggregateGrant id e = true.
Definition server_announced (id : string) (outbox : list Envelope) : Prop :=
  exists eventID x rev corr now, CatalogReviewedEvent eventID x rev corr now ∈ outbox /\ d_ServerID x = id /\
    withdrawn_revision (d_State x) = true.
Record withdrawn_ok (d : DB) : Prop := {
  wk_grants id g : db_grants d !! id = Some g -> withdrawn_grant (gw_State g) = true -> grant_announced id (db_outbox d);
  wk_revisions k x : db_descriptors d !! k = Some x -> withdrawn_revision (dr_State x) = true ->
    server_announced (dr_ServerID x) (db_outbox d) }.

(** What the other rows refer to: a call the grant whose terms it carries, a
    review a revision and its digest, a decision a grant of its
    tenant, and a command a revision. *)
Definition call_terms (r : ToolRequest) :=
  (tr_TenantID r, tr_GrantRevision r, tr_ServerID r, tr_DescriptorRevision r, tr_DescriptorDigest r, tr_ProtocolVersion r, tr_Transport r).
Definition granted_terms (g : GrantRow) :=
  (gw_TenantID g, gw_Revision g, gw_ServerID g, gw_DescriptorRevision g, gw_DescriptorDigest g, gw_ProtocolVersion g, gw_Transport g).
Definition call_refers (d : DB) (_ : string) (r : ToolRequest) : Prop :=
  exists g, db_grants d !! tr_GrantID r = Some g /\ call_terms r = granted_terms g.
Definition review_refers (d : DB) (id : string) (w : Review) : Prop :=
  rw_ReviewID w = id /\ exists x, db_descriptors d !! (rw_ServerID w, rw_Revision w) = Some x /\ dr_DescriptorDigest x = rw_DescriptorDigest w.
Definition decision_refers (d : DB) (id : string) (y : GrantDecision) : Prop :=
  gd_DecisionID y = id /\ exists g, db_grants d !! gd_GrantID y = Some g /\ gw_TenantID g = gd_TenantID y.
Definition command_refers (d : DB) (k : string * string) (c : CatalogCommand) : Prop :=
  (cc_TenantID c, cc_CommandID c) = k /\ is_Some (db_descriptors d !! (cc_ServerID c, cc_Revision c)).
(** A background request and its attempts are filed under its generation. *)
Definition requests_filed (reqs : gmap (string * Z) BackgroundRequest) (atts : gmap (string * Z) (list TaskAttempt)) : Prop :=
  all_rows (fun k r => (br_TaskID r, br_Generation r) = k) reqs /\
  all_rows (fun k l => Forall (fun a => (ta_TaskID a, ta_Generation a) = k) l) atts.
(** An id the service made: a prefix and the hex of a digest. *)
Definition made_id (prefix : string) (id : string) : Prop := exists parts, id = idOf prefix parts.
Record filed_ok (d : DB) : Prop := {
  fl_grant_ids : all_rows (fun id _ => made_id "grt-" id) (db_grants d);
  fl_server_ids : all_rows (fun id _ => made_id "srv-" id) (db_servers d);
  fl_calls : all_rows (call_refers d) (db_tools d);
  fl_reviews : all_rows (review_refers d) (db_reviews d);
  fl_decisions : all_rows (decision_refers d) (db_decisions d);
  fl_commands : all_rows (command_refers d) (db_commands d);
  fl_refreshes : all_rows (fun k x => (rf_TaskID x, rf_Generation x) = k) (db_refreshes d);
  fl_requests : requests_filed (db_requests d) (db_attempts d) }.

Record tables_okx (except : option (string * Z)) (d : DB) : Prop := {
  sk_tools : tools_ok (db_tools d);
  sk_grants : grants_ok (db_grants d);
  sk_calls : calls_ok (db_tools d) (db_grants d);
  sk_revoked : revoked_ok (db_tools d) (db_grants d);
  sk_servers : servers_ok (db_servers d);
  sk_descriptors : descriptors_ok (db_descriptors d) (db_servers d);
  sk_digests : digests_ok (db_descriptors d);
  sk_bound : bound_ok except (db_grants d) (db_descriptors d) (db_servers d);
  sk_reviewed : reviewed_ok (db_descriptors d) (db_reviews d);
  sk_events : events_ok (db_event_revisions d) (db_outbox d);
  sk_announced : announced_ok (db_grants d) (db_servers d) (db_outbox d);
  sk_filed : filed_ok d }.
Record sys_okx (except : option (string * Z)) (d : DB) : Prop := {
  sk_tables :> tables_okx except d;
  sk_withdrawn : withdrawn_ok d }.
Abbreviation sys_ok := (sys_okx None).

(** ** The order *)

(** A closed grant gets no new call, and none of its calls a marker. *)
Definition frozen (d d' : DB) : Prop :=
  forall id g, db_grants d !! id = Some g -> closed (gw_State g) = true ->
  forall c r', db_tools d' !! c = Some r' -> tr_GrantID r' = id ->
  exists r, db_tools d !! c = Some r /\ (tr_SendMarkerAt r = None -> tr_SendMarkerAt r' = None).

Record sys_rel (d d' : DB) : Prop := {
  sr_tools : tools_le (db_tools d) (db_tools d');
  sr_grants : grants_le (db_grants d) (db_grants d');
  sr_descriptors : descriptors_le (db_descriptors d) (db_descriptors d');
  sr_servers : servers_le (db_servers d) (db_servers d');
  sr_reviews : db_reviews d ⊆ db_reviews d';
  sr_decisions : db_decisions d ⊆ db_decisions d';
  sr_commands : db_commands d ⊆ db_commands d';
  sr_refreshes : db_refreshes d ⊆ db_refreshes d';
  sr_outbox : exists l, db_outbox d' = db_outbox d ++ l;
  sr_frozen : frozen d d' }.

(** ** Elementary steps *)

Definition live_grant (d : DB) (id : string) (revision : Z) : Prop :=
  exists g, db_grants d !! id = Some g /\ gw_State g = GrantActive /\ gw_Revision g = revision.

Inductive elem_step (d : DB) : DB -> Prop :=
| ss_time now : elem_step d (d <| db_now := now |>)
| ss_call c r r' : db_tools d !! c = Some r -> row_step r r' ->
    (tr_SendMarkerAt r = None -> tr_SendMarkerAt r' <> None -> live_grant d (tr_GrantID r) (tr_GrantRevision r)) ->
    elem_step d (d <| db_tools := <[c := r']> (db_tools d) |>)
| ss_call_new c r : db_tools d !! c = None -> tr_CallID r = c -> fresh_row r ->
    live_grant d (tr_GrantID r) (tr_GrantRevision r) -> call_refers d c r ->
    elem_step d (d <| db_tools := <[c := r]> (db_tools d) |>)
| ss_grant id g g' : db_grants d !! id = Some g -> grant_step g g' ->
    (gw_State g' = GrantRevoked -> no_open_call (db_tools d) id) ->
    elem_step d (d <| db_grants := <[id := g']> (db_grants d) |>)
| ss_grant_new id g dr : db_grants d !! id = None -> gw_GrantID g = id -> made_id "grt-" id -> 0 < gw_Revision g < 2 ^ 63 ->
    gw_State g = GrantPending -> bound_to g (db_descriptors d) (db_servers d) dr -> dr_State dr = CatalogApproved ->
    elem_step d (d <| db_grants := <[id := g]> (db_grants d) |>)
| ss_decision id x : db_decisions d !! id = None -> decision_refers d id x ->
    elem_step d (d <| db_decisions := <[id := x]> (db_decisions d) |>)
| ss_command k x : db_commands d !! k = None -> command_refers d k x ->
    elem_step d (d <| db_commands := <[k := x]> (db_commands d) |>)
| ss_review_row id x : db_reviews d !! id = None -> review_refers d id x ->
    elem_step d (d <| db_reviews := <[id := x]> (db_reviews d) |>)
| ss_refresh k x : db_refreshes d !! k = None -> (rf_TaskID x, rf_Generation x) = k ->
    elem_step d (d <| db_refreshes := <[k := x]> (db_refreshes d) |>)
| ss_server_new id s : db_servers d !! id = None -> sv_ServerID s = id -> made_id "srv-" id -> is_i64 (sv_CurrentRevision s) ->
    elem_step d (d <| db_servers := <[id := s]> (db_servers d) |>)
| ss_server_revision id n : is_i64 n ->
    elem_step d (d <| db_servers := alter (fun s => s <| sv_CurrentRevision := n |>) id (db_servers d) |>)
| ss_descriptor_new k x : db_descriptors d !! k = None -> (dr_ServerID x, dr_Revision x) = k -> is_i64 (dr_Revision x) ->
    is_Some (db_servers d !! dr_ServerID x) -> dr_State x = CatalogReviewPending -> dr_Reviewer x = None ->
    (forall k' x', db_descriptors d !! k' = Some x' -> dr_ServerID x' = dr_ServerID x ->
       dr_DescriptorDigest x' <> dr_DescriptorDigest x) ->
    elem_step d (d <| db_descriptors := <[k := x]> (db_descriptors d) |>)
| ss_reviewed k x x' : db_descriptors d !! k = Some x -> dr_State x = CatalogReviewPending -> descriptor_step x x' ->
    dr_Reviewer x' <> Some (dr_DiscoveredBy x) ->
    (dr_State x' = CatalogApproved /\ decided_by (db_reviews d) x' ReviewApprove \/
     dr_State x' = CatalogRejected /\ decided_by (db_reviews d) x' ReviewReject) ->
    elem_step d (d <| db_descriptors := <[k := x']> (db_descriptors d) |>)
| ss_event env n : counted (e_AggregateType env) = true ->
    n = default 0 (db_event_revisions d !! (e_AggregateType env, e_AggregateID env)) + 1 -> n < 2 ^ 63 ->
    e_AggregateRevision env = format_int n -> announces (db_grants d) (db_servers d) env ->
    elem_step d (d <| db_event_revisions := <[(e_AggregateType env, e_AggregateID env) := n]> (db_event_revisions d) |>
                  <| db_outbox := db_outbox d ++ [env] |>)
| ss_publish env : counted (e_AggregateType env) = false -> elem_step d (d <| db_outbox := db_outbox d ++ [env] |>)
| ss_requests reqs atts : (requests_filed (db_requests d) (db_attempts d) -> requests_filed reqs atts) ->
    elem_step d (d <| db_requests := reqs |> <| db_attempts := atts |>).

(** What a transaction is made of: elementary steps that end with every
    withdrawal announced. *)
Definition sys_step (d d' : DB) : Prop := rtc elem_step d d' /\ (withdrawn_ok d -> withdrawn_ok d').

(** ** Facts of the tables *)

Lemma call_identity_keeps r r' : call_identity r' = call_identity r ->
  tr_CallID r' = tr_CallID r /\ tr_GrantID r' = tr_GrantID r /\ tr_GrantRevision r' = tr_GrantRevision r.
Proof. unfold call_identity. intros E. by simplify_eq. Qed.
Lemma row_step_keeps r r' : row_step r r' ->
  tr_CallID r' = tr_CallID r /\ tr_GrantID r' = tr_GrantID r /\ tr_GrantRevision r' = tr_GrantRevision r.
Proof. intros [E _]. by apply call_identity_keeps. Qed.
Lemma grant_identity_keeps g g' : grant_identity g' = grant_identity g ->
  gw_GrantID g' = gw_GrantID g /\ gw_Revision g' = gw_Revision g /\ gw_TenantID g' = gw_TenantID g /\
  gw_ServerID g' = gw_ServerID g /\ gw_DescriptorRevision g' = gw_DescriptorRevision g /\
  gw_DescriptorDigest g' = gw_DescriptorDigest g.
Proof. unfold grant_identity. intros E. by simplify_eq. Qed.
Lemma descriptor_identity_keeps d d' : descriptor_identity d' = descriptor_identity d ->
  dr_ServerID d' = dr_ServerID d /\ dr_Revision d' = dr_Revision d /\ dr_DescriptorDigest d' = dr_DescriptorDigest d /\
  dr_DiscoveredBy d' = dr_DiscoveredBy d.
Proof. unfold descriptor_identity. intros E. by simplify_eq. Qed.
Lemma server_identity_keeps s s' : server_identity s' = server_identity s ->
  sv_ServerID s' = sv_ServerID s /\ sv_TenantID s' = sv_TenantID s.
Proof. unfold server_identity. intros E. by simplify_eq. Qed.

(** A closed grant stays closed. *)
Lemma grant_move_closed s s' : grant_move s s' -> closed s = true -> closed s' = true.
Proof. by destruct 1. Qed.
Lemma grant_step_closed g g' : grant_step g g' -> closed (gw_State g) = true -> closed (gw_State g') = true.
Proof. intros (_ & _ & [-> |Hm] & _); [done|by apply grant_move_closed]. Qed.
Lemma grant_le_closed g g' : grant_le g g' -> closed (gw_State g) = true -> closed (gw_State g') = true.
Proof. induction 1; eauto using grant_step_closed. Qed.
Lemma grant_le_keeps g g' : grant_le g g' -> grant_identity g' = grant_identity g.
Proof. induction 1 as [|g g1 g' [E _] _ IH]; congruence. Qed.
Lemma descriptor_le_keeps d d' : descriptor_le d d' -> descriptor_identity d' = descriptor_identity d.
Proof. induction 1 as [|d d1 d' [E _] _ IH]; congruence. Qed.

Section Calls.
  Context (tools : gmap string ToolRequest) (grants : gmap string GrantRow).
  Implicit Types (c id : string) (r : ToolRequest) (g : GrantRow).

Lemma calls_ok_insert c r g : calls_ok tools grants -> grants !! tr_GrantID r = Some g ->
  gw_Revision g = tr_GrantRevision r -> calls_ok (<[c := r]> tools) grants.
Proof.
  intros Hok Hg Hr c' x. destruct (decide (c' = c)) as [->|Hne].
  - rewrite lookup_insert_eq. intros [= <-]. eauto.
  - rewrite lookup_insert_ne by congruence. apply Hok.
Qed.
Lemma calls_ok_step c r r' : calls_ok tools grants -> tools !! c = Some r -> row_step r r' ->
  calls_ok (<[c := r']> tools) grants.
Proof.
  intros Hok Hr (_ & Eg & Er)%row_step_keeps. destruct (Hok _ _ Hr) as (g & Hg & Hrev).
  eapply calls_ok_insert; [done|by rewrite Eg|by rewrite Er].
Qed.
Lemma calls_ok_grant id g g' : calls_ok tools grants -> grants !! id = Some g -> grant_identity g' = grant_identity g ->
  calls_ok tools (<[id := g']> grants).
Proof.
  intros Hok Hg (_ & Er & _)%grant_identity_keeps c r (x & Hx & Hrev)%Hok. destruct (decide (tr_GrantID r = id)) as [E|Hne].
  - rewrite E, lookup_insert_eq. exists g'. split; [done|]. rewrite E, Hg in Hx. injection Hx as <-. congruence.
  - rewrite lookup_insert_ne by congruence. eauto.
Qed.
Lemma calls_ok_grant_new id g : calls_ok tools grants -> grants !! id = None -> calls_ok tools (<[id := g]> grants).
Proof.
  intros Hok Hg c r (x & Hx & Hrev)%Hok. exists x. split; [|done].
  rewrite lookup_insert_ne; [done|]. intros ->. congruence.
Qed.

Lemma no_open_call_step c r r' id : no_open_call tools id -> tools !! c = Some r -> row_step r r' ->
  no_open_call (<[c := r']> tools) id.
Proof.
  intros Hno Hr Hs c' x. destruct (decide (c' = c)) as [->|Hne].
  - rewrite lookup_insert_eq. intros [= <-] Hid. destruct (row_step_keeps _ _ Hs) as (_ & Eg & _).
    eapply row_le_closed; [by apply rtc_once|]. eapply Hno; [done|congruence].
  - rewrite lookup_insert_ne by congruence. apply Hno.
Qed.
Lemma no_open_call_new c r id : no_open_call tools id -> tr_GrantID r <> id -> no_open_call (<[c := r]> tools) id.
Proof.
  intros Hno Hid c' x. destruct (decide (c' = c)) as [->|Hne].
  - rewrite lookup_insert_eq. by intros [= <-].
  - rewrite lookup_insert_ne by congruence. apply Hno.
Qed.

Lemma revoked_ok_step c r r' : revoked_ok tools grants -> tools !! c = Some r -> row_step r r' ->
  revoked_ok (<[c := r']> tools) grants.
Proof.
  intros Hok Hr Hs id g Hg Hst. destruct (Hok _ _ Hg Hst) as [Hc Hno]. split; [done|]. by eapply no_open_call_step.
Qed.
Lemma revoked_ok_new c r g : revoked_ok tools grants -> grants !! tr_GrantID r = Some g -> gw_State g = GrantActive ->
  revoked_ok (<[c := r]> tools) grants.
Proof.
  intros Hok Hg Ha id x Hx Hst. destruct (Hok _ _ Hx Hst) as [Hc Hno]. split; [done|].
  apply no_open_call_new; [done|]. intros <-. congruence.
Qed.
Lemma revoked_ok_grant id g g' : revoked_ok tools grants -> grants !! id = Some g -> grant_step g g' ->
  (gw_State g' = GrantRevoked -> no_open_call tools id) -> revoked_ok tools (<[id := g']> grants).
Proof.
  intros Hok Hg (_ & _ & _ & Hcv) Hd id' x. destruct (decide (id' = id)) as [->|Hne].
  - rewrite lookup_insert_eq. intros [= <-] Hst. auto.
  - rewrite lookup_insert_ne by congruence. apply Hok.
Qed.
Lemma revoked_ok_grant_new id g : revoked_ok tools grants -> gw_State g = GrantPending -> revoked_ok tools (<[id := g]> grants).
Proof.
  intros Hok Hp id' x. destruct (decide (id' = id)) as [->|Hne].
  - rewrite lookup_insert_eq. intros [= <-] Hst. congruence.
  - rewrite lookup_insert_ne by congruence. apply Hok.
Qed.
End Calls.

Section Bound.
  Context (except : option (string * Z)).
  Implicit Types (grants : gmap string GrantRow) (descs : gmap (string * Z) DescriptorRow) (servers : gmap string Server).

Lemma bound_to_identity g g' descs servers d :
  grant_identity g' = grant_identity g -> bound_to g descs servers d -> bound_to g' descs servers d.
Proof.
  intros (_ & _ & Et & Es & Er & Ed)%grant_identity_keeps (Hd & Hdg & s & Hs & Ht). unfold bound_to. rewrite Es, Er, Ed, Et. eauto.
Qed.
Lemma bound_ok_grant grants descs servers id g g' : bound_ok except grants descs servers -> grants !! id = Some g ->
  grant_step g g' -> bound_ok except (<[id := g']> grants) descs servers.
Proof.
  intros Hok Hg Hs id' x. destruct (decide (id' = id)) as [->|Hne].
  - rewrite lookup_insert_eq. intros [= <-]. destruct (Hok _ _ Hg) as (d & Hb & Ha). pose proof Hs as [Hid _].
    exists d. split; [by eapply bound_to_identity|]. intros Hcl.
    apply grant_identity_keeps in Hid as (_ & _ & _ & -> & -> & _). apply Ha.
    destruct (closed (gw_State g)) eqn:E; [|done]. by rewrite (grant_step_closed _ _ Hs E) in Hcl.
  - rewrite lookup_insert_ne by congruence. apply Hok.
Qed.
Lemma bound_ok_grant_new grants descs servers id g d : bound_ok except grants descs servers ->
  bound_to g descs servers d -> dr_State d = CatalogApproved -> bound_ok except (<[id := g]> grants) descs servers.
Proof.
  intros Hok Hb Ha id' x. destruct (decide (id' = id)) as [->|Hne].
  - rewrite lookup_insert_eq. intros [= <-]. eauto.
  - rewrite lookup_insert_ne by congruence. apply Hok.
Qed.
Lemma bound_ok_servers grants descs servers servers' : bound_ok except grants descs servers -> servers_le servers servers' ->
  bound_ok except grants descs servers'.
Proof.
  intros Hok Hle id g (d & (Hd & Hdg & s & Hs & Ht) & Ha)%Hok. exists d. split; [|done]. split_and!; [done..|].
  apply Hle in Hs as (s' & Hs' & (_ & Et)%server_identity_keeps). exists s'. split; [done|congruence].
Qed.
(** A step of a revision leaves the grants of the others bound, and its own
    when it stays or becomes approved. *)
Lemma bound_ok_descriptor grants descs servers k d d' except' : bound_ok except grants descs servers ->
  descs !! k = Some d -> descriptor_identity d' = descriptor_identity d ->
  (except' = Some k /\ (except = None \/ except = Some k) \/ except' = except /\ (dr_State d = CatalogApproved -> dr_State d' = CatalogApproved)) ->
  bound_ok except' grants (<[k := d']> descs) servers.
Proof.
  intros Hok Hk (_ & _ & Edg & _)%descriptor_identity_keeps He id g (x & (Hx & Hdg & Hs) & Ha)%Hok.
  destruct (decide ((gw_ServerID g, gw_DescriptorRevision g) = k)) as [E|Hne].
  - exists d'. rewrite E, Hk in Hx. injection Hx as <-. split.
    + unfold bound_to. rewrite E, lookup_insert_eq. split_and!; [done|congruence|done].
    + intros Hcl. destruct He as [[-> _]|[-> Hst]]; [left; congruence|]. destruct (Ha Hcl) as [?|?]; auto.
  - exists x. split; [unfold bound_to; by rewrite lookup_insert_ne by congruence|]. intros Hcl.
    destruct He as [[-> He]|[-> _]]; [|by apply Ha]. destruct (Ha Hcl) as [Hx'|?]; [|by right].
    destruct He as [-> | ->]; [done|]. injection Hx' as ->. done.
Qed.
Lemma bound_ok_descriptor_new grants descs servers k d : bound_ok except grants descs servers -> descs !! k = None ->
  bound_ok except grants (<[k := d]> descs) servers.
Proof.
  intros Hok Hk id g (x & (Hx & Hdg & Hs) & Ha)%Hok. exists x. split; [|done]. unfold bound_to.
  rewrite lookup_insert_ne; [done|]. intros ->. congruence.
Qed.
End Bound.

Section Catalogs.
  Implicit Types (descs : gmap (string * Z) DescriptorRow) (servers : gmap string Server) (reviews : gmap string Review).

Lemma descriptors_ok_servers descs servers servers' : descriptors_ok descs servers -> servers_le servers servers' ->
  descriptors_ok descs servers'.
Proof.
  intros Hok Hle k d (Hk & Hi & s & Hs)%Hok. split_and!; [done..|]. apply Hle in Hs as (s' & Hs' & _). by exists s'.
Qed.
Lemma descriptors_ok_insert descs servers k d : descriptors_ok descs servers -> (dr_ServerID d, dr_Revision d) = k ->
  is_i64 (dr_Revision d) -> is_Some (servers !! dr_ServerID d) -> descriptors_ok (<[k := d]> descs) servers.
Proof.
  intros Hok Hk Hi Hs k' x. destruct (decide (k' = k)) as [->|Hne].
  - rewrite lookup_insert_eq. by intros [= <-].
  - rewrite lookup_insert_ne by congruence. apply Hok.
Qed.
Lemma descriptors_ok_step descs servers k d d' : descriptors_ok descs servers -> descs !! k = Some d ->
  descriptor_identity d' = descriptor_identity d -> descriptors_ok (<[k := d']> descs) servers.
Proof.
  intros Hok Hk (Es & Er & _ & _)%descriptor_identity_keeps. destruct (Hok _ _ Hk) as (Hkey & Hi & Hs).
  apply descriptors_ok_insert; rewrite ?Es, ?Er; done.
Qed.

Lemma digests_ok_step descs k d d' : digests_ok descs -> descs !! k = Some d ->
  descriptor_identity d' = descriptor_identity d -> digests_ok (<[k := d']> descs).
Proof.
  intros Hok Hk (Es & Er & Edg & _)%descriptor_identity_keeps k1 k2 d1 d2.
  destruct (decide (k1 = k)) as [->|H1], (decide (k2 = k)) as [->|H2]; rewrite ?lookup_insert_eq, ?lookup_insert_ne by congruence.
  - done.
  - intros [= <-] H. rewrite Es, Edg. by apply Hok.
  - intros H [= <-]. rewrite Es, Edg. by apply Hok.
  - apply Hok.
Qed.
Lemma digests_ok_new descs k d : digests_ok descs ->
  (forall k' x', descs !! k' = Some x' -> dr_ServerID x' = dr_ServerID d -> dr_DescriptorDigest x' <> dr_DescriptorDigest d) ->
  digests_ok (<[k := d]> descs).
Proof.
  intros Hok Hn k1 k2 d1 d2.
  destruct (decide (k1 = k)) as [->|H1], (decide (k2 = k)) as [->|H2]; rewrite ?lookup_insert_eq, ?lookup_insert_ne by congruence.
  - done.
  - intros [= <-] H Hs Hd. by destruct (Hn _ _ H).
  - intros H [= <-] Hs Hd. by destruct (Hn _ _ H).
  - apply Hok.
Qed.

Lemma decided_by_mono reviews reviews' d decision : reviews ⊆ reviews' -> decided_by reviews d decision -> decided_by reviews' d decision.
Proof.
  intros Hle (r & id & w & Hr & Hid & Hw & Hx). exists r, id, w. split_and!; try done; [|apply Hx..]. by eapply lookup_weaken.
Qed.
Lemma reviewed_ok_mono descs reviews reviews' : reviews ⊆ reviews' -> reviewed_ok descs reviews -> reviewed_ok descs reviews'.
Proof. intros Hle Hok k d (H1 & H2 & H3)%Hok. split_and!; eauto using decided_by_mono. Qed.
Lemma reviewed_ok_insert descs reviews k d : reviewed_ok descs reviews ->
  dr_Reviewer d <> Some (dr_DiscoveredBy d) ->
  (dr_State d = CatalogApproved -> decided_by reviews d ReviewApprove) ->
  (dr_State d = CatalogRejected -> decided_by reviews d ReviewReject) -> reviewed_ok (<[k := d]> descs) reviews.
Proof.
  intros Hok H1 H2 H3 k' x. destruct (decide (k' = k)) as [->|Hne].
  - rewrite lookup_insert_eq. by intros [= <-].
  - rewrite lookup_insert_ne by congruence. apply Hok.
Qed.

Lemma servers_le_refl servers : servers_le servers servers.
Proof. intros id s Hs. eauto. Qed.
Lemma servers_le_trans s1 s2 s3 : servers_le s1 s2 -> servers_le s2 s3 -> servers_le s1 s3.
Proof. intros H1 H2 id s (x & Hx & E1)%H1. apply H2 in Hx as (y & Hy & E2). exists y. split; [done|congruence]. Qed.
Lemma servers_le_new servers id s : servers !! id = None -> servers_le servers (<[id := s]> servers).
Proof. intros Hn i x Hx. exists x. split; [|done]. rewrite lookup_insert_ne; [done|]. intros ->. congruence. Qed.
Lemma servers_le_revision servers id n : servers_le servers (alter (fun s => s <| sv_CurrentRevision := n |>) id servers).
Proof.
  intros i x Hx. destruct (decide (i = id)) as [->|Hne].
  - rewrite lookup_alter_eq, Hx. eexists. by split.
  - rewrite lookup_alter_ne by congruence. eauto.
Qed.

Lemma event_revisions_app ty id l e : event_revisions ty id (l ++ [e]) =
  event_revisions ty id l ++ (if of_aggregate ty id e then [e_AggregateRevision e] else []).
Proof. unfold event_revisions. rewrite List.filter_app, map_app. cbn. by destruct (of_aggregate ty id e). Qed.
Lemma of_aggregate_spec ty id e : of_aggregate ty id e = true <-> ty = e_AggregateType e /\ id = e_AggregateID e.
Proof. unfold of_aggregate. rewrite andb_true_iff, !String.eqb_eq. by split; intros [-> ->]. Qed.
Lemma events_ok_next revs outbox e n : events_ok revs outbox -> counted (e_AggregateType e) = true ->
  n = default 0 (revs !! (e_AggregateType e, e_AggregateID e)) + 1 -> n < 2 ^ 63 -> e_AggregateRevision e = format_int n ->
  events_ok (<[(e_AggregateType e, e_AggregateID e) := n]> revs) (outbox ++ [e]).
Proof.
  intros Hok Hc Hn Hb Hr ty id Hty. destruct (Hok ty id Hty) as [Hr0 He]. rewrite event_revisions_app.
  destruct (of_aggregate ty id e) eqn:E.
  - apply of_aggregate_spec in E as [-> ->]. rewrite lookup_insert_eq, He. clear He. cbn [default from_option id].
    set (m := default 0 _) in *. rewrite Hr, Hn. split; [lia|].
    rewrite Z2Nat.inj_add, Nat.add_1_r, seq_S, map_app by lia. cbn [map]. do 3 f_equal. lia.
  - rewrite lookup_insert_ne, app_nil_r by (intros [= <- <-]; by rewrite (proj2 (of_aggregate_spec _ _ e)) in E).
    by split.
Qed.
Lemma events_ok_uncounted revs outbox e : events_ok revs outbox -> counted (e_AggregateType e) = false -> events_ok revs (outbox ++ [e]).
Proof.
  intros Hok Hc ty id Hty. destruct (Hok ty id Hty) as [Hr0 He]. rewrite event_revisions_app.
  destruct (of_aggregate ty id e) eqn:E; [|by rewrite app_nil_r].
  apply of_aggregate_spec in E as [-> _]. congruence.
Qed.
End Catalogs.

(** ** Every step keeps the invariant and follows the order *)

#[export] Instance tools_le_preorder : PreOrder tools_le := table_le_preorder _ _.
#[export] Instance grants_le_preorder : PreOrder grants_le := table_le_preorder _ _.
#[export] Instance descriptors_le_preorder : PreOrder descriptors_le := table_le_preorder _ _.

Lemma frozen_same d d' : db_tools d' = db_tools d -> frozen d d'.
Proof. intros E id g _ _ c r' Hr _. rewrite E in Hr. eauto. Qed.
Lemma outbox_same (l : list Envelope) : exists l', l = l ++ l'.
Proof. exists []. by rewrite app_nil_r. Qed.

Lemma sys_rel_refl d : sys_rel d d.
Proof. constructor; try reflexivity; auto using servers_le_refl, outbox_same, frozen_same. Qed.
Lemma sys_rel_trans d1 d2 d3 : sys_rel d1 d2 -> sys_rel d2 d3 -> sys_rel d1 d3.
Proof.
  intros [T1 G1 D1 S1 R1 C1 M1 F1 (l1 & O1) Z1] [T2 G2 D2 S2 R2 C2 M2 F2 (l2 & O2) Z2].
  constructor; try (by etrans); [by eapply servers_le_trans|exists (l1 ++ l2); by rewrite O2, O1, app_assoc|].
  intros id g Hg Hcl c r3 Hr3 Hid. destruct (table_le_row _ _ _ _ _ _ G1 Hg) as (g2 & Hg2 & Hle).
  destruct (Z2 id g2 Hg2 (grant_le_closed _ _ Hle Hcl) c r3 Hr3 Hid) as (r2 & Hr2 & Hm2).
  assert (tr_GrantID r2 = id) as Hid2.
  { destruct (table_le_row _ _ _ _ _ _ T2 Hr2) as (r3' & Hr3' & Hle2). rewrite Hr3 in Hr3'. injection Hr3' as <-.
    apply row_le_keeps in Hle2 as [(_ & E & _)%call_identity_keeps _]. congruence. }
  destruct (Z1 id g Hg Hcl c r2 Hr2 Hid2) as (r & Hr & Hm). eauto.
Qed.

Lemma frozen_call d c r r' : calls_ok (db_tools d) (db_grants d) -> db_tools d !! c = Some r -> row_step r r' ->
  (tr_SendMarkerAt r = None -> tr_SendMarkerAt r' <> None -> live_grant d (tr_GrantID r) (tr_GrantRevision r)) ->
  frozen d (d <| db_tools := <[c := r']> (db_tools d) |>).
Proof.
  intros Hok Hr Hs Hm id g Hg Hcl c' x Hx Hid. cbn in Hx. destruct (decide (c' = c)) as [->|Hne].
  - rewrite lookup_insert_eq in Hx. injection Hx as <-. exists r. split; [done|]. intros Hn.
    destruct (tr_SendMarkerAt r') as [m|] eqn:E; [|done]. destruct (Hm Hn ltac:(done)) as (g' & Hg' & Ha & _).
    destruct (row_step_keeps _ _ Hs) as (_ & Eg & _). rewrite <- Eg, Hid, Hg in Hg'. injection Hg' as <-. by rewrite Ha in Hcl.
  - rewrite lookup_insert_ne in Hx by congruence. eauto.
Qed.
Lemma frozen_call_new d c r : live_grant d (tr_GrantID r) (tr_GrantRevision r) ->
  frozen d (d <| db_tools := <[c := r]> (db_tools d) |>).
Proof.
  intros (g' & Hg' & Ha & _) id g Hg Hcl c' x Hx Hid. cbn in Hx. destruct (decide (c' = c)) as [->|Hne].
  - rewrite lookup_insert_eq in Hx. injection Hx as <-. rewrite Hid, Hg in Hg'. injection Hg' as <-. by rewrite Ha in Hcl.
  - rewrite lookup_insert_ne in Hx by congruence. eauto.
Qed.

(** The tables a step leaves alone, or only adds to. *)
Ltac same_table :=
  first [reflexivity | apply servers_le_refl | apply outbox_same | by apply frozen_same | by apply insert_subseteq
        | by apply servers_le_new | apply servers_le_revision | by eexists].
Lemma elem_step_rel except d d' : elem_step d d' -> tables_okx except d -> sys_rel d d'.
Proof.
  intros Hs Hok. destruct Hs; constructor; cbn; try same_table.
  - by eapply table_le_step.
  - eapply frozen_call; eauto using sk_calls.
  - by apply table_le_new.
  - by apply frozen_call_new.
  - by eapply table_le_step.
  - by apply table_le_new.
  - by apply table_le_new.
  - by eapply table_le_step.
Qed.

Lemma announces_mono grants grants' servers servers' env : grants_le grants grants' -> servers_le servers servers' ->
  announces grants servers env -> announces grants' servers' env.
Proof.
  intros Hg Hs H. destruct H as [eventID g rev corr now row Hr Ht Hc|eventID x rev corr now s Hx Ht].
  - destruct (table_le_row _ _ _ _ _ _ Hg Hr) as (row' & Hr' & Hle). pose proof (grant_le_keeps _ _ Hle) as Hid.
    apply grant_identity_keeps in Hid as (_ & _ & Et & _). apply (an_grant _ _ _ _ _ _ _ row'); [done|congruence|by eapply grant_le_closed].
  - destruct (Hs _ _ Hx) as (s' & Hx' & Hid). apply server_identity_keeps in Hid as [_ Et].
    apply (an_server _ _ _ _ _ _ _ s'); [done|congruence].
Qed.
Lemma announced_step except d d' : elem_step d d' -> tables_okx except d -> announced_ok (db_grants d') (db_servers d') (db_outbox d').
Proof.
  intros Hs Hok. pose proof (elem_step_rel _ _ _ Hs Hok) as R. intros env Hin Hc.
  eapply announces_mono; [apply (sr_grants _ _ R)|apply (sr_servers _ _ R)|].
  assert (env ∈ db_outbox d \/ announces (db_grants d) (db_servers d) env) as [Hold|]; [|by apply (sk_announced _ _ Hok)|done].
  destruct Hs; cbn in Hin; try (by left).
  - apply elem_of_app in Hin as [| ->%list_elem_of_singleton]; [by left|by right].
  - apply elem_of_app in Hin as [| ->%list_elem_of_singleton]; [by left|congruence].
Qed.
(** What a row refers to stays. *)
Lemma grant_stays d d' id g : sys_rel d d' -> db_grants d !! id = Some g ->
  exists g', db_grants d' !! id = Some g' /\ grant_identity g' = grant_identity g.
Proof. intros R Hg. destruct (table_le_row _ _ _ _ _ _ (sr_grants _ _ R) Hg) as (g' & Hg' & Hle%grant_le_keeps). by exists g'. Qed.
Lemma revision_stays d d' k x : sys_rel d d' -> db_descriptors d !! k = Some x ->
  exists x', db_descriptors d' !! k = Some x' /\ descriptor_identity x' = descriptor_identity x.
Proof.
  intros R Hx. destruct (table_le_row _ _ _ _ _ _ (sr_descriptors _ _ R) Hx) as (x' & Hx' & Hle%descriptor_le_keeps). by exists x'.
Qed.
Lemma granted_terms_keep g g' : grant_identity g' = grant_identity g -> granted_terms g' = granted_terms g.
Proof. unfold grant_identity, granted_terms. intros E. by simplify_eq; repeat match goal with H : _ = _ |- _ => rewrite H; clear H end. Qed.
Lemma call_terms_keep r r' : call_identity r' = call_identity r -> tr_GrantID r' = tr_GrantID r /\ call_terms r' = call_terms r.
Proof. unfold call_identity, call_terms. intros E. by simplify_eq; repeat match goal with H : _ = _ |- _ => rewrite H; clear H end. Qed.
Lemma call_refers_stays d d' c r : sys_rel d d' -> call_refers d c r -> call_refers d' c r.
Proof.
  intros R (g & Hg & Ht). destruct (grant_stays _ _ _ _ R Hg) as (g' & Hg' & E%granted_terms_keep). exists g'. split; [done|congruence].
Qed.
Lemma review_refers_stays d d' id w : sys_rel d d' -> review_refers d id w -> review_refers d' id w.
Proof.
  intros R (Hid & x & Hx & Hd). split; [done|].
  destruct (revision_stays _ _ _ _ R Hx) as (x' & Hx' & (_ & _ & E & _)%descriptor_identity_keeps). exists x'. split; [done|congruence].
Qed.
Lemma decision_refers_stays d d' id y : sys_rel d d' -> decision_refers d id y -> decision_refers d' id y.
Proof.
  intros R (Hid & g & Hg & Ht). split; [done|].
  destruct (grant_stays _ _ _ _ R Hg) as (g' & Hg' & (_ & _ & E & _)%grant_identity_keeps). exists g'. split; [done|congruence].
Qed.
Lemma command_refers_stays d d' k c : sys_rel d d' -> command_refers d k c -> command_refers d' k c.
Proof.
  intros R (Hk & [x Hx]). split; [done|]. destruct (revision_stays _ _ _ _ R Hx) as (x' & Hx' & _). by exists x'.
Qed.
(** The rows of a table that were there, or that were written with what they
    refer to. *)
Lemma refers_stay {K V} `{Countable K} (P P' : K -> V -> Prop) (t t' : gmap K V) :
  (forall k v, P k v -> P' k v) -> all_rows P t -> (forall k v, t' !! k = Some v -> t !! k = Some v \/ P k v) -> all_rows P' t'.
Proof. intros Hm Ht Hn k v [Hv|Hv]%Hn; apply Hm; [by apply Ht|done]. Qed.
Lemma inserted_row {K V} `{Countable K} (P : K -> V -> Prop) (t : gmap K V) k0 v0 : P k0 v0 ->
  forall k v, <[k0 := v0]> t !! k = Some v -> t !! k = Some v \/ P k v.
Proof.
  intros Hv k v. destruct (decide (k = k0)) as [->|Hne].
  - rewrite lookup_insert_eq. intros [= <-]. by right.
  - rewrite lookup_insert_ne by congruence. by left.
Qed.
Lemma filed_step except d d' : elem_step d d' -> tables_okx except d -> filed_ok d'.
Proof.
  intros Hs Hok. pose proof (elem_step_rel _ _ _ Hs Hok) as R. destruct (sk_filed _ _ Hok) as [FG FS F1 F2 F3 F4 F5 F6]. split.
  - apply (refers_stay (fun id _ => made_id "grt-" id) _ (db_grants d)); [done|exact FG|].
    destruct Hs; cbn; try (by left); apply inserted_row; [by eapply FG|done].
  - destruct Hs; cbn; try exact FS; [by apply all_rows_insert|by apply all_rows_alter].
  - eapply refers_stay; [intros k v; by apply call_refers_stays|exact F1|]. destruct Hs; cbn; try (by left); apply inserted_row; [|done].
    destruct H0 as [E _]. destruct (F1 _ _ H) as (g & Hg & Ht). apply call_terms_keep in E as [E1 E2]. exists g. by rewrite E1, E2.
  - eapply refers_stay; [intros k v; by apply review_refers_stays|exact F2|]. destruct Hs; cbn; try (by left). by apply inserted_row.
  - eapply refers_stay; [intros k v; by apply decision_refers_stays|exact F3|]. destruct Hs; cbn; try (by left). by apply inserted_row.
  - eapply refers_stay; [intros k v; by apply command_refers_stays|exact F4|]. destruct Hs; cbn; try (by left). by apply inserted_row.
  - apply (refers_stay (fun k x => (rf_TaskID x, rf_Generation x) = k) _ (db_refreshes d)); [done|exact F5|]. destruct Hs; cbn; try (by left). by apply inserted_row.
  - destruct Hs; cbn; auto.
Qed.
Lemma elem_step_ok except d d' : elem_step d d' -> tables_okx except d -> tables_okx except d'.
Proof.
  intros Hs Hok. pose proof (announced_step _ _ _ Hs Hok) as A. pose proof (filed_step _ _ _ Hs Hok) as F. destruct Hok as [T G C R SV D DG B RV E _ _].
  destruct Hs; constructor; cbn in A |- *; try done; try exact F.
  - apply all_rows_insert; [done|]. eapply row_step_ok; [done|by apply T].
  - by eapply calls_ok_step.
  - by eapply revoked_ok_step.
  - apply all_rows_insert; [done|]. destruct H1 as (Hst & Hm & _). split; [done|]. by rewrite Hst, Hm.
  - destruct H2 as (g & Hg & _ & Hr). by eapply calls_ok_insert.
  - destruct H2 as (g & Hg & Ha & Hr). by eapply revoked_ok_new.
  - apply all_rows_insert; [done|]. destruct (G _ _ H) as [Hi Hr]. destruct H0 as [(-> & -> & _)%grant_identity_keeps _]. done.
  - destruct H0 as [Hid _]. by eapply calls_ok_grant.
  - by eapply revoked_ok_grant.
  - by eapply bound_ok_grant.
  - by apply all_rows_insert.
  - by apply calls_ok_grant_new.
  - by apply revoked_ok_grant_new.
  - by eapply bound_ok_grant_new.
  - eapply reviewed_ok_mono; [by apply insert_subseteq|done].
  - by apply all_rows_insert.
  - eapply descriptors_ok_servers; [done|by apply servers_le_new].
  - eapply bound_ok_servers; [done|by apply servers_le_new].
  - apply all_rows_alter; [done|]. intros s [Hi _]. by split.
  - eapply descriptors_ok_servers; [done|apply servers_le_revision].
  - eapply bound_ok_servers; [done|apply servers_le_revision].
  - by apply descriptors_ok_insert.
  - by apply digests_ok_new.
  - by apply bound_ok_descriptor_new.
  - apply reviewed_ok_insert; [done|by rewrite H4|congruence..].
  - destruct H1 as [Hid _]. by eapply descriptors_ok_step.
  - destruct H1 as [Hid _]. by eapply digests_ok_step.
  - destruct H1 as [Hid _]. eapply bound_ok_descriptor; [done..|]. right. split; [done|congruence].
  - pose proof H1 as [(_ & _ & _ & Ed)%descriptor_identity_keeps _].
    apply reviewed_ok_insert; [done|by rewrite Ed|naive_solver congruence..].
  - by apply events_ok_next.
  - by apply events_ok_uncounted.
Qed.

Lemma elem_steps except d d' : rtc elem_step d d' -> tables_okx except d -> tables_okx except d' /\ sys_rel d d'.
Proof.
  induction 1 as [d|d d1 d' Hs _ IH]; intros Hok; [split; [done|apply sys_rel_refl]|].
  destruct (IH (elem_step_ok _ _ _ Hs Hok)) as [Hok' Hr]. split; [done|].
  eapply sys_rel_trans; [by eapply elem_step_rel|done].
Qed.
Lemma sys_step_rel except d d' : sys_step d d' -> sys_okx except d -> sys_rel d d'.
Proof. intros [Hs _] Hok. exact (proj2 (elem_steps _ _ _ Hs Hok)). Qed.
Lemma sys_step_ok except d d' : sys_step d d' -> sys_okx except d -> sys_okx except d'.
Proof. intros [Hs Hw] [Hok Hwd]. split; [exact (proj1 (elem_steps _ _ _ Hs Hok))|by apply Hw]. Qed.

(** Withdrawals stay announced while nothing is withdrawn without its event. *)
Lemma announced_more outbox l :
  (forall id, grant_announced id outbox -> grant_announced id (outbox ++ l)) /\
  (forall id, server_announced id outbox -> server_announced id (outbox ++ l)).
Proof.
  split.
  - intros id (e & He & Ha). exists e. split; [|done]. apply elem_of_app. by left.
  - intros id (i & x & rev & corr & now & He & Ha). exists i, x, rev, corr, now. split; [|done]. apply elem_of_app. by left.
Qed.
Lemma withdrawn_step d d' l : db_outbox d' = db_outbox d ++ l ->
  (forall id g', db_grants d' !! id = Some g' -> withdrawn_grant (gw_State g') = true ->
    (exists g, db_grants d !! id = Some g /\ withdrawn_grant (gw_State g) = true) \/ grant_announced id (db_outbox d')) ->
  (forall k x', db_descriptors d' !! k = Some x' -> withdrawn_revision (dr_State x') = true ->
    (exists x, db_descriptors d !! k = Some x /\ dr_ServerID x = dr_ServerID x' /\ withdrawn_revision (dr_State x) = true) \/
    server_announced (dr_ServerID x') (db_outbox d')) ->
  withdrawn_ok d -> withdrawn_ok d'.
Proof.
  intros E Hg Hx [W1 W2]. destruct (announced_more (db_outbox d) l) as [M1 M2]. rewrite <- E in M1, M2. split.
  - intros id g' Hg' Hw. destruct (Hg _ _ Hg' Hw) as [(g & Hgr & Hw')|]; [|done]. by eapply M1, W1.
  - intros k x' Hx' Hw. destruct (Hx _ _ Hx' Hw) as [(x & Hxr & <- & Hw')|]; [|done]. by eapply M2, W2.
Qed.
(** A step that leaves the grants and the revisions alone. *)
Lemma quiet_step d d' : elem_step d d' -> db_grants d' = db_grants d -> db_descriptors d' = db_descriptors d -> sys_step d d'.
Proof.
  intros Hs Hg Hx. split; [by apply rtc_once|].
  assert (exists l, db_outbox d' = db_outbox d ++ l) as [l El] by (destruct Hs; cbn; try apply outbox_same; by eexists).
  apply (withdrawn_step d d' l El).
  - intros id g' H Hw. rewrite Hg in H. left. by exists g'.
  - intros k x' H Hw. rewrite Hx in H. left. by exists x'.
Qed.

Ltac quiet_elem := apply quiet_step; [by constructor|reflexivity|reflexivity].
(** A step of a row that withdraws nothing. *)
Lemma grant_kept d id g' : elem_step d (d <| db_grants := <[id := g']> (db_grants d) |>) ->
  (withdrawn_grant (gw_State g') = true -> exists g, db_grants d !! id = Some g /\ withdrawn_grant (gw_State g) = true) ->
  sys_step d (d <| db_grants := <[id := g']> (db_grants d) |>).
Proof.
  intros Hs Hw. split; [by apply rtc_once|]. apply (withdrawn_step d _ []); [symmetry; apply app_nil_r|..]; cbn.
  - intros i x Hx Hwx. left. destruct (decide (i = id)) as [->|Hne].
    + rewrite lookup_insert_eq in Hx. injection Hx as <-. by apply Hw.
    + rewrite lookup_insert_ne in Hx by congruence. by exists x.
  - intros k x Hx Hwx. left. by exists x.
Qed.
Lemma revision_kept d k x' : elem_step d (d <| db_descriptors := <[k := x']> (db_descriptors d) |>) ->
  withdrawn_revision (dr_State x') = false -> sys_step d (d <| db_descriptors := <[k := x']> (db_descriptors d) |>).
Proof.
  intros Hs Hw. split; [by apply rtc_once|]. apply (withdrawn_step d _ []); [symmetry; apply app_nil_r|..]; cbn.
  - intros i x Hx Hwx. left. by exists x.
  - intros i x Hx Hwx. left. destruct (decide (i = k)) as [->|Hne].
    + rewrite lookup_insert_eq in Hx. injection Hx as <-. by rewrite Hw in Hwx.
    + rewrite lookup_insert_ne in Hx by congruence. by exists x.
Qed.

(** ** Disabling a revision

    It leaves the revision's grants to be revoked before the transaction
    ends. *)

Lemma filed_revision d k x' : sys_rel d (d <| db_descriptors := <[k := x']> (db_descriptors d) |>) ->
  filed_ok d -> filed_ok (d <| db_descriptors := <[k := x']> (db_descriptors d) |>).
Proof.
  intros R [FG FS F1 F2 F3 F4 F5 F6]. split; cbn; [done|done|..|done|done]; (eapply refers_stay; [intros i v|eassumption|by left]).
  - by apply call_refers_stays.
  - by apply review_refers_stays.
  - by apply decision_refers_stays.
  - by apply command_refers_stays.
Qed.
Lemma disable_step d k x x' : db_descriptors d !! k = Some x -> descriptor_identity x' = descriptor_identity x ->
  dr_State x <> CatalogDisabled -> dr_State x' = CatalogDisabled -> dr_Reviewer x' = dr_Reviewer x ->
  dr_ReviewID x' = dr_ReviewID x -> tables_okx None d ->
  let d' := d <| db_descriptors := <[k := x']> (db_descriptors d) |> in tables_okx (Some k) d' /\ sys_rel d d'.
Proof.
  intros Hk Hid Hs Hs' Hr Hri [T G C R SV D DG B RV E A F]. cbv zeta. set (d' := d <| db_descriptors := _ |>).
  assert (sys_rel d d') as Hrel.
  { constructor; cbn; try same_table. eapply table_le_step; [done|]. split_and!; [done| |done]. rewrite Hs'. by constructor. }
  split; [|done]. constructor; cbn; try done.
  - by eapply descriptors_ok_step.
  - by eapply digests_ok_step.
  - eapply bound_ok_descriptor; [done..|]. left. auto.
  - apply descriptor_identity_keeps in Hid as (_ & _ & _ & Ed). destruct (RV _ _ Hk) as [Hn _].
    apply reviewed_ok_insert; [done|by rewrite Hr, Ed|congruence..].
  - by apply (filed_revision d k x').
Qed.

(** Without a live grant of its own the revision needs no exception. *)
Lemma except_none k d : sys_okx (Some k) d ->
  (forall id g, db_grants d !! id = Some g -> (gw_ServerID g, gw_DescriptorRevision g) = k -> closed (gw_State g) = true) ->
  sys_ok d.
Proof.
  intros [[T G C R SV D DG B RV E A F] W] Hn. split; [|done]. constructor; try done. intros id g Hg. destruct (B _ _ Hg) as (x & Hb & Ha).
  exists x. split; [done|]. intros Hcl. destruct (Ha Hcl) as [Hk|?]; [|by right]. injection Hk as Hk.
  by rewrite (Hn _ _ Hg) in Hcl.
Qed.

(** The empty database. *)
Lemma sys_ok_empty now : sys_ok (empty_db now).
Proof.
  split; constructor; cbn; try done; try (by intros ? ? ?%lookup_empty_Some || (intros ? ? _; cbn; by split) || intros ? ?%elem_of_nil).
Qed.

(** ** Transactions made of steps *)

Lemma sys_steps except d d' : rtc sys_step d d' -> sys_okx except d -> sys_okx except d' /\ sys_rel d d'.
Proof.
  induction 1 as [d|d d1 d' Hs _ IH]; intros Hok; [split; [done|apply sys_rel_refl]|].
  destruct (IH (sys_step_ok _ _ _ Hs Hok)) as [Hok' Hr]. split; [done|].
  eapply sys_rel_trans; [by eapply sys_step_rel|done].
Qed.

(** A transaction that commits a sequence of steps, also in the middle of a
    disabling; one that keeps the invariant and the order. *)
Definition steps_tx {A} (m : tx A) : Prop := forall except d a d',
  sys_okx except d -> m d = Ok (a, d') -> rtc sys_step d d'.
Definition good_tx {A} (m : tx A) : Prop := forall d a d',
  sys_ok d -> m d = Ok (a, d') -> sys_ok d' /\ sys_rel d d'.

Lemma steps_good {A} (m : tx A) : steps_tx m -> good_tx m.
Proof. intros Hm d a d' Hok H. eapply sys_steps; [|done]. by eapply Hm. Qed.
Lemma steps_read {A} (m : tx A) : (forall d a d', m d = Ok (a, d') -> d' = d) -> steps_tx m.
Proof. intros Hm except d a d' _ ->%Hm. constructor. Qed.
Lemma steps_gets {A} (f : DB -> A) : steps_tx (gets f).
Proof. apply steps_read. by intros d a d' [_ ->]%gets_Ok. Qed.
Lemma steps_ret {A} (a : A) : steps_tx (mret a).
Proof. apply steps_read. by intros d x d' [_ ->]%mret_Ok. Qed.
Lemma steps_lift {A} (r : res A) : steps_tx (lift r).
Proof. apply steps_read. by intros d x d' [_ ->]%lift_Ok. Qed.
Lemma steps_fail {A} e : steps_tx (tx_fail e : tx A).
Proof. by intros except d x d' _ ?%tx_fail_Ok. Qed.
Lemma steps_bind {A B} (m : tx A) (k : A -> tx B) : steps_tx m -> (forall a, steps_tx (k a)) -> steps_tx (m ≫= k).
Proof.
  intros Hm Hk except d b d' Hok (a & d1 & H1 & H2)%tx_bind_Ok. pose proof (Hm _ _ _ _ Hok H1) as L1.
  destruct (sys_steps _ _ _ L1 Hok) as [Hok1 _]. etrans; [done|]. by eapply Hk.
Qed.
Lemma steps_unwrap {A} e (m : tx (option A)) : steps_tx m -> steps_tx (unwrap e m).
Proof. intros Hm. apply steps_bind; [done|]. intros [a|]; [apply steps_ret|apply steps_fail]. Qed.
Lemma steps_one {A} (m : tx A) : (forall except d a d', sys_okx except d -> m d = Ok (a, d') -> d' = d \/ sys_step d d') -> steps_tx m.
Proof. intros Hm except d a d' Hok H. destruct (Hm _ _ _ _ Hok H) as [-> |Hs]; [constructor|by apply rtc_once]. Qed.
Lemma good_bind {A B} (m : tx A) (k : A -> tx B) : good_tx m -> (forall a, good_tx (k a)) -> good_tx (m ≫= k).
Proof.
  intros Hm Hk d b d' Hok (a & d1 & H1 & H2)%tx_bind_Ok. destruct (Hm _ _ _ Hok H1) as [Hok1 L1].
  destruct (Hk _ _ _ _ Hok1 H2) as [Hok2 L2]. split; [done|]. by eapply sys_rel_trans.
Qed.

Create HintDb steps.
#[export] Hint Resolve steps_gets steps_ret steps_lift steps_fail steps_unwrap : steps.
#[export] Hint Extern 5 (steps_tx _) => apply steps_gets : steps.

(** Take a transaction apart into statements. *)
Ltac steps_step :=
  lazymatch goal with
  | |- steps_tx (_ ≫= _) => apply steps_bind; [|intros ?]
  | |- steps_tx (match ?x with _ => _ end) => destruct x
  | |- steps_tx (let _ := _ in _) => cbv zeta
  | |- steps_tx _ => solve [auto with steps]
  end.
Ltac steps_prog := repeat steps_step.
