(* ===== verification/Prog.v ===== *)
(** * Prog: processes over the database, and a logic for their pools

    A use case that is more than one transaction is a [prog]: a tree of
    database transactions ([Db]), questions to what is outside the database
    ([Ask]: the clock, Control, the upstream server, the process's memory) and
    goroutines ([Fork]).  A pool of processes (every replica's) steps by
    interleaving; a transaction may be lost before it ran or after it
    committed, and a process may crash between any two steps.

    [safe] is the weakest precondition of a process against a protocol: each
    process owns a token, and the protocol's invariant speaks of the database,
    the outside world and the tokens of all processes.  [pool_sound] shows
    that the invariant holds of every reachable pool of safe processes. *)

From S2P Require Import Prelude Errors GoStrings GoCrypto GoJson GoNum Task TaskLife Catalog Grant Call Event Rows Sql.

(** ** Processes *)

Inductive prog (E : Type -> Type) (A : Type) : Type :=
| Ret (a : A)
| Db {X : Type} (m : tx X) (k : res X -> prog E A)
| Ask {X : Type} (e : E X) (k : X -> prog E A)
| Fork (child : prog E unit) (rest : prog E A).
Arguments Ret {E A}.
Arguments Db {E A X}.
Arguments Ask {E A X}.
Arguments Fork {E A}.

Fixpoint prog_bind {E} {A B : Type} (p : prog E A) (k : A -> prog E B) : prog E B :=
  match p with
  | Ret a => k a
  | Db m h => Db m (fun r => prog_bind (h r) k)
  | Ask e h => Ask e (fun x => prog_bind (h x) k)
  | Fork c r => Fork c (prog_bind r k)
  end.
#[export] Instance prog_ret E : MRet (prog E) := fun A => Ret.
#[export] Instance prog_mbind E : MBind (prog E) := fun A B k p => prog_bind p k.

(** One transaction or one statement; one question. *)
Definition db {E X} (m : tx X) : prog E (res X) := Db m Ret.
Definition ask {E : Type -> Type} {X} (e : E X) : prog E X := Ask e Ret.
(** [go func() { ... }()] *)
Definition go {E} (child : prog E unit) : prog E unit := Fork child (Ret tt).
(** A use case run for its effects. *)
Definition ignore {E A} (p : prog E A) : prog E unit := prog_bind p (fun _ => Ret tt).

(** ** Pools *)

Section Pool.
  Context {E : Type -> Type} {W : Type}.
  (** How the world answers a question, and what it remembers of it. *)
  Context (handle : forall X, W -> E X -> X -> W -> Prop).
  (** The processes that may start, and what every other transaction does. *)
  Context (entry : prog E unit -> Prop) (env : DB -> DB -> Prop).

Record pool := mkPool { pl_db : DB; pl_world : W; pl_procs : list (prog E unit) }.

Inductive pool_step : pool -> pool -> Prop :=
| ps_commit l1 l2 X (m : tx X) k a d d' w :
    m d = Ok (a, d') -> pool_step (mkPool d w (l1 ++ Db m k :: l2)) (mkPool d' w (l1 ++ k (Ok a) :: l2))
| ps_abort l1 l2 X (m : tx X) k e d w :
    m d = Err e -> pool_step (mkPool d w (l1 ++ Db m k :: l2)) (mkPool d w (l1 ++ k (Err e) :: l2))
| ps_lost l1 l2 X (m : tx X) k d w :
    pool_step (mkPool d w (l1 ++ Db m k :: l2)) (mkPool d w (l1 ++ k (Fail ErrOther) :: l2))
| ps_unacknowledged l1 l2 X (m : tx X) k a d d' w :
    m d = Ok (a, d') -> pool_step (mkPool d w (l1 ++ Db m k :: l2)) (mkPool d' w (l1 ++ k (Fail ErrOther) :: l2))
| ps_ask l1 l2 X (e : E X) k x d w w' :
    handle X w e x w' -> pool_step (mkPool d w (l1 ++ Ask e k :: l2)) (mkPool d w' (l1 ++ k x :: l2))
| ps_fork l1 l2 c r d w :
    pool_step (mkPool d w (l1 ++ Fork c r :: l2)) (mkPool d w (l1 ++ c :: r :: l2))
| ps_gone l1 l2 p d w : pool_step (mkPool d w (l1 ++ p :: l2)) (mkPool d w (l1 ++ l2))
| ps_start l p d w : entry p -> pool_step (mkPool d w l) (mkPool d w (p :: l))
| ps_env l d d' w : env d d' -> pool_step (mkPool d w l) (mkPool d' w l).

Inductive pool_run : pool -> pool -> Prop :=
| pr_refl p : pool_run p p
| pr_step p q r : pool_run p q -> pool_step q r -> pool_run p r.

(** ** The logic *)

  (** A protocol: the tokens, the one a process starts with, the invariant
      and the relation every transaction keeps. *)
  Context {T : Type} (start : T) (I : DB -> W -> list T -> Prop) (R : DB -> DB -> Prop).

Fixpoint safe {A : Type} (p : prog E A) (t : T) (Q : T -> A -> Prop) : Prop :=
  match p with
  | Ret a => Q t a
  | Db m k => forall d w ts, I d w (t :: ts) ->
      (forall e, m d = Err e \/ e = errorf ErrOther -> exists t', I d w (t' :: ts) /\ safe (k (Err e)) t' Q) /\
      (forall a d', m d = Ok (a, d') -> R d d' /\
         (exists t', I d' w (t' :: ts) /\ safe (k (Ok a)) t' Q) /\
         (exists t', I d' w (t' :: ts) /\ safe (k (Fail ErrOther)) t' Q))
  | Ask e k => forall d w ts x w', I d w (t :: ts) -> handle _ w e x w' ->
      exists t', I d w' (t' :: ts) /\ safe (k x) t' Q
  | Fork c r => exists tc tr, (forall d w ts, I d w (t :: ts) -> I d w (tc :: tr :: ts)) /\
      safe c tc (fun _ _ => True) /\ safe r tr Q
  end.

(** What makes [I] a protocol. *)
Record protocol : Prop := {
  pt_perm : forall d w ts ts', I d w ts -> ts ≡ₚ ts' -> I d w ts';
  pt_drop : forall d w t ts, I d w (t :: ts) -> I d w ts;
  pt_start : forall d w ts, I d w ts -> I d w (start :: ts);
  pt_env : forall d d' w ts, I d w ts -> env d d' -> I d' w ts /\ R d d';
  pt_refl : forall d, R d d;
  pt_trans : forall d1 d2 d3, R d1 d2 -> R d2 d3 -> R d1 d3;
  pt_entry : forall p, entry p -> safe p start (fun _ _ => True) }.

Lemma safe_bind {A B} (p : prog E A) (k : A -> prog E B) t Q Q' :
  safe p t Q' -> (forall t' a, Q' t' a -> safe (k a) t' Q) -> safe (p ≫= k) t Q.
Proof.
  intros Hp Hk. change (p ≫= k) with (prog_bind p k). revert t Hp Hk.
  induction p as [A a|A X m h IH|A X e h IH|A c _ r IH]; cbn; intros t Hp Hk.
  - by apply Hk.
  - intros d w ts Hi. destruct (Hp d w ts Hi) as [Herr Hok]. split.
    + intros e He. destruct (Herr e He) as (t' & Hi' & Hs). eauto.
    + intros a d' Ha. destruct (Hok a d' Ha) as (HR & (t1 & Hi1 & Hs1) & (t2 & Hi2 & Hs2)).
      split; [done|]. split; [exists t1|exists t2]; eauto.
  - intros d w ts x w' Hi Hh. destruct (Hp _ _ _ _ _ Hi Hh) as (t' & Hi' & Hs). eauto.
  - destruct Hp as (tc & tr & Hf & Hc & Hr). exists tc, tr. eauto.
Qed.

Lemma safe_mono {A} (p : prog E A) t (Q Q' : T -> A -> Prop) :
  safe p t Q -> (forall t' a, Q t' a -> Q' t' a) -> safe p t Q'.
Proof.
  intros Hp HQ. revert t Hp. induction p as [A a|A X m h IH|A X e h IH|A c _ r IH]; cbn; intros t Hp.
  - by apply HQ.
  - intros d w ts Hi. destruct (Hp d w ts Hi) as [Herr Hok]. split.
    + intros e He. destruct (Herr e He) as (t' & Hi' & Hs). eauto.
    + intros a d' Ha. destruct (Hok a d' Ha) as (HR & (t1 & Hi1 & Hs1) & (t2 & Hi2 & Hs2)).
      split; [done|]. split; [exists t1|exists t2]; eauto.
  - intros d w ts x w' Hi Hh. destruct (Hp _ _ _ _ _ Hi Hh) as (t' & Hi' & Hs). eauto.
  - destruct Hp as (tc & tr & Hf & Hc & Hr). exists tc, tr. eauto.
Qed.

Lemma safe_ignore {A} (p : prog E A) t Q : safe p t Q -> safe (ignore p) t (fun _ _ => True).
Proof. intros Hp. by eapply (safe_bind p (fun _ => Ret tt)). Qed.

(** *** Every reachable pool *)

Definition pool_inv (p : pool) : Prop :=
  exists ts, I (pl_db p) (pl_world p) ts /\ Forall2 (fun t (q : prog E unit) => safe q t (fun _ _ => True)) ts (pl_procs p).

Lemma split_token {P} (ts : list T) (l1 l2 : list (prog E unit)) p :
  Forall2 P ts (l1 ++ p :: l2) ->
  exists ts1 t ts2, ts = ts1 ++ t :: ts2 /\ Forall2 P ts1 l1 /\ P t p /\ Forall2 P ts2 l2.
Proof.
  intros H. apply Forall2_app_inv_r in H as (ts1 & ts' & H1 & H2 & ->).
  apply Forall2_cons_inv_r in H2 as (t & ts2 & Ht & H2 & ->). eauto 10.
Qed.

Hypothesis Hproto : protocol.

(** Put the token of the process that stepped back in its place. *)
Lemma pool_inv_put d w l1 l2 q t' ts1 ts2 :
  I d w (t' :: ts1 ++ ts2) -> Forall2 (fun t (q : prog E unit) => safe q t (fun _ _ => True)) ts1 l1 ->
  safe q t' (fun _ _ => True) -> Forall2 (fun t (q : prog E unit) => safe q t (fun _ _ => True)) ts2 l2 ->
  pool_inv (mkPool d w (l1 ++ q :: l2)).
Proof.
  intros Hi H1 Hq H2. exists (ts1 ++ t' :: ts2). split.
  - eapply (pt_perm Hproto); [exact Hi|]. cbn. apply Permutation_middle.
  - cbn. apply Forall2_app; [done|]. by constructor.
Qed.

Lemma pool_inv_take d w l1 l2 p ts :
  I d w ts -> Forall2 (fun t (q : prog E unit) => safe q t (fun _ _ => True)) ts (l1 ++ p :: l2) ->
  exists t ts1 ts2, I d w (t :: ts1 ++ ts2) /\ Forall2 (fun t (q : prog E unit) => safe q t (fun _ _ => True)) ts1 l1 /\
    safe p t (fun _ _ => True) /\ Forall2 (fun t (q : prog E unit) => safe q t (fun _ _ => True)) ts2 l2.
Proof.
  intros Hi H. apply split_token in H as (ts1 & t & ts2 & -> & H1 & Hp & H2). exists t, ts1, ts2. split_and!; try done.
  eapply (pt_perm Hproto); [exact Hi|]. symmetry. apply Permutation_middle.
Qed.

Lemma pool_step_inv p q : pool_step p q -> pool_inv p -> pool_inv q /\ R (pl_db p) (pl_db q).
Proof.
  intros Hs [ts [Hi Hf]].
  destruct Hs as [l1 l2 X m k a d d' w Hm|l1 l2 X m k e d w Hm|l1 l2 X m k d w|l1 l2 X m k a d d' w Hm
    |l1 l2 X e k x d w w' Hh|l1 l2 c r d w|l1 l2 p d w|l p d w He|l d d' w He]; cbn in *.
  1-7: destruct (pool_inv_take _ _ _ _ _ _ Hi Hf) as (t & ts1 & ts2 & Hi1 & H1 & Hp & H2); cbn [safe] in Hp.
  - destruct (Hp _ _ _ Hi1) as [_ Hok]. destruct (Hok _ _ Hm) as (HR & (t' & Hi' & Hs) & _).
    split; [by eapply pool_inv_put|done].
  - destruct (Hp _ _ _ Hi1) as [Herr _]. destruct (Herr e (or_introl Hm)) as (t' & Hi' & Hs).
    split; [by eapply pool_inv_put|apply (pt_refl Hproto)].
  - destruct (Hp _ _ _ Hi1) as [Herr _]. destruct (Herr _ (or_intror eq_refl)) as (t' & Hi' & Hs).
    split; [by eapply pool_inv_put|apply (pt_refl Hproto)].
  - destruct (Hp _ _ _ Hi1) as [_ Hok]. destruct (Hok _ _ Hm) as (HR & _ & (t' & Hi' & Hs)).
    split; [by eapply pool_inv_put|done].
  - destruct (Hp _ _ _ _ _ Hi1 Hh) as (t' & Hi' & Hs). split; [by eapply pool_inv_put|apply (pt_refl Hproto)].
  - destruct Hp as (tc & tr & Hfk & Hc & Hr). split; [|apply (pt_refl Hproto)].
    exists (ts1 ++ tc :: tr :: ts2). split.
    + eapply (pt_perm Hproto); [exact (Hfk _ _ _ Hi1)|]. cbn. by rewrite <- !Permutation_middle.
    + apply Forall2_app; [done|]. by repeat constructor.
  - split; [|apply (pt_refl Hproto)]. exists (ts1 ++ ts2). split; [by eapply (pt_drop Hproto)|by apply Forall2_app].
  - split; [|apply (pt_refl Hproto)]. exists (start :: ts). split; [by apply (pt_start Hproto)|].
    constructor; [by apply (pt_entry Hproto)|done].
  - destruct (pt_env Hproto _ _ _ _ Hi He) as [Hi' HR]. split; [by exists ts|done].
Qed.

Theorem pool_sound p q : pool_run p q -> pool_inv p -> pool_inv q /\ R (pl_db p) (pl_db q).
Proof.
  induction 1 as [p|p q r Hr IH Hs]; intros Hi; [split; [done|apply (pt_refl Hproto)]|].
  destruct (IH Hi) as [Hi' HR]. destruct (pool_step_inv _ _ Hs Hi') as [Hi2 HR2].
  split; [done|]. by eapply (pt_trans Hproto).
Qed.
End Pool.
Arguments mkPool {E W}.
Arguments pl_db {E W}.
Arguments pl_world {E W}.
Arguments pl_procs {E W}.

(** ** Schedules: one process run to its end

    With a function for the world's answers, a process runs to its value and
    leaves the processes it started; its statements commit as they are. *)

Section Exec.
  Context {E : Type -> Type} {W : Type} (answer : forall X, W -> E X -> X * W).

Record outcome (A : Type) := mkOutcome { oc_value : A; oc_db : DB; oc_world : W; oc_started : list (prog E unit) }.
Arguments mkOutcome {A}.
Arguments oc_value {A}.
Arguments oc_db {A}.
Arguments oc_world {A}.
Arguments oc_started {A}.

Fixpoint exec {A : Type} (p : prog E A) (d : DB) (w : W) : outcome A :=
  match p with
  | Ret a => mkOutcome a d w []
  | Db m k => match m d with
              | Ok (x, d') => exec (k (Ok x)) d' w
              | Err e => exec (k (Err e)) d w
              end
  | Ask e k => exec (k (answer _ w e).1) d (answer _ w e).2
  | Fork c r => let o := exec r d w in mkOutcome (oc_value o) (oc_db o) (oc_world o) (c :: oc_started o)
  end.

Lemma exec_bind {A B} (p : prog E A) (k : A -> prog E B) : forall d w,
  exec (p ≫= k) d w =
  let o := exec p d w in let o' := exec (k (oc_value o)) (oc_db o) (oc_world o) in
  mkOutcome (oc_value o') (oc_db o') (oc_world o') (oc_started o ++ oc_started o').
Proof.
  change (p ≫= k) with (prog_bind p k).
  induction p as [A a|A X m h IH|A X e h IH|A c _ r IH]; intros d w; cbn.
  - by destruct (exec (k a) d w).
  - destruct (m d) as [[x d']|e]; apply IH.
  - apply IH.
  - by rewrite IH.
Qed.

  Context (handle : forall X, W -> E X -> X -> W -> Prop) (entry : prog E unit -> Prop) (env : DB -> DB -> Prop).
  Context (Hanswer : forall X w (e : E X), handle X w e (answer X w e).1 (answer X w e).2).

Lemma pool_run_left p q r :
  pool_step handle entry env p q -> pool_run handle entry env q r -> pool_run handle entry env p r.
Proof.
  intros Hs Hr. revert p Hs. induction Hr as [x|x y z _ IH Hst]; intros p Hs.
  - eapply pr_step; [apply pr_refl|exact Hs].
  - eapply pr_step; [by apply IH|exact Hst].
Qed.

Lemma exec_run {A} (p : prog E A) : forall (k : A -> prog E unit) d w l1 l2,
  let o := exec p d w in
  pool_run handle entry env (mkPool d w (l1 ++ prog_bind p k :: l2))
    (mkPool (oc_db o) (oc_world o) (l1 ++ oc_started o ++ k (oc_value o) :: l2)).
Proof.
  induction p as [A a|A X m h IH|A X e h IH|A c _ r IH]; intros k d w l1 l2; cbn.
  - apply pr_refl.
  - destruct (m d) as [[x d']|e] eqn:Em.
    + eapply pool_run_left; [by apply ps_commit|apply IH].
    + eapply pool_run_left; [by apply ps_abort|apply IH].
  - eapply pool_run_left; [apply ps_ask; apply Hanswer|apply IH].
  - eapply pool_run_left; [apply ps_fork|]. specialize (IH k d w (l1 ++ [c]) l2). cbn in IH.
    by rewrite <- !app_assoc in IH.
Qed.

(** A process of a pool, run to its end and gone. *)
Lemma exec_run_gone {A} (p : prog E A) : forall (HA : A = unit) d w l1 l2,
  let o := exec p d w in
  pool_run handle entry env (mkPool d w (l1 ++ eq_rect A (prog E) p unit HA :: l2))
    (mkPool (oc_db o) (oc_world o) (l1 ++ oc_started o ++ l2)).
Proof.
  induction p as [A a|A X m h IH|A X e h IH|A c _ r IH]; intros -> d w l1 l2; cbn.
  - eapply pool_run_left; [apply ps_gone|apply pr_refl].
  - destruct (m d) as [[x d']|e] eqn:Em.
    + eapply pool_run_left; [by apply ps_commit|apply (IH _ eq_refl)].
    + eapply pool_run_left; [by apply ps_abort|apply (IH _ eq_refl)].
  - eapply pool_run_left; [apply ps_ask; apply Hanswer|apply (IH _ eq_refl)].
  - eapply pool_run_left; [apply ps_fork|]. specialize (IH eq_refl d w (l1 ++ [c]) l2). cbn in IH.
    by rewrite <- !app_assoc in IH.
Qed.
End Exec.
Arguments mkOutcome {E W A}.
Arguments oc_value {E W A}.
Arguments oc_db {E W A}.
Arguments oc_world {E W A}.
Arguments oc_started {E W A}.
