(* ===== verification/Trace.v ===== *)
(** * Trace: what a process asks, in order

    A process without transactions of its own (an adapter's use case) is read
    as the sequences of questions it can ask and the answers it got.  [wp] is
    its logic: the weakest condition on the trace so far under which every
    question is asked only where it may be, and the result is as claimed;
    [leads_wp] shows that it holds along every run. *)

From S2P Require Import Prelude Errors Sql Prog.

Section Trace.
  Context {E : Type -> Type}.

(** A question with its answer. *)
Definition event : Type := {X : Type & (E X * X)%type}.
Definition ev {X} (e : E X) (x : X) : event := existT X (e, x).

(** A process that has asked the questions of a trace goes on as another. *)
Inductive leads {A} : prog E A -> list event -> prog E A -> Prop :=
| leads_start p : leads p [] p
| leads_ask p tr X (e : E X) k x : leads p tr (Ask e k) -> leads p (tr ++ [ev e x]) (k x).

(** A process driven by a function for the answers. *)
Fixpoint driven (f : forall X, E X -> X) {A} (p : prog E A) : list event * prog E A :=
  match p with
  | Ask e k => let r := driven f (k (f _ e)) in (ev e (f _ e) :: r.1, r.2)
  | _ => ([], p)
  end.
Lemma driven_leads_from f {A} (p q : prog E A) tr : leads p tr q -> leads p (tr ++ (driven f q).1) (driven f q).2.
Proof.
  revert tr. induction q as [A a|A X m k IH|A X e k IH|A c _ r IH]; intros tr H; cbn; rewrite ?app_nil_r; try done.
  change (ev e (f X e) :: ?l) with ([ev e (f X e)] ++ l). rewrite app_assoc. apply IH. by apply leads_ask.
Qed.
Lemma driven_leads f {A} (p : prog E A) : leads p (driven f p).1 (driven f p).2.
Proof. apply (driven_leads_from f p p []), leads_start. Qed.

Section Logic.
  (** Where a question may be asked. *)
  Context (may : list event -> forall X, E X -> Prop).

Fixpoint wp {A} (p : prog E A) (tr : list event) (Q : list event -> A -> Prop) : Prop :=
  match p with
  | Ret a => Q tr a
  | Ask e k => may tr _ e /\ forall x, wp (k x) (tr ++ [ev e x]) Q
  | Db _ _ => False
  | Fork _ _ => False
  end.

Lemma wp_mono {A} (p : prog E A) tr (Q Q' : list event -> A -> Prop) :
  wp p tr Q -> (forall tr' a, tr `prefix_of` tr' -> Q tr' a -> Q' tr' a) -> wp p tr Q'.
Proof.
  revert tr. induction p as [A a|A X m k IH|A X e k IH|A c _ r IH]; intros tr Hp HQ; cbn in *; [|done| |done].
  - by apply HQ.
  - destruct Hp as [Hm Hp]. split; [done|]. intros x. eapply IH; [apply Hp|]. intros tr' a Hpre. apply HQ.
    etransitivity; [|exact Hpre]. by apply prefix_app_r.
Qed.
(** An event of a trace, and of every longer one. *)
Lemma ev_prefix tr tr' (v : event) : tr `prefix_of` tr' -> v ∈ tr -> v ∈ tr'.
Proof. intros [l ->] ?. apply elem_of_app. by left. Qed.
Lemma ev_last tr (v : event) : v ∈ tr ++ [v].
Proof. apply elem_of_app. right. apply list_elem_of_here. Qed.
Lemma prefix_last tr (v : event) : tr `prefix_of` tr ++ [v].
Proof. by apply prefix_app_r. Qed.
Lemma wp_ask {X A} (e : E X) (k : X -> prog E A) tr Q :
  may tr X e -> (forall x, wp (k x) (tr ++ [ev e x]) Q) -> wp (ask e ≫= k) tr Q.
Proof. done. Qed.
Lemma wp_bind {A B} (p : prog E A) (k : A -> prog E B) tr Q :
  wp p tr (fun tr' a => wp (k a) tr' Q) -> wp (p ≫= k) tr Q.
Proof.
  change (p ≫= k) with (prog_bind p k). revert tr.
  induction p as [A a|A X m h IH|A X e h IH|A c _ r IH]; intros tr; cbn; [done|done| |done].
  intros [Hm Hp]. split; [done|]. auto.
Qed.

(** Along a run the rest of the process is as good, and every question was
    asked where it may be. *)
Lemma leads_wp {A} (p q : prog E A) tr Q : leads p tr q -> wp p [] Q ->
  wp q tr Q /\ forall v, v ∈ tr -> exists l, l `prefix_of` tr /\ may l (projT1 v) (projT2 v).1.
Proof.
  intros H. induction H as [p|p tr X e k x _ IH]; intros Hp.
  - split; [done|]. intros v Hin. by apply elem_of_nil in Hin.
  - destruct (IH Hp) as [[Hm Hk] Hall]. split; [apply Hk|]. intros v [Hin| ->%list_elem_of_singleton]%elem_of_app.
    + destruct (Hall _ Hin) as (l & Hl & Hm'). exists l. split; [|done]. etransitivity; [exact Hl|apply prefix_last].
    + exists tr. split; [apply prefix_last|done].
Qed.
(** Each question was asked where it may be after exactly what precedes it. *)
Lemma leads_at {A} (p q : prog E A) tr Q : leads p tr q -> wp p [] Q ->
  forall l1 v l2, tr = l1 ++ v :: l2 -> may l1 (projT1 v) (projT2 v).1.
Proof.
  intros H Hp. assert (wp q tr Q /\ forall l1 v l2, tr = l1 ++ v :: l2 -> may l1 (projT1 v) (projT2 v).1) as [_ ?]; [|done].
  induction H as [p|p tr X e k x _ IH].
  - split; [done|]. intros [|? ?] v l2 [=].
  - destruct (IH Hp) as [[Hm Hk] Hall]. split; [apply Hk|]. intros l1 v l2 Heq.
    destruct l2 as [|w l2 _] using rev_ind.
    + apply app_inj_tail in Heq as [<- <-]. exact Hm.
    + rewrite app_comm_cons, app_assoc in Heq. apply app_inj_tail in Heq as [Heq _]. by eapply Hall.
Qed.
End Logic.
End Trace.
Arguments event : clear implicits.
#[export] Hint Resolve ev_last prefix_last ev_prefix : trace.
