(* ===== verification/Journal.v ===== *)
(** * Journal: what a process asked and committed, in order

    The journal of one process: every question with its answer, and every
    transaction with the database it met and the answer the process got, which
    may be lost although the transaction committed.  [jwp] is its logic: the
    weakest condition under which no transaction of the process changes the
    database except as claimed, after what the journal holds by then;
    [walks_jwp] shows that it holds along every run.  The goroutines a process
    starts are processes of their own. *)

From S2P Require Import Prelude Errors Rows Sql Prog.

Section Journal.
  Context {E : Type -> Type}.

Inductive entry : Type :=
| Asked {X : Type} (e : E X) (x : X)
| Did {X : Type} (m : tx X) (d : DB) (r : res X).
Implicit Types (h : list entry) (d : DB).

(** What a process may get for a transaction on a database. *)
Inductive answered {X} (m : tx X) d : res X -> Prop :=
| an_ok a d' : m d = Ok (a, d') -> answered m d (Ok a)
| an_err e : m d = Err e -> answered m d (Err e)
| an_lost : answered m d (Fail ErrOther).
Lemma answered_Ok {X} (m : tx X) d a : answered m d (Ok a) -> exists d', m d = Ok (a, d').
Proof. intros H. inversion H; subst. by eexists. Qed.

(** A process that has made a journal goes on as another. *)
Inductive walks {A} : prog E A -> list entry -> prog E A -> Prop :=
| wk_start p : walks p [] p
| wk_ask p h X (e : E X) k x : walks p h (Ask e k) -> walks p (h ++ [Asked e x]) (k x)
| wk_db p h X (m : tx X) k d r : walks p h (Db m k) -> answered m d r -> walks p (h ++ [Did m d r]) (k r)
| wk_fork p h c q : walks p h (Fork c q) -> walks p h q.

(** The change a transaction commits. *)
Definition changes {X} (m : tx X) d d' : Prop := (exists a, m d = Ok (a, d')) /\ d' <> d.
Definition only_reads {X} (m : tx X) : Prop := forall d a d', m d = Ok (a, d') -> d' = d.

Section Logic.
  (** What a change of the database needs after a journal. *)
  Context (may : list entry -> DB -> DB -> Prop).

Fixpoint jwp {A} (p : prog E A) h (Q : list entry -> A -> Prop) : Prop :=
  match p with
  | Ret a => Q h a
  | Ask e k => forall x, jwp (k x) (h ++ [Asked e x]) Q
  | Db m k => (forall d d', changes m d d' -> may h d d') /\
              forall d r, answered m d r -> jwp (k r) (h ++ [Did m d r]) Q
  | Fork _ r => jwp r h Q
  end.
Lemma jwp_bind {A B} (p : prog E A) (k : A -> prog E B) h Q : jwp p h (fun h' a => jwp (k a) h' Q) -> jwp (p ≫= k) h Q.
Proof.
  change (p ≫= k) with (prog_bind p k). revert h.
  induction p as [A a|A X m f IH|A X e f IH|A c _ r IH]; intros h; cbn; [done| |auto..]. intros [Hm Hk]. split; [done|]. auto.
Qed.
Lemma jwp_ask {X A} (e : E X) (k : X -> prog E A) h Q : (forall x, jwp (k x) (h ++ [Asked e x]) Q) -> jwp (ask e ≫= k) h Q.
Proof. done. Qed.
Lemma jwp_db {X A} (m : tx X) (k : res X -> prog E A) h Q : (forall d d', changes m d d' -> may h d d') ->
  (forall d r, answered m d r -> jwp (k r) (h ++ [Did m d r]) Q) -> jwp (db m ≫= k) h Q.
Proof. done. Qed.
Lemma jwp_read {X A} (m : tx X) (k : res X -> prog E A) h Q : only_reads m ->
  (forall d r, answered m d r -> jwp (k r) (h ++ [Did m d r]) Q) -> jwp (db m ≫= k) h Q.
Proof. intros Hr. apply jwp_db. intros d d' [[a Ha] Hn]. by apply Hr in Ha. Qed.
Lemma jwp_mono {A} (p : prog E A) h (Q Q' : list entry -> A -> Prop) : jwp p h Q -> (forall h' a, Q h' a -> Q' h' a) -> jwp p h Q'.
Proof.
  revert h. induction p as [A a|A X m f IH|A X e f IH|A c _ r IH]; intros h; cbn; [auto| |eauto..]. intros [Hm Hk] HQ. split; [done|]. eauto.
Qed.

Lemma walks_jwp {A} (p q : prog E A) h Q : walks p h q -> jwp p [] Q -> jwp q h Q.
Proof. induction 1 as [p|p h X e k x _ IH|p h X m k d r _ IH Ha|p h c q _ IH]; intros Hp; [done|..]; apply IH in Hp; cbn in Hp; [done| |done].
  by apply Hp.
Qed.
(** Every change a process may make now was allowed by its journal. *)
Lemma walks_changes {A} (p : prog E A) h X (m : tx X) k d d' Q : walks p h (Db m k) -> jwp p [] Q -> changes m d d' -> may h d d'.
Proof. intros Hw Hp Hc. eapply walks_jwp in Hw; [|exact Hp]. destruct Hw as [Hm _]. by apply Hm. Qed.
End Logic.
Lemma entry_last h (v : entry) : v ∈ h ++ [v].
Proof. apply elem_of_app. right. apply list_elem_of_here. Qed.
Lemma entry_before h (v w : entry) : v ∈ h -> v ∈ h ++ [w].
Proof. intros ?. apply elem_of_app. by left. Qed.
End Journal.
Arguments entry : clear implicits.
#[export] Hint Resolve entry_last entry_before : journal.
