(* ===== verification/Ports.v ===== *)
(** * Ports: what the use cases ask of everything outside the database

    The requests and answers of the ports of [internal/application] (Control's
    dispatch and policy services, the upstream servers, the connection layer,
    the authorization servers, name resolution), the clock and the memory of a
    replica, as one type of questions; a use case is a [proc] over it.  [Send]
    carries the call's id so that the sends of a run can be told apart. *)

From S2P Require Import Prelude Errors GoStrings GoCrypto GoJson GoNum GoUrl Task TaskLife Catalog Grant Call Event App Rows Sql Prog.

(** ** Requests and answers *)

Record ToolAdmit := mkToolAdmit {
  ta_Command : ControlCommand; ta_CallID : string; ta_OperationID : string; ta_AttemptID : string;
  ta_InstanceID : string; ta_ExecutionEpoch : Z; ta_GrantID : string; ta_GrantRevision : Z; ta_ServerID : string;
  ta_Method : string; ta_ArgumentDigest : string; ta_SideEffecting : bool; ta_MaxExposure : Money; ta_Deadline : Time }.
Record ToolAdmission := mkToolAdmission { ad_DispatchID : string; ad_Allowed : bool; ad_DenialCode : string; ad_State : string }.
Record DispatchView := mkDispatchView { dv_State : string; dv_Outcome : string }.
Record ExecutionDecision := mkExecutionDecision { ed_Allowed : bool; ed_Revision : string; ed_Reason : string }.

Definition OutcomeSucceeded : string := "succeeded".
Definition OutcomeFailed : string := "failed".
Definition OutcomeCanceled : string := "canceled".
Definition OutcomeUnknown : string := "unknown".

Record UpstreamTarget := mkUpstreamTarget {
  ut_Resource : string; ut_ProtocolVersion : string; ut_Transport : string; ut_Method : string;
  ut_InputSchemaDigest : string; ut_OutputSchemaDigest : string; ut_AnnotationsDigest : string;
  ut_ServerName : string; ut_ServerVersion : string; ut_NetworkScope : list string; ut_Token : string }.
Record UpstreamReply := mkUpstreamReply { up_Result : option bytes; up_Native : option bytes; up_IsError : bool }.
Record QualifiedRoute := mkQualifiedRoute {
  qr_Resource : string; qr_ProtocolVersion : string; qr_Transport : string; qr_Route : string }.

(** Control's revocation barrier as last read. *)
Record Barrier := mkBarrier { bar_State : string; bar_InFlight : Z; bar_Unknown : Z; bar_FencedAt : option Time }.

(** What [Open] and [Send] return besides their value. *)
Inductive open_error := Opened | NotSentError (code : string) | OpenError.
Inductive send_error := Answered_ok | AnsweredError (code : string) | UnknownError (code : string) | SendError.

Record CallOptions := mkCallOptions {
  op_SendTimeout : Duration; op_ReconcileAge : Duration; op_ReconcileBatch : Z; op_ResolveInterval : Duration }.

(** The memory of one replica: [closing], [live] and [nextResolve] of the
    calls, the revision gate of the credential projection and the listener's
    slots in use. *)
Record memory := mkMemory {
  m_closing : bool; m_live : gset string; m_nextResolve : gmap string Time; m_gate : gmap string Z;
  m_slots : nat }.
#[export] Instance memory_eta : Settable memory := fun m =>
  mkMemory (m_closing m) (m_live m) (m_nextResolve m) (m_gate m) (m_slots m).
Definition fresh_memory : memory := mkMemory false ∅ ∅ ∅ 0.

(** The questions.  [Stamps] is what the clock and the generator of event ids
    answer inside the next transaction, by the aggregate they are asked for. *)
Universe answers.
Inductive eff : Type@{answers} -> Type@{answers+1} :=
| Now : eff Time
| CtxErr : eff bool
| Drained : eff bool
| Memory {A : Type@{answers}} (replica : nat) (f : memory -> A * memory) : eff A
| CheckExecution (scope : Scope) (resourceType resourceID action : string) : eff (res ExecutionDecision)
| AdmitTool (req : ToolAdmit) : eff (res ToolAdmission)
| ObserveTool (dispatchID : string) (sequence : Z) (outcome : string) (units : option Z) (at_ : Time) : eff (res unit)
| GetTool (tenantID dispatchID : string) : eff (res DispatchView)
| Token (g : Grant) : eff (res string)
| Open_ (route : string) (t : UpstreamTarget) : eff open_error
| Send (callID method : string) (args : bytes) : eff (UpstreamReply * send_error)
| Register (cmd : ControlCommand) (g : Grant) : eff (res (string * Z))
| BeginRevocation (cmd : ControlCommand) (grantID : string) (revision : Z) : eff (res Barrier)
| Revocation (grantID : string) (revision : Z) : eff (res Barrier)
| DiscoverLive (resource protocolVersion : string) : eff (res LiveServer)
| IssuerOf (resource : string) : eff (res string)
| LookupNetIP (host : string) : eff (res (list Addr))
| EvictGrant (cacheKey : string) : eff Z
| EvictResource (resource : string) : eff Z
| Stamps : eff (string -> Time * string).

Abbreviation proc := (prog eff).

(** Go on with the value, or return the error. *)
Notation "x ←? m ; k" := (m ≫= fun r => match r with Ok x => k | Err e => Ret (Err e) end)
  (at level 20, m at level 100, k at level 200, only parsing).

(** The result of a query that must find a row. *)
Definition found {A} (e : error) (r : res (option A)) : res A :=
  match r with Ok (Some a) => Ok a | Ok None => Err e | Err e => Err e end.
