(* ===== verification/Protocol.v ===== *)
(** * Protocol: what a process of the service owns and knows

    A process owns a token: the right to the one send of a call whose marker
    it committed, and an assertion about the database that no transaction of
    the service can make false again.  The protocol's invariant is that of the
    database together with the rights: no call is sent twice and every call
    sent, or that may still be sent, has its marker. *)

From S2P Require Import Prelude Table Errors GoStrings GoCrypto GoJson GoNum GoUrl Task TaskLife Catalog Grant Call Event App Rows Sql SqlCalls SqlCatalog CallLife Invariant Prog Ports.

(** ** The world *)

(** The memories of the replicas, and the ids of the calls sent so far. *)
Record world := mkWorld { w_mem : nat -> memory; w_sends : list string }.

(** The answers a question may have: what is outside the service may answer
    anything. *)
Definition handle (X : Type) (w : world) (e : eff X) : X -> world -> Prop :=
  match e in eff X return X -> world -> Prop with
  | Memory r f => fun x w' =>
      x = (f (w_mem w r)).1 /\
      w' = mkWorld (fun n => if Nat.eqb n r then (f (w_mem w r)).2 else w_mem w n) (w_sends w)
  | Send c _ _ => fun _ w' => w' = mkWorld (w_mem w) (w_sends w ++ [c])
  | _ => fun _ w' => w' = w
  end.

(** ** Tokens *)

Record token := mkToken { tk_right : option string; tk_knows : DB -> Prop }.
Definition start_token : token := mkToken None (fun _ => True).

(** An assertion no transaction of the service makes false. *)
Definition stable (P : DB -> Prop) : Prop := forall d d', sys_rel d d' -> P d -> P d'.
Definition token_ok (d : DB) (t : token) : Prop := stable (tk_knows t) /\ tk_knows t d.

Lemma stable_and P Q : stable P -> stable Q -> stable (fun d => P d /\ Q d).
Proof. intros HP HQ d d' R [? ?]. split; eauto. Qed.

Definition rights (ts : list token) : list string := omap tk_right ts.
Definition service_inv (d : DB) (w : world) (ts : list token) : Prop :=
  sys_ok d /\ NoDup (w_sends w ++ rights ts) /\ Forall (marked (db_tools d)) (w_sends w ++ rights ts) /\
  Forall (token_ok d) ts.

(** Time passes. *)
Definition service_env (d d' : DB) : Prop := exists now, d' = d <| db_now := now |>.

Abbreviation service_safe := (safe handle service_inv sys_rel).
(** A process that starts and ends without the right to send: from what [P]
    knows it comes to know [Q] of its result.  Knowledge is never lost. *)
Definition quietly {A} (P : DB -> Prop) (p : proc A) (Q : A -> DB -> Prop) : Prop :=
  forall t, tk_right t = None -> (forall d, tk_knows t d -> P d) ->
  service_safe p t (fun t' a => tk_right t' = None /\ forall d, tk_knows t' d -> tk_knows t d /\ Q a d).
Definition quiet {A} (p : proc A) : Prop := quietly (fun _ => True) p (fun _ _ => True).

Lemma rights_cons t ts : rights (t :: ts) = match tk_right t with Some c => c :: rights ts | None => rights ts end.
Proof. unfold rights. cbn. by destruct (tk_right t). Qed.

Lemma service_inv_le d d' w t t' ts : service_inv d w (t :: ts) -> sys_ok d' -> sys_rel d d' ->
  tk_right t' = tk_right t -> token_ok d' t' -> service_inv d' w (t' :: ts).
Proof.
  intros (Hok & Hnd & Hm & Hk) Hok' R Hr Ht. unfold service_inv. rewrite rights_cons, Hr, <- rights_cons. split_and!; [done..| |].
  - eapply Forall_impl; [exact Hm|]. intros c. apply tools_le_marked, sr_tools, R.
  - apply Forall_cons in Hk as [_ Hk]. constructor; [done|]. eapply Forall_impl; [exact Hk|]. intros x [Hs Hx].
    split; [done|]. by eapply Hs.
Qed.
Lemma token_ok_le d d' w t ts : service_inv d w (t :: ts) -> sys_rel d d' -> token_ok d' t.
Proof. intros (_ & _ & _ & Hk) R. apply Forall_cons in Hk as [[Hs Hx] _]. split; [done|]. by eapply Hs. Qed.

(** ** Rules *)

(** A transaction that keeps the invariant; when it commits, [K] of its result
    is known. *)
Lemma safe_db {A X} (m : tx X) (k : res X -> proc A) t (K : X -> DB -> Prop) Q :
  (forall d a d', sys_ok d -> tk_knows t d -> m d = Ok (a, d') -> sys_ok d' /\ sys_rel d d' /\ K a d') ->
  (forall a, stable (K a)) ->
  (forall a, service_safe (k (Ok a)) (mkToken (tk_right t) (fun d => tk_knows t d /\ K a d)) Q) ->
  (forall e, service_safe (k (Err e)) t Q) -> service_safe (Db m k) t Q.
Proof.
  intros Hm Hst Hok Herr. cbn. intros d w ts Hi. split; [intros e _; by exists t|]. intros a d' Ha.
  pose proof Hi as (Hd & _ & _ & Hk). apply Forall_cons in Hk as [[Hs Hk] _].
  destruct (Hm _ _ _ Hd Hk Ha) as (Hd' & R & HK). split; [done|]. split.
  - exists (mkToken (tk_right t) (fun d => tk_knows t d /\ K a d)). split; [|done]. eapply service_inv_le; [exact Hi|done|exact R|done|].
    split; cbn; [by apply stable_and|]. split; [by eapply Hs|done].
  - exists t. split; [|done]. eapply service_inv_le; [exact Hi|done|exact R|done|]. by eapply token_ok_le.
Qed.

Section Rules.
  Context (P : DB -> Prop).

Lemma quietly_value {A} (a : A) (Q : A -> DB -> Prop) : (forall d, P d -> Q a d) -> quietly P (Ret a) Q.
Proof. intros HQ t Ht HP. split; [done|]. auto. Qed.
Lemma quietly_ret {A} (a : A) : quietly P (Ret a) (fun _ _ => True).
Proof. by apply quietly_value. Qed.
Lemma quietly_bind {A B} (p : proc A) (k : A -> proc B) Q R :
  quietly P p Q -> (forall a, quietly (fun d => P d /\ Q a d) (k a) R) -> quietly P (p ≫= k) R.
Proof.
  intros Hp Hk t Ht HP. eapply safe_bind; [by apply Hp|]. intros t' a (Ht' & Hle).
  eapply safe_mono; [apply Hk; [done|]|].
  - intros d Hd. apply Hle in Hd as [??]. auto.
  - intros t2 b [Ht2 Hle2]. split; [done|]. intros d Hd. apply Hle2 in Hd as [Hd ?]. split; [by apply Hle|done].
Qed.
Lemma quietly_db {X} (m : tx X) (K : X -> DB -> Prop) :
  (forall d a d', sys_ok d -> P d -> m d = Ok (a, d') -> sys_ok d' /\ sys_rel d d' /\ K a d') -> (forall a, stable (K a)) ->
  quietly P (db m) (fun r d => match r with Ok a => K a d | Err _ => True end).
Proof.
  intros Hm Hst t Ht HP. apply (safe_db _ _ _ K); [auto|done|by intros a|by intros e].
Qed.
Lemma quietly_good {X} (m : tx X) : good_tx m -> quietly P (db m) (fun _ _ => True).
Proof.
  intros Hm t Ht HP. apply (safe_db _ _ _ (fun _ _ => True)); [|done|..].
  - intros d a d' Hd _ Ha. destruct (Hm _ _ _ Hd Ha). done.
  - intros a. cbn. split; [done|]. by intros d [? _].
  - by intros e.
Qed.
Lemma quietly_ask {X} (e : eff X) : (forall w x w', handle X w e x w' -> w_sends w' = w_sends w) -> quietly P (ask e) (fun _ _ => True).
Proof.
  intros He t Ht HP. cbn. intros d w ts x w' Hi Hh. exists t. split; [|done]. unfold service_inv in *. by rewrite (He _ _ _ Hh).
Qed.
Lemma quietly_go p : quiet p -> quietly P (go p) (fun _ _ => True).
Proof.
  intros Hp t Ht HP. exists start_token, t. split_and!; [|by eapply safe_mono; [apply Hp|]|done].
  intros d w ts (Hok & Hnd & Hm & Hk). unfold service_inv. rewrite rights_cons. cbn [tk_right start_token]. split_and!; [done..|].
  constructor; [by split|done].
Qed.
End Rules.

Lemma quietly_weaken {A} (P P' : DB -> Prop) (p : proc A) (Q Q' : A -> DB -> Prop) :
  quietly P p Q -> (forall d, P' d -> P d) -> (forall a d, P' d -> Q a d -> Q' a d) -> quietly P' p Q'.
Proof.
  intros Hp HP HQ t Ht HP'. eapply safe_mono; [apply Hp; [done|auto]|]. intros t' a [Ht' Hle]. split; [done|].
  intros d [Hd ?]%Hle. auto.
Qed.
(** What was known before need not be known after, nor be used. *)
Lemma quietly_drop {A} P (p : proc A) : quiet p -> quietly P p (fun _ _ => True).
Proof. intros Hp. by eapply quietly_weaken. Qed.
Lemma quietly_known {A} P P' (p : proc A) : quietly P p (fun _ _ => True) -> (forall d, P' d -> P d) -> quietly P' p (fun _ _ => True).
Proof. intros Hp HP. by eapply quietly_weaken. Qed.
Lemma quietly_then {A B} P (p : proc A) (k : A -> proc B) R :
  quietly P p (fun _ _ => True) -> (forall a, quietly P (k a) R) -> quietly P (p ≫= k) R.
Proof.
  intros Hp Hk. eapply quietly_bind; [exact Hp|]. intros a. eapply quietly_weaken; [apply Hk|by intros d [? _]|done].
Qed.

(** The steps of a process that needs no right to send: bind, statement,
    question, return, and the branches of the answers. *)
Create HintDb quiet.
#[export] Hint Resolve steps_good : quiet.
#[export] Hint Extern 2 (steps_tx _) => solve [auto with steps] : quiet.
Ltac quiet_step :=
  lazymatch goal with
  | |- quiet _ => first [solve [auto with quiet] | unfold quiet]
  | |- quietly _ (Ret _) _ => apply quietly_ret
  | |- quietly _ (_ ≫= _) _ => apply quietly_then; [|intros ?]
  | |- quietly _ (db _) _ => apply quietly_good; solve [auto with quiet]
  | |- quietly _ (ask _) _ => apply quietly_ask; cbn; intros; destruct_and?; by subst
  | |- quietly _ (go _) _ => apply quietly_go
  | |- quietly _ (match ?x with _ => _ end) _ => destruct x
  | |- quietly _ (let _ := _ in _) _ => cbv zeta
  | |- quietly _ _ _ => first [solve [auto with quiet] | apply quietly_drop; solve [auto with quiet]]
  end.
Ltac quiet_prog := repeat quiet_step.

(** ** The protocol *)

Lemma rights_perm ts ts' : ts ≡ₚ ts' -> rights ts ≡ₚ rights ts'.
Proof.
  induction 1 as [|x l l' _ IH|x y l|l1 l2 l3 _ IH1 _ IH2]; [done|rewrite !rights_cons; destruct (tk_right x); by rewrite ?IH| |by etrans].
  rewrite !rights_cons. destruct (tk_right x), (tk_right y); [apply Permutation_swap|done..].
Qed.
Lemma service_inv_perm d w ts ts' : service_inv d w ts -> ts ≡ₚ ts' -> service_inv d w ts'.
Proof. intros (Hok & Hnd & Hm & Hk) Hp. pose proof (rights_perm _ _ Hp) as Hq. unfold service_inv. by rewrite <- Hq, <- Hp. Qed.
Lemma service_inv_drop d w t ts : service_inv d w (t :: ts) -> service_inv d w ts.
Proof.
  intros (Hok & Hnd & Hm & Hk). apply Forall_cons in Hk as [_ Hk]. rewrite rights_cons in *. destruct (tk_right t) as [c|]; [|done].
  rewrite <- Permutation_middle in Hnd, Hm. apply NoDup_cons in Hnd as [_ Hnd]. apply Forall_cons in Hm as [_ Hm]. by split_and!.
Qed.

Lemma service_protocol entry : (forall p, entry p -> quiet p) -> protocol handle entry service_env start_token service_inv sys_rel.
Proof.
  intros He. constructor.
  - exact service_inv_perm.
  - exact service_inv_drop.
  - intros d w ts (Hok & Hnd & Hm & Hk). split_and!; [done..|]. constructor; [by split|done].
  - intros d d' w ts (Hok & Hnd & Hm & Hk) [now ->]. pose proof (quiet_step _ _ (ss_time d now) eq_refl eq_refl) as S. pose proof (sys_step_rel _ _ _ S Hok) as R. split; [|done].
    split_and!; [by eapply sys_step_ok|done|done|]. eapply Forall_impl; [exact Hk|].
    intros x [Hs Hx]. split; [done|]. by eapply Hs.
  - exact sys_rel_refl.
  - exact sys_rel_trans.
  - intros p Hp. eapply safe_mono; [by apply (He _ Hp)|done].
Qed.
