(* ===== verification/Network.v ===== *)
(** * Network: the reviewed discovery targets ([application/catalog.go], [NetworkPolicy])

    The host allowlist and the address rules, over [net/netip] addresses as
    bytes: an address is four or sixteen bytes, and a sixteen byte one may
    have a zone. *)

From S2P Require Import Prelude Errors GoStrings GoCrypto GoJson GoNum GoUrl Task TaskLife Catalog Grant Call Event App Rows Sql Prog Ports.

(** ** [netip.Addr] *)

#[export] Instance Addr_eq_dec : EqDecision Addr.
Proof. solve_decision. Defined.

Definition byte_at (b : list Z) (i : nat) : Z := default 0 (b !! i).
Definition Unmap (a : Addr) : Addr :=
  match a with
  | Addr6 b _ => if bool_decide (firstn 12 b = [0; 0; 0; 0; 0; 0; 0; 0; 0; 0; 255; 255]) then Addr4 (skipn 12 b) else a
  | _ => a
  end.
Definition IsLinkLocalUnicast (a : Addr) : bool :=
  match a with
  | Addr4 b => (byte_at b 0 =? 169) && (byte_at b 1 =? 254)
  | Addr6 b _ => (byte_at b 0 =? 254) && (Z.land (byte_at b 1) 192 =? 128)
  end.
Definition IsLinkLocalMulticast (a : Addr) : bool :=
  match a with
  | Addr4 b => (byte_at b 0 =? 224) && (byte_at b 1 =? 0) && (byte_at b 2 =? 0)
  | Addr6 b _ => (byte_at b 0 =? 255) && (Z.land (byte_at b 1) 15 =? 2)
  end.
Definition IsInterfaceLocalMulticast (a : Addr) : bool :=
  match a with
  | Addr4 _ => false
  | Addr6 b _ => (byte_at b 0 =? 255) && (Z.land (byte_at b 1) 15 =? 1)
  end.
Definition IsMulticast (a : Addr) : bool :=
  match a with
  | Addr4 b => Z.land (byte_at b 0) 240 =? 224
  | Addr6 b _ => byte_at b 0 =? 255
  end.
Definition IsUnspecified (a : Addr) : bool :=
  bool_decide (a = Addr4 [0; 0; 0; 0] \/ a = Addr6 [0; 0; 0; 0; 0; 0; 0; 0; 0; 0; 0; 0; 0; 0; 0; 0] "").
Definition IsLoopback (a : Addr) : bool :=
  match a with
  | Addr4 b => byte_at b 0 =? 127
  | Addr6 b _ => bool_decide (b = [0; 0; 0; 0; 0; 0; 0; 0; 0; 0; 0; 0; 0; 0; 0; 1])
  end.
Definition IsPrivate (a : Addr) : bool :=
  match a with
  | Addr4 b => (byte_at b 0 =? 10) || ((byte_at b 0 =? 172) && (Z.land (byte_at b 1) 240 =? 16))
               || ((byte_at b 0 =? 192) && (byte_at b 1 =? 168))
  | Addr6 b _ => Z.land (byte_at b 0) 254 =? 252
  end.

(** ** The policy *)

Record NetworkPolicy := mkNetworkPolicy { np_AllowedHosts : list string; np_PrivateHosts : list string }.

Fixpoint hostAllowed (host : string) (patterns : list string) : bool :=
  match patterns with
  | [] => false
  | p :: r => let p := ToLower p in
              String.eqb host p || (HasPrefix p "." && HasSuffix host p) || hostAllowed host r
  end.
Definition HostInScope (host : string) (scope : list string) : bool := hostAllowed (ToLower (Trim host "[]")) scope.

Definition metadataAddrs : list Addr :=
  [Addr4 [169; 254; 169; 254]; Addr6 [253; 0; 14; 194; 0; 0; 0; 0; 0; 0; 0; 0; 0; 0; 2; 84] ""].

Definition CheckHost (p : NetworkPolicy) (host : string) : res bool :=
  let host := ToLower (Trim host "[]") in
  let private := hostAllowed host (np_PrivateHosts p) in
  if negb private && negb (hostAllowed host (np_AllowedHosts p)) then Fail ErrForbidden else Ok private.

Definition CheckAddr (a : Addr) (private : bool) : res unit :=
  let a := Unmap a in
  if bool_decide (a ∈ metadataAddrs) || IsLinkLocalUnicast a || IsLinkLocalMulticast a || IsMulticast a
     || IsUnspecified a || IsInterfaceLocalMulticast a
  then Fail ErrForbidden
  else if (IsLoopback a || IsPrivate a) && negb private then Fail ErrForbidden
  else Ok tt.
Fixpoint check_addrs (addrs : list Addr) (private : bool) : res unit :=
  match addrs with [] => Ok tt | a :: r => _ ← CheckAddr a private; check_addrs r private end.

(** The host of a resource and whether it is private, before it is resolved. *)
Definition target_host (p : NetworkPolicy) (resource : string) : res (string * bool) :=
  host ← CheckResource resource true;
  private ← CheckHost p host;
  _ ← (if private : bool then Ok "" else CheckResource resource false);
  Ok (host, private).

Definition CheckTarget (p : NetworkPolicy) (resource : string) : proc (res unit) :=
  match target_host p resource with
  | Err e => Ret (Err e)
  | Ok (host, private) =>
      match ParseAddr (Trim host "[]") with
      | Some a => Ret (check_addrs [a] private)
      | None =>
          addrs ← ask (LookupNetIP host);
          Ret (match addrs with
               | Ok (a :: r) => check_addrs (a :: r) private
               | _ => Fail ErrForbidden
               end)
      end
  end.
