(* ===== verification/Egress.v ===== *)
(** * Egress: the guarded HTTP client ([internal/adapters/upstream/egress.go])

    The transports of the client as functions around one another: the session's
    scope and bearer ([session.go]), the guard, and a connection pool whose
    connections are dialed by [DialContext].  What the network answers during a
    hop (resolution, dialing, whether an idle connection is taken) is an
    argument of the hop; a request is its URL and its [Authorization] header. *)

From S2P Require Import Prelude Errors GoStrings GoUrl Network.

Record request := mkRequest { rq_URL : URL; rq_Authorization : option string }.
(** A request as it went out: over which connection, with which header. *)
Record wire := mkWire { wr_URL : URL; wr_Peer : Addr; wr_Authorization : option string }.

Inductive dialed := DialFailed | Connected (peer : option Addr).
Record network := mkNetwork {
  nw_LookupNetIP : string -> option (list Addr); nw_Dial : Addr -> string -> dialed; nw_Idle : bool }.

(** Open connections by scheme, host and port. *)
Abbreviation connections := (gmap (string * string * string) Addr).
Abbreviation RoundTripper := (connections -> request -> res wire * connections).

Definition originOf (scheme host : string) : string := ToLower (scheme +:+ "://" +:+ host).

Section Guard.
  Context (Policy : NetworkPolicy).
  (** [idna.Lookup.ToASCII], which the transport applies to a host. *)
  Context (idnaASCII : string -> string).

(** Dial the checked addresses in order; the first connection decides. *)
Fixpoint dial_checked (nw : network) (private : bool) (port : string) (addrs : list Addr) : res Addr :=
  match addrs with
  | [] => Fail ErrOther
  | a :: rest =>
      match nw_Dial nw (Unmap a) port with
      | DialFailed => dial_checked nw private port rest
      | Connected (Some peer) =>
          if negb (bool_decide (Unmap peer = Unmap a)) || negb (is_ok (CheckAddr peer private)) then Fail ErrEgress else Ok peer
      | Connected None => Fail ErrEgress
      end
  end.
Definition DialContext (nw : network) (host port : string) : res Addr :=
  match CheckHost Policy host with
  | Err _ => Fail ErrEgress
  | Ok private =>
      match (match ParseAddr (Trim host "[]") with Some a => Some [a] | None => nw_LookupNetIP nw host end) with
      | None | Some [] => Fail ErrEgress
      | Some addrs =>
          match check_addrs addrs private with
          | Err _ => Fail ErrEgress
          | Ok _ => dial_checked nw private port addrs
          end
      end
  end.

(** [http.Transport]: an idle connection of the same scheme, host and port,
    or a new one. *)
Definition default_port (u : URL) : string :=
  if String.eqb (Port u) "" then (if String.eqb (u_Scheme u) "https" then "443" else "80") else Port u.
Definition base_RoundTrip (nw : network) : RoundTripper := fun conns req =>
  let host := idnaASCII (Hostname (rq_URL req)) in
  let port := default_port (rq_URL req) in
  let key := (u_Scheme (rq_URL req), host, port) in
  match (if nw_Idle nw then conns !! key else None) with
  | Some peer => (Ok (mkWire (rq_URL req) peer (rq_Authorization req)), conns)
  | None =>
      match DialContext nw host port with
      | Err e => (Err e, conns)
      | Ok peer => (Ok (mkWire (rq_URL req) peer (rq_Authorization req)), <[key := peer]> conns)
      end
  end.

Definition guarded_RoundTrip (base : RoundTripper) : RoundTripper := fun conns req =>
  match CheckHost Policy (Hostname (rq_URL req)) with
  | Err _ => (Fail ErrEgress, conns)
  | Ok private =>
      if negb (String.eqb (u_Scheme (rq_URL req)) "https") && negb (private && String.eqb (u_Scheme (rq_URL req)) "http")
      then (Fail ErrEgress, conns)
      else if u_HasUser (rq_URL req) then (Fail ErrEgress, conns)
      else base conns req
  end.

Definition bearer_RoundTrip (origin token : string) (base : RoundTripper) : RoundTripper := fun conns req =>
  let attach := negb (String.eqb token "") && String.eqb (originOf (u_Scheme (rq_URL req)) (u_Host (rq_URL req))) origin in
  base conns (mkRequest (rq_URL req) (if attach then Some ("Bearer " +:+ token) else None)).

Definition scoped_RoundTrip (scope : list string) (base : RoundTripper) : RoundTripper := fun conns req =>
  if negb (HostInScope (Hostname (rq_URL req)) scope) then (Fail ErrEgress, conns) else base conns req.

(** [Client], [WithBearer] and the client of a session ([Route.Open]). *)
Definition Client (nw : network) : RoundTripper := guarded_RoundTrip (base_RoundTrip nw).
Definition WithBearer (client : RoundTripper) (origin token : string) : RoundTripper := bearer_RoundTrip (ToLower origin) token client.
Definition session_scope (resource : URL) (networkScope : list string) : list string :=
  match networkScope with [] => [ToLower (Hostname resource)] | _ => networkScope end.
Definition session_client (nw : network) (resource : URL) (networkScope : list string) (token : string) : RoundTripper :=
  scoped_RoundTrip (session_scope resource networkScope)
    (WithBearer (Client nw) (u_Scheme resource +:+ "://" +:+ u_Host resource) token).

(** Requests one after the other, each under its own network, through the
    client each is made with; what went out. *)
Fixpoint hops (conns : connections) (reqs : list (RoundTripper * request)) : list wire * connections :=
  match reqs with
  | [] => ([], conns)
  | (client, req) :: rest =>
      let '(r, conns') := client conns req in
      let '(out, last) := hops conns' rest in
      (match r with Ok w => w :: out | Err _ => out end, last)
  end.

(** ** What went out *)

Definition verified_peer (host : string) (peer : Addr) : Prop :=
  exists private, CheckHost Policy host = Ok private /\ CheckAddr peer private = Ok tt.
Definition conns_ok (conns : connections) : Prop := forall s h p peer, conns !! (s, h, p) = Some peer -> verified_peer h peer.

Lemma dial_checked_Ok nw private port addrs peer : dial_checked nw private port addrs = Ok peer ->
  CheckAddr peer private = Ok tt /\ exists a, a ∈ addrs /\ Unmap peer = Unmap a.
Proof.
  induction addrs as [|a rest IH]; cbn; [done|]. destruct (nw_Dial nw (Unmap a) port) as [|[q|]]; [| |done].
  - intros (? & b & ? & ?)%IH. split; [done|]. exists b. split; [by right|done].
  - destruct (_ || _) eqn:E; [done|]. intros [= <-]. apply orb_false_iff in E as [E1 E2]. apply negb_false_iff in E1, E2.
    breflect. destruct (CheckAddr q private) as [[]|] eqn:Ec; [|done]. split; [done|]. exists a. split; [by left|done].
Qed.
Lemma DialContext_Ok nw host port peer : DialContext nw host port = Ok peer -> verified_peer host peer.
Proof.
  unfold DialContext, verified_peer. destruct (CheckHost Policy host) as [private|]; [|done].
  destruct (match ParseAddr _ with Some a => _ | None => _ end) as [[|a addrs]|]; [done| |done].
  destruct (check_addrs _ _); [|done]. intros [H _]%dial_checked_Ok. by exists private.
Qed.

(** What the base transport sends goes to a verified peer of its host. *)
Lemma base_wire nw conns req r conns' : conns_ok conns -> base_RoundTrip nw conns req = (r, conns') ->
  conns_ok conns' /\ forall w, r = Ok w ->
    wr_URL w = rq_URL req /\ wr_Authorization w = rq_Authorization req /\ verified_peer (idnaASCII (Hostname (rq_URL req))) (wr_Peer w).
Proof.
  intros Hc. unfold base_RoundTrip. cbv zeta. destruct (if nw_Idle nw then _ else _) as [peer|] eqn:E.
  - intros [= <- <-]. split; [done|]. intros w [= <-]. split_and!; [done..|]. destruct (nw_Idle nw); [by eapply Hc|done].
  - destruct (DialContext _ _ _) as [peer|] eqn:Ed; intros [= <- <-]; [|by split].
    pose proof (DialContext_Ok _ _ _ _ Ed) as Hp. split.
    + intros s h p q [[E' <-]|[_ H]]%lookup_insert_Some; [by injection E' as <- <- <-|by eapply Hc].
    + by intros w [= <-].
Qed.

(** A hop that went out under the guard. *)
Definition guarded_wire (w : wire) : Prop :=
  u_HasUser (wr_URL w) = false /\ verified_peer (idnaASCII (Hostname (wr_URL w))) (wr_Peer w) /\
  exists private, CheckHost Policy (Hostname (wr_URL w)) = Ok private /\
    (u_Scheme (wr_URL w) = "https" \/ private = true /\ u_Scheme (wr_URL w) = "http").
Lemma guarded_spec nw conns req r conns' : conns_ok conns -> Client nw conns req = (r, conns') ->
  conns_ok conns' /\ forall w, r = Ok w -> guarded_wire w /\ wr_URL w = rq_URL req /\ wr_Authorization w = rq_Authorization req.
Proof.
  intros Hc. unfold Client, guarded_RoundTrip. destruct (CheckHost Policy (Hostname (rq_URL req))) as [private|] eqn:Eh; [|by intros [= <- <-]].
  destruct (negb _ && _) eqn:Es; [by intros [= <- <-]|]. destruct (u_HasUser _) eqn:Eu; [by intros [= <- <-]|].
  intros (Hok & Hw)%base_wire; [|done]. split; [done|]. intros w Hr. destruct (Hw w Hr) as (Hurl & Ha & Hp). split; [|done].
  unfold guarded_wire. rewrite Hurl. split_and!; [done..|]. exists private. split; [done|].
  apply andb_false_iff in Es as [Es|Es]; apply negb_false_iff in Es; [left|right]; by breflect.
Qed.

(** What a session sends, and only that. *)
Definition session_wire (resource : URL) (networkScope : list string) (token : string) (w : wire) : Prop :=
  guarded_wire w /\ HostInScope (Hostname (wr_URL w)) (session_scope resource networkScope) = true /\
  forall header, wr_Authorization w = Some header ->
    header = "Bearer " +:+ token /\ token <> "" /\
    originOf (u_Scheme (wr_URL w)) (u_Host (wr_URL w)) = originOf (u_Scheme resource) (u_Host resource).
Lemma session_spec nw resource networkScope token conns req r conns' :
  conns_ok conns -> session_client nw resource networkScope token conns req = (r, conns') ->
  conns_ok conns' /\ forall w, r = Ok w -> session_wire resource networkScope token w.
Proof.
  intros Hc. unfold session_client, scoped_RoundTrip, WithBearer, bearer_RoundTrip.
  destruct (HostInScope _ _) eqn:Es; cbn [negb]; [|by intros [= <- <-]]. cbv zeta.
  intros (Hok & Hw)%guarded_spec; [|done]. split; [done|]. intros w Hr. destruct (Hw w Hr) as (Hg & Hurl & Ha). cbn in Hurl, Ha.
  split; [done|]. rewrite Hurl. split; [done|]. rewrite Ha. intros header. destruct (_ && _) eqn:Eb; [|done]. intros [= <-].
  breflect. split_and!; [done| |].
  - intros ->. done.
  - done.
Qed.

(** C26. Egress is confined. Whatever names resolve to, whatever answers a
    dial and whichever connections are kept, any sequence of requests through
    sessions of the upstream client, each for its own resource, scope and
    token, sends only to hosts in the session's scope that the policy reviewed,
    over https (http for private hosts only), without user information in the
    URL, over connections whose peer address passed the address rules of their
    host; an Authorization header is the session's own bearer token and goes to
    the origin of its resource only, whatever header the caller had set. *)
Theorem egress_is_confined sessions :
  let reqs := map (fun s : network * URL * list string * string * request =>
    let '(nw, resource, scope, token, req) := s in (session_client nw resource scope token, req)) sessions in
  forall w, w ∈ (hops ∅ reqs).1 -> exists nw resource scope token req,
    (nw, resource, scope, token, req) ∈ sessions /\ session_wire resource scope token w.
Proof.
  cbv zeta. assert (Hc : conns_ok ∅) by (intros ? ? ? ?; by rewrite lookup_empty). revert Hc. generalize (∅ : connections).
  induction sessions as [|[[[[nw resource] scope] token] req] rest IH]; intros conns Hc w; cbn [map hops fst].
  { intros H. by apply elem_of_nil in H. }
  destruct (session_client _ _ _ _ _ _) as [r conns'] eqn:Er. apply session_spec in Er as [Hc' Hw]; [|done].
  specialize (IH _ Hc' w). destruct (hops _ _) as [out last]. cbn [fst] in *. intros Hin.
  assert (r = Ok w \/ w ∈ out) as [->|Ho] by (destruct r; [apply elem_of_cons in Hin as [->|]|]; by auto).
  - exists nw, resource, scope, token, req. split; [by left|by apply Hw].
  - destruct (IH Ho) as (nw' & res' & sc' & tk' & rq' & Hin' & Hs). exists nw', res', sc', tk', rq'. split; [by right|done].
Qed.
End Guard.

(** One session: the first request goes out with the token, the second names
    another host and the third another scheme. *)
Definition mcp_policy : NetworkPolicy := mkNetworkPolicy ["mcp.example.com"; "idp.example.com"] [].
Definition mcp_url (scheme host path : string) : URL := mkURL scheme "" false host path "" "".
Definition mcp_network : network := mkNetwork (fun _ => Some [Addr4 [93; 184; 216; 34]]) (fun a _ => Connected (Some a)) true.
Definition mcp_sessions : list (network * URL * list string * string * request) :=
  let s u := (mcp_network, mcp_url "https" "MCP.example.com" "/mcp", [], "secret", mkRequest u (Some "Basic x")) in
  [s (mcp_url "https" "mcp.example.com" "/mcp"); s (mcp_url "https" "idp.example.com" "/"); s (mcp_url "http" "mcp.example.com" "/mcp")].
Definition mcp_wire : wire := mkWire (mcp_url "https" "mcp.example.com" "/mcp") (Addr4 [93; 184; 216; 34]) (Some "Bearer secret").
Definition mcp_hops := (hops ∅ (map (fun s : network * URL * list string * string * request =>
    let '(nw, resource, scope, token, req) := s in (session_client mcp_policy id nw resource scope token, req)) mcp_sessions)).1.
Lemma mcp_hops_wire : mcp_hops = [mcp_wire].
Proof. vm_compute. reflexivity. Qed.
Lemma egress_is_confined_witness : mcp_wire ∈ mcp_hops /\ exists nw resource scope token req,
    (nw, resource, scope, token, req) ∈ mcp_sessions /\ session_wire mcp_policy id resource scope token mcp_wire.
Proof.
  assert (H : mcp_wire ∈ mcp_hops) by (rewrite mcp_hops_wire; apply list_elem_of_here). split; [exact H|].
  exact (egress_is_confined mcp_policy id mcp_sessions mcp_wire H).
Defined.

(** ** Bounded bodies *)

(** A response body that delivers its bytes in chunks and then ends, at its
    end or by a failure, which it reports with its last bytes or after them. *)
Inductive ending := EndOfBody | TransportFailure.
Record body := mkBody { bd_bytes : list Z; bd_end : ending; bd_early : bool }.
Inductive read_error := EOF | ReadFailed | BodyTooLarge.
Definition error_of (e : ending) : read_error := match e with EndOfBody => EOF | TransportFailure => ReadFailed end.
(** A read into a buffer of [n] bytes, of which the next [k] are there. *)
Definition body_Read (n k : nat) (rc : body) : list Z * option read_error * body :=
  match bd_bytes rc with
  | [] => ([], Some (error_of (bd_end rc)), rc)
  | l =>
      let rest := skipn (Nat.min n k) l in
      (firstn (Nat.min n k) l, match rest with [] => if bd_early rc then Some (error_of (bd_end rc)) else None | _ :: _ => None end,
       mkBody rest (bd_end rc) (bd_early rc))
  end.

Record boundedBody := mkBounded { bb_rc : body; bb_left : nat }.
Definition Read (n k : nat) (b : boundedBody) : list Z * option read_error * boundedBody :=
  match bb_left b with
  | O => match body_Read 1 k (bb_rc b) with
         | (_ :: _, _, rc) => ([], Some BodyTooLarge, mkBounded rc 0)
         | ([], _, rc) => ([], Some EOF, mkBounded rc 0)
         end
  | S m => let '(d, e, rc) := body_Read (Nat.min n (S m)) k (bb_rc b) in (d, e, mkBounded rc (S m - List.length d))
  end.
(** [io.ReadAll]: reads until an error, which the end of the body is not;
    [None]: the reads ran out. *)
Fixpoint ReadAll (reads : list (nat * nat)) (b : boundedBody) (acc : list Z) : option (list Z * option read_error) :=
  match reads with
  | [] => None
  | (n, k) :: rest =>
      match Read n k b with
      | (d, None, b') => ReadAll rest b' (acc ++ d)
      | (d, Some EOF, _) => Some (acc ++ d, None)
      | (d, Some e, _) => Some (acc ++ d, Some e)
      end
  end.

Definition read_result (max : nat) (b : body) : list Z * option read_error :=
  let n := List.length (bd_bytes b) in
  if (max <? n)%nat then (firstn max (bd_bytes b), Some BodyTooLarge)
  else if (n =? max)%nat && negb (bd_early b && (0 <? n)%nat) then (bd_bytes b, None)
  else (bd_bytes b, match bd_end b with EndOfBody => None | TransportFailure => Some ReadFailed end).

Lemma read_result_app max d r e early : (List.length d <= max)%nat -> early = false \/ r <> [] ->
  read_result max (mkBody (d ++ r) e early) =
  (d ++ (read_result (max - List.length d) (mkBody r e early)).1, (read_result (max - List.length d) (mkBody r e early)).2).
Proof.
  intros Hd Hr. unfold read_result. cbn [bd_bytes bd_end bd_early]. rewrite length_app.
  destruct (Nat.ltb_spec max (List.length d + List.length r)), (Nat.ltb_spec (max - List.length d) (List.length r)); try lia.
  - by rewrite firstn_app, firstn_all2 by lia.
  - replace (early && (0 <? List.length d + List.length r)%nat) with (early && (0 <? List.length r)%nat).
    2: { destruct Hr as [->|Hr]; [done|]. destruct r as [|x r]; [done|]. cbn [List.length]. by rewrite Nat.add_succ_r. }
    destruct (Nat.eqb_spec (List.length d + List.length r) max), (Nat.eqb_spec (List.length r) (max - List.length d)); try lia;
      by destruct (_ && _).
Qed.

Lemma Read_chunk n k x l e early m : let j := Nat.min (Nat.min n (S m)) k in
  Read n k (mkBounded (mkBody (x :: l) e early) (S m)) =
  (firstn j (x :: l), match skipn j (x :: l) with [] => if early then Some (error_of e) else None | _ :: _ => None end,
   mkBounded (mkBody (skipn j (x :: l)) e early) (S m - List.length (firstn j (x :: l)))).
Proof. reflexivity. Qed.

(** C27. A body is read to its bound and no further. However the body arrives
    in chunks and whatever buffers are passed, reading it all takes at most one
    read per byte and one more, and answers: all bytes of a body within the
    bound, with the failure that cut it; the bytes up to the bound and
    [ErrBodyTooLarge] of a longer one. Only at exactly the bound a failure of
    the connection that is reported after the last bytes reads like the end. *)
Theorem bounded_body_is_read reads max b :
  Forall (fun r => (0 < r.1)%nat /\ (0 < r.2)%nat) reads -> (List.length (bd_bytes b) < List.length reads)%nat ->
  ReadAll reads (mkBounded b max) [] = Some (read_result max b).
Proof.
  intros Hr Hl. enough (forall acc, ReadAll reads (mkBounded b max) acc = Some (acc ++ (read_result max b).1, (read_result max b).2)) as H.
  { rewrite H. by destruct (read_result max b). }
  revert max b Hr Hl. induction reads as [|[n k] rest IH]; intros max [l e early] Hr Hl acc; [cbn in Hl; lia|].
  apply Forall_cons in Hr as [[Hn Hk] Hr]. cbn [fst snd bd_bytes] in *. cbn [ReadAll Read bb_left bb_rc].
  destruct max as [|m].
  - destruct l as [|x l]; unfold body_Read; cbn [bd_bytes].
    + by destruct early.
    + destruct k as [|k]; [lia|]. done.
  - destruct l as [|x l].
    + by destruct e.
    + rewrite Read_chunk. set (j := Nat.min (Nat.min n (S m)) k). assert (0 < j <= S m)%nat as Hj by (unfold j; lia).
      destruct (skipn j (x :: l)) as [|y r] eqn:Er; [destruct early|].
      * assert (List.length (x :: l) <= j)%nat as Hle by (pose proof (length_skipn j (x :: l)) as Hx; rewrite Er in Hx; cbn in *; lia).
        rewrite firstn_all2 by done. unfold read_result. cbn [bd_bytes bd_end bd_early].
        rewrite (proj2 (Nat.ltb_ge _ _)) by lia. cbn [List.length Nat.ltb Nat.leb andb negb]. rewrite andb_false_r. by destruct e.
      * pose proof (read_result_app (S m) (firstn j (x :: l)) [] e false ltac:(rewrite length_firstn; lia) (or_introl eq_refl)) as H.
        rewrite <- Er in H at 1. rewrite firstn_skipn in H. rewrite H. rewrite IH; [|done|cbn in *; lia]. cbn [fst snd]. by rewrite app_assoc.
      * pose proof (read_result_app (S m) (firstn j (x :: l)) (y :: r) e early ltac:(rewrite length_firstn; lia) ltac:(by right)) as H.
        rewrite <- Er in H at 1. rewrite firstn_skipn in H. rewrite H. rewrite IH; [cbn [fst snd]; by rewrite app_assoc|done|].
        pose proof (length_skipn j (x :: l)) as Hx. rewrite Er in Hx. cbn in *. lia.
Qed.
(** Three bytes through a bound of two, of three with a failure behind them or
    with them, and of four. *)
Definition cut_body : body := mkBody [1; 2; 3] TransportFailure false.
Definition cut_early : body := mkBody [1; 2; 3] TransportFailure true.
Lemma bounded_body_is_read_witness :
  ReadAll (replicate 4 (2%nat, 2%nat)) (mkBounded cut_body 2) [] = Some ([1; 2], Some BodyTooLarge) /\
  ReadAll (replicate 4 (2%nat, 2%nat)) (mkBounded cut_body 3) [] = Some ([1; 2; 3], None) /\
  ReadAll (replicate 4 (2%nat, 2%nat)) (mkBounded cut_early 3) [] = Some ([1; 2; 3], Some ReadFailed) /\
  ReadAll (replicate 4 (2%nat, 1%nat)) (mkBounded cut_body 4) [] = Some ([1; 2; 3], Some ReadFailed).
Proof.
  assert (H : forall n k, Forall (fun r => (0 < r.1)%nat /\ (0 < r.2)%nat) (replicate 4 (S n, S k))) by (intros; apply Forall_replicate; cbn; lia).
  split_and!; (etransitivity; [apply (bounded_body_is_read (replicate 4 _)); [apply H|cbn; lia]|reflexivity]).
Defined.
