(* ===== verification/Authority.v ===== *)
(** * Authority: resource-bound access tokens ([internal/adapters/upstream/oauth.go])

    Protected-resource metadata, the check of the endpoints it names, and the
    token cache, as processes over questions to the guarded client, the
    resolver, the clock, the secret files and the cache under its mutex.  The
    metadata of an authorization server and the token request itself are made
    by third-party libraries and are questions. *)

From S2P Require Import Prelude Errors GoStrings GoTrim GoCrypto GoJson GoUrl Grant Network Prog Trace.
From Stdlib Require Import Ascii.

(** ** [strings.Fields] *)

Definition field_end (word : string) : list string := if String.eqb word "" then [] else [word].
Fixpoint fields (fuel : nat) (word s : string) : list string :=
  match fuel with
  | O => field_end word
  | S n =>
      match s with
      | EmptyString => field_end word
      | String c r =>
          match space_prefix s with
          | O => fields n (word +:+ String c "") r
          | k => field_end word ++ fields n "" (drop_bytes k s)
          end
      end
  end.
Definition Fields (s : string) : list string := fields (String.length s) "" s.
Example fields_of_scopes : Fields " tools.read  tools.call " = ["tools.read"; "tools.call"].
Proof. vm_compute. reflexivity. Qed.

(** ** Data *)

Record Credential := mkCredential {
  cr_Resource : string; cr_Issuer : string; cr_ClientID : string; cr_ClientSecretFile : string; cr_Scopes : list string }.

(** [oauth2.Token] and its extra field [scope]: absent, a text, anything else. *)
Inductive scope_extra := NoScope | ScopeText (s : string) | ScopeOther.
Record oauth_token := mkToken { tk_AccessToken : string; tk_Expiry : Time; tk_scope : scope_extra }.
Record cachedToken := mkCached { ct_token : oauth_token; ct_key : string; ct_resource : string }.

Record resourceMetadata := mkMetadata { rm_Resource : string; rm_AuthorizationServers : list string }.
Fixpoint decode_list (old : list string) (l : list json) : option (list string) :=
  match l with
  | [] => Some []
  | v :: r => s ← decode_string (hd "" old) v; rest ← decode_list (tl old) r; Some (s :: rest)
  end.
Definition assign_metadata (f : string) (v : json) (m : resourceMetadata) : option resourceMetadata :=
  if String.eqb f "resource" then s ← decode_string (rm_Resource m) v; Some (mkMetadata s (rm_AuthorizationServers m))
  else match v with
       | JNull => Some (mkMetadata (rm_Resource m) [])
       | JArr l => s ← decode_list (rm_AuthorizationServers m) l; Some (mkMetadata (rm_Resource m) s)
       | _ => None
       end.
Definition Unmarshal_metadata (raw : string) : option resourceMetadata :=
  v ← Parse raw; decode_struct ["resource"; "authorization_servers"] false assign_metadata v (mkMetadata "" []).

(** An HTTP answer: the client's error, or the status and what reading the
    bounded body gave. *)
Inductive http_answer := GetFailed (e : error) | Answer (status : Z) (body : res string).
(** The metadata of an authorization server as the library returns it. *)
Record authServerMeta := mkMeta { as_TokenEndpoint : string; as_JWKSURI : string }.
(** [clientcredentials.Config]: the request for a token. *)
Record token_request := mkTokenRequest {
  tr_ClientID : string; tr_ClientSecret : string; tr_TokenURL : string; tr_Scopes : list string; tr_resource : string }.

Universe authority.
Inductive auth_eff : Type@{authority} -> Type@{authority+1} :=
| HttpGet (url : string) : auth_eff http_answer
| Resolve (host : string) : auth_eff (res (list Addr))
| GetAuthServerMetadata (issuer : string) : auth_eff (res (option authServerMeta))
| ReadFile (path : string) : auth_eff (res string)
| TokenRequest (r : token_request) : auth_eff (res oauth_token)
| ClockNow : auth_eff Time
| CacheGet (key : string) : auth_eff (option oauth_token)
| CacheSet (key : string) (c : cachedToken) : auth_eff unit.
Abbreviation aproc := (prog auth_eff).
Notation "x ⇠ m ; k" := ((m : aproc (res _)) ≫= fun r => match r with Ok x => k | Err e => Ret (Err e) end)
  (at level 20, m at level 100, k at level 200, only parsing).

(** ** Operations *)

Definition metadataURLs (resource : string) : list string :=
  match Parse_URL resource with
  | None => []
  | Some u =>
      let base := u_Scheme u +:+ "://" +:+ u_Host u +:+ "/.well-known/oauth-protected-resource" in
      let p := Trim (u_Path u) "/" in
      if negb (String.eqb p "") then [base +:+ "/" +:+ p; base] else [base]
  end.

Section Authority.
  Context (Policy : NetworkPolicy) (credentials : list Credential).

Definition checkURL (raw : string) : aproc (res unit) :=
  match Parse_URL raw with
  | None => Ret (Fail ErrAuthority)
  | Some u =>
      if String.eqb (u_Host u) "" || u_HasUser u then Ret (Fail ErrAuthority)
      else match CheckHost Policy (Hostname u) with
           | Err _ => Ret (Fail ErrAuthority)
           | Ok private =>
               if negb (String.eqb (u_Scheme u) "https") && negb (private && String.eqb (u_Scheme u) "http") then Ret (Fail ErrAuthority)
               else
                 addrs ← match ParseAddr (Hostname u) with Some a => Ret (Ok [a]) | None => ask (Resolve (Hostname u)) end;
                 Ret (match addrs with
                      | Err _ | Ok [] => Fail ErrAuthority
                      | Ok l => match check_addrs l private with Err _ => Fail ErrAuthority | Ok _ => Ok tt end
                      end)
           end
  end.
Fixpoint checkURLs (urls : list string) : aproc (res unit) :=
  match urls with
  | [] => Ret (Ok tt)
  | u :: rest => x ⇠ checkURL u; checkURLs rest
  end.

Fixpoint read_metadata (resource : string) (urls : list string) : aproc (res (list string)) :=
  match urls with
  | [] => Ret (Ok [])
  | mu :: rest =>
      match Parse_URL mu with
      | None => Ret (Fail ErrOther)
      | Some _ =>
          answer ← ask (HttpGet mu);
          match answer with
          | GetFailed e => Ret (Err e)
          | Answer status body =>
              if status =? 404 then read_metadata resource rest
              else match body with
                   | Err e => Ret (Err e)
                   | Ok raw =>
                       if negb (status =? 200) then Ret (Fail ErrOther)
                       else match Unmarshal_metadata raw with
                            | None => Ret (Fail ErrAuthority)
                            | Some md =>
                                if negb (String.eqb (rm_Resource md) resource) then Ret (Fail ErrAuthority)
                                else x ⇠ checkURLs (rm_AuthorizationServers md); Ret (Ok (rm_AuthorizationServers md))
                            end
                   end
          end
      end
  end.
Definition ProtectedResource (resource : string) : aproc (res (list string)) := read_metadata resource (metadataURLs resource).
Definition Issuer (resource : string) : aproc (res string) :=
  servers ⇠ ProtectedResource resource; Ret (Ok (hd "" servers)).

Definition HasCredential (resource : string) : bool := existsb (fun c => String.eqb (cr_Resource c) resource) credentials.
(** The last reviewed credential bound to the resource and the issuer. *)
Definition credential_of (resource issuer : string) : option Credential :=
  last (List.filter (fun c => String.eqb (cr_Resource c) resource && String.eqb (cr_Issuer c) issuer) credentials).

Definition withinScopes (tok : oauth_token) (requested : list string) : res unit :=
  match tk_scope tok with
  | NoScope => Ok tt
  | ScopeOther => Fail ErrAuthority
  | ScopeText granted =>
      if (0 <? List.length (List.filter (fun s => negb (slices_Contains requested s)) (Fields granted)))%nat
      then Fail ErrAuthority else Ok tt
  end.

Definition cache_slot (cacheKey client : string) : string := cacheKey +:+ nul +:+ client.
Definition request_token (resource issuer cacheKey : string) (cred : Credential) : aproc (res string) :=
  meta ← ask (GetAuthServerMetadata issuer);
  match meta with
  | Err _ | Ok None => Ret (Fail ErrAuthority)
  | Ok (Some asm) =>
      x ⇠ checkURLs (List.filter (fun u => negb (String.eqb u "")) [as_TokenEndpoint asm; as_JWKSURI asm]);
      secret ← ask (ReadFile (cr_ClientSecretFile cred));
      match secret with
      | Err _ => Ret (Fail ErrAuthority)
      | Ok secret =>
          tok ← ask (TokenRequest (mkTokenRequest (cr_ClientID cred) (TrimSpace secret) (as_TokenEndpoint asm) (cr_Scopes cred) resource));
          match tok with
          | Err _ => Ret (Fail ErrAuthority)
          | Ok tok =>
              match withinScopes tok (cr_Scopes cred) with
              | Err e => Ret (Err e)
              | Ok _ =>
                  _ ← ask (CacheSet (cache_slot cacheKey (cr_ClientID cred)) (mkCached tok cacheKey resource));
                  Ret (Ok (tk_AccessToken tok))
              end
          end
      end
  end.
Definition token (resource issuer cacheKey : string) : aproc (res string) :=
  servers ⇠ ProtectedResource resource;
  if negb (slices_Contains servers issuer) then Ret (Fail ErrAuthority)
  else match credential_of resource issuer with
       | None => Ret (Fail ErrAuthority)
       | Some cred =>
           cached ← ask (CacheGet (cache_slot cacheKey (cr_ClientID cred)));
           match cached with
           | None => request_token resource issuer cacheKey cred
           | Some tok =>
               now ← ask ClockNow;
               if After (tk_Expiry tok) (TAdd now (30 * Second)) then Ret (Ok (tk_AccessToken tok))
               else request_token resource issuer cacheKey cred
           end
       end.

Definition Token (g : Grant) : aproc (res string) :=
  if String.eqb (g_Issuer g) "" then Ret (Ok "") else token (g_CanonicalResource g) (g_Issuer g) (CacheKey g).
Definition discovery_key (resource issuer : string) : string := "discovery" +:+ nul +:+ resource +:+ nul +:+ issuer.
Definition DiscoveryToken (resource : string) : aproc (res (string * string)) :=
  issuer ⇠ Issuer resource;
  if String.eqb issuer "" then Ret (Ok ("", ""))
  else t ⇠ token resource issuer (discovery_key resource issuer); Ret (Ok (t, issuer)).

Definition evict (match_ : cachedToken -> bool) (cache : gmap string cachedToken) : Z * gmap string cachedToken :=
  (Z.of_nat (size (filter (fun kc : string * cachedToken => match_ kc.2 = true) cache)),
   filter (fun kc : string * cachedToken => match_ kc.2 = false) cache).
Definition EvictGrant (cacheKey : string) := evict (fun c => String.eqb (ct_key c) cacheKey).
Definition EvictResource (resource : string) := evict (fun c => String.eqb (ct_resource c) resource).

(** ** Concurrent calls *)

Inductive operation := TokenOf (g : Grant) | DiscoveryOf (resource : string).
(** What a call answers: the token and the issuer it is of. *)
Definition run_op (op : operation) : aproc (res (string * string)) :=
  match op with
  | TokenOf g => t ⇠ Token g; Ret (Ok (t, g_Issuer g))
  | DiscoveryOf resource => DiscoveryToken resource
  end.

(** What a question may be answered: anything from outside, and what the cache
    holds; and the cache after it. *)
Definition answers {X : Type} (cache : gmap string cachedToken) (e : auth_eff X) (cache' : gmap string cachedToken) : X -> Prop :=
  match e in auth_eff Y return Y -> Prop with
  | CacheGet key => fun a => a = ct_token <$> cache !! key /\ cache' = cache
  | CacheSet key c => fun _ => cache' = <[key := c]> cache
  | _ => fun _ => cache' = cache
  end.

(** A call with what it has asked so far, and the authority: its cache and
    the calls started, finished ones included. *)
Record running := mkRunning { rn_op : operation; rn_trace : list (event auth_eff); rn_prog : aproc (res (string * string)) }.
Record authority_state := mkAuthority { au_cache : gmap string cachedToken; au_calls : list running }.
Inductive authority_step : authority_state -> authority_state -> Prop :=
| as_start cache calls op : authority_step (mkAuthority cache calls) (mkAuthority cache (mkRunning op [] (run_op op) :: calls))
| as_ask cache cache' l1 l2 op tr X (e : auth_eff X) k x : answers cache e cache' x ->
    authority_step (mkAuthority cache (l1 ++ mkRunning op tr (Ask e k) :: l2))
      (mkAuthority cache' (l1 ++ mkRunning op (tr ++ [ev e x]) (k x) :: l2))
| as_evict_grant cache calls key : authority_step (mkAuthority cache calls) (mkAuthority (EvictGrant key cache).2 calls)
| as_evict_resource cache calls resource : authority_step (mkAuthority cache calls) (mkAuthority (EvictResource resource cache).2 calls).
Definition authority_reachable (s : authority_state) : Prop := rtc authority_step (mkAuthority ∅ []) s.

(** ** What a trace shows *)

(** A URL named by metadata passed the network policy during the trace. *)
Definition endpoint_checked (tr : list (event auth_eff)) (raw : string) : Prop :=
  exists u private addrs, Parse_URL raw = Some u /\ u_Host u <> "" /\ u_HasUser u = false /\
    CheckHost Policy (Hostname u) = Ok private /\ (u_Scheme u = "https" \/ private = true /\ u_Scheme u = "http") /\
    (ParseAddr (Hostname u) = Some (hd (Addr4 []) addrs) \/ ev (Resolve (Hostname u)) (Ok addrs) ∈ tr) /\
    addrs <> [] /\ check_addrs addrs private = Ok tt.
(** The resource's metadata, read during the trace, names the issuer. *)
Definition named (tr : list (event auth_eff)) (resource issuer : string) : Prop :=
  exists mu raw md, mu ∈ metadataURLs resource /\ ev (HttpGet mu) (Answer 200 (Ok raw)) ∈ tr /\
    Unmarshal_metadata raw = Some md /\ rm_Resource md = resource /\ issuer ∈ rm_AuthorizationServers md /\
    Forall (endpoint_checked tr) (rm_AuthorizationServers md).
Definition reviewed (resource issuer : string) (cred : Credential) : Prop :=
  cred ∈ credentials /\ cr_Resource cred = resource /\ cr_Issuer cred = issuer.
(** A token request as it may be made for the resource at the issuer. *)
Definition requested (tr : list (event auth_eff)) (resource issuer : string) (r : token_request) : Prop :=
  named tr resource issuer /\ tr_resource r = resource /\
  (exists cred, reviewed resource issuer cred /\ tr_ClientID r = cr_ClientID cred /\ tr_Scopes r = cr_Scopes cred) /\
  exists asm, ev (GetAuthServerMetadata issuer) (Ok (Some asm)) ∈ tr /\ tr_TokenURL r = as_TokenEndpoint asm /\
    forall u, u ∈ [as_TokenEndpoint asm; as_JWKSURI asm] -> u <> "" -> endpoint_checked tr u.
Definition issued (tr : list (event auth_eff)) (resource issuer : string) (tok : oauth_token) (client : string) : Prop :=
  exists r, ev (TokenRequest r) (Ok tok) ∈ tr /\ requested tr resource issuer r /\
    withinScopes tok (tr_Scopes r) = Ok tt /\ tr_ClientID r = client.
(** The resource, the issuer and the cache key of a call. *)
Definition dims_of (op : operation) (resource issuer cacheKey : string) : Prop :=
  match op with
  | TokenOf g => resource = g_CanonicalResource g /\ issuer = g_Issuer g /\ cacheKey = CacheKey g
  | DiscoveryOf r => resource = r /\ cacheKey = discovery_key r issuer
  end.

Definition may_ask (op : operation) (tr : list (event auth_eff)) (X : Type) (e : auth_eff X) : Prop :=
  match e with
  | TokenRequest r => exists resource issuer key, dims_of op resource issuer key /\ requested tr resource issuer r
  | CacheSet k c => exists resource issuer client, dims_of op resource issuer (ct_key c) /\
      issued tr resource issuer (ct_token c) client /\ k = cache_slot (ct_key c) client /\ ct_resource c = resource
  | _ => True
  end.

Lemma endpoint_checked_mono tr tr' raw : tr `prefix_of` tr' -> endpoint_checked tr raw -> endpoint_checked tr' raw.
Proof.
  intros Hp (u & private & addrs & ? & ? & ? & ? & ? & Ha & ? & ?). exists u, private, addrs. split_and!; try done.
  destruct Ha as [|Ha]; [by left|right]. eauto with trace.
Qed.
Lemma named_mono tr tr' resource issuer : tr `prefix_of` tr' -> named tr resource issuer -> named tr' resource issuer.
Proof.
  intros Hp (mu & raw & md & ? & ? & ? & ? & ? & Hall). exists mu, raw, md. split_and!; try done; [eauto with trace|].
  eapply Forall_impl; [exact Hall|]. intros. by eapply endpoint_checked_mono.
Qed.
Lemma requested_mono tr tr' resource issuer r : tr `prefix_of` tr' -> requested tr resource issuer r -> requested tr' resource issuer r.
Proof.
  intros Hp (? & ? & ? & asm & ? & ? & Hu). split_and!; [by eapply named_mono|done..|]. exists asm. split_and!; [eauto with trace|done|].
  intros u Hin Hne. eapply endpoint_checked_mono; [done|]. by apply Hu.
Qed.
Lemma issued_mono tr tr' resource issuer tok client : tr `prefix_of` tr' -> issued tr resource issuer tok client -> issued tr' resource issuer tok client.
Proof. intros Hp (r & ? & ? & ? & ?). exists r. split_and!; [eauto with trace|by eapply requested_mono|done|done]. Qed.

(** ** The logic of the operations *)

Section Operations.
  Context (op : operation).

Lemma wp_checkURL raw tr Q :
  (forall tr' e, tr `prefix_of` tr' -> Q tr' (Err e)) ->
  (forall tr', tr `prefix_of` tr' -> endpoint_checked tr' raw -> Q tr' (Ok tt)) ->
  wp (may_ask op) (checkURL raw) tr Q.
Proof.
  intros He Hk. unfold checkURL. destruct (Parse_URL raw) as [u|] eqn:Eu; [|by apply He].
  destruct (_ || _) eqn:Ehu; [by apply He|]. apply orb_false_iff in Ehu as [Eh Euser]. breflect.
  destruct (CheckHost Policy (Hostname u)) as [private|] eqn:Eph; [|by apply He].
  destruct (negb _ && _) eqn:Es; [by apply He|].
  assert (u_Scheme u = "https" \/ private = true /\ u_Scheme u = "http") as Hs.
  { apply andb_false_iff in Es as [Es|Es]; apply negb_false_iff in Es; [left|right]; by breflect. }
  assert (forall tr' (r : res (list Addr)), tr `prefix_of` tr' ->
    (forall addrs, r = Ok addrs -> ParseAddr (Hostname u) = Some (hd (Addr4 []) addrs) \/ ev (Resolve (Hostname u)) (Ok addrs) ∈ tr') ->
    Q tr' (match r with Err _ | Ok [] => Fail ErrAuthority
           | Ok l => match check_addrs l private with Err _ => Fail ErrAuthority | Ok _ => Ok tt end end)) as Hend.
  { intros tr' [[|a l]|] Hp Hr; [by apply He| |by apply He].
    destruct (check_addrs (a :: l) private) as [[]|] eqn:Ec; [|by apply He]. apply Hk; [done|].
    exists u, private, (a :: l). split_and!; try done. by apply Hr. }
  destruct (ParseAddr (Hostname u)) as [a|] eqn:Ea.
  - apply (Hend tr (Ok [a])); [done|]. intros ? [= <-]. by left.
  - apply wp_ask; [done|]. intros r. apply Hend; [apply prefix_last|]. intros addrs ->. right. apply ev_last.
Qed.

Lemma wp_checkURLs urls tr Q :
  (forall tr' e, tr `prefix_of` tr' -> Q tr' (Err e)) ->
  (forall tr', tr `prefix_of` tr' -> Forall (endpoint_checked tr') urls -> Q tr' (Ok tt)) ->
  wp (may_ask op) (checkURLs urls) tr Q.
Proof.
  revert tr. induction urls as [|u urls IH]; intros tr He Hk; cbn [checkURLs]; [by apply Hk|].
  apply wp_bind, wp_checkURL; [by intros; apply He|]. intros tr' Hp Hu. apply IH.
  - intros tr2 e Hp2. apply He. by etransitivity.
  - intros tr2 Hp2 Hall. apply Hk; [by etransitivity|]. constructor; [by eapply endpoint_checked_mono|done].
Qed.

Lemma wp_read_metadata resource urls tr Q : (forall mu, mu ∈ urls -> mu ∈ metadataURLs resource) ->
  (forall tr' e, tr `prefix_of` tr' -> Q tr' (Err e)) ->
  (forall tr' servers, tr `prefix_of` tr' -> (forall i, i ∈ servers -> named tr' resource i) -> Q tr' (Ok servers)) ->
  wp (may_ask op) (read_metadata resource urls) tr Q.
Proof.
  revert tr. induction urls as [|mu urls IH]; intros tr Hin He Hk; cbn [read_metadata].
  { apply Hk; [done|]. intros i Hi. by apply elem_of_nil in Hi. }
  destruct (Parse_URL mu); [|by apply He]. apply wp_ask; [done|]. intros [e|status body]; [apply He, prefix_last|].
  destruct (status =? 404).
  { apply IH; [intros; apply Hin; by right| |]; intros; [apply He|apply Hk; [|done]]; (etransitivity; [apply prefix_last|done]). }
  destruct body as [raw|e]; [|apply He, prefix_last]. destruct (status =? 200) eqn:E200; [|apply He, prefix_last]. cbn [negb].
  apply Z.eqb_eq in E200. subst status. destruct (Unmarshal_metadata raw) as [md|] eqn:Emd; [|apply He, prefix_last].
  destruct (String.eqb_spec (rm_Resource md) resource) as [Er|]; cbn [negb]; [|apply He, prefix_last].
  apply wp_bind, wp_checkURLs; [intros; apply He; (etransitivity; [apply prefix_last|done])|].
  intros tr' Hp Hall. apply Hk; [by etransitivity; [apply prefix_last|]|]. intros i Hi. exists mu, raw, md.
  split_and!; try done; [apply Hin; by left|]. eapply ev_prefix; [exact Hp|apply ev_last].
Qed.
Lemma wp_ProtectedResource resource tr Q :
  (forall tr' e, tr `prefix_of` tr' -> Q tr' (Err e)) ->
  (forall tr' servers, tr `prefix_of` tr' -> (forall i, i ∈ servers -> named tr' resource i) -> Q tr' (Ok servers)) ->
  wp (may_ask op) (ProtectedResource resource) tr Q.
Proof. intros. by apply wp_read_metadata. Qed.

Lemma credential_of_reviewed resource issuer cred : credential_of resource issuer = Some cred -> reviewed resource issuer cred.
Proof.
  unfold credential_of. intros H. apply last_Some_elem_of in H. apply list_elem_of_In, filter_In in H as [Hin H].
  breflect. by rewrite <- list_elem_of_In in Hin.
Qed.

(** What a call knows of the token it answers. *)
Definition obtained (tr : list (event auth_eff)) (resource issuer cacheKey t : string) : Prop :=
  named tr resource issuer /\ exists cred tok, reviewed resource issuer cred /\ tk_AccessToken tok = t /\
    (ev (CacheGet (cache_slot cacheKey (cr_ClientID cred))) (Some tok) ∈ tr \/ issued tr resource issuer tok (cr_ClientID cred)).

Lemma wp_request_token resource issuer cacheKey cred tr Q :
  dims_of op resource issuer cacheKey -> reviewed resource issuer cred -> named tr resource issuer ->
  (forall tr' e, tr `prefix_of` tr' -> Q tr' (Err e)) ->
  (forall tr' t, tr `prefix_of` tr' -> obtained tr' resource issuer cacheKey t -> Q tr' (Ok t)) ->
  wp (may_ask op) (request_token resource issuer cacheKey cred) tr Q.
Proof.
  intros Hd Hc Hn He Hk. unfold request_token. apply wp_ask; [done|]. intros [[asm|]|e]; [|apply He, prefix_last..].
  apply wp_bind, wp_checkURLs; [intros; apply He; by etransitivity; [apply prefix_last|]|]. intros tr1 Hp1 Hall.
  assert (tr `prefix_of` tr1) as Hp by (etransitivity; [apply prefix_last|exact Hp1]).
  apply wp_ask; [done|]. intros [secret|e]; [|apply He; by etransitivity; [|apply prefix_last]].
  set (r := mkTokenRequest _ _ _ _ _). set (tr2 := tr1 ++ _).
  assert (tr1 `prefix_of` tr2) as Hp2 by apply prefix_last.
  assert (requested tr2 resource issuer r) as Hr.
  { split_and!; [eapply named_mono; [|done]; by etransitivity|done|by exists cred|]. exists asm. split_and!; [|done|].
    - eapply ev_prefix; [|apply ev_last]. by etransitivity.
    - intros u Hu Hne. eapply endpoint_checked_mono; [exact Hp2|]. rewrite List.Forall_forall in Hall. apply Hall, filter_In.
      split; [by apply list_elem_of_In|]. by apply negb_true_iff, String.eqb_neq. }
  apply wp_ask; [by exists resource, issuer, cacheKey|]. intros [tok|e]; [|apply He; etransitivity; [|apply prefix_last]; by etransitivity].
  set (tr3 := tr2 ++ _). assert (tr2 `prefix_of` tr3) as Hp3 by apply prefix_last.
  destruct (withinScopes tok (cr_Scopes cred)) as [[]|] eqn:Ew; [|apply He; etransitivity; [|exact Hp3]; by etransitivity].
  assert (issued tr3 resource issuer tok (cr_ClientID cred)) as Hi.
  { exists r. split_and!; [apply ev_last|by eapply requested_mono|done|done]. }
  apply wp_ask; [by exists resource, issuer, (cr_ClientID cred)|]. intros []. apply Hk.
  - etransitivity; [|apply prefix_last]. etransitivity; [|exact Hp3]. by etransitivity.
  - split; [eapply named_mono; [|apply Hr]; etransitivity; [exact Hp3|apply prefix_last]|]. exists cred, tok.
    split_and!; [done..|]. right. eapply issued_mono; [apply prefix_last|done].
Qed.

Lemma wp_token resource issuer cacheKey tr Q :
  dims_of op resource issuer cacheKey ->
  (forall tr' e, tr `prefix_of` tr' -> Q tr' (Err e)) ->
  (forall tr' t, tr `prefix_of` tr' -> obtained tr' resource issuer cacheKey t -> Q tr' (Ok t)) ->
  wp (may_ask op) (token resource issuer cacheKey) tr Q.
Proof.
  intros Hd He Hk. unfold token. apply wp_bind, wp_ProtectedResource; [done|]. intros tr1 servers Hp1 Hs.
  destruct (slices_Contains servers issuer) eqn:Ei; cbn [negb]; [|by apply He]. apply slices_Contains_spec, Hs in Ei.
  destruct (credential_of resource issuer) as [cred|] eqn:Ec; [|by apply He]. apply credential_of_reviewed in Ec.
  apply wp_ask; [done|]. intros [tok|].
  - apply wp_ask; [done|]. intros now. set (tr2 := tr1 ++ _). assert (tr1 `prefix_of` tr2 ++ [ev ClockNow now]) as Hp2.
    { etransitivity; apply prefix_last. }
    destruct (After _ _).
    + apply Hk; [by etransitivity|]. split; [by eapply named_mono|]. exists cred, tok. split_and!; try done; [apply Ec..|].
      left. eapply ev_prefix; [apply prefix_last|]. apply ev_last.
    + eapply wp_request_token; [done|done|by eapply named_mono|..]; intros; [apply He|apply Hk; [|done]]; (etransitivity; [exact Hp1|]; by etransitivity).
  - set (tr2 := tr1 ++ _). assert (tr1 `prefix_of` tr2) as Hp2 by apply prefix_last.
    eapply wp_request_token; [done|done|by eapply named_mono|..]; intros; [apply He|apply Hk; [|done]]; (etransitivity; [exact Hp1|]; by etransitivity).
Qed.

(** A finished call: no issuer and no token, or what [obtained] says. *)
Definition answered (tr : list (event auth_eff)) (r : res (string * string)) : Prop :=
  match r with
  | Err _ => True
  | Ok (t, issuer) => (t = "" /\ issuer = "") \/
      exists resource cacheKey, dims_of op resource issuer cacheKey /\ obtained tr resource issuer cacheKey t
  end.
Lemma wp_run_op : wp (may_ask op) (run_op op) [] answered.
Proof.
  destruct op as [g|resource] eqn:Eop; cbn [run_op].
  - apply wp_bind. unfold Token. destruct (String.eqb_spec (g_Issuer g) "") as [E|]; [left; by rewrite E|].
    rewrite <- Eop. apply wp_token; [by rewrite Eop|done|]. intros tr t _ Ho. right. rewrite Eop. by exists (g_CanonicalResource g), (CacheKey g).
  - rewrite <- Eop. unfold DiscoveryToken, Issuer. apply wp_bind, wp_bind, wp_ProtectedResource; [done|].
    intros tr servers _ _. cbn. destruct (String.eqb (hd "" servers) ""); [by left|].
    apply wp_bind, wp_token; [by rewrite Eop|done|]. intros tr' t _ Ho. right. rewrite Eop.
    by exists resource, (discovery_key resource (hd "" servers)).
Qed.
End Operations.

(** ** Every reachable state *)

Definition stored (calls : list running) (k : string) (v : cachedToken) : Prop :=
  exists c, c ∈ calls /\ ev (CacheSet k v) tt ∈ rn_trace c.
Record authority_inv (s : authority_state) : Prop := {
  ai_leads : forall c, c ∈ au_calls s -> leads (run_op (rn_op c)) (rn_trace c) (rn_prog c);
  ai_cache : forall k v, au_cache s !! k = Some v -> stored (au_calls s) k v;
  ai_read : forall c k tok, c ∈ au_calls s -> ev (CacheGet k) (Some tok) ∈ rn_trace c ->
    exists v, stored (au_calls s) k v /\ ct_token v = tok }.

Lemma stored_ask l1 l2 op tr (p q : aproc (res (string * string))) v k c :
  stored (l1 ++ mkRunning op tr p :: l2) k c -> stored (l1 ++ mkRunning op (tr ++ [v]) q :: l2) k c.
Proof.
  intros (r & Hin & Hev). apply elem_of_app in Hin as [Hin|[->|Hin]%elem_of_cons].
  - exists r. split; [apply elem_of_app; by left|done].
  - exists (mkRunning op (tr ++ [v]) q). split; [apply elem_of_app; right; by left|]. cbn in *. apply elem_of_app. by left.
  - exists r. split; [apply elem_of_app; right; by right|done].
Qed.
Lemma stored_start c calls k v : stored calls k v -> stored (c :: calls) k v.
Proof. intros (r & ? & ?). exists r. split; [by right|done]. Qed.

Lemma authority_inv_step s s' : authority_step s s' -> authority_inv s -> authority_inv s'.
Proof.
  intros Hs [Hl Hc Hr]. destruct Hs as [cache calls op|cache cache' l1 l2 op tr X e k x Ha|cache calls key|cache calls resource]; cbn in *.
  - split; cbn.
    + intros c [->|Hin]%elem_of_cons; [apply leads_start|by apply Hl].
    + intros k v Hk. by apply stored_start, Hc.
    + intros c k tok [->|Hin]%elem_of_cons Hev; cbn in Hev; [by apply elem_of_nil in Hev|].
      destruct (Hr _ _ _ Hin Hev) as (v & Hv & ?). exists v. split; [by apply stored_start|done].
  - set (calls := l1 ++ mkRunning op tr (Ask e k) :: l2) in *. set (calls' := l1 ++ mkRunning op (tr ++ [ev e x]) (k x) :: l2).
    assert (forall c, c ∈ calls' -> c = mkRunning op (tr ++ [ev e x]) (k x) \/ c ∈ calls) as Hcalls.
    { intros c [Hin|[->|Hin]%elem_of_cons]%elem_of_app; [right|by left|right]; apply elem_of_app; [by left|right; by right]. }
    assert (mkRunning op tr (Ask e k) ∈ calls) as Hme by (apply elem_of_app; right; by left).
    split; cbn.
    + intros c [->|Hin]%Hcalls; [|by apply Hl]. cbn. apply leads_ask. by apply (Hl _ Hme).
    + intros k' v Hk. assert (cache' !! k' = Some v -> stored calls' k' v) as H; [|by apply H]. clear Hk. intros Hk.
      assert (cache !! k' = Some v \/ ev (CacheSet k' v) tt = ev e x) as [H|H].
      { destruct e as [| | | | | |key|key c]; cbn in Ha; try (subst cache'; by left); [destruct Ha as [_ ->]; by left|].
        subst cache'. apply lookup_insert_Some in Hk as [[-> ->]|[_ Hk]]; [right; by destruct x|by left]. }
      * by eapply stored_ask, Hc.
      * exists (mkRunning op (tr ++ [ev e x]) (k x)). split; [apply elem_of_app; right; by left|]. cbn. rewrite H. apply ev_last.
    + intros c k' tok Hin Hev. assert ((exists c0, c0 ∈ calls /\ ev (CacheGet k') (Some tok) ∈ rn_trace c0) \/ ev e x = ev (CacheGet k') (Some tok)) as [(c0 & Hin0 & Hev0)|H].
      { apply Hcalls in Hin as [->|Hin]; [|left; by exists c]. cbn in Hev. apply elem_of_app in Hev as [Hev|Hev%list_elem_of_singleton];
          [left; by exists (mkRunning op tr (Ask e k))|by right]. }
      * destruct (Hr _ _ _ Hin0 Hev0) as (v & Hv & ?). exists v. split; [by eapply stored_ask|done].
      * assert (answers cache (projT2 (ev e x)).1 cache' (projT2 (ev e x)).2) as Ha' by exact Ha. rewrite H in Ha'. cbn in Ha'.
        destruct Ha' as [Ha' _]. symmetry in Ha'. apply fmap_Some in Ha' as (v & Hv & ->). exists v. split; [by eapply stored_ask, Hc|done].
  - split; cbn; [done| |done]. intros k v Hk. apply Hc. by apply map_lookup_filter_Some in Hk as [? _].
  - split; cbn; [done| |done]. intros k v Hk. apply Hc. by apply map_lookup_filter_Some in Hk as [? _].
Qed.
Lemma reachable_authority_inv s : authority_reachable s -> authority_inv s.
Proof.
  apply (rtc_ind_r (R := authority_step) (fun s => authority_inv s)).
  - split; cbn; intros; try (by apply elem_of_nil in H); done.
  - intros x y _ Hs Hx. by eapply authority_inv_step.
Qed.

(** *** The cache slots *)

Lemma hex_no_byte c s : is_hex_digit c = false -> all_bytes is_hex_digit s = true -> has_byte c s = false.
Proof.
  intros Hc. induction s as [|d s IH]; [done|]. cbn [all_bytes has_byte]. intros [Hd Hs]%andb_true_iff. rewrite IH, orb_false_r by done.
  apply Ascii.eqb_neq. intros ->. congruence.
Qed.
Lemma sha256_no_nul m : has_byte "000"%char (sha256_hex m) = false.
Proof.
  unfold sha256_hex. rewrite has_byte_app. apply orb_false_iff. split; [done|]. apply hex_no_byte; [done|]. apply hex_all, Sum256_bytes.
Qed.
Lemma cut_nul s1 s2 x y : has_byte "000"%char s1 = false -> has_byte "000"%char s2 = false ->
  s1 +:+ nul +:+ x = s2 +:+ nul +:+ y -> s1 = s2 /\ x = y.
Proof. intros H1 H2 H. by apply (split_first "000"%char) in H. Qed.

(** Reviewed credentials are named by texts without NUL bytes. *)
Definition nul_free (cred : Credential) : bool := negb (has_byte "000"%char (cr_Resource cred)) && negb (has_byte "000"%char (cr_Issuer cred)).
Lemma reviewed_nul_free resource issuer cred : forallb nul_free credentials = true -> reviewed resource issuer cred ->
  has_byte "000"%char resource = false /\ has_byte "000"%char issuer = false.
Proof.
  intros H (Hin & <- & <-). rewrite forallb_forall in H. specialize (H cred). rewrite <- list_elem_of_In in H. specialize (H Hin).
  unfold nul_free in H. apply andb_true_iff in H as [H1 H2]. by apply negb_true_iff in H1, H2.
Qed.

(** A grant's cache key binds its resource and issuer. *)
Lemma CacheKey_binds g g' : CacheKey g = CacheKey g' ->
  (g_CanonicalResource g = g_CanonicalResource g' /\ g_Issuer g = g_Issuer g') \/ exists x y, collision x y.
Proof.
  intros H. destruct (decide (digest_input cache_prefix (dimensions g) = digest_input cache_prefix (dimensions g'))) as [E|E].
  - left. apply digest_input_inj in E. unfold dimensions in E. cbv zeta in E. injection E as _ _ _ _ _ E6 E7 _ _ _ _ _ _ _ _ _ _ _.
    apply append_inj_l in E6, E7. done.
  - right. by eexists _, _.
Qed.

(** One slot of the cache serves one cache key of one resource and issuer. *)
Lemma slot_serves_one op op' resource resource' issuer issuer' key key' cred cred' :
  forallb nul_free credentials = true ->
  dims_of op resource issuer key -> reviewed resource issuer cred ->
  dims_of op' resource' issuer' key' -> reviewed resource' issuer' cred' ->
  cache_slot key (cr_ClientID cred) = cache_slot key' (cr_ClientID cred') ->
  key = key' /\ cr_ClientID cred = cr_ClientID cred' /\ ((resource = resource' /\ issuer = issuer') \/ exists x y, collision x y).
Proof.
  intros Hn Hd Hr Hd' Hr' H. apply reviewed_nul_free in Hr as [Hr Hi]; [|done]. apply reviewed_nul_free in Hr' as [Hr' Hi']; [|done].
  unfold cache_slot in H. destruct op as [g|], op' as [g'|]; destruct Hd as [-> Hd], Hd' as [-> Hd'].
  - destruct Hd as [-> ->], Hd' as [-> ->]. apply cut_nul in H as [H ->]; [|apply sha256_no_nul..]. split_and!; [done..|]. by apply CacheKey_binds.
  - destruct Hd as [-> ->]. subst key'. unfold discovery_key in H. rewrite !append_assoc in H.
    apply cut_nul in H as [H _]; [|apply sha256_no_nul|done]. done.
  - destruct Hd' as [-> ->]. subst key. unfold discovery_key in H. rewrite !append_assoc in H.
    apply cut_nul in H as [H _]; [|done|apply sha256_no_nul]. done.
  - subst key key'. unfold discovery_key in H. rewrite !append_assoc in H. apply cut_nul in H as [_ H]; [|done..].
    apply cut_nul in H as [-> H]; [|done..]. apply cut_nul in H as [-> ->]; [|done..]. split_and!; [done..|]. by left.
Qed.

(** C24. Tokens are reviewed, bound and never substituted. However many calls
    run at once, whatever the network, the authorization servers, the clock and
    the evictions do: a token is requested only after the resource's metadata,
    read in the same call, named the issuer and every server it names passed
    the network policy, for a reviewed credential of exactly that resource and
    issuer, with its scopes, at the endpoint the issuer's own metadata names
    when that and its JWKS endpoint passed the policy as well.  A call answers a
    token only after the metadata it read itself still named its issuer, and
    the token was issued to such a request, under the same cache key, for the
    same resource and issuer (or SHA-256 collides), within the scopes it
    requested; a call that binds no issuer answers none. *)
Theorem tokens_are_reviewed s : forallb nul_free credentials = true -> authority_reachable s ->
  (forall c r tok, c ∈ au_calls s -> ev (TokenRequest r) tok ∈ rn_trace c ->
     exists resource issuer key, dims_of (rn_op c) resource issuer key /\ requested (rn_trace c) resource issuer r) /\
  (forall c t issuer, c ∈ au_calls s -> rn_prog c = Ret (Ok (t, issuer)) -> (t = "" /\ issuer = "") \/
     exists resource key, dims_of (rn_op c) resource issuer key /\ named (rn_trace c) resource issuer /\
       exists c' tok client resource' issuer', c' ∈ au_calls s /\ tk_AccessToken tok = t /\ dims_of (rn_op c') resource' issuer' key /\
         issued (rn_trace c') resource' issuer' tok client /\ ((resource = resource' /\ issuer = issuer') \/ exists x y, collision x y)).
Proof.
  intros Hn [Hl _ Hr]%reachable_authority_inv. split.
  - intros c r tok Hin Hev. destruct (leads_wp _ _ _ _ _ (Hl c Hin) (wp_run_op (rn_op c))) as [_ Hall].
    destruct (Hall _ Hev) as (l & Hp & resource & issuer & key & Hd & Hq). exists resource, issuer, key. split; [done|].
    by eapply requested_mono.
  - intros c t issuer Hin Hret. destruct (leads_wp _ _ _ _ _ (Hl c Hin) (wp_run_op (rn_op c))) as [Hans _]. rewrite Hret in Hans.
    destruct Hans as [|(resource & key & Hd & Hnm & cred & tok & Hc & Ht & Hfrom)]; [by left|right].
    exists resource, key. split_and!; [done..|]. destruct Hfrom as [Hget|Hi].
    + destruct (Hr _ _ _ Hin Hget) as (v & (c' & Hin' & Hset) & Hv).
      destruct (leads_wp _ _ _ _ _ (Hl c' Hin') (wp_run_op (rn_op c'))) as [_ Hall].
      destruct (Hall _ Hset) as (l & Hp & resource' & issuer' & client & Hd' & Hi & Hk & _). cbn in *.
      pose proof Hi as (r & _ & (_ & _ & (cred' & Hc' & Hcl & _) & _) & _ & Hcl'). rewrite <- Hcl', Hcl in Hk.
      destruct (slot_serves_one _ _ _ _ _ _ _ _ _ _ Hn Hd Hc Hd' Hc' Hk) as (-> & _ & Hsame).
      exists c', tok, client, resource', issuer'. rewrite <- Hv in *. split_and!; try done. by eapply issued_mono.
    + exists c, tok, (cr_ClientID cred), resource, issuer. split_and!; try done. by left.
Qed.
End Authority.

(** ** A call driven to its end *)

Record outside := mkOutside {
  out_get : string -> http_answer; out_resolve : string -> res (list Addr); out_meta : string -> res (option authServerMeta);
  out_file : string -> res string; out_token : token_request -> res oauth_token; out_now : Time }.
Definition reply {X} (o : outside) (cache : gmap string cachedToken) (e : auth_eff X) : X * gmap string cachedToken :=
  match e in auth_eff Y return Y * gmap string cachedToken with
  | HttpGet url => (out_get o url, cache)
  | Resolve host => (out_resolve o host, cache)
  | GetAuthServerMetadata issuer => (out_meta o issuer, cache)
  | ReadFile path => (out_file o path, cache)
  | TokenRequest r => (out_token o r, cache)
  | ClockNow => (out_now o, cache)
  | CacheGet key => (ct_token <$> cache !! key, cache)
  | CacheSet key c => (tt, <[key := c]> cache)
  end.
Fixpoint drive {A} (o : outside) (p : aproc A) (cache : gmap string cachedToken) (tr : list (event auth_eff)) :
    gmap string cachedToken * list (event auth_eff) * aproc A :=
  match p with
  | Ask e k => let '(x, cache') := reply o cache e in drive o (k x) cache' (tr ++ [ev e x])
  | _ => (cache, tr, p)
  end.
Definition call_with (Policy : NetworkPolicy) (credentials : list Credential) (o : outside) (op : operation) (s : authority_state) : authority_state :=
  let '(cache, tr, p) := drive o (run_op Policy credentials op) (au_cache s) [] in
  mkAuthority cache (mkRunning op tr p :: au_calls s).

Lemma reply_answers {X} o cache (e : auth_eff X) : answers cache e (reply o cache e).2 (reply o cache e).1.
Proof. by destruct e. Qed.
Section Drive.
  Context (Policy : NetworkPolicy) (credentials : list Credential) (o : outside).
  Abbreviation step := (authority_step Policy credentials).
Lemma drive_steps_eq {A} (p : aproc A) : forall (HA : A = (res (string * string) : Type)) op cache tr calls,
  let '(cache', tr', p') := drive o p cache tr in
  rtc step (mkAuthority cache (mkRunning op tr (eq_rect A (prog auth_eff) p _ HA) :: calls))
    (mkAuthority cache' (mkRunning op tr' (eq_rect A (prog auth_eff) p' _ HA) :: calls)).
Proof.
  induction p as [A a|A X m k IH|A X e k IH|A c _ r IH]; intros -> op cache tr calls; try apply rtc_refl. cbn [drive].
  pose proof (reply_answers o cache e) as Ha. destruct (reply o cache e) as [x cache1]. cbn in Ha.
  specialize (IH x eq_refl op cache1 (tr ++ [ev e x]) calls). destruct (drive o (k x) cache1 _) as [[cache' tr'] p'].
  eapply rtc_l; [|exact IH]. by apply (as_ask _ _ cache cache1 [] calls op tr _ e k x).
Qed.
Lemma call_with_reachable op s : authority_reachable Policy credentials s -> authority_reachable Policy credentials (call_with Policy credentials o op s).
Proof.
  intros Hs. unfold authority_reachable. etransitivity; [exact Hs|]. destruct s as [cache calls]. unfold call_with. cbn [au_cache au_calls].
  pose proof (drive_steps_eq (run_op Policy credentials op) eq_refl op cache [] calls) as H.
  destruct (drive _ _ _ _) as [[cache' tr] p]. eapply rtc_l; [apply as_start|exact H].
Qed.
End Drive.

(** Two discoveries of one protected resource: the second answers the cached
    token of the first, and a third, whose metadata names another issuer, none. *)
Definition oauth_policy : NetworkPolicy := mkNetworkPolicy ["mcp.example.com"; "idp.example.com"] [].
Definition oauth_resource : string := "https://mcp.example.com/mcp".
Definition oauth_credentials : list Credential :=
  [mkCredential oauth_resource "https://idp.example.com" "anvilkit" "/run/secrets/mcp" ["tools.read"]].
Definition oauth_metadata (issuer : string) : string :=
  Marshal (jmap [("resource", JStr oauth_resource); ("authorization_servers", JArr [JStr issuer])]).
Definition oauth_outside (issuer : string) : outside := mkOutside
  (fun url => if HasSuffix url "/mcp" then Answer 404 (Ok "") else Answer 200 (Ok (oauth_metadata issuer)))
  (fun _ => Ok [Addr4 [93; 184; 216; 34]])
  (fun _ => Ok (Some (mkMeta "https://idp.example.com/token" ""))) (fun _ => Ok "s3cret")
  (fun r => Ok (mkToken ("token of " +:+ tr_ClientID r) (3600 * Second) (ScopeText "tools.read"))) (60 * Second).
Definition oauth_state : authority_state :=
  let call issuer := call_with oauth_policy oauth_credentials (oauth_outside issuer) (DiscoveryOf oauth_resource) in
  call "https://idp.example.com/other" (call "https://idp.example.com" (call "https://idp.example.com" (mkAuthority ∅ []))).
Definition oauth_answers : list (option (res (string * string))) :=
  map (fun c => match rn_prog c with Ret a => Some a | _ => None end) (au_calls oauth_state).
Example oauth_calls : oauth_answers =
    [Some (Fail ErrAuthority); Some (Ok ("token of anvilkit", "https://idp.example.com")); Some (Ok ("token of anvilkit", "https://idp.example.com"))]
  /\ map (fun c => List.length (rn_trace c)) (au_calls oauth_state) = [6%nat; 8%nat; 12%nat].
Proof. vm_compute. done. Qed.
Lemma tokens_are_reviewed_witness : forallb nul_free oauth_credentials = true /\ authority_reachable oauth_policy oauth_credentials oauth_state /\
  forall c t issuer, c ∈ au_calls oauth_state -> rn_prog c = Ret (Ok (t, issuer)) -> (t = "" /\ issuer = "") \/
    exists resource key, dims_of (rn_op c) resource issuer key /\ named oauth_policy (rn_trace c) resource issuer.
Proof.
  assert (Hn : forallb nul_free oauth_credentials = true) by reflexivity.
  assert (Hr : authority_reachable oauth_policy oauth_credentials oauth_state) by (repeat apply call_with_reachable; apply rtc_refl).
  split_and!; [exact Hn|exact Hr|]. intros c t issuer Hin Hret.
  destruct (tokens_are_reviewed oauth_policy oauth_credentials oauth_state Hn Hr) as [_ H].
  destruct (H c t issuer Hin Hret) as [|(resource & key & Hd & Hnm & _)]; [by left|right]. by exists resource, key.
Defined.
