(* ===== verification/Bootstrap.v ===== *)
(** * Bootstrap: readiness and the life of the process ([internal/bootstrap])

    The schema check and its watch ([schema.go]), the health endpoint
    ([health.go]), what [run] does at start and stop in its order
    ([module.go]), and the choices of the constructors: the credentials file,
    the transports to Control ([identity.go]) and the stand-ins of a missing
    placement.  Sockets and goroutines are named; what they answer is an input. *)

From S2P Require Import Prelude Errors GoStrings GoJson Config Authority.

(** ** The schema *)

Definition MinimumSchemaVersion : Z := 9.
Definition schemaVerdict (applied minimum : Z) : option string :=
  if applied <? minimum
  then Some ("schema at version " +:+ format_int applied +:+ ", the binary needs at least " +:+ format_int minimum) else None.
(** The query answers the highest applied version, or an error text. *)
Definition checkSchema (query : string + Z) (minimum : Z) : option string :=
  match query with inl e => Some ("schema version unreadable: " +:+ e) | inr applied => schemaVerdict applied minimum end.

(** ** The process *)

Inductive loop := Sweeper | Watcher | BarrierLoop | CallsLoop | RetentionLoop | RefreshLoop | SchemaWatch.
#[export] Instance loop_eq_dec : EqDecision loop.
Proof. solve_decision. Defined.
Inductive listener := Unbound | Bound | Serving | Closed.
#[export] Instance listener_eq_dec : EqDecision listener.
Proof. solve_decision. Defined.
Inductive runtime_state := Built | InForce | Retired.
#[export] Instance runtime_eq_dec : EqDecision runtime_state.
Proof. solve_decision. Defined.

Record process := mkProcess {
  pr_health : bool; pr_ready : bool; pr_schema : string; pr_grpc : listener; pr_runtime : runtime_state;
  pr_loops : list loop; pr_cancelled : bool; pr_drained : bool; pr_forwarder : bool; pr_forwarding : bool }.
#[export] Instance process_eta : Settable process := fun p =>
  mkProcess (pr_health p) (pr_ready p) (pr_schema p) (pr_grpc p) (pr_runtime p) (pr_loops p) (pr_cancelled p) (pr_drained p)
    (pr_forwarder p) (pr_forwarding p).
(** After the constructors: the first generation is built, with a forwarder
    or without one, and nothing listens.  [pr_runtime] is the generation in
    force, whichever a swap made it ([Generations]). *)
Definition constructed (forwarder : bool) : process := mkProcess false false "" Unbound Built [] false false forwarder false.


Inductive action :=
| HealthStart | SrvListen | Activate | SetSchema (reason : string) | Go (l : loop) | SrvServe | SetReady (ready : bool)
| SrvClose | SrvStop | HealthStop | Retire | CallsShutdown | CancelLoops | Wait (l : loop) | GensShutdown.
Definition act (a : action) (p : process) : process :=
  match a with
  | HealthStart => p <| pr_health := true |>
  | SrvListen => p <| pr_grpc := Bound |>
  | Activate => p <| pr_runtime := InForce |> <| pr_forwarding := pr_forwarder p |>
  | SetSchema reason => p <| pr_schema := reason |>
  | Go l => p <| pr_loops := l :: pr_loops p |>
  | SrvServe => p <| pr_grpc := Serving |>
  | SetReady ready => p <| pr_ready := ready |>
  | SrvClose | SrvStop => p <| pr_grpc := Closed |>
  | HealthStop => p <| pr_ready := false |> <| pr_health := false |>
  | Retire => p <| pr_runtime := Retired |>
  | CallsShutdown => p <| pr_drained := true |>
  | CancelLoops => p <| pr_cancelled := true |>
  | Wait l => p <| pr_loops := List.filter (fun l' => negb (bool_decide (l' = l))) (pr_loops p) |>
  | GensShutdown => p <| pr_runtime := Retired |>
  end.
(** [retire] cancels the forwarder's context, and [startForwarder] makes the
    function that does: a runtime with a forwarder that never started has none
    to call.  [GensShutdown] retires only what was activated. *)
Definition panics (a : action) (p : process) : bool :=
  match a with Retire => pr_forwarder p && negb (pr_forwarding p) | _ => false end.

(** [OnStart]: whether the health listener and the gRPC listener could be
    bound, the first schema check and the refresh interval.  Its actions in
    order, and whether it succeeded. *)
Definition unwind : list action := [SrvClose; HealthStop; Retire].
Definition on_start (health grpc : bool) (schema : option string) : list action * bool :=
  if negb health then (unwind, false)
  else if negb grpc then (HealthStart :: unwind, false)
  else ([HealthStart; SrvListen; Activate]
        ++ match schema with Some reason => [SetSchema reason; Go SchemaWatch] | None => [] end
        ++ [Go Sweeper; Go Watcher; Go BarrierLoop; Go CallsLoop; Go RetentionLoop; Go RefreshLoop; SrvServe; SetReady true], true).
(** [OnStop]: the loops that end before the deadline are waited for. *)
Definition all_loops : list loop := [Sweeper; Watcher; BarrierLoop; CallsLoop; RefreshLoop; RetentionLoop; SchemaWatch].
Definition on_stop (started : bool) (ends : loop -> bool) : list action :=
  [SetReady false; if started then SrvStop else SrvClose; CallsShutdown; CancelLoops]
  ++ map Wait (List.filter ends all_loops) ++ [GensShutdown; HealthStop].

(** The process with what is left of the hook that runs, and the versions the
    schema check has read so far. *)
Inductive phase := Starting (ok : bool) | Running | Stopping | Gone | Panicked.
Record life := mkLife { lf_process : process; lf_todo : list action; lf_phase : phase; lf_read : list (string + Z) }.
Inductive life_step : life -> life -> Prop :=
| ls_act p a rest ph read : panics a p = false -> life_step (mkLife p (a :: rest) ph read) (mkLife (act a p) rest ph read)
| ls_panic p a rest ph read : panics a p = true -> life_step (mkLife p (a :: rest) ph read) (mkLife p [] Panicked read)
| ls_started p read : life_step (mkLife p [] (Starting true) read) (mkLife p [] Running read)
| ls_failed p read : life_step (mkLife p [] (Starting false) read) (mkLife p [] Gone read)
| ls_stop p read ends : life_step (mkLife p [] Running read) (mkLife p (on_stop true ends) Stopping read)
| ls_gone p read : life_step (mkLife p [] Stopping read) (mkLife p [] Gone read)
(** [watchSchema]: a check that holds ends the watch; one that does not names
    the reason, unless the loops were canceled meanwhile. *)
| ls_held p todo ph read query : SchemaWatch ∈ pr_loops p -> checkSchema query MinimumSchemaVersion = None ->
    life_step (mkLife p todo ph read) (mkLife (act (Wait SchemaWatch) (act (SetSchema "") p)) todo ph (query :: read))
| ls_behind p todo ph read query reason : SchemaWatch ∈ pr_loops p -> checkSchema query MinimumSchemaVersion = Some reason ->
    life_step (mkLife p todo ph read) (mkLife (if pr_cancelled p then act (Wait SchemaWatch) p else act (SetSchema reason) p) todo ph (query :: read)).
(** A start with its first schema check. *)
Definition launched (forwarder health grpc : bool) (first : string + Z) : life :=
  let '(todo, ok) := on_start health grpc (checkSchema first MinimumSchemaVersion) in
  mkLife (constructed forwarder) todo (Starting ok) [first].

(** ** Invariants of the process *)





(** What is left when a hook has run out. *)
Definition down (p : process) : Prop := pr_health p = false /\ pr_ready p = false /\ pr_grpc p = Closed /\ pr_runtime p = Retired.
(** What is left when a start failed and its unwinding panicked: the listeners
    are closed, and the generation that was built is not retired. *)
Definition fallen (p : process) : Prop :=
  pr_health p = false /\ pr_ready p = false /\ pr_grpc p = Closed /\ pr_runtime p = Built /\
  pr_forwarder p = true /\ pr_forwarding p = false.







(** Every failed start ends one way: it unwinds without a forwarder, and
    panics with one. *)
Lemma failed_start_ends forwarder health grpc first : health && grpc = false ->
  exists p, rtc life_step (launched forwarder health grpc first) (mkLife p [] (if forwarder then Panicked else Gone) [first]) /\
    if forwarder then fallen p else down p.
Proof.
  intros Hf. unfold launched, on_start, unwind. destruct health; cbn [negb]; [destruct grpc; [done|]|]; cbn [negb];
    destruct forwarder; eexists;
    (split; [repeat (eapply rtc_l; [first [by apply ls_act|by apply ls_panic|apply ls_failed]|]); apply rtc_refl|by split_and!]).
Qed.

