(* ===== verification/Session.v ===== *)
(** * Session: upstream sessions and discovery ([internal/adapters/upstream/session.go], [discover.go])

    What MCP does with one session of the official SDK, over what the SDK
    answers: the qualification of a session ([Route.Open]), the one send and
    the classification of its outcome, the normalized result, and the reading
    of a live server.  The SDK's values are what [encoding/json] makes of
    them; an error is the list of the errors it wraps. *)

From S2P Require Import Prelude Errors GoStrings GoCrypto GoJson GoNum GoUrl Task Catalog Grant Call Prog Ports Network Egress.

(** ** What the SDK answers *)

Record sdk_tool := mkSdkTool {
  st_Name : string; st_InputSchema : res string; st_OutputSchema : option (res string); st_Annotations : option (res string) }.
Record sdk_init := mkSdkInit {
  si_ProtocolVersion : string; si_ServerInfo : option (string * string); si_Resources : bool; si_Prompts : bool }.
(** A listing yields its entries up to the first error. *)
Record sdk_server := mkSdkServer {
  sv_Connect : res sdk_init; sv_Tools : list (res sdk_tool); sv_ListResources : list (res LiveNamed); sv_ListPrompts : list (res string) }.

(** ** Opening a session *)

Definition qualify (code : string) (e : error) : open_error :=
  NotSentError (if errors_Is e ErrEgress then CallEgressRefused else code).
Definition server_info (i : sdk_init) : string * string := default ("", "") (si_ServerInfo i).
(** The tool of the method, the first of that name; a listing error before it
    ends the search. *)
Fixpoint find_tool (method : string) (tools : list (res sdk_tool)) : res (option sdk_tool) :=
  match tools with
  | [] => Ok None
  | Err e :: _ => Err e
  | Ok t :: rest => if String.eqb (st_Name t) method then Ok (Some t) else find_tool method rest
  end.
(** [json.Marshal] of a value that may be nil. *)
Definition marshal_any (v : option (res string)) : res string := default (Ok "null") v.
Definition schema_matches (raw : res string) (digest : string) : bool :=
  match raw with Ok raw => match CanonicalDigest raw with Ok d => String.eqb d digest | Err _ => false end | Err _ => false end.
Definition annotations_match (a : option (res string)) (digest : string) : bool :=
  match default (Ok "") a with Ok raw => match AnnotationsDigest raw with Ok d => String.eqb d digest | Err _ => false end | Err _ => false end.

(** The scope of the session's hops, as [Egress.session_scope] has it. *)
Definition Open (sv : sdk_server) (t : UpstreamTarget) : open_error :=
  match Parse_URL (ut_Resource t) with
  | None => NotSentError CallEgressRefused
  | Some u =>
      if negb (HostInScope (Hostname u) (session_scope u (ut_NetworkScope t))) then NotSentError CallEgressRefused
      else match sv_Connect sv with
           | Err e => qualify CallUpstreamUnavailable e
           | Ok i =>
               if negb (String.eqb (si_ProtocolVersion i) (ut_ProtocolVersion t)) then NotSentError CallProtocolMismatch
               else
                 let '(name, ver) := server_info i in
                 if negb (String.eqb name (ut_ServerName t)) || negb (String.eqb ver (ut_ServerVersion t)) then NotSentError CallDescriptorDrift
                 else match find_tool (ut_Method t) (sv_Tools sv) with
                      | Err e => qualify CallUpstreamUnavailable e
                      | Ok None => NotSentError CallSchemaDrift
                      | Ok (Some tool) =>
                          if negb (schema_matches (st_InputSchema tool) (ut_InputSchemaDigest t)) then NotSentError CallSchemaDrift
                          else if negb (schema_matches (marshal_any (st_OutputSchema tool)) (ut_OutputSchemaDigest t)) then NotSentError CallSchemaDrift
                          else if negb (annotations_match (st_Annotations tool) (ut_AnnotationsDigest t)) then NotSentError CallDescriptorDrift
                          else Opened
                      end
           end
  end.

(** ** The one send *)

(** The errors an error wraps, outermost first. *)
Inductive link := WireError (code : Z) (message : string) | UrlError | NetError | EOF_ | UnexpectedEOF | DeadlineExceeded | Canceled | TooLarge | OtherError.
Fixpoint as_wire (e : list link) : option (Z * string) :=
  match e with
  | [] => None
  | WireError code message :: _ => Some (code, message)
  | _ :: rest => as_wire rest
  end.
Definition localCodes : list Z := [-32001; -32003; -32004; -32005].
Definition cut_off (l : link) : bool :=
  match l with UrlError | NetError | EOF_ | UnexpectedEOF | DeadlineExceeded | Canceled | TooLarge => true | _ => false end.
Definition answered (e : list link) (code : Z) : bool := negb (existsb (Z.eqb code) localCodes) && negb (existsb cut_off e).
Definition is_too_large (l : link) : bool := match l with TooLarge => true | _ => false end.
Definition bounded (s : string) (n : nat) : string := if (n <? String.length s)%nat then String.substring 0 n s else s.

(** A tool result: its blocks by type. *)
Inductive content :=
| TextContent (text : string)
| ImageContent (mime data : string)
| AudioContent (mime data : string)
| ResourceLink (uri name mime : string)
| EmbeddedResource (r : option (string * string * string * string))
| OtherContent (raw : string).
Record tool_result := mkToolResult {
  cr_Content : list content; cr_IsError : bool; cr_StructuredContent : option (res json); cr_native : res string }.

Record block := mkBlock {
  bk_Type : string; bk_Text : string; bk_MIMEType : string; bk_Size : Z; bk_Digest : string; bk_URI : string; bk_Name : string }.
Definition block_of (c : content) : block :=
  match c with
  | TextContent text => mkBlock "text" text "" 0 "" "" ""
  | ImageContent mime data => mkBlock "image" "" mime (len data) (DigestBytes data) "" ""
  | AudioContent mime data => mkBlock "audio" "" mime (len data) (DigestBytes data) "" ""
  | ResourceLink uri name mime => mkBlock "resource_link" "" mime 0 "" uri name
  | EmbeddedResource None => mkBlock "resource" "" "" 0 "" "" ""
  | EmbeddedResource (Some (uri, mime, text, blob)) =>
      if 0 <? len blob then mkBlock "resource" text mime (len blob) (DigestBytes blob) uri ""
      else mkBlock "resource" text mime 0 "" uri ""
  | OtherContent raw => mkBlock "unsupported" "" "" (len raw) (DigestBytes raw) "" ""
  end.
Definition omitempty (key value : string) : list (string * json) := if String.eqb value "" then [] else [(key, JStr value)].
Definition block_json (b : block) : json :=
  JObj (("type", JStr (bk_Type b)) :: omitempty "text" (bk_Text b) ++ omitempty "mimeType" (bk_MIMEType b)
        ++ (if bk_Size b =? 0 then [] else [("size", jint (bk_Size b))]) ++ omitempty "digest" (bk_Digest b)
        ++ omitempty "uri" (bk_URI b) ++ omitempty "name" (bk_Name b)).
(** Only the structured content can fail to marshal. *)
Definition Normalize (r : tool_result) : res string :=
  structured ← (match cr_StructuredContent r with None => Ok [] | Some v => v ← v; Ok [("structuredContent", v)] end : res (list (string * json)));
  Ok (Marshal (jmap ([("untrusted", JBool true); ("isError", JBool (cr_IsError r)); ("content", jarr block_json (map block_of (cr_Content r)))]
                     ++ structured))).

(** What [CallTool] returned: a result, or an error and whether the session's
    transport saw a body beyond the bound. *)
Inductive call_answer := CallFailure (e : list link) (overflow : bool) | CallResult (r : tool_result).
Definition evidence (kv : list (string * json)) : option bytes := Some (Marshal (jmap kv)).
Definition summarize (native : bytes) (maxBytes : Z) : bytes :=
  if len native <=? maxBytes then native
  else Marshal (jmap [("truncated", JBool true); ("nativeBytes", jint (len native)); ("nativeDigest", JStr (DigestBytes native))]).
(** The JSON-RPC error of a server that answered. *)
Definition wire_answer (e : list link) : option (Z * string) :=
  match as_wire e with Some (code, message) => if answered e code then Some (code, message) else None | None => None end.
Definition Send (maxBytes : Z) (a : call_answer) : UpstreamReply * send_error :=
  let failed native code := (mkUpstreamReply None native false, AnsweredError code) in
  match a with
  | CallFailure e overflow =>
      match wire_answer e with
      | Some (code, message) =>
          failed (evidence [("error", jmap [("code", jint code); ("message", JStr (bounded message 1024))])]) CallProtocolError
      | None =>
          if existsb is_too_large e || overflow
          then failed (evidence [("truncated", JBool true); ("reason", JStr "response body beyond the bound"); ("boundBytes", jint maxBytes)]) CallResultTooLarge
          else (mkUpstreamReply None None false, UnknownError CallOutcomeUnknown)
      end
  | CallResult r =>
      match cr_native r with
      | Err _ => failed (Some (Marshal (JObj [("truncated", JBool true); ("reason", JStr "native result not encodable")]))) CallProtocolError
      | Ok native =>
          match Normalize r with
          | Err _ => failed (Some (summarize native maxBytes)) CallProtocolError
          | Ok result =>
              if (maxBytes <? len result) || (maxBytes <? len native)
              then failed (evidence [("truncated", JBool true); ("reason", JStr "result beyond the bound after re-encoding"); ("boundBytes", jint maxBytes);
                     ("nativeBytes", jint (len native)); ("resultBytes", jint (len result)); ("nativeDigest", JStr (DigestBytes native))]) CallResultTooLarge
              else (mkUpstreamReply (Some result) (Some native) (cr_IsError r), Answered_ok)
          end
      end
  end.

(** ** Reading a live server *)

Definition maxListed : nat := 4096.
Fixpoint list_tools (tools : list (res sdk_tool)) (acc : list LiveTool) : res (list LiveTool) :=
  match tools with
  | [] => Ok acc
  | Err _ :: _ => Fail ErrUpstream
  | Ok t :: rest =>
      if (List.length acc =? maxListed)%nat then Fail ErrInvalid
      else match st_InputSchema t, default (Ok "") (st_OutputSchema t), default (Ok "") (st_Annotations t) with
           | Ok i, Ok o, Ok a => list_tools rest (acc ++ [mkLiveTool (st_Name t) i o a])
           | _, _, _ => Fail ErrInvalid
           end
  end.
Fixpoint list_named {A} (f : A -> LiveNamed) (xs : list (res A)) (acc : list LiveNamed) : res (list LiveNamed) :=
  match xs with
  | [] => Ok acc
  | Err _ :: _ => Fail ErrUpstream
  | Ok x :: rest => if (List.length acc =? maxListed)%nat then Fail ErrInvalid else list_named f rest (acc ++ [f x])
  end.

(** [Discoverer.Discover]; [authorized] is what [DiscoveryToken] answers. *)
Definition Discover (authorized : res (string * string)) (sv : sdk_server) (now : Time) (resource : string) : res LiveServer :=
  match Parse_URL resource with
  | None => Fail ErrInvalid
  | Some u =>
      if String.eqb (u_Host u) "" then Fail ErrInvalid
      else match authorized with
           | Err _ => Fail ErrForbidden
           | Ok (_, issuer) =>
               match sv_Connect sv with
               | Err _ => Fail ErrUpstream
               | Ok i =>
                   tools ← list_tools (sv_Tools sv) [];
                   resources ← (if si_Resources i then list_named id (sv_ListResources sv) [] else Ok []);
                   prompts ← (if si_Prompts i then list_named (fun n => mkLiveNamed n "") (sv_ListPrompts sv) [] else Ok []);
                   Ok (mkLiveServer (server_info i).1 (server_info i).2 (si_ProtocolVersion i) tools resources prompts
                         ("egress:" +:+ resource +:+ "@" +:+ format_seconds now +:+ "Z") ("egress:" +:+ resource) issuer)
               end
           end
  end.
(** [routedConnection.Discover]: MCP's own egress for a resource with a
    reviewed credential, ContextForge for every other. *)
Definition routed_Discover (hasCredential : bool) (egress contextforge : res LiveServer) : res LiveServer :=
  if hasCredential then egress else contextforge.
