(* ===== verification/ContextForge.v ===== *)
(** * ContextForge: the client of the connection layer ([internal/adapters/contextforge/client.go])

    Discovery through ContextForge as a process over its questions: the token
    file, the HTTP exchanges and the clock.  Responses are decoded from their
    bytes, so that schemas are kept as the text the layer sent. *)

From S2P Require Import Prelude Errors GoStrings GoCrypto GoJson GoNum GoUrl GoRaw Catalog Prog Trace.
From Stdlib Require Import Ascii.

(** ** Texts of the standard library *)

Definition hex_upper (z : Z) : ascii := byte_of_Z (if z <? 10 then z + 48 else z + 55).
Inductive escaping := PathSegment | QueryComponent.
Definition shouldEscape (mode : escaping) (b : Z) : bool :=
  negb (is_alnum b || existsb (Z.eqb b) (bytes_of "-_.~")
        || match mode with PathSegment => existsb (Z.eqb b) (bytes_of "$&+=:@") | QueryComponent => false end).
Fixpoint escape (mode : escaping) (s : string) : string :=
  match s with
  | EmptyString => EmptyString
  | String c r =>
      let b := Z_of_byte c in
      if shouldEscape mode b then
        match mode with
        | QueryComponent => if b =? 32 then "+" +:+ escape mode r
                            else String "%" (String (hex_upper (b / 16)) (String (hex_upper (b mod 16)) (escape mode r)))
        | PathSegment => String "%" (String (hex_upper (b / 16)) (String (hex_upper (b mod 16)) (escape mode r)))
        end
      else String c (escape mode r)
  end.
Definition PathEscape := escape PathSegment.
Definition QueryEscape := escape QueryComponent.

(** [strconv.Quote], which the verb [%q] writes; which runes above ASCII are
    printable is a table of the standard library, a parameter here. *)
Section Quote.
  Context (IsPrint : Z -> bool).
Definition printable (r : Z) : bool := if r <? 128 then (32 <=? r) && (r <? 127) else IsPrint r.
Fixpoint hex_digits (n : nat) (z : Z) : list Z :=
  match n with O => [] | S m => Z_of_byte (hex_digit (Z.shiftr z (4 * Z.of_nat m) mod 16)) :: hex_digits m z end.
Definition quote_rune (r : Z) (width : nat) (l : list Z) : list Z :=
  if (r =? RuneError) && (width =? 1)%nat then bytes_of "\x" ++ hex_digits 2 (hd 0 l)
  else if (r =? 34) || (r =? 92) then [92; r]
  else if printable r then firstn width l
  else match r with
       | 7 => bytes_of "\a" | 8 => bytes_of "\b" | 12 => bytes_of "\f" | 10 => bytes_of "\n"
       | 13 => bytes_of "\r" | 9 => bytes_of "\t" | 11 => bytes_of "\v"
       | _ => if (r <? 32) || (r =? 127) then bytes_of "\x" ++ hex_digits 2 r
              else if r <? 65536 then bytes_of "\u" ++ hex_digits 4 r
              else bytes_of "\U" ++ hex_digits 8 r
       end.
Fixpoint quote_bytes (fuel : nat) (l : list Z) : list Z :=
  match fuel, l with
  | S n, _ :: _ => let '(r, width) := decode_rune l in quote_rune r width l ++ quote_bytes n (skipn width l)
  | _, _ => []
  end.
Definition Quote (s : string) : string := string_of_bytes ([34] ++ quote_bytes (String.length s) (bytes_of s) ++ [34]).

(** ** The name of a resource's gateway *)

(** [None]: the slice expression is out of range and panics. *)
Definition shortHash (s : string) : option string :=
  let d := match CanonicalDigest (Quote s) with Ok d => d | Err _ => "" end in
  let h := TrimPrefix d "sha256:" in
  if (String.length h <? 12)%nat then None else Some (String.substring 0 12 h).
Fixpoint replace_dots (s : string) : string :=
  match s with
  | EmptyString => EmptyString
  | String c r => String (if Ascii.eqb c "."%char || Ascii.eqb c ":"%char then "-"%char else c) (replace_dots r)
  end.
Definition gatewayName (resource : string) : option (res string) :=
  match Parse_URL resource with
  | None => Some (Fail ErrInvalid)
  | Some u =>
      if String.eqb (u_Host u) "" then Some (Fail ErrInvalid)
      else h ← shortHash resource; Some (Ok ("anvilkit-" +:+ replace_dots (u_Host u) +:+ "-" +:+ h))
  end.
End Quote.

(** ** Responses *)

Record handshake := mkHandshake {
  hs_Error : string; hs_Success : bool; hs_NegotiationPath : string; hs_ProtocolVersion : string;
  hs_ServerName : string; hs_ServerVersion : string; hs_ErrorMessage : string }.
#[export] Instance handshake_eta : Settable handshake := fun h =>
  mkHandshake (hs_Error h) (hs_Success h) (hs_NegotiationPath h) (hs_ProtocolVersion h) (hs_ServerName h) (hs_ServerVersion h) (hs_ErrorMessage h).
Record gateway := mkGateway { gw_ID : string; gw_Name : string; gw_URL : string }.
Record cf_tool := mkCfTool {
  cft_OriginalName : string; cft_InputSchema : string; cft_OutputSchema : string; cft_Annotations : string;
  cft_GatewayID : string; cft_Enabled : bool }.
#[export] Instance cf_tool_eta : Settable cf_tool := fun t =>
  mkCfTool (cft_OriginalName t) (cft_InputSchema t) (cft_OutputSchema t) (cft_Annotations t) (cft_GatewayID t) (cft_Enabled t).
Record named := mkNamed { nm_Name : string; nm_OriginalName : string; nm_URI : string; nm_GatewayID : string }.

Definition decode_handshake : string -> option handshake :=
  decode_raw ["error"; "success"; "negotiationPath"; "protocolVersion"; "serverName"; "serverVersion"; "errorMessage"]
    (fun f raw h =>
       if String.eqb f "error" then s ← raw_string (hs_Error h) raw; Some (h <| hs_Error := s |>)
       else if String.eqb f "success" then b ← raw_bool (hs_Success h) raw; Some (h <| hs_Success := b |>)
       else if String.eqb f "negotiationPath" then s ← raw_string (hs_NegotiationPath h) raw; Some (h <| hs_NegotiationPath := s |>)
       else if String.eqb f "protocolVersion" then s ← raw_string (hs_ProtocolVersion h) raw; Some (h <| hs_ProtocolVersion := s |>)
       else if String.eqb f "serverName" then s ← raw_string (hs_ServerName h) raw; Some (h <| hs_ServerName := s |>)
       else if String.eqb f "serverVersion" then s ← raw_string (hs_ServerVersion h) raw; Some (h <| hs_ServerVersion := s |>)
       else s ← raw_string (hs_ErrorMessage h) raw; Some (h <| hs_ErrorMessage := s |>))
    (mkHandshake "" false "" "" "" "" "").
Definition assign_gateway (f raw : string) (g : gateway) : option gateway :=
  if String.eqb f "id" then s ← raw_string (gw_ID g) raw; Some (mkGateway s (gw_Name g) (gw_URL g))
  else if String.eqb f "name" then s ← raw_string (gw_Name g) raw; Some (mkGateway (gw_ID g) s (gw_URL g))
  else s ← raw_string (gw_URL g) raw; Some (mkGateway (gw_ID g) (gw_Name g) s).
Definition no_gateway : gateway := mkGateway "" "" "".
Definition decode_gateway : string -> option gateway := decode_raw ["id"; "name"; "url"] assign_gateway no_gateway.
Definition decode_gateways : string -> option (list gateway) := decode_raw_list ["id"; "name"; "url"] assign_gateway no_gateway.
Definition decode_tools : string -> option (list cf_tool) :=
  decode_raw_list ["originalName"; "inputSchema"; "outputSchema"; "annotations"; "gatewayId"; "enabled"]
    (fun f raw t =>
       if String.eqb f "originalName" then s ← raw_string (cft_OriginalName t) raw; Some (t <| cft_OriginalName := s |>)
       else if String.eqb f "inputSchema" then Some (t <| cft_InputSchema := raw |>)
       else if String.eqb f "outputSchema" then Some (t <| cft_OutputSchema := raw |>)
       else if String.eqb f "annotations" then Some (t <| cft_Annotations := raw |>)
       else if String.eqb f "gatewayId" then s ← raw_string (cft_GatewayID t) raw; Some (t <| cft_GatewayID := s |>)
       else b ← raw_bool (cft_Enabled t) raw; Some (t <| cft_Enabled := b |>))
    (mkCfTool "" "" "" "" "" false).
Definition decode_named : string -> option (list named) :=
  decode_raw_list ["name"; "originalName"; "uri"; "gatewayId"]
    (fun f raw n =>
       if String.eqb f "name" then s ← raw_string (nm_Name n) raw; Some (mkNamed s (nm_OriginalName n) (nm_URI n) (nm_GatewayID n))
       else if String.eqb f "originalName" then s ← raw_string (nm_OriginalName n) raw; Some (mkNamed (nm_Name n) s (nm_URI n) (nm_GatewayID n))
       else if String.eqb f "uri" then s ← raw_string (nm_URI n) raw; Some (mkNamed (nm_Name n) (nm_OriginalName n) s (nm_GatewayID n))
       else s ← raw_string (nm_GatewayID n) raw; Some (mkNamed (nm_Name n) (nm_OriginalName n) (nm_URI n) s))
    (mkNamed "" "" "" "").

(** A listing keeps a schema as it was written. *)
Definition spaced_tools : string :=
  " [ {" +:+ quote_json "originalName" +:+ ": " +:+ quote_json "read" +:+ ", " +:+ quote_json "inputSchema" +:+ " : { " +:+
  quote_json "b" +:+ " : 1.0 } , " +:+ quote_json "ENABLED" +:+ ":true}, null ]".
Example listed_tools : decode_tools spaced_tools =
  Some [mkCfTool "read" ("{ " +:+ quote_json "b" +:+ " : 1.0 }") "" "" "" true; mkCfTool "" "" "" "" "" false].
Proof. vm_compute. reflexivity. Qed.

(** ** The client *)

Inductive exchange := DoFailed | Exchanged (status : Z) (body : res string).
Record cf_request := mkCfRequest { cq_method : string; cq_URL : string; cq_Authorization : string; cq_body : option json }.
Universe contextforge.
Inductive cf_eff : Type@{contextforge} -> Type@{contextforge+1} :=
| TokenFile : cf_eff (res string)
| Do (r : cf_request) : cf_eff exchange
| TimeNow : cf_eff Time.
Abbreviation cproc := (prog cf_eff).
(** What [do] returns: the status code, and the decoded answer or the error.
    A panic ends the process: [None]. *)
Abbreviation answer A := (Z * res A)%type.

(** [strings.TrimRight(baseURL, "/")] *)
Definition base_url (baseURL : string) : string := trim_cut_right "/" baseURL.
(** [io.LimitReader] *)
Fixpoint take_bytes (n : Z) (s : string) : string :=
  match s with EmptyString => EmptyString | String c r => if n <=? 0 then EmptyString else String c (take_bytes (n - 1) r) end.
Definition response_limit : Z := 16 * 2 ^ 20.

Section Client.
  Context (IsPrint : Z -> bool) (base : string).

Definition do_ {A} (method path : string) (body : option json) (out : string -> option A) : cproc (answer A) :=
  token ← ask TokenFile;
  match token with
  | Err _ => Ret (0, Fail ErrUnavailable)
  | Ok token =>
      match Parse_URL (base +:+ path) with
      | None => Ret (0, Fail ErrOther)
      | Some _ =>
          resp ← ask (Do (mkCfRequest method (base +:+ path) ("Bearer " +:+ TrimSpace token) body));
          Ret (match resp with
               | DoFailed => (0, Fail ErrUnavailable)
               | Exchanged code (Err _) => (code, Fail ErrUnavailable)
               | Exchanged code (Ok raw) =>
                   if 300 <=? code then (code, Fail ErrOther)
                   else match out (take_bytes response_limit raw) with
                        | None => (code, Fail ErrUnavailable)
                        | Some v => (code, Ok v)
                        end
               end)
      end
  end.
(** Without a target the body is not decoded. *)
Definition no_target : string -> option unit := fun _ => Some tt.

Definition register_body (name resource : string) : json :=
  jmap [("name", JStr name); ("url", JStr resource); ("transport", JStr "STREAMABLEHTTP"); ("visibility", JStr "private");
        ("description", JStr "AnvilKit catalog connection; AnvilKit grants decide every use"); ("tags", JArr [JStr "anvilkit"])].
Definition refresh_path (id : string) : string :=
  "/v1/gateways/" +:+ PathEscape id +:+ "/tools/refresh?include_resources=true&include_prompts=true".
Definition list_gateways : cproc (answer (list gateway)) := do_ "GET" "/v1/gateways?limit=0&include_inactive=false" None decode_gateways.

(** The listed gateway of the name, refreshed; [next] when none is listed. *)
Definition refresh_listed (name : string) (all : list gateway) (next : cproc (option (res gateway))) : cproc (option (res gateway)) :=
  match List.find (fun g => String.eqb (gw_Name g) name) all with
  | None => next
  | Some g =>
      r ← do_ "POST" (refresh_path (gw_ID g)) None no_target;
      Ret (Some (match r with
                 | (_, Ok _) => Ok g
                 | (code, Err e) => if code =? 409 then Fail ErrUnavailable else if code =? 502 then Fail ErrUpstream else Err e
                 end))
  end.
(** [gatewayFor], at first and after a conflict. *)
Definition gateway_with (resource : string) (missing : string -> cproc (option (res gateway))) : cproc (option (res gateway)) :=
  all ← list_gateways;
  match all with
  | (_, Err e) => Ret (Some (Err e))
  | (_, Ok all) =>
      match gatewayName IsPrint resource with
      | None => Ret None
      | Some (Err e) => Ret (Some (Err e))
      | Some (Ok name) => refresh_listed name all (missing name)
      end
  end.
Definition gatewayFor (resource : string) (mayRegister : bool) : cproc (option (res gateway)) :=
  let again := gateway_with resource (fun _ => Ret (Some (Fail ErrUnavailable))) in
  if mayRegister then
    gateway_with resource (fun name =>
      created ← do_ "POST" "/v1/gateways" (Some (register_body name resource)) decode_gateway;
      match created with
      | (_, Ok g) => Ret (Some (Ok g))
      | (code, Err e) => if code =? 502 then Ret (Some (Fail ErrUpstream)) else if code =? 409 then again else Ret (Some (Err e))
      end)
  else again.

Definition live_tools (id : string) (tools : list cf_tool) : list LiveTool :=
  map (fun t => mkLiveTool (cft_OriginalName t) (cft_InputSchema t) (cft_OutputSchema t) (cft_Annotations t))
    (List.filter (fun t => negb (negb (String.eqb (cft_GatewayID t) id) || negb (cft_Enabled t))) tools).
Definition live_resources (id : string) (rs : list named) : list LiveNamed :=
  map (fun r => mkLiveNamed (nm_Name r) (nm_URI r)) (List.filter (fun r => String.eqb (nm_GatewayID r) id) rs).
Definition live_prompts (id : string) (ps : list named) : list LiveNamed :=
  map (fun p => mkLiveNamed (if String.eqb (nm_OriginalName p) "" then nm_Name p else nm_OriginalName p) "")
    (List.filter (fun p => String.eqb (nm_GatewayID p) id) ps).
(** [Discover]; the protocol version it is given is not used. *)
Definition Discover (resource : string) : cproc (option (res LiveServer)) :=
  gw ← gatewayFor resource true;
  match gw with
  | None => Ret None
  | Some (Err e) => Ret (Some (Err e))
  | Some (Ok gw) =>
      hs ← do_ "POST" "/v1/mcp-servers/test-handshake" (Some (jmap [("baseUrl", JStr (gw_URL gw))])) decode_handshake;
      match hs with
      | (code, Err e) => Ret (Some (if (code =? 502) || (code =? 422) then Fail ErrUpstream else Err e))
      | (_, Ok hs) =>
          if negb (hs_Success hs) then Ret (Some (Fail ErrUpstream))
          else
            let q := "?gateway_id=" +:+ QueryEscape (gw_ID gw) +:+ "&limit=0" in
            tools ← do_ "GET" ("/v1/tools" +:+ q) None decode_tools;
            match tools with
            | (_, Err e) => Ret (Some (Err e))
            | (_, Ok tools) =>
                resources ← do_ "GET" ("/v1/resources" +:+ q) None decode_named;
                match resources with
                | (_, Err e) => Ret (Some (Err e))
                | (_, Ok resources) =>
                    prompts ← do_ "GET" ("/v1/prompts" +:+ q) None decode_named;
                    match prompts with
                    | (_, Err e) => Ret (Some (Err e))
                    | (_, Ok prompts) =>
                        now ← ask TimeNow;
                        Ret (Some (Ok (mkLiveServer (hs_ServerName hs) (hs_ServerVersion hs) (hs_ProtocolVersion hs)
                          (live_tools (gw_ID gw) tools) (live_resources (gw_ID gw) resources) (live_prompts (gw_ID gw) prompts)
                          ("contextforge gateway " +:+ gw_ID gw +:+ " via " +:+ hs_NegotiationPath hs +:+ " at " +:+ format_seconds now +:+ "Z")
                          ("contextforge:" +:+ gw_ID gw) "")))
                    end
                end
            end
      end
  end.
End Client.
