(* ===== verification/ContextForgeSpec.v ===== *)
(** * ContextForgeSpec: what a discovery through ContextForge reads

    A live server is read from the answers of one run: its gateway, named
    after the resource, refreshed or registered in that run, and its listings. *)

From S2P Require Import Prelude Errors GoStrings GoCrypto GoJson GoNum GoUrl Catalog Prog Trace ContextForge.
From Stdlib Require Import Ascii.

Section Spec.
  Context (IsPrint : Z -> bool) (base : string).

Definition gateways_path : string := "/v1/gateways".
Definition is_registration (v : event cf_eff) : Prop :=
  exists r x, v = ev (Do r) x /\ cq_method r = "POST" /\ cq_URL r = base +:+ gateways_path.
Definition unregistered (tr : list (event cf_eff)) : Prop := forall v, v ∈ tr -> ~ is_registration v.
(** An exchange that succeeded, and what was decoded from it. *)
Definition got {A} (tr : list (event cf_eff)) (method path : string) (body : option json) (out : string -> option A) (v : A) : Prop :=
  exists token code raw, ev TokenFile (Ok token) ∈ tr /\
    ev (Do (mkCfRequest method (base +:+ path) ("Bearer " +:+ TrimSpace token) body)) (Exchanged code (Ok raw)) ∈ tr /\
    code < 300 /\ out (take_bytes response_limit raw) = Some v.
Definition may_do (tr : list (event cf_eff)) (X : Type) (e : cf_eff X) : Prop :=
  match e with
  | Do r => (exists path token, cq_URL r = base +:+ path /\ cq_Authorization r = "Bearer " +:+ TrimSpace token /\ ev TokenFile (Ok token) ∈ tr) /\
            (cq_method r = "POST" -> cq_URL r = base +:+ gateways_path -> unregistered tr)
  | _ => True
  end.

Lemma got_mono {A} tr tr' method path body (out : string -> option A) v :
  tr `prefix_of` tr' -> got tr method path body out v -> got tr' method path body out v.
Proof. intros Hp (token & code & raw & ? & ? & ? & ?). exists token, code, raw. split_and!; eauto with trace. Qed.

Lemma wp_do {A} method path body (out : string -> option A) tr Q :
  (method = "POST" -> path = gateways_path -> unregistered tr) ->
  (forall tr' r, tr `prefix_of` tr' -> (unregistered tr -> path <> gateways_path \/ method <> "POST" -> unregistered tr') ->
     (forall v, r.2 = Ok v -> got tr' method path body out v) -> Q tr' r) ->
  wp may_do (do_ base method path body out) tr Q.
Proof.
  intros Hreg HQ. unfold do_. apply wp_ask; [done|]. intros tk. set (tr1 := tr ++ [ev TokenFile tk]).
  assert (unregistered tr -> unregistered tr1) as Hu1.
  { intros Hu v [Hv| ->%list_elem_of_singleton]%elem_of_app; [by apply Hu|]. intros (r & x & H & _).
    assert (projT1 (ev TokenFile tk) = projT1 (ev (Do r) x)) as Ht by (by rewrite H).
    assert (match projT2 (ev TokenFile tk) with (TokenFile, _) => True | _ => False end) as Hm by done. rewrite H in Hm. exact Hm. }
  destruct tk as [token|]; [|apply HQ; [apply prefix_last|by intros; apply Hu1|done]].
  destruct (Parse_URL _); [|apply HQ; [apply prefix_last|by intros; apply Hu1|done]].
  set (req := mkCfRequest method (base +:+ path) _ body). apply wp_ask.
  - split; [exists path, token; split_and!; [done..|apply ev_last]|]. cbn. intros Hm Hp. apply Hu1, Hreg; [done|]. by apply append_inj_l in Hp.
  - intros resp. apply HQ.
    + etransitivity; apply prefix_last.
    + intros Hu Hne v [Hv| ->%list_elem_of_singleton]%elem_of_app; [by apply Hu1|]. intros (r & x & H & Hm & Hp).
      assert (match projT2 (ev (Do req) resp) with (Do r', _) => r' = r | _ => False end) as Hr by (by rewrite H). cbn in Hr. subst r.
      cbn in Hm, Hp. apply append_inj_l in Hp. destruct Hne as [|]; done.
    + intros v. destruct resp as [|code [raw|]]; [done| |done]. destruct (300 <=? code) eqn:Ec; [done|].
      destruct (out _) as [w|] eqn:Eo; [|done]. intros [= <-]. exists token, code, raw. split_and!; [|apply ev_last|lia|done].
      eapply ev_prefix; [apply prefix_last|apply ev_last].
Qed.

Definition gateways_query : string := "/v1/gateways?limit=0&include_inactive=false".
(** The gateway of a resource: listed under its name and refreshed, or
    registered, in the run. *)
Definition gateway_of (tr : list (event cf_eff)) (resource : string) (g : gateway) : Prop :=
  exists name, gatewayName IsPrint resource = Some (Ok name) /\
    ((gw_Name g = name /\ (exists all, got tr "GET" gateways_query None decode_gateways all /\ g ∈ all) /\
      got tr "POST" (refresh_path (gw_ID g)) None no_target tt) \/
     got tr "POST" gateways_path (Some (register_body name resource)) decode_gateway g).
Lemma gateway_of_mono tr tr' resource g : tr `prefix_of` tr' -> gateway_of tr resource g -> gateway_of tr' resource g.
Proof.
  intros Hp (name & Hn & H). exists name. split; [done|]. destruct H as [(? & (all & ? & ?) & ?)|]; [left|right; by eapply got_mono].
  split_and!; [done| |by eapply got_mono]. exists all. split; [by eapply got_mono|done].
Qed.
Lemma refresh_path_other id : refresh_path id <> gateways_path.
Proof. unfold refresh_path, gateways_path. discriminate. Qed.

Lemma wp_gateway_with resource missing tr Q :
  (forall tr', tr `prefix_of` tr' -> Q tr' None) -> (forall tr' e, tr `prefix_of` tr' -> Q tr' (Some (Err e))) ->
  (forall tr' g, tr `prefix_of` tr' -> gateway_of tr' resource g -> Q tr' (Some (Ok g))) ->
  (forall tr' name, tr `prefix_of` tr' -> (unregistered tr -> unregistered tr') -> gatewayName IsPrint resource = Some (Ok name) ->
     wp may_do (missing name) tr' Q) ->
  wp may_do (gateway_with IsPrint base resource missing) tr Q.
Proof.
  intros Hn He Hk Hm. unfold gateway_with. apply wp_bind, wp_do; [done|]. intros tr1 [code [all|e]] Hp Hu Hg; [|by apply He].
  destruct (gatewayName IsPrint resource) as [[name|e]|] eqn:En; [|by apply He|by apply Hn]. unfold refresh_listed.
  destruct (List.find _ all) as [g|] eqn:Ef; [|apply Hm; [done| |done]; intros H; apply Hu; [done|by right]].
  apply find_some in Ef as [Hin Hname]. breflect. apply list_elem_of_In in Hin.
  apply wp_bind, wp_do; [by intros _ ?%refresh_path_other|]. intros tr2 [code2 [[]|e]] Hp2 _ Hg2; cbn.
  - apply Hk; [by etransitivity|]. exists name. split; [done|left]. split_and!; [done| |by apply Hg2]. exists all. split; [|done].
    eapply got_mono; [exact Hp2|]. by apply Hg.
  - destruct (code2 =? 409); [apply He; by etransitivity|]. destruct (code2 =? 502); apply He; by etransitivity.
Qed.

Lemma wp_gatewayFor resource tr Q : unregistered tr ->
  (forall tr', tr `prefix_of` tr' -> Q tr' None) -> (forall tr' e, tr `prefix_of` tr' -> Q tr' (Some (Err e))) ->
  (forall tr' g, tr `prefix_of` tr' -> gateway_of tr' resource g -> Q tr' (Some (Ok g))) ->
  wp may_do (gatewayFor IsPrint base resource true) tr Q.
Proof.
  intros Hu Hn He Hk. unfold gatewayFor. apply wp_gateway_with; [done..|]. intros tr1 name Hp1 Hu1 Ename.
  apply wp_bind, wp_do; [by intros; apply Hu1|]. intros tr2 [code [g|e]] Hp2 _ Hg.
  - apply Hk; [by etransitivity|]. exists name. split; [done|right]. by apply Hg.
  - destruct (code =? 502); [apply He; by etransitivity|]. destruct (code =? 409); [|apply He; by etransitivity].
    apply wp_gateway_with; [intros; apply Hn|intros; apply He|intros; apply Hk; [|done]|intros; apply He]; (do 2 (etransitivity; [eassumption|]); done).
Qed.

(** What a discovered server was read from. *)
Definition read_from (tr : list (event cf_eff)) (resource : string) (live : LiveServer) : Prop :=
  exists g hs tools resources prompts now, gateway_of tr resource g /\
    got tr "POST" "/v1/mcp-servers/test-handshake" (Some (jmap [("baseUrl", JStr (gw_URL g))])) decode_handshake hs /\ hs_Success hs = true /\
    (let q := "?gateway_id=" +:+ QueryEscape (gw_ID g) +:+ "&limit=0" in
     got tr "GET" ("/v1/tools" +:+ q) None decode_tools tools /\ got tr "GET" ("/v1/resources" +:+ q) None decode_named resources /\
     got tr "GET" ("/v1/prompts" +:+ q) None decode_named prompts) /\
    (forall t, t ∈ ls_Tools live <-> exists x, x ∈ tools /\ cft_GatewayID x = gw_ID g /\ cft_Enabled x = true /\
       t = mkLiveTool (cft_OriginalName x) (cft_InputSchema x) (cft_OutputSchema x) (cft_Annotations x)) /\
    (forall n, n ∈ ls_Resources live <-> exists x, x ∈ resources /\ nm_GatewayID x = gw_ID g /\ n = mkLiveNamed (nm_Name x) (nm_URI x)) /\
    (forall n, n ∈ ls_Prompts live <-> exists x, x ∈ prompts /\ nm_GatewayID x = gw_ID g /\
       n = mkLiveNamed (if String.eqb (nm_OriginalName x) "" then nm_Name x else nm_OriginalName x) "") /\
    live = mkLiveServer (hs_ServerName hs) (hs_ServerVersion hs) (hs_ProtocolVersion hs)
      (live_tools (gw_ID g) tools) (live_resources (gw_ID g) resources) (live_prompts (gw_ID g) prompts)
      ("contextforge gateway " +:+ gw_ID g +:+ " via " +:+ hs_NegotiationPath hs +:+ " at " +:+ format_seconds now +:+ "Z")
      ("contextforge:" +:+ gw_ID g) "".

Lemma elem_of_picked {A B} (f : A -> B) (m : A -> bool) l y : y ∈ map f (List.filter m l) <-> exists x, x ∈ l /\ m x = true /\ y = f x.
Proof. rewrite list_elem_of_In, in_map_iff. setoid_rewrite filter_In. setoid_rewrite <- list_elem_of_In. naive_solver. Qed.
Lemma elem_of_live_tools id tools t : t ∈ live_tools id tools <-> exists x, x ∈ tools /\ cft_GatewayID x = id /\ cft_Enabled x = true /\
  t = mkLiveTool (cft_OriginalName x) (cft_InputSchema x) (cft_OutputSchema x) (cft_Annotations x).
Proof.
  unfold live_tools. rewrite elem_of_picked. apply exist_proper. intros x.
  rewrite negb_true_iff, orb_false_iff, !negb_false_iff, String.eqb_eq. tauto.
Qed.
Lemma elem_of_live_named {A} (f : A -> LiveNamed) (gid : A -> string) id l n :
  n ∈ map f (List.filter (fun x => String.eqb (gid x) id) l) <-> exists x, x ∈ l /\ gid x = id /\ n = f x.
Proof. rewrite elem_of_picked. apply exist_proper. intros x. by rewrite String.eqb_eq. Qed.

Lemma wp_Discover resource : wp may_do (Discover IsPrint base resource) [] (fun tr r =>
  match r with Some (Ok live) => read_from tr resource live | _ => True end).
Proof.
  unfold Discover. apply wp_bind, wp_gatewayFor; [by intros v ?%elem_of_nil|done|done|]. intros tr g _ Hg.
  apply wp_bind, wp_do; [done|]. intros tr1 [code [hs|e]] Hp1 _ H1; [|cbn; by destruct (_ || _)]. destruct (hs_Success hs) eqn:Es; [|done]. cbn [negb]. cbv zeta.
  apply wp_bind, wp_do; [done|]. intros tr2 [? [tools|e]] Hp2 _ H2; [|done].
  apply wp_bind, wp_do; [done|]. intros tr3 [? [resources|e]] Hp3 _ H3; [|done].
  apply wp_bind, wp_do; [done|]. intros tr4 [? [prompts|e]] Hp4 _ H4; [|done].
  apply wp_ask; [done|]. intros now. cbn [snd] in *.
  pose proof (prefix_last tr4 (ev TimeNow now)) as Hp5. exists g, hs, tools, resources, prompts, now.
  assert (tr3 `prefix_of` tr4 ++ [ev TimeNow now]) as Q3 by by etransitivity.
  assert (tr2 `prefix_of` tr4 ++ [ev TimeNow now]) as Q2 by by etransitivity.
  assert (tr1 `prefix_of` tr4 ++ [ev TimeNow now]) as Q1 by by etransitivity.
  cbv zeta. split_and!; [eapply gateway_of_mono; [|exact Hg]; by etransitivity|eapply got_mono; [exact Q1|by apply H1]|done
    |eapply got_mono; [exact Q2|by apply H2]|eapply got_mono; [exact Q3|by apply H3]|eapply got_mono; [exact Hp5|by apply H4]
    |apply elem_of_live_tools|apply elem_of_live_named|apply elem_of_live_named|done].
Qed.

(** C37. A discovery through ContextForge reads one gateway. Whatever the layer
    answers, along every run: each request goes below the configured base with
    the token just read from its file; at most one gateway is registered, a
    conflict being answered by the one listed; and a server is answered only
    from a gateway that was listed under the resource's name and refreshed, or
    registered for the resource, in this run, after a successful handshake with
    that gateway's own URL, with exactly the enabled tools, the resources and
    the prompts the listings attribute to that gateway. *)
Theorem discovery_reads_one_gateway resource tr p : leads (Discover IsPrint base resource) tr p ->
  (forall r x, ev (Do r) x ∈ tr -> exists path token, cq_URL r = base +:+ path /\
     cq_Authorization r = "Bearer " +:+ TrimSpace token /\ ev TokenFile (Ok token) ∈ tr) /\
  (forall l1 v l2 w l3, tr = l1 ++ v :: l2 ++ w :: l3 -> is_registration v -> ~ is_registration w) /\
  (forall live, p = Ret (Some (Ok live)) -> read_from tr resource live).
Proof.
  intros Hl. destruct (leads_wp _ _ _ _ _ Hl (wp_Discover resource)) as [Hq Hall]. split_and!.
  - intros r x Hin. destruct (Hall _ Hin) as (l & Hp & (path & token & ? & ? & ?) & _). exists path, token. split_and!; eauto with trace.
  - intros l1 v l2 w l3 Heq Hv (r & x & -> & Hm & Hu). rewrite app_comm_cons, app_assoc in Heq.
    pose proof (leads_at _ _ _ _ _ Hl (wp_Discover resource) _ _ _ Heq) as [_ H]. cbn in H. apply (H Hm Hu v); [|done].
    apply elem_of_app. right. by left.
  - intros live ->. exact Hq.
Qed.
End Spec.

(** A resource without a gateway yet: it is registered, read, and its disabled
    tool and the tool of another gateway are left out. *)
Definition forge_answer (url : string) : string :=
  if HasSuffix url "include_inactive=false" then "[]"
  else if HasSuffix url "/v1/gateways" then Marshal (jmap [("id", JStr "gw 1"); ("name", JStr "n"); ("url", JStr "https://mcp.example.com/mcp/")])
  else if HasSuffix url "test-handshake" then Marshal (jmap [("success", JBool true); ("protocolVersion", JStr "2025-06-18"); ("serverName", JStr "files"); ("serverVersion", JStr "1"); ("negotiationPath", JStr "direct")])
  else if HasSuffix url "/v1/tools?gateway_id=gw+1&limit=0" then
    let tool name gw on := jmap [("originalName", JStr name); ("inputSchema", JObj []); ("gatewayId", JStr gw); ("enabled", JBool on)] in
    Marshal (JArr [tool "read" "gw 1" true; tool "old" "gw 1" false; tool "other" "gw 2" true])
  else "null".
Definition forge (X : Type) (e : cf_eff X) : X :=
  match e with TokenFile => Ok "tk" | Do r => Exchanged 200 (Ok (forge_answer (cq_URL r))) | TimeNow => 0 end.
Definition forge_run := driven forge (Discover (fun _ => true) "https://forge.example.com" "https://mcp.example.com/mcp").
Definition forge_live : LiveServer :=
  mkLiveServer "files" "1" "2025-06-18" [mkLiveTool "read" "{}" "" ""] [] []
    "contextforge gateway gw 1 via direct at 1970-01-01T00:00:00Z" "contextforge:gw 1" "".
Lemma discovery_reads_one_gateway_witness :
  leads (Discover (fun _ => true) "https://forge.example.com" "https://mcp.example.com/mcp") forge_run.1 forge_run.2 /\
  forge_run.2 = Ret (Some (Ok forge_live)) /\
  read_from (fun _ => true) "https://forge.example.com" forge_run.1 "https://mcp.example.com/mcp" forge_live.
Proof.
  assert (Hl : leads (Discover (fun _ => true) "https://forge.example.com" "https://mcp.example.com/mcp") forge_run.1 forge_run.2)
    by apply driven_leads.
  assert (Hp : forge_run.2 = Ret (Some (Ok forge_live))) by (vm_compute; reflexivity).
  split; [exact Hl|]. split; [exact Hp|].
  exact (proj2 (proj2 (discovery_reads_one_gateway _ _ _ _ _ Hl)) _ Hp).
Defined.

(** A resource whose path holds a rune outside the basic plane that is not
    printable is quoted with an escape that JSON does not know: the digest is
    empty and cutting it panics. *)
Definition tagged_resource : string := "https://mcp.example.com/" +:+ string_of_bytes [243; 160; 128; 129].
Lemma unprintable_resource_panics IsPrint : IsPrint 917505 = false ->
  CheckResource tagged_resource false = Ok "mcp.example.com" /\ gatewayName IsPrint tagged_resource = None.
Proof.
  intros H. split; [by vm_compute|]. unfold gatewayName.
  replace (Parse_URL tagged_resource) with (Some (mkURL "https" "" false "mcp.example.com" ("/" +:+ string_of_bytes [243; 160; 128; 129]) "" "")) by by vm_compute.
  cbn [u_Host String.eqb]. unfold shortHash.
  assert (Quote IsPrint tagged_resource = Quote (fun _ => false) tagged_resource) as ->.
  { unfold Quote, tagged_resource. vm_compute. by rewrite H. }
  vm_compute. done.
Qed.
