(* ===== verification/Assembly.v ===== *)
(** * Assembly: what the constructors build from a configuration ([internal/bootstrap])

    The credentials file ([module.go], [loadCredentials]), the workload
    identity and the transports to Control, the collector and NATS
    ([identity.go], [telemetry.go]), and the stand-ins of a missing placement.
    What reading key material and dialing answer are inputs. *)

From S2P Require Import Prelude Errors GoStrings GoTrim GoJson GoUrl Config Catalog Grant App Prog Ports Authority Session ConfigSpec.

(** ** The upstream credentials *)

Definition assign_credential (f : string) (v : json) (c : Credential) : option Credential :=
  if String.eqb f "resource" then s ← decode_string (cr_Resource c) v; Some (mkCredential s (cr_Issuer c) (cr_ClientID c) (cr_ClientSecretFile c) (cr_Scopes c))
  else if String.eqb f "issuer" then s ← decode_string (cr_Issuer c) v; Some (mkCredential (cr_Resource c) s (cr_ClientID c) (cr_ClientSecretFile c) (cr_Scopes c))
  else if String.eqb f "clientId" then s ← decode_string (cr_ClientID c) v; Some (mkCredential (cr_Resource c) (cr_Issuer c) s (cr_ClientSecretFile c) (cr_Scopes c))
  else if String.eqb f "clientSecretFile" then s ← decode_string (cr_ClientSecretFile c) v; Some (mkCredential (cr_Resource c) (cr_Issuer c) (cr_ClientID c) s (cr_Scopes c))
  else match v with
       | JNull => Some (mkCredential (cr_Resource c) (cr_Issuer c) (cr_ClientID c) (cr_ClientSecretFile c) [])
       | JArr l => s ← decode_list (cr_Scopes c) l; Some (mkCredential (cr_Resource c) (cr_Issuer c) (cr_ClientID c) (cr_ClientSecretFile c) s)
       | _ => None
       end.
Definition decode_credential (v : json) : option Credential :=
  decode_struct ["resource"; "issuer"; "clientId"; "clientSecretFile"; "scopes"] true assign_credential v (mkCredential "" "" "" "" []).
Fixpoint decode_credentials (l : list json) : option (list Credential) :=
  match l with [] => Some [] | v :: r => c ← decode_credential v; cs ← decode_credentials r; Some (c :: cs) end.
Definition complete (c : Credential) : bool := set (cr_Resource c) && set (cr_Issuer c) && set (cr_ClientID c) && set (cr_ClientSecretFile c).
(** [Decoder.Decode] reads the first value and leaves what follows it. *)
Definition first_value (raw : string) : option json :=
  '(v, _) ← parse_value (2 * String.length raw + 3) 0 (bytes_of raw); Some v.
Definition loadCredentials (read : string -> res string) (path : string) : res (list Credential) :=
  if String.eqb path "" then Ok []
  else
    match read path with
    | Err _ => Fail ErrOther
    | Ok raw =>
        match (match first_value raw with Some (JArr l) => decode_credentials l | Some JNull => Some [] | _ => None end) with
        | None => Fail ErrOther
        | Some cs => if forallb complete cs then Ok cs else Fail ErrOther
        end
    end.

(** ** Transports *)

Record Files := mkFiles { fl_CertFile : string; fl_KeyFile : string; fl_CAFile : string }.
(** A transport to another service: plaintext, or TLS 1.3 with the roots of a
    bundle, the server's name to verify, and a client certificate. *)
Inductive transport := Plaintext | TLS13 (ca serverName : string) (client : option Files).

Section Transports.
  (** Whether the key material loads, and whether a bundle holds a certificate. *)
  Context (loads : Files -> bool) (holds : string -> bool).

(** [newWorkloadIdentity]: the reloader, or none in development. *)
Definition listener_files (c : Config) : Files :=
  let id := gr_Identity (c_GRPC c) in mkFiles (si_CertFile id) (si_KeyFile id) (si_CAFile id).
Definition newWorkloadIdentity (c : Config) : res (option Files) :=
  if String.eqb (si_Mode (gr_Identity (c_GRPC c))) "development" then Ok None
  else if loads (listener_files c) then Ok (Some (listener_files c)) else Fail ErrOther.
(** [NewClientCredentials] *)
Definition NewClientCredentials (files : Files) (serverName : string) : res transport :=
  if String.eqb serverName "" then Fail ErrOther else Ok (TLS13 (fl_CAFile files) serverName (Some files)).
#[export] Instance Files_eq_dec : EqDecision Files.
Proof. solve_decision. Defined.
Definition controlTransport (reloader : option Files) (c : Config) : res transport :=
  if String.eqb (ci_Mode (co_Identity (c_Control c))) "development" then
    if negb (c_Development c) then Fail ErrOther else Ok Plaintext
  else if String.eqb (ci_Mode (co_Identity (c_Control c))) "mtls" then
    let m := ControlMTLS c in
    let files := mkFiles (ct_CertFile m) (ct_KeyFile m) (ct_CAFile m) in
    match reloader with
    | Some r => if bool_decide (files = listener_files c) then NewClientCredentials r (ct_ServerName m)
                else if loads files then NewClientCredentials files (ct_ServerName m) else Fail ErrOther
    | None => if loads files then NewClientCredentials files (ct_ServerName m) else Fail ErrOther
    end
  else Fail ErrOther.

Definition clientTLSConfig (t : ClientTLS) : res transport :=
  if String.eqb (ct_Mode t) "tls" then
    if holds (ct_CAFile t) then Ok (TLS13 (ct_CAFile t) (ct_ServerName t) None) else Fail ErrOther
  else if String.eqb (ct_Mode t) "mtls" then
    let files := mkFiles (ct_CertFile t) (ct_KeyFile t) (ct_CAFile t) in
    if loads files then Ok (TLS13 (ct_CAFile t) (ct_ServerName t) (Some files)) else Fail ErrOther
  else Fail ErrOther.
Definition clientTransport (t : ClientTLS) (development : bool) : res transport :=
  if String.eqb (ct_Mode t) "development" then if negb development then Fail ErrOther else Ok Plaintext
  else if String.eqb (ct_Mode t) "tls" || String.eqb (ct_Mode t) "mtls" then clientTLSConfig t
  else Fail ErrOther.
(** [startTracing]: no transport without an endpoint. *)
Definition startTracing (c : Config) : res (option transport) :=
  if String.eqb (te_OTLPEndpoint (c_Telemetry c)) "" then Ok None
  else t ← clientTransport (te_OTLPTLS (c_Telemetry c)) (c_Development c); Ok (Some t).
End Transports.

(** ** Placements *)

(** [newPolicyRegistry], [newToolDispatcher]: without a Control placement
    every question is answered by [errNoControl]. *)
Definition placed {A} (c : Config) (answer : res A) : res A := if String.eqb (co_Address (c_Control c)) "" then Fail ErrOther else answer.
(** [NoDispatchQuery] knows nothing of a dispatch. *)
Definition placed_outcome {A} (c : Config) (unknown answer : A) : A := if String.eqb (co_Address (c_Control c)) "" then unknown else answer.
(** [newConnectionLayer]: ContextForge or its stand-in, behind MCP's own
    egress for resources with a reviewed credential. *)
Definition connection (c : Config) (credentials : list Credential) (resource : string) (egress forge : res LiveServer) : res LiveServer :=
  routed_Discover (HasCredential credentials resource) egress
    (if String.eqb (cf_URL (ca_ContextForge (c_Catalog c))) "" then Fail ErrUnavailable else forge).
(** The qualified routes of [NewCalls]. *)
Definition qualified_routes (c : Config) : list QualifiedRoute :=
  map (fun r => mkQualifiedRoute (ro_Resource r) (ro_ProtocolVersion r) (ro_Transport r) (ro_Route r)) (items (cl_QualifiedRoutes (c_Calls c))).

(** ** What is built *)

Lemma loaded_credentials read path cs : loadCredentials read path = Ok cs -> forall c, c ∈ cs -> complete c = true.
Proof.
  unfold loadCredentials. destruct (String.eqb path ""); [intros [= <-] c Hc; by apply elem_of_nil in Hc|].
  destruct (read path) as [raw|]; [|done]. destruct (match first_value raw with Some _ => _ | None => _ end) as [l|]; [|done].
  destruct (forallb complete l) eqn:E; [|done]. intros [= <-] c Hc. rewrite forallb_forall in E. apply E. by apply list_elem_of_In.
Qed.
Definition is_verified (t : transport) : Prop := match t with Plaintext => False | TLS13 _ serverName _ => serverName <> "" end.

Lemma client_credentials files name t : NewClientCredentials files name = Ok t -> name <> "" /\ t = TLS13 (fl_CAFile files) name (Some files).
Proof. unfold NewClientCredentials. destruct (String.eqb_spec name ""); [done|]. by intros [= <-]. Qed.
Lemma listener_mtls_mode c : validate c = [] -> c_Development c = false ->
  si_Mode (gr_Identity (c_GRPC c)) = "mtls" /\ set (si_CAFile (gr_Identity (c_GRPC c))) = true.
Proof. intros Hv Hd. pose proof (valid_listener c Hv) as Hl. rewrite Hd in Hl. by apply listener_mtls in Hl as (? & ? & ? & ? & _). Qed.

(** Outside development every transport is verified. Whatever key material
    loads, what the constructors build from an admitted configuration without
    the development guard are TLS transports with a server name to verify: to
    Control, placed or not, always with the configured or the listener's client
    certificate, and to a placed collector; and a listener without an identity
    is never built. *)
Theorem built_transports_are_verified loads holds c :
  validate c = [] -> c_Development c = false ->
  (forall w, newWorkloadIdentity loads c = Ok w -> w = Some (listener_files c)) /\
  (forall w t, newWorkloadIdentity loads c = Ok w -> controlTransport loads w c = Ok t ->
     is_verified t /\ exists files, t = TLS13 (fl_CAFile files) (ct_ServerName (ControlMTLS c)) (Some files)) /\
  (forall t, startTracing loads holds c = Ok (Some t) -> t <> Plaintext).
Proof.
  intros Hv Hd. split_and!.
  - intros w. unfold newWorkloadIdentity. destruct (listener_mtls_mode c Hv Hd) as [-> _]. cbn. destruct (loads _); [by intros [= <-]|done].
  - intros w t _. unfold controlTransport. rewrite Hd. destruct (String.eqb _ "development"); [done|]. destruct (String.eqb _ "mtls"); [|done].
    cbv zeta. destruct w as [r|]; [destruct (bool_decide _)|].
    2,3: destruct (loads _); [|done].
    all: intros H; apply client_credentials in H as [Hs ->]; (split; [exact Hs|by eexists]).
  - intros t. unfold startTracing, clientTransport. rewrite Hd. destruct (String.eqb _ ""); [done|].
    destruct (String.eqb _ "development"); [done|]. destruct (_ || _); [|done]. unfold clientTLSConfig.
    destruct (String.eqb _ "tls"); [destruct (holds _); [by intros [= <-]|done]|]. destruct (String.eqb _ "mtls"); [|done].
    destruct (loads _); [by intros [= <-]|done].
Qed.
