(* ===== verification/Calls.v ===== *)
(** * Calls: guarded tool execution ([internal/application/calls.go])

    The call use cases as processes: every statement and transaction is a
    [Db] step, every question to Control, the upstream server, the clock or
    the replica's own memory an [Ask].  Logging and counters are left out.  A
    session is the method to send on. *)

From S2P Require Import Prelude Errors GoStrings GoCrypto GoJson GoNum Task TaskLife Catalog Grant Call Event App Rows Sql SqlCalls Prog Ports.

Section Calls.
  Context `{SchemaLibrary, Casbin}.
  (** The replica, the routes with an upstream, the qualified combinations. *)
  Context (self : nat) (upstream : list string) (routes : list QualifiedRoute) (opts : CallOptions)
          (authz : option Authorizer).

Definition routeOf (g : Grant) : option string :=
  option_map qr_Route (List.find (fun r =>
    String.eqb (qr_Resource r) (g_CanonicalResource g) && String.eqb (qr_ProtocolVersion r) (g_ProtocolVersion g) &&
    String.eqb (qr_Transport r) (g_Transport g) && slices_Contains upstream (qr_Route r)) routes).

(** ** Reading *)

Definition load (callID : string) : proc (res Call) :=
  r ← db (GetToolRequest callID);
  Ret (match found (errorf ErrNotFound) r with Ok row => Ok (CallFromRow row) | Err e => Err e end).

Definition Get (scope : Scope) (callID : string) : proc (res Call) :=
  call ←? load callID;
  Ret (if negb (String.eqb (c_TenantID call) (sc_TenantID scope)) then Fail ErrNotFound else Ok call).

(** ** Outcomes *)

(** What [observe] reports for a state: the outcome and the units. *)
Definition observation (call : Call) : option (string * option Z) :=
  match c_State call with
  | CallSucceeded => Some (OutcomeSucceeded, Some (default 0 (c_UsageUnits call)))
  | CallFailed => Some (OutcomeFailed, Some (default 0 (c_UsageUnits call)))
  | CallCanceled => Some (OutcomeCanceled, Some (default 0 (c_UsageUnits call)))
  | CallUnknown => Some (OutcomeUnknown, None)
  | _ => None
  end.

Definition observe (call : Call) : proc unit :=
  match observation call with
  | None => Ret tt
  | Some (outcome, units) =>
      now ← ask Now;
      answer ← ask (ObserveTool (c_DispatchID call) (c_ObservationSeq call) outcome units now);
      match answer with
      | Err _ => Ret tt
      | Ok _ => _ ← db (SetToolRequestObserved (c_CallID call) (i64 (c_ObservationSeq call))); Ret tt
      end
  end.

(** Load the call again and report it. *)
Definition observe_again (callID : string) : proc unit :=
  r ← load callID;
  match r with Ok call => observe call | Err _ => Ret tt end.

Definition cancel (call : Call) (code : string) : proc unit :=
  n ← db (SetToolRequestOutcome
            (mkSetToolRequestOutcomeParams (c_CallID call) CallCanceled (Some code) None None None None (Some 0) [CallAdmitted]));
  match n with
  | Ok 1 => observe_again (c_CallID call)
  | _ => Ret tt
  end.

(** ** The send *)

(** The transaction that commits the marker: whether it did. *)
Definition mark (call : Call) (now : Time) : tx bool :=
  gr ← unwrap (errorf ErrOther) (GetGrantForShare (c_GrantID call));
  let cur := GrantFromRow gr in
  if negb (g_Revision cur =? c_GrantRevision call) || negb (Executable cur now) then mret false
  else n ← SetToolRequestMarker (c_CallID call); mret (n =? 1).

(** The state and failure code of a reply. *)
Definition judge (reply : UpstreamReply) (err : send_error) : CallState * string :=
  match err with
  | Answered_ok => if up_IsError reply then (CallFailed, CallToolError) else (CallSucceeded, "")
  | AnsweredError code => (CallFailed, code)
  | UnknownError code => (CallUnknown, code)
  | SendError => (CallUnknown, CallOutcomeUnknown)
  end.

Definition outcome_params (call : Call) (reply : UpstreamReply) (err : send_error) : SetToolRequestOutcomeParams :=
  let '(state, code) := judge reply err in
  let result := if bool_decide (state = CallUnknown) then None else up_Result reply in
  mkSetToolRequestOutcomeParams (c_CallID call) state (optStr code) result (option_map DigestBytes result)
    (option_map (fun _ => "mcp-result:" +:+ c_CallID call) result) (up_Native reply)
    (if bool_decide (state = CallUnknown) then None else Some 1) [CallSent].

(** From the marker on: at most one send. *)
Definition mark_and_send (call : Call) : proc unit :=
  now ← ask Now;
  marked ← db (mark call now);
  match marked with
  | Err _ => Ret tt
  | Ok false => cancel call CallGrantNotExecutable
  | Ok true =>
      answer ← ask (Send (c_CallID call) (c_Method call) (c_Arguments call));
      let '(reply, err) := answer in
      n ← db (SetToolRequestOutcome (outcome_params call reply err));
      match n with
      | Ok 1 => observe_again (c_CallID call)
      | _ => Ret tt
      end
  end.

(** The grant and the reviewed revision of a call, if all can be read. *)
Definition send_context (call : Call) : proc (res (Grant * Descriptor)) :=
  gr ← db (GetGrant (c_GrantID call));
  match found (errorf ErrOther) gr with
  | Err e => Ret (Err e)
  | Ok gr =>
      dr ← db (GetDescriptor (c_ServerID call) (i64 (c_DescriptorRevision call)));
      match found (errorf ErrOther) dr with
      | Err e => Ret (Err e)
      | Ok dr =>
          srv ← db (GetServer (c_ServerID call));
          match found (errorf ErrOther) srv with
          | Err e => Ret (Err e)
          | Ok srv => Ret (Ok (GrantFromRow gr, DescriptorFromRow dr srv))
          end
      end
  end.

Definition target (call : Call) (g : Grant) (desc : Descriptor) (token : string) : UpstreamTarget :=
  let tool := default no_tool (Method desc (c_Method call)) in
  mkUpstreamTarget (g_CanonicalResource g) (c_ProtocolVersion call) (c_Transport call) (c_Method call)
    (tl_InputSchemaDigest tool) (tl_OutputSchemaDigest tool) (tl_AnnotationsDigest tool) (d_ServerName desc)
    (d_ServerVersion desc) (d_NetworkScope desc) token.

Definition send (call : Call) : proc unit :=
  context ← send_context call;
  match context with
  | Err _ => cancel call CallGrantNotExecutable
  | Ok (g, desc) =>
      token ← ask (Token g);
      match token with
      | Err _ => cancel call CallAuthorization
      | Ok token =>
          if negb (slices_Contains upstream (c_Route call)) then cancel call CallRouteUnqualified
          else
            opened ← ask (Open_ (c_Route call) (target call g desc token));
            match opened with
            | NotSentError code => cancel call code
            | OpenError => cancel call CallUpstreamUnavailable
            | Opened =>
                elapsed ← ask CtxErr;
                if elapsed : bool then cancel call CallNotSent else mark_and_send call
            end
      end
  end.

(** ** Admission *)

Definition admit_request (call : Call) : ToolAdmit :=
  mkToolAdmit (mkControlCommand (c_TenantID call) ("admit:" +:+ c_CallID call) OwnerIdentity (c_RequestDigest call))
    (c_CallID call) (c_OperationID call) (c_AttemptID call) (c_InstanceID call) (c_ExecutionEpoch call)
    (c_GrantID call) (c_GrantRevision call) (c_ServerID call) (c_Method call) (c_ArgumentDigest call)
    (c_SideEffecting call) (c_Exposure call) (c_Deadline call).

Definition admitCall (call : Call) : proc unit :=
  answer ← ask (AdmitTool (admit_request call));
  match answer with
  | Err _ => Ret tt
  | Ok adm =>
      let admitted := call <| c_State := CallAdmitted |> <| c_DispatchID := ad_DispatchID adm |> in
      if negb (ad_Allowed adm) then
        if String.eqb (ad_State adm) "denied" then
          _ ← db (SetToolRequestAdmission (c_CallID call) CallDenied (Some (ad_DispatchID adm)) (Some (ad_DenialCode adm)));
          Ret tt
        else
          n ← db (SetToolRequestAdmission (c_CallID call) CallAdmitted (Some (ad_DispatchID adm)) None);
          match n with
          | Ok 1 => cancel admitted CallNotSent
          | _ => Ret tt
          end
      else
        n ← db (SetToolRequestAdmission (c_CallID call) CallAdmitted (Some (ad_DispatchID adm)) None);
        match n with
        | Ok 1 => send admitted
        | _ => Ret tt
        end
  end.

Definition advance (callID : string) : proc unit :=
  r ← load callID;
  match r with
  | Err _ => Ret tt
  | Ok call =>
      match c_State call with
      | CallAccepted => admitCall call
      | CallSucceeded | CallFailed | CallCanceled | CallUnknown =>
          if bool_decide (c_ObservedAt call = None) && negb (String.eqb (c_DispatchID call) "") then observe call else Ret tt
      | _ => Ret tt
      end
  end.

(** ** Creation *)

(** The transaction that records an accepted call. *)
Definition record_call (cmd : Command) (scope : Scope) (req : CallRequest) (callID : string) (now : Time) : tx unit :=
  gr ← unwrap (errorf ErrNotFound) (GetGrantForShare (cr_GrantID req));
  if negb (String.eqb (gw_TenantID gr) (sc_TenantID scope)) then TxFail ErrNotFound
  else
  let g := GrantFromRow gr in
  if negb (callerMaySend scope g) then TxFail ErrNotFound
  else if negb (g_Revision g =? cr_GrantRevision req) then TxFail ErrRevisionMismatch
  else if negb (Executable g now) then tx_fail (errorc ErrForbidden CallGrantNotExecutable)
  else if negb (slices_Contains (g_Methods g) (cr_Method req)) then tx_fail (errorc ErrForbidden CallGrantNotExecutable)
  else
  dr ← unwrap (errorf ErrOther) (GetDescriptor (g_ServerID g) (i64 (g_DescriptorRevision g)));
  if negb (bool_decide (dr_State dr = CatalogApproved)) || negb (String.eqb (dr_DescriptorDigest dr) (g_DescriptorDigest g))
  then tx_fail (errorc ErrForbidden CallGrantNotExecutable)
  else
  srv ← unwrap (errorf ErrOther) (GetServer (g_ServerID g));
  let desc := DescriptorFromRow dr srv in
  match Method desc (cr_Method req) with
  | None => tx_fail (errorc ErrForbidden CallSchemaDrift)
  | Some tool =>
      _ ← lift (CheckArguments (default "" (d_InputSchemas desc !! cr_Method req)) (cr_Arguments req));
      match routeOf g with
      | None => tx_fail (errorc ErrForbidden CallRouteUnqualified)
      | Some route =>
          restricted ← HasUnknownToolRequest (g_TenantID g) (g_ServerID g);
          if restricted : bool then tx_fail (errorc ErrForbidden CallRecoveryRestricted)
          else InsertToolRequest
            (mkInsertToolRequestParams callID (g_TenantID g) (g_GrantID g) (i64 (g_Revision g)) (g_ServerID g)
               (i64 (g_DescriptorRevision g)) (cr_Method req) (cr_ArgumentRef req) (cr_ArgumentDigest req)
               (Some (cr_OperationID req)) (Some (cr_AttemptID req)) (cmd_CommandID cmd) (cmd_RequestDigest cmd)
               (Some (Truncate (cr_Deadline req) Microsecond)) (cr_InstanceID req) (i64 (cr_ExecutionEpoch req))
               (cr_Arguments req) (g_DescriptorDigest g) (g_ProtocolVersion g) (g_Transport g) route
               (tl_SideEffecting tool) (Currency (tl_UnitPrice tool)) (Amount (tl_UnitPrice tool)))
      end
  end.

(** Control's commercial authorization of the execution, when the grant is
    the tenant's. *)
Definition commercial (scope : Scope) (req : CallRequest) : proc (res unit) :=
  gr ← db (GetGrant (cr_GrantID req));
  match gr with
  | Err e => Ret (Err e)
  | Ok None => Ret (Ok tt)
  | Ok (Some gr) =>
      if negb (String.eqb (gw_TenantID gr) (sc_TenantID scope)) then Ret (Ok tt)
      else
        decision ←? ask (CheckExecution scope "mcp-tool" (gw_ServerID gr +:+ "/" +:+ cr_Method req) "execute");
        Ret (if ed_Allowed decision then Ok tt else Err (errorc ErrForbidden CallAuthorizationDenied))
  end.

Definition track (callID : string) : proc unit :=
  ask (Memory self (fun m => (tt, m <| m_live := {[callID]} ∪ m_live m |>))).
Definition untrack (callID : string) : proc unit :=
  ask (Memory self (fun m => (tt, m <| m_live := m_live m ∖ {[callID]} |>))).

(** The goroutine of a call. *)
Definition dispatch (callID : string) : proc unit := _ ← advance callID; untrack callID.

(** [Create] calls itself when a concurrent identical command won the insert;
    [None]: the fuel ran out. *)
Fixpoint Create (fuel : nat) (cmd : Command) (scope : Scope) (req : CallRequest) : proc (option (res (Call * bool))) :=
  match fuel with
  | O => Ret None
  | S fuel =>
      match checkCommand cmd scope with
      | Err e => Ret (Some (Err e))
      | Ok _ =>
      closing ← ask (Memory self (fun m => (m_closing m, m)));
      if closing : bool then Ret (Some (Fail ErrShuttingDown))
      else
      prev ← db (GetToolRequestByCommand (cmd_TenantID cmd) (cmd_CommandID cmd));
      match prev with
      | Err e => Ret (Some (Err e))
      | Ok (Some prev) =>
          Ret (Some (if negb (String.eqb (tr_RequestDigest prev) (cmd_RequestDigest cmd)) then Fail ErrCommandConflict
                     else Ok (CallFromRow prev, true)))
      | Ok None =>
          now ← ask Now;
          match CheckCallRequest req now with
          | Err e => Ret (Some (Err e))
          | Ok _ =>
          let callID := idOf "call-" [cmd_TenantID cmd; cmd_CommandID cmd] in
          authorized ← commercial scope req;
          match authorized with
          | Err e => Ret (Some (Err e))
          | Ok _ =>
          recorded ← db (record_call cmd scope req callID now);
          match recorded with
          | Err e => if errors_Is e ErrDuplicateKey then Create fuel cmd scope req else Ret (Some (Err e))
          | Ok _ =>
              _ ← track callID;
              _ ← go (dispatch callID);
              call ← load callID;
              Ret (Some (match call with Ok c => Ok (c, false) | Err e => Err e end))
          end
          end
          end
      end
      end
  end.

(** ** Shutdown *)

Definition abandon (callID : string) : proc Z :=
  n ← db (SetToolRequestOutcome
            (mkSetToolRequestOutcomeParams callID CallUnknown (Some CallOutcomeUnknown) None None None None None [CallSent]));
  match n with
  | Ok 1 => _ ← observe_again callID; Ret 1
  | _ => Ret 0
  end.
Fixpoint abandon_all (ids : list string) : proc Z :=
  match ids with
  | [] => Ret 0
  | id :: r => n ← abandon id; m ← abandon_all r; Ret (n + m)
  end.
Definition Shutdown : proc Z :=
  _ ← ask (Memory self (fun m => (tt, m <| m_closing := true |>)));
  drained ← ask Drained;
  if drained : bool then Ret 0
  else
    remaining ← ask (Memory self (fun m => (slices_Sort (elements (m_live m)), m)));
    abandon_all remaining.

(** ** Reconciliation *)

Definition sentAge : Duration := Z.min (op_SendTimeout opts + 5 * Second) (op_ReconcileAge opts).

(** Whether an operator-pending call is asked about in this pass; schedules
    the next time. *)
Definition dueForResolve (callID : string) : proc bool :=
  if op_ResolveInterval opts <=? 0 then Ret true
  else
    now ← ask Now;
    ask (Memory self (fun m =>
      match m_nextResolve m !! callID with
      | Some next => if Before now next then (false, m)
                     else (true, m <| m_nextResolve := <[callID := TAdd now (op_ResolveInterval opts)]> (m_nextResolve m) |>)
      | None => (true, m <| m_nextResolve := <[callID := TAdd now (op_ResolveInterval opts)]> (m_nextResolve m) |>)
      end)).

(** What Control's record of the original dispatch settles an UNKNOWN call as. *)
Definition resolution (v : DispatchView) : option (CallState * string) :=
  if String.eqb (dv_State v) "confirmed_not_sent" then Some (CallFailed, "CONFIRMED_NOT_SENT")
  else if String.eqb (dv_State v) "observed" then
    if String.eqb (dv_Outcome v) OutcomeSucceeded then Some (CallSucceeded, "")
    else Some (CallFailed, "RESOLVED_" +:+ dv_Outcome v)
  else None.

Definition resolve (call : Call) : proc unit :=
  v ← ask (GetTool (c_TenantID call) (c_DispatchID call));
  match v with
  | Err _ => Ret tt
  | Ok v =>
      match resolution v with
      | None => Ret tt
      | Some (state, code) =>
          _ ← db (SetToolRequestOutcome
                    (mkSetToolRequestOutcomeParams (c_CallID call) state (optStr code) None None None None None [CallUnknown]));
          Ret tt
      end
  end.

Definition reconcileOne (call : Call) : proc unit :=
  match c_State call with
  | CallAccepted => admitCall call
  | CallAdmitted => cancel call CallNotSent
  | CallSent =>
      n ← db (SetAbandonedToolRequestUnknown (c_CallID call) (Some CallOutcomeUnknown) sentAge);
      match n with
      | Ok 1 => observe_again (c_CallID call)
      | _ => Ret tt
      end
  | CallUnknown =>
      if bool_decide (c_ObservedAt call = None) then observe call
      else due ← dueForResolve (c_CallID call); if due : bool then resolve call else Ret tt
  | _ => observe call
  end.

Fixpoint reconcile_rows (rows : list ToolRequest) : proc unit :=
  match rows with
  | [] => Ret tt
  | r :: rest => _ ← reconcileOne (CallFromRow r); reconcile_rows rest
  end.

(** The pages of a pass from a cursor: the rows walked and the ids seen, or
    the error; [None]: the fuel ran out. *)
Fixpoint reconcile_pages (fuel : nat) (after : ListOpenToolRequestsParams) (seen : gset string) (total : Z)
    : proc (option (res (Z * gset string))) :=
  match fuel with
  | O => Ret None
  | S fuel =>
      stopped ← ask CtxErr;
      if stopped : bool then Ret (Some (Fail ErrOther))
      else
      rows ← db (ListOpenToolRequests after);
      match rows with
      | Err e => Ret (Some (Err e))
      | Ok rows =>
          match last rows with
          | None => Ret (Some (Ok (total, seen)))
          | Some final =>
              _ ← reconcile_rows rows;
              let total := total + Z.of_nat (List.length rows) in
              let seen := list_to_set (map tr_CallID rows) ∪ seen in
              if Z.of_nat (List.length rows) <? lo_Limit after then Ret (Some (Ok (total, seen)))
              else reconcile_pages fuel (mkListOpenToolRequestsParams (lo_Limit after) (lo_AgeSeconds after)
                                           (lo_SentAgeSeconds after) (tr_UpdatedAt final) (tr_CallID final)) seen total
          end
      end
  end.

Definition batch : Z := if op_ReconcileBatch opts <=? 0 then 50 else op_ReconcileBatch opts.
Definition Reconcile (fuel : nat) : proc (option (res Z)) :=
  pages ← reconcile_pages fuel (mkListOpenToolRequestsParams batch (op_ReconcileAge opts) sentAge (Some (us zero_time)) "") ∅ 0;
  match pages with
  | None => Ret None
  | Some (Err e) => Ret (Some (Err e))
  | Some (Ok (total, seen)) =>
      _ ← ask (Memory self (fun m => (tt, m <| m_nextResolve := filter (fun p => p.1 ∈ seen) (m_nextResolve m) |>)));
      Ret (Some (Ok total))
  end.

(** ** The operator's reconciliation *)

Definition ReconcileCall (callID : string) : proc (res Call) :=
  call ←? load callID;
  _ ← match c_State call with
      | CallUnknown =>
          _ ← (if bool_decide (c_ObservedAt call = None) then observe call else Ret tt);
          resolve call
      | CallSent => reconcileOne call
      | CallSucceeded | CallFailed | CallCanceled =>
          if bool_decide (c_ObservedAt call = None) && negb (String.eqb (c_DispatchID call) "") then observe call else Ret tt
      | _ => Ret tt
      end;
  load callID.

Definition ReconcileCallAs (scope : Scope) (callID : string) : proc (res Call) :=
  match Require_ authz (sc_TenantID scope) (sc_ActorID scope) ActCallReconcile with
  | Err e => Ret (Err e)
  | Ok _ =>
      call ←? load callID;
      if negb (String.eqb (c_TenantID call) (sc_TenantID scope)) then Ret (Fail ErrNotFound) else ReconcileCall callID
  end.
End Calls.
