(* ===== verification/Control.v ===== *)
(** * Control: the client of Control ([internal/adapters/control/grants.go], [dispatch.go])

    The requests the client builds and what it makes of the answers.  An
    enumerator of the generated protocol is its name, as [String] gives it; a
    timestamp is its instant; a message that is absent is [None]. *)

From S2P Require Import Prelude Errors GoStrings GoTrim GoCrypto GoJson GoNum GoUrl Task TaskLife Catalog Grant Call Event App WireSpec Rows Sql Prog Ports Calls.
From Stdlib Require Import Ascii.

(** An answer of a call: its message, or the status code of its error, by its
    number in [google.golang.org/grpc/codes]. *)
Abbreviation reply A := (Z + A)%type.

(** ** Requests *)

Record CommandIdentity := mkCommandIdentity { ci_TenantId : string; ci_CommandId : string; ci_ActorId : string; ci_RequestDigest : string }.
Definition command (c : ControlCommand) : CommandIdentity :=
  mkCommandIdentity (ctl_TenantID c) (ctl_CommandID c) (ctl_ActorID c) (ctl_RequestDigest c).
(** [strconv.FormatUint], [strconv.FormatInt] *)
Definition money (m : Money) : string * string := (Currency m, format_int (Amount m)).

Record RegisterPolicyRequest := mkRegisterPolicyRequest {
  rp_Command : CommandIdentity; rp_GrantId : string; rp_GrantRevision : string; rp_PolicyDigest : string;
  rp_ServerId : string; rp_Methods : list string; rp_CostCap : string * string; rp_ExpiresAt : option Time }.
Definition register_request (cmd : ControlCommand) (g : Grant) : RegisterPolicyRequest :=
  mkRegisterPolicyRequest (command cmd) (g_GrantID g) (format_int (g_Revision g)) (g_PolicyDigest g) (g_ServerID g) (g_Methods g)
    (money (g_CostCap g)) (g_ExpiresAt g).
Record AdmitToolRequest := mkAdmitToolRequest {
  at_Command : CommandIdentity; at_OperationId : string; at_AttemptId : string; at_InstanceId : string; at_ExecutionEpoch : string;
  at_CallId : string; at_Owner : string; at_GrantId : string; at_GrantRevision : string; at_ServerId : string; at_Method : string;
  at_ArgumentDigest : string; at_SideEffecting : bool; at_MaxExposure : string * string; at_Deadline : Time }.
Definition Owner : string := "anvilkit-agent-mcp".
Definition admit_request (r : ToolAdmit) : AdmitToolRequest :=
  mkAdmitToolRequest (command (ta_Command r)) (ta_OperationID r) (ta_AttemptID r) (ta_InstanceID r) (format_int (ta_ExecutionEpoch r))
    (ta_CallID r) Owner (ta_GrantID r) (format_int (ta_GrantRevision r)) (ta_ServerID r) (ta_Method r) (ta_ArgumentDigest r)
    (ta_SideEffecting r) (money (ta_MaxExposure r)) (ta_Deadline r).
Definition outcomes : list (string * string) :=
  [(OutcomeSucceeded, "DISPATCH_OUTCOME_SUCCEEDED"); (OutcomeFailed, "DISPATCH_OUTCOME_FAILED");
   (OutcomeCanceled, "DISPATCH_OUTCOME_CANCELED"); (OutcomeUnknown, "DISPATCH_OUTCOME_UNKNOWN")].
(** A key that is not in the map gives the zero enumerator. *)
Definition outcome_enum (outcome : string) : string :=
  match List.find (fun kv => String.eqb kv.1 outcome) outcomes with Some (_, e) => e | None => "DISPATCH_OUTCOME_UNSPECIFIED" end.
Record ObserveDispatchRequest := mkObserveDispatchRequest {
  od_DispatchId : string; od_Source : string; od_Sequence : string; od_Outcome : string; od_ObservedAt : Time;
  od_CumulativeUsage : option (string * string * string * string) }.
Definition observe_request (dispatchID : string) (sequence : Z) (outcome : string) (units : option Z) (at_ : Time) : ObserveDispatchRequest :=
  mkObserveDispatchRequest dispatchID Owner (format_int sequence) (outcome_enum outcome) at_
    (option_map (fun u => (format_int u, "0", "0", "0")) units).

(** ** Answers *)

(** [PermissionDenied], [Aborted], [InvalidArgument], [NotFound],
    [FailedPrecondition], [AlreadyExists] *)
Definition refusals : list Z := [7; 10; 3; 5; 9; 6].
Definition classify (c : Z) : error := if bool_decide (c ∈ refusals) then errorf ErrRefused else errorf ErrOther.

Record RegisterPolicyResponse := mkRegisterPolicyResponse { rr_ReceiptId : string; rr_PolicyEpoch : string }.
Definition Register_answer (r : reply RegisterPolicyResponse) : res (string * Z) :=
  match r with
  | inl code => Err (classify code)
  | inr resp =>
      match ParseUint (rr_PolicyEpoch resp) with
      | Some epoch => if String.eqb (rr_ReceiptId resp) "" then Fail ErrOther else Ok (rr_ReceiptId resp, epoch)
      | None => Fail ErrOther
      end
  end.
Record RevocationStatus := mkRevocationStatus {
  rs_State : string; rs_InFlightCalls : string; rs_UnknownCalls : string; rs_FencedAt : option Time }.
(** The zero message of an absent status. *)
Definition no_status : RevocationStatus := mkRevocationStatus "REVOCATION_STATE_UNSPECIFIED" "" "" None.
Definition revocation_states : list (string * string) :=
  [("REVOCATION_STATE_FENCED", "fenced"); ("REVOCATION_STATE_CONVERGING", "converging"); ("REVOCATION_STATE_CONVERGED", "converged")].
Definition barrier (s : RevocationStatus) : res Barrier :=
  match List.find (fun kv => String.eqb kv.1 (rs_State s)) revocation_states with
  | None => Fail ErrOther
  | Some (_, state) =>
      match ParseUint (rs_InFlightCalls s), ParseUint (rs_UnknownCalls s) with
      | Some inFlight, Some unknown => Ok (mkBarrier state inFlight unknown (rs_FencedAt s))
      | _, _ => Fail ErrOther
      end
  end.
(** [BeginRevocation] and [Revocation] *)
Definition Revocation_answer (r : reply (option RevocationStatus)) : res Barrier :=
  match r with inl code => Err (classify code) | inr s => barrier (default no_status s) end.

Record Decision := mkDecision { dn_Decision : string; dn_Revision : string; dn_ReasonCode : string }.
Definition CheckExecution_answer (r : reply (option Decision)) : res ExecutionDecision :=
  match r with
  | inl _ => Fail ErrOther
  | inr None => Ok (mkExecutionDecision false "" "")
  | inr (Some d) => Ok (mkExecutionDecision (String.eqb (dn_Decision d) "DECISION_ALLOW") (dn_Revision d) (dn_ReasonCode d))
  end.
(** A dispatch as Control records it: the names of its state and outcome. *)
Record Dispatch := mkDispatch { dp_DispatchId : string; dp_State : string; dp_Outcome : string }.
Definition no_dispatch : Dispatch := mkDispatch "" "DISPATCH_STATE_UNSPECIFIED" "DISPATCH_OUTCOME_UNSPECIFIED".
Definition Outcome_answer (r : reply (option Dispatch)) : DispatchOutcome * bool :=
  match r with
  | inl _ => (DispatchUnknown, false)
  | inr d =>
      let state := dp_State (default no_dispatch d) in
      (if String.eqb state "DISPATCH_STATE_CONFIRMED_NOT_SENT" || String.eqb state "DISPATCH_STATE_DENIED" then DispatchNotSent
       else if String.eqb state "DISPATCH_STATE_OBSERVED" then DispatchSent else DispatchUnknown, true)
  end.
Definition stateName (s : string) : string := ToLower (TrimPrefix s "DISPATCH_STATE_").
Record Admission := mkAdmission { am_Dispatch : option Dispatch; am_DispatchAllowed : bool; am_DenialCode : string }.
Definition AdmitTool_answer (r : reply (option Admission)) : res ToolAdmission :=
  match r with
  | inl _ => Fail ErrOther
  | inr a =>
      let a := default (mkAdmission None false "") a in
      let d := default no_dispatch (am_Dispatch a) in
      Ok (mkToolAdmission (dp_DispatchId d) (am_DispatchAllowed a) (am_DenialCode a) (stateName (dp_State d)))
  end.
Definition GetTool_answer (r : reply (option Dispatch)) : res DispatchView :=
  match r with
  | inl _ => Fail ErrOther
  | inr d =>
      let d := default no_dispatch d in
      Ok (mkDispatchView (stateName (dp_State d))
            (if String.eqb (dp_Outcome d) "DISPATCH_OUTCOME_UNSPECIFIED" then "" else ToLower (TrimPrefix (dp_Outcome d) "DISPATCH_OUTCOME_")))
  end.

(** ** What the answers decide *)

(** Enumerators of the protocol are written in upper case behind the name of
    their type, and unknown ones as their number. *)
Definition not_lower (c : ascii) : bool := negb ((97 <=? Z_of_byte c) && (Z_of_byte c <=? 122)).
Definition is_number (c : ascii) : bool := (48 <=? Z_of_byte c) && (Z_of_byte c <=? 57).
Definition enum_name (prefix s : string) : bool :=
  (HasPrefix s prefix && all_bytes not_lower (drop_bytes (String.length prefix) s)) || (all_bytes is_number s && negb (String.eqb s "")).
(** Everything the contract calls a dispatch. *)
Definition well_named (d : Dispatch) : bool :=
  enum_name "DISPATCH_STATE_" (dp_State d) && enum_name "DISPATCH_OUTCOME_" (dp_Outcome d).

Lemma upper_lower c : not_lower c = true -> upper_byte (lower_byte c) = c.
Proof. by destruct c as [[] [] [] [] [] [] [] []]. Qed.
Lemma lower_inj s t : all_bytes not_lower s = true -> all_bytes not_lower t = true -> ToLower s = ToLower t -> s = t.
Proof.
  revert t. induction s as [|c s IH]; intros [|d t]; cbn [all_bytes ToLower]; try done.
  intros [Hc Hs]%andb_true_iff [Hd Ht]%andb_true_iff [= Hcd Hst]. f_equal; [|by apply IH].
  rewrite <- (upper_lower c), <- (upper_lower d) by done. by rewrite Hcd.
Qed.
Lemma number_lower s : all_bytes is_number s = true -> ToLower s = s /\ all_bytes not_lower s = true.
Proof.
  induction s as [|c s IH]; [done|]. cbn [all_bytes ToLower]. intros [Hc [-> ->]%IH]%andb_true_iff.
  destruct c as [[] [] [] [] [] [] [] []]; vm_compute in Hc; done.
Qed.
Lemma HasPrefix_split p s : HasPrefix s p = true -> s = p +:+ drop_bytes (String.length p) s.
Proof.
  unfold HasPrefix. revert s. induction p as [|c p IH]; intros s; [by rewrite drop_bytes_0|]. destruct s as [|d s]; [done|].
  cbn [String.prefix]. destruct (ascii_dec c d) as [->|]; [|done]. intros H. rewrite append_cons. f_equal. by apply IH.
Qed.
Lemma all_bytes_append P s t : all_bytes P (s +:+ t) = all_bytes P s && all_bytes P t.
Proof. induction s as [|c s IH]; [done|]. rewrite append_cons. cbn. by rewrite IH, andb_assoc. Qed.
Lemma TrimPrefix_app p t : TrimPrefix (p +:+ t) p = t.
Proof. unfold TrimPrefix, HasPrefix. by rewrite prefix_app, drop_bytes_app. Qed.

(** The short name of an enumerator tells it apart from any other. *)
Lemma short_name prefix s t : all_bytes is_number prefix = false -> enum_name prefix s = true ->
  all_bytes not_lower t = true -> all_bytes is_number t = false ->
  (ToLower (TrimPrefix s prefix) = ToLower t <-> s = prefix +:+ t).
Proof.
  intros Hpre Hs Ht Hn. split; [|intros ->; by rewrite TrimPrefix_app]. intros H. unfold enum_name in Hs.
  apply orb_true_iff in Hs as [Hs|Hs]; apply andb_true_iff in Hs as [Hp Hs].
  - unfold TrimPrefix in H. rewrite Hp in H. apply lower_inj in H; [|done..]. rewrite <- H. by apply HasPrefix_split.
  - exfalso. destruct (HasPrefix s prefix) eqn:Eh.
    + apply HasPrefix_split in Eh. rewrite Eh, all_bytes_append, Hpre in Hp. done.
    + unfold TrimPrefix in H. rewrite Eh in H. destruct (number_lower s Hp) as [_ Hl]. apply lower_inj in H; [|done..]. congruence.
Qed.
Lemma state_is s t : enum_name "DISPATCH_STATE_" s = true -> all_bytes not_lower t = true -> all_bytes is_number t = false ->
  String.eqb (stateName s) (ToLower t) = String.eqb s ("DISPATCH_STATE_" +:+ t).
Proof.
  intros Hs Ht Hn. apply eq_true_iff_eq. rewrite !String.eqb_eq. unfold stateName. by apply short_name.
Qed.

(** The view of a dispatch that is read back. *)
Definition read_back (d : Dispatch) : option (CallState * string) :=
  match GetTool_answer (inr (Some d)) with Ok v => resolution v | Err _ => None end.
Lemma read_back_spec d : well_named d = true ->
  read_back d =
  if String.eqb (dp_State d) "DISPATCH_STATE_CONFIRMED_NOT_SENT" then Some (CallFailed, "CONFIRMED_NOT_SENT")
  else if String.eqb (dp_State d) "DISPATCH_STATE_OBSERVED" then
    if String.eqb (dp_Outcome d) "DISPATCH_OUTCOME_SUCCEEDED" then Some (CallSucceeded, "")
    else Some (CallFailed, "RESOLVED_" +:+ (if String.eqb (dp_Outcome d) "DISPATCH_OUTCOME_UNSPECIFIED" then ""
                                             else ToLower (TrimPrefix (dp_Outcome d) "DISPATCH_OUTCOME_")))
  else None.
Proof.
  intros [Hs Ho]%andb_true_iff. unfold read_back, GetTool_answer, resolution. cbn [default from_option id dv_State dv_Outcome].
  change "confirmed_not_sent" with (ToLower "CONFIRMED_NOT_SENT"). change "observed" with (ToLower "OBSERVED").
  rewrite !state_is by done.
  change ("DISPATCH_STATE_" +:+ "CONFIRMED_NOT_SENT") with "DISPATCH_STATE_CONFIRMED_NOT_SENT".
  change ("DISPATCH_STATE_" +:+ "OBSERVED") with "DISPATCH_STATE_OBSERVED".
  destruct (String.eqb (dp_State d) _); [done|].
  destruct (String.eqb (dp_State d) _); [|done].
  set (o := if String.eqb (dp_Outcome d) _ then _ else _).
  assert (String.eqb o OutcomeSucceeded = String.eqb (dp_Outcome d) "DISPATCH_OUTCOME_SUCCEEDED") as ->; [|done].
  unfold o. destruct (String.eqb_spec (dp_Outcome d) "DISPATCH_OUTCOME_UNSPECIFIED") as [->|_]; [done|].
  apply eq_true_iff_eq. rewrite !String.eqb_eq. by apply (short_name "DISPATCH_OUTCOME_" _ "SUCCEEDED").
Qed.

Definition observed_outcomes : list string := [OutcomeSucceeded; OutcomeFailed; OutcomeCanceled; OutcomeUnknown].

(** C39. Control's record decides, and nothing else. A task's dispatch counts as
    not sent exactly when Control answered CONFIRMED_NOT_SENT or DENIED, as sent
    exactly when it answered OBSERVED; an UNKNOWN call is settled succeeded
    exactly on an observed success and not otherwise settled unless Control
    recorded it observed or confirmed it not sent; a barrier is converged
    exactly when Control answered CONVERGED with readable counters; a
    registration counts only with a receipt and an epoch of 64 bits, and as
    refused exactly on the codes Control decides with; and an outcome reported
    to Control is read back as the outcome it was. *)
Theorem control_record_decides :
  (forall r, (Outcome_answer r).1 = DispatchNotSent <->
     exists d, r = inr (Some d) /\ (dp_State d = "DISPATCH_STATE_CONFIRMED_NOT_SENT" \/ dp_State d = "DISPATCH_STATE_DENIED")) /\
  (forall r, (Outcome_answer r).1 = DispatchSent <-> exists d, r = inr (Some d) /\ dp_State d = "DISPATCH_STATE_OBSERVED") /\
  (forall d, well_named d = true ->
     (read_back d = Some (CallSucceeded, "") <-> dp_State d = "DISPATCH_STATE_OBSERVED" /\ dp_Outcome d = "DISPATCH_OUTCOME_SUCCEEDED") /\
     (is_Some (read_back d) -> dp_State d = "DISPATCH_STATE_CONFIRMED_NOT_SENT" \/ dp_State d = "DISPATCH_STATE_OBSERVED")) /\
  (forall r b, Revocation_answer r = Ok b -> exists s, r = inr (Some s) /\
     (bar_State b = "converged" <-> rs_State s = "REVOCATION_STATE_CONVERGED") /\
     ParseUint (rs_InFlightCalls s) = Some (bar_InFlight b) /\ ParseUint (rs_UnknownCalls s) = Some (bar_Unknown b)) /\
  (forall r id epoch, Register_answer r = Ok (id, epoch) -> id <> "" /\ 0 <= epoch < 2 ^ 64) /\
  (forall r e, Register_answer r = Err e -> (errors_Is e ErrRefused = true <-> exists code, r = inl code /\ code ∈ refusals)) /\
  (forall o, o ∈ observed_outcomes -> exists e, outcome_enum o = e /\ e <> "DISPATCH_OUTCOME_UNSPECIFIED" /\
     forall id state, enum_name "DISPATCH_STATE_" state = true ->
       GetTool_answer (inr (Some (mkDispatch id state e))) = Ok (mkDispatchView (stateName state) o)).
Proof.
  split_and!.
  - intros [code|[d|]]; cbn.
    + split; [done|by intros (? & ? & _)].
    + destruct (String.eqb_spec (dp_State d) "DISPATCH_STATE_CONFIRMED_NOT_SENT"); cbn; [naive_solver|].
      destruct (String.eqb_spec (dp_State d) "DISPATCH_STATE_DENIED"); cbn; [naive_solver|]. destruct (String.eqb _ _); naive_solver.
    + split; [done|by intros (? & ? & _)].
  - intros [code|[d|]]; cbn.
    + split; [done|by intros (? & ? & _)].
    + destruct (String.eqb_spec (dp_State d) "DISPATCH_STATE_OBSERVED") as [E|]; [rewrite E; cbn; naive_solver|]. destruct (_ || _); naive_solver.
    + split; [done|by intros (? & ? & _)].
  - intros d Hd. rewrite read_back_spec by done.
    destruct (String.eqb_spec (dp_State d) "DISPATCH_STATE_CONFIRMED_NOT_SENT") as [E|]; [rewrite E; naive_solver|].
    destruct (String.eqb_spec (dp_State d) "DISPATCH_STATE_OBSERVED"); [|split; [naive_solver|by intros [? ?]]].
    destruct (String.eqb_spec (dp_Outcome d) "DISPATCH_OUTCOME_SUCCEEDED"); naive_solver.
  - intros [code|[s|]] b; [done| |done]. cbn [Revocation_answer default from_option id]. unfold barrier, revocation_states. cbn [List.find fst].
    intros H. exists s. split; [done|].
    destruct (String.eqb_spec "REVOCATION_STATE_FENCED" (rs_State s)) as [E|]; [|destruct (String.eqb_spec "REVOCATION_STATE_CONVERGING" (rs_State s)) as [E|];
      [|destruct (String.eqb_spec "REVOCATION_STATE_CONVERGED" (rs_State s)) as [E|]; [|done]]].
    all: destruct (ParseUint (rs_InFlightCalls s)), (ParseUint (rs_UnknownCalls s)); try done; injection H as <-; cbn; rewrite <- E; done.
  - intros [code|resp] id epoch; [done|]. cbn. destruct (ParseUint _) as [e|] eqn:Ee; [|done]. destruct (String.eqb_spec (rr_ReceiptId resp) ""); [done|].
    intros [= <- <-]. split; [done|]. by apply ParseUint_range in Ee.
  - intros [code|resp] e; cbn.
    + intros [= <-]. unfold classify. destruct (bool_decide_reflect (code ∈ refusals)); cbn; split; try done; [by exists code|by intros (? & [= <-] & ?)].
    + destruct (ParseUint _); [destruct (String.eqb _ _)|]; intros [= <-]; cbn; (split; [done|by intros (? & ? & _)]).
  - intros o Ho. unfold observed_outcomes in Ho. rewrite !elem_of_cons, elem_of_nil in Ho. eexists. split; [reflexivity|].
    destruct Ho as [->|[->|[->|[->|[]]]]]; (split; [done|]); intros id state _; unfold GetTool_answer; reflexivity.
Qed.
