(* ===== verification/Grants.v ===== *)
(** * Grants: grant management and the barrier with Control ([internal/application/grants.go])

    The use cases of [Grants] as processes, and their transactions.  Logging
    and counters are left out; the milestones of a revocation are computed
    (their statement is part of the transaction) and dropped, and are
    durations here instead of seconds. *)

From S2P Require Import Prelude Errors GoStrings GoCrypto GoJson GoNum GoBase64 GoUrl Task TaskLife Catalog Grant Call Event App Rows Sql SqlCalls SqlCatalog Prog Ports.

(** ** Transactions *)

Definition lock (grantID : string) : tx Grant :=
  r ← unwrap (errorf ErrNotFound) (GetGrantForUpdate grantID);
  mret (GrantFromRow r).

Definition update (next : Grant) (read : GrantState) : tx unit :=
  n ← UpdateGrantBarrier (BarrierParams next read);
  if negb (n =? 1) then TxFail ErrStaleExecution else mret tt.

Definition decide_ (gr : Grant) (decision decider reason commandID requestDigest : string) : tx unit :=
  InsertGrantDecision (mkInsertGrantDecisionParams (idOf "gd-" [g_GrantID gr; decision; commandID]) (g_GrantID gr)
    (i64 (g_Revision gr)) (i64 (g_Revision gr)) decision decider (optStr reason) commandID requestDigest (g_TenantID gr)).

Definition nextEventRevision (aggregateType aggregateID : string) : tx Z :=
  rev ← NextEventRevision aggregateType aggregateID;
  mret (u64 rev).

(** The parameters of a new grant's row. *)
Definition grant_params (gr : Grant) (cmd : Command) : InsertGrantParams :=
  mkInsertGrantParams (g_GrantID gr) (i64 (g_Revision gr)) (g_TenantID gr) (g_SubjectType gr) (g_SubjectID gr)
    (g_ServerID gr) (i64 (g_DescriptorRevision gr)) (g_DescriptorDigest gr) (g_Methods gr) (g_Purpose gr)
    (Currency (g_CostCap gr)) (Amount (g_CostCap gr)) (g_State gr) (g_ExpiresAt gr) (cmd_CommandID cmd)
    (cmd_RequestDigest cmd) (g_CanonicalResource gr) (g_Transport gr) (g_ProtocolVersion gr) (g_Issuer gr)
    (g_Audience gr) (g_ResourceSelectors gr) (g_PromptSelectors gr) (g_DataClass gr) (g_PolicyDigest gr)
    (g_RegistrationCmdID gr).

(** The identities [Create] gives a new grant. *)
Definition identified (gr : Grant) (cmd : Command) : Grant :=
  let gr := gr <| g_GrantID := idOf "grt-" [cmd_TenantID cmd; cmd_CommandID cmd] |> in
  let gr := gr <| g_PolicyDigest := ComputePolicyDigest gr |> in
  let gr := gr <| g_RegistrationCmdID := "register:" +:+ g_GrantID gr +:+ ":r" +:+ format_int (g_Revision gr) |> in
  gr <| g_CommandID := cmd_CommandID cmd |> <| g_RequestDigest := cmd_RequestDigest cmd |>.

(** [Create]'s transaction. *)
Definition create_tx (cmd : Command) (scope : Scope) (req : GrantRequest) (now : Time) : tx Grant :=
  s ← unwrap (errorf ErrNotFound) (GetServer (gr_ServerID req));
  if negb (String.eqb (sv_TenantID s) (sc_TenantID scope)) then TxFail ErrNotFound
  else
  row ← unwrap (errorf ErrNotFound) (GetDescriptorForUpdate (gr_ServerID req) (i64 (gr_DescriptorRev req)));
  gr ← lift (NewGrant (sc_TenantID scope) (sc_ProjectID scope) req (DescriptorFromRow row s) now);
  let gr := identified gr cmd in
  _ ← InsertGrant (grant_params gr cmd);
  _ ← decide_ gr "create" (sc_ActorID scope) "" (cmd_CommandID cmd) (cmd_RequestDigest cmd);
  mret gr.

(** The transaction of [register] after Control answered. *)
Definition register_tx (grantID : string) (answer : res (string * Z)) : tx Grant :=
  cur ← lock grantID;
  if negb (bool_decide (g_State cur = GrantPending)) then mret cur
  else
    next ← match answer with
           | Ok (receipt, epoch) =>
               let next := cur <| g_State := GrantActive |> <| g_ControlReceiptID := receipt |>
                               <| g_PolicyEpoch := epoch |> <| g_FailureCode := "" |> in
               _ ← decide_ next "activate" OwnerIdentity "" (g_RegistrationCmdID cur) (g_PolicyDigest cur);
               mret next
           | Err e =>
               if errors_Is e ErrRefused then
                 let next := cur <| g_State := GrantRegistrationFailed |> <| g_FailureCode := "REGISTRATION_REFUSED" |> in
                 _ ← decide_ next "registration_failed" OwnerIdentity "REGISTRATION_REFUSED" (g_RegistrationCmdID cur)
                       (g_PolicyDigest cur);
                 mret next
               else mret (cur <| g_FailureCode := "REGISTRATION_UNCERTAIN" |>)
           end;
    _ ← update next (g_State cur);
    mret next.

Definition revokeLocked (cur : Grant) (commandID requestDigest decider reason : string) (stamps : string -> Time * string)
    : tx unit :=
  let next := cur <| g_State := GrantRevoking |>
                  <| g_RevocationCmdID := "revoke:" +:+ g_GrantID cur +:+ ":r" +:+ format_int (g_Revision cur) |>
                  <| g_FailureCode := if String.eqb reason "" then g_FailureCode cur else reason |> in
  _ ← update next (g_State cur);
  _ ← decide_ next "revoke" decider reason commandID requestDigest;
  rev ← nextEventRevision AggregateGrant (g_GrantID next);
  let '(now, eventID) := stamps (g_GrantID next) in
  Publish (GrantRevokedEvent eventID next rev commandID now).

(** The revocation of a grant inside the caller's transaction. *)
Definition revokeIn (grantID commandID requestLabel decider reason : string) (stamps : string -> Time * string) : tx unit :=
  cur ← lock grantID;
  if bool_decide (g_State cur = GrantRevoking) || bool_decide (g_State cur = GrantRevoked) then mret tt
  else revokeLocked cur (commandID +:+ ":" +:+ grantID) (DigestBytes (requestLabel +:+ nul +:+ grantID)) decider reason stamps.

(** [Revoke]'s transaction: whether the grant already was revoking. *)
Definition revoke_tx (cmd : Command) (scope : Scope) (grantID : string) (expectedRevision : Z) (reason : string)
    (stamps : string -> Time * string) : tx bool :=
  cur ← lock grantID;
  if negb (String.eqb (g_TenantID cur) (sc_TenantID scope)) then TxFail ErrNotFound
  else if negb (g_Revision cur =? expectedRevision) then TxFail ErrRevisionMismatch
  else if bool_decide (g_State cur = GrantRevoking) || bool_decide (g_State cur = GrantRevoked) then
    _ ← decide_ cur "revoke" (sc_ActorID scope) reason (cmd_CommandID cmd) (cmd_RequestDigest cmd);
    mret true
  else
    _ ← revokeLocked cur (cmd_CommandID cmd) (cmd_RequestDigest cmd) (sc_ActorID scope) reason stamps;
    mret false.

(** The milestones the commit of [next] reaches. *)
Definition revocationMilestones (cur next : Grant) : tx (list (string * Duration)) :=
  let fenced := String.eqb (g_ControlState cur) "none" in
  let converged := bool_decide (g_State next = GrantRevoked) in
  if negb fenced && negb converged then mret []
  else
    r ← GetRevocationRequest (g_GrantID cur) (i64 (g_Revision cur));
    match r.1 with
    | None => mret []
    | Some requested =>
        let since (at_ : Time) := Z.max (at_ - requested) 0 in
        mret ((if fenced then [("fenced", since (match g_FencedAt next with Some t => t | None => ts r.2 end))] else [])
           ++ (if converged then [("converged", since (ts r.2))] else []))
    end.

(** The grant with Control's barrier as read. *)
Definition with_barrier (cur : Grant) (b : Barrier) : Grant :=
  cur <| g_ControlState := bar_State b |> <| g_InFlightCalls := bar_InFlight b |>
      <| g_UnknownCalls := bar_Unknown b |>
      <| g_FencedAt := match bar_FencedAt b with Some t => Some t | None => g_FencedAt cur end |>.

(** The transaction of [advance] after Control's barrier and the open
    requests were read. *)
Definition barrier_tx (grantID : string) (b : Barrier) (open : Z) (stamps : string -> Time * string) : tx Grant :=
  cur ← lock grantID;
  if negb (bool_decide (g_State cur = GrantRevoking)) then mret cur
  else
    let next := with_barrier cur b in
    next ← (if String.eqb (bar_State b) "converged" && (open =? 0) then
              let '(now, eventID) := stamps grantID in
              let next := next <| g_State := GrantRevoked |> <| g_RevokedAt := Some now |> in
              _ ← decide_ next "converge" OwnerIdentity "" ("converge:" +:+ g_RevocationCmdID cur) (g_PolicyDigest cur);
              rev ← nextEventRevision AggregateGrant (g_GrantID next);
              _ ← Publish (GrantRevokedEvent eventID next rev (g_RevocationCmdID cur) now);
              mret next
            else mret next);
    _ ← update next (g_State cur);
    _ ← revocationMilestones cur next;
    mret next.

(** The transaction of [Reconcile] that expires one grant. *)
Definition expire_tx (grantID : string) (now : Time) : tx unit :=
  cur ← lock grantID;
  if negb (bool_decide (g_State cur = GrantActive))
     || match g_ExpiresAt cur with None => true | Some e => Before now e end
  then mret tt
  else
    let next := cur <| g_State := GrantExpired |> in
    _ ← decide_ next "expire" OwnerIdentity "EXPIRED" ("expire:" +:+ g_GrantID cur) (g_PolicyDigest cur);
    update next (g_State cur).

(** ** Use cases *)

Section Grants.
  Context `{Casbin} (authz : option Authorizer).

Definition load (grantID : string) : proc (res Grant) :=
  r ← db (GetGrant grantID);
  Ret (match found (errorf ErrNotFound) r with Ok row => Ok (GrantFromRow row) | Err e => Err e end).

Definition register (grantID : string) : proc (res Grant) :=
  gr ←? load grantID;
  if negb (bool_decide (g_State gr = GrantPending)) then Ret (Ok gr)
  else
    answer ← ask (Register (mkControlCommand (g_TenantID gr) (g_RegistrationCmdID gr) OwnerIdentity (g_PolicyDigest gr)) gr);
    out ←? db (register_tx grantID answer);
    Ret (match answer with
         | Err e => if errors_Is e ErrRefused then Ok out else Err e
         | Ok _ => Ok out
         end).

(** A repeated [Create]: its grant, registered when that is still open. *)
Definition replay (cmd : Command) : proc (res (option Grant)) :=
  r ← db (GetGrantByCommand (cmd_TenantID cmd) (cmd_CommandID cmd));
  match r with
  | Err e => Ret (Err e)
  | Ok None => Ret (Ok None)
  | Ok (Some r) =>
      if negb (String.eqb (gw_RequestDigest r) (cmd_RequestDigest cmd)) then Ret (Fail ErrCommandConflict)
      else
        let gr := GrantFromRow r in
        if bool_decide (g_State gr = GrantPending)
        then gr ←? register (g_GrantID gr); Ret (Ok (Some gr))
        else Ret (Ok (Some gr))
  end.

Definition Create (cmd : Command) (scope : Scope) (req : GrantRequest) : proc (res (Grant * bool)) :=
  match checkCommand cmd scope with
  | Err e => Ret (Err e)
  | Ok _ =>
  match Require_ authz (sc_TenantID scope) (sc_ActorID scope) ActGrantCreate with
  | Err e => Ret (Err e)
  | Ok _ =>
  prev ← replay cmd;
  match prev with
  | Err e => Ret (Err e)
  | Ok (Some gr) => Ret (Ok (gr, true))
  | Ok None =>
      now ← ask Now;
      created ← db (create_tx cmd scope req now);
      match created with
      | Err e =>
          if errors_Is e ErrDuplicateKey then
            again ← replay cmd;
            Ret (match again with Ok (Some gr) => Ok (gr, true) | _ => Err e end)
          else Ret (Err e)
      | Ok created =>
          gr ← register (g_GrantID created);
          match gr with
          | Ok gr => Ret (Ok (gr, false))
          | Err _ => gr ←? load (g_GrantID created); Ret (Ok (gr, false))
          end
      end
  end
  end
  end.

Definition advance (grantID : string) : proc (res Grant) :=
  gr ←? load grantID;
  match g_State gr with
  | GrantPending => register grantID
  | GrantRevoking =>
      b ←? (if String.eqb (g_ControlState gr) "none"
            then ask (BeginRevocation (mkControlCommand (g_TenantID gr) (g_RevocationCmdID gr) OwnerIdentity (g_PolicyDigest gr))
                        (g_GrantID gr) (g_Revision gr))
            else ask (Revocation (g_GrantID gr) (g_Revision gr)));
      b ← (if negb (String.eqb (bar_State b) "converged") && String.eqb (g_ControlState gr) "none"
           then again ← ask (Revocation (g_GrantID gr) (g_Revision gr));
                Ret (match again with Ok b' => b' | Err _ => b end)
           else Ret b);
      open ←? db (CountOpenToolRequests (g_GrantID gr) (i64 (g_Revision gr)));
      stamps ← ask Stamps;
      db (barrier_tx grantID b open stamps)
  | _ => Ret (Ok gr)
  end.

(** [advance], or the stored grant when the barrier is not confirmed. *)
Definition advance_or_load (grantID : string) : proc (res Grant) :=
  gr ← advance grantID;
  match gr with Ok gr => Ret (Ok gr) | Err _ => load grantID end.

Definition Revoke (cmd : Command) (scope : Scope) (grantID : string) (expectedRevision : Z) (reason : string)
    : proc (res (Grant * bool)) :=
  match checkCommand cmd scope with
  | Err e => Ret (Err e)
  | Ok _ =>
  match Require_ authz (sc_TenantID scope) (sc_ActorID scope) ActGrantRevoke with
  | Err e => Ret (Err e)
  | Ok _ =>
  prev ← db (GetGrantDecisionByCommand (cmd_TenantID cmd) (cmd_CommandID cmd) "revoke");
  match prev with
  | Err e => Ret (Err e)
  | Ok (Some d) =>
      if negb (String.eqb (gd_GrantID d) grantID) || negb (String.eqb (gd_RequestDigest d) (cmd_RequestDigest cmd))
      then Ret (Fail ErrCommandConflict)
      else gr ←? advance_or_load grantID; Ret (Ok (gr, true))
  | Ok None =>
      stamps ← ask Stamps;
      existing ←? db (revoke_tx cmd scope grantID expectedRevision reason stamps);
      gr ←? advance_or_load grantID;
      Ret (Ok (gr, existing))
  end
  end
  end.

(** ** Reading *)

Record Progress_ := mkProgress {
  pg_Grant : Grant; pg_NewAdmissionBlocked : bool; pg_SendersConverged : bool; pg_OpenCalls : Z }.

Definition visible (scope : Scope) (gr : Grant) : bool :=
  if negb (String.eqb (g_TenantID gr) (sc_TenantID scope)) then false
  else if Allowed authz (sc_TenantID scope) (sc_ActorID scope) ActGrantReadAll then true
  else if String.eqb (g_SubjectType gr) "tenant" then true
  else if String.eqb (g_SubjectType gr) "project" then String.eqb (g_SubjectID gr) (sc_ProjectID scope)
  else if String.eqb (g_SubjectType gr) "actor" then String.eqb (g_SubjectID gr) (sc_ActorID scope)
  else false.

Definition Get (scope : Scope) (grantID : string) : proc (res Grant) :=
  gr ←? load grantID;
  Ret (if negb (visible scope gr) then Fail ErrNotFound else Ok gr).

Definition Progress (scope : Scope) (grantID : string) : proc (res Progress_) :=
  gr ←? Get scope grantID;
  open ←? db (CountOpenToolRequests (g_GrantID gr) (i64 (g_Revision gr)));
  now ← ask Now;
  Ret (Ok (mkProgress gr (negb (Executable gr now)) (String.eqb (g_ControlState gr) "converged" && (open =? 0)) (u64 open))).

(** The cursor a page starts after. *)
Definition page_after (cursor : string) : res string :=
  if String.eqb cursor "" then Ok ""
  else match DecodeString cursor with None => Fail ErrInvalid | Some raw => Ok raw end.
(** The grants of a page and the cursor of the next one. *)
Definition cut_page (limit : Z) (out : list Grant) : list Grant * string :=
  if limit <? Z.of_nat (List.length out) then
    let page := firstn (Z.to_nat limit) out in
    (page, EncodeToString (match last page with Some g => g_GrantID g | None => "" end))
  else (out, "").
Definition List_ (scope : Scope) (state cursor : string) (limit0 : Z) : proc (res (list Grant * string)) :=
  let limit := if limit0 <=? 0 then 50 else limit0 in
  match page_after cursor with
  | Err e => Ret (Err e)
  | Ok after =>
      rows ←? db (ListGrants (mkListGrantsParams (sc_TenantID scope) state
                    (Allowed authz (sc_TenantID scope) (sc_ActorID scope) ActGrantReadAll) (sc_ProjectID scope)
                    (sc_ActorID scope) after (i32 (limit + 1))));
      Ret (Ok (cut_page limit (map GrantFromRow rows)))
  end.

(** ** Reconciliation *)

(** Advance the listed barriers: how many moved. *)
Fixpoint advance_all (ids : list string) : proc Z :=
  match ids with
  | [] => Ret 0
  | id :: r =>
      before ← load id;
      after ← advance id;
      let moved := match after, before with
                   | Ok a, Ok b => if bool_decide (g_State a = g_State b) then 0 else 1
                   | Ok _, Err _ => 1
                   | Err _, _ => 0
                   end in
      n ← advance_all r; Ret (moved + n)
  end.
Fixpoint expire_all (ids : list string) : proc Z :=
  match ids with
  | [] => Ret 0
  | id :: r =>
      now ← ask Now;
      done ← db (expire_tx id now);
      n ← expire_all r; Ret ((match done with Ok _ => 1 | Err _ => 0 end) + n)
  end.

(** The grants moved, and the error that ended the pass. *)
Definition Reconcile (olderThan : Duration) (limit : Z) : proc (Z * option error) :=
  ids ← db (ListOpenBarriers olderThan (i32 limit));
  match ids with
  | Err e => Ret (0, Some e)
  | Ok ids =>
      moved ← advance_all ids;
      now ← ask Now;
      expired ← db (ListExpiredGrants now (i32 limit));
      match expired with
      | Err e => Ret (moved, Some e)
      | Ok expired => n ← expire_all expired; Ret (moved + n, None)
      end
  end.
End Grants.
