(* ===== verification/CatalogApp.v ===== *)
(** * CatalogApp: the private catalog ([internal/application/catalog.go])

    Discovery, review and disabling of descriptor revisions as processes, and
    their transactions.  Logging is left out, and so is the JSON encoding of
    the descriptor columns, which hold the values they encode. *)

From S2P Require Import Prelude Errors GoStrings GoCrypto GoJson GoNum GoBase64 GoUrl UrlText GoScan Task TaskLife Catalog Grant Call Event App Rows Sql SqlCalls SqlCatalog Prog Ports Network Grants.

(** ** Transactions *)

Definition publish (d : Descriptor) (correlation : string) (stamps : string -> Time * string) : tx unit :=
  rev ← nextEventRevision AggregateDescriptor (d_ServerID d);
  let '(now, eventID) := stamps (d_ServerID d) in
  Publish (CatalogReviewedEvent eventID d rev correlation now).

Definition lockOwn (scope : Scope) (serverID : string) (revision : Z) : tx Descriptor :=
  s ← unwrap (errorf ErrNotFound) (GetServer serverID);
  if negb (String.eqb (sv_TenantID s) (sc_TenantID scope)) then TxFail ErrNotFound
  else
    r ← unwrap (errorf ErrNotFound) (GetDescriptorForUpdate serverID (i64 revision));
    mret (DescriptorFromRow r s).

(** Revoke each grant of a list. *)
Fixpoint revoke_all (ids : list string) (commandID requestLabel decider reason : string) (stamps : string -> Time * string)
    : tx unit :=
  match ids with
  | [] => mret tt
  | id :: r =>
      _ ← revokeIn id commandID requestLabel decider reason stamps;
      revoke_all r commandID requestLabel decider reason stamps
  end.

(** Disable a locked revision and revoke its grants: the disabled revision. *)
Definition disableLocked (d : Descriptor) (actor tenantID commandID requestDigest reason : string)
    (stamps : string -> Time * string) : tx Descriptor :=
  let reviewID := idOf "rev-" [tenantID; commandID] in
  _ ← InsertReview (mkInsertReviewParams reviewID (d_ServerID d) (i64 (d_Revision d)) (d_Digest d) actor "disable"
        (optStr reason) commandID requestDigest tenantID);
  _ ← UpdateDescriptorState (d_ServerID d) (i64 (d_Revision d)) CatalogDisabled None None;
  let d := d <| d_State := CatalogDisabled |> in
  _ ← publish d commandID stamps;
  ids ← ListGrantsOfDescriptor (d_ServerID d) (i64 (d_Revision d));
  _ ← revoke_all ids ("disable:" +:+ commandID) "descriptor-disabled" actor "DESCRIPTOR_DISABLED" stamps;
  mret d.

Definition descriptor_params (desc : Descriptor) (cmd : Command) : InsertDescriptorParams :=
  mkInsertDescriptorParams (d_ServerID desc) (i64 (d_Revision desc)) (d_ProtocolVersion desc) (d_Provenance desc)
    (d_Digest desc) (d_Tools desc) (d_State desc) (cmd_CommandID cmd) (cmd_RequestDigest cmd) (d_ServerName desc)
    (d_ServerVersion desc) (d_Resources desc) (d_Prompts desc) (d_ResourcesDigest desc) (d_PromptsDigest desc)
    (d_DataClass desc) (d_NetworkScope desc) (d_Licenses desc) (d_Issuer desc) (d_RevisionEvidence desc)
    (d_ConnectionRef desc) (d_DiscoveredBy desc) (d_InputSchemas desc).

(** The server of a resource, recorded when it is new. *)
Definition own_server (scope : Scope) (resource transport : string) : tx Server :=
  s ← GetServerByResourceForUpdate (sc_TenantID scope) resource;
  match s with
  | Some s => mret s
  | None =>
      _ ← InsertServer (idOf "srv-" [sc_TenantID scope; resource]) (sc_TenantID scope) resource transport;
      unwrap (errorf ErrOther) (GetServerByResourceForUpdate (sc_TenantID scope) resource)
  end.

Definition discover_tx (cmd : Command) (scope : Scope) (decl : Declaration) (desc : Descriptor) : tx (Descriptor * bool) :=
  s ← own_server scope (dc_CanonicalResource decl) (dc_Transport decl);
  same ← GetDescriptorByDigest (sv_ServerID s) (d_Digest desc);
  out ← match same with
        | Some same => mret (DescriptorFromRow same s, true)
        | None =>
            let desc := desc <| d_ServerID := sv_ServerID s |> <| d_TenantID := sc_TenantID scope |>
                             <| d_Revision := u64 (u64 (sv_CurrentRevision s) + 1) |>
                             <| d_DiscoveredBy := sc_ActorID scope |> in
            _ ← InsertDescriptor (descriptor_params desc cmd);
            _ ← SetServerRevision (d_ServerID desc) (i64 (d_Revision desc));
            mret (desc, false)
        end;
  _ ← InsertCatalogCommand (cmd_TenantID cmd) (cmd_CommandID cmd) "discover" (cmd_RequestDigest cmd) (d_ServerID out.1)
        (i64 (d_Revision out.1));
  mret out.

Definition review_tx (cmd : Command) (scope : Scope) (serverID : string) (revision : Z) (digest : string)
    (decision : ReviewDecision) (reason : string) (stamps : string -> Time * string) : tx Descriptor :=
  d ← lockOwn scope serverID revision;
  next ← lift (CheckReview d (sc_ActorID scope) digest decision);
  let reviewID := idOf "rev-" [cmd_TenantID cmd; cmd_CommandID cmd] in
  _ ← InsertReview (mkInsertReviewParams reviewID serverID (i64 revision) (d_Digest d) (sc_ActorID scope) decision
        (optStr reason) (cmd_CommandID cmd) (cmd_RequestDigest cmd) (cmd_TenantID cmd));
  _ ← UpdateDescriptorState serverID (i64 revision) next (Some (sc_ActorID scope)) (Some reviewID);
  let d := d <| d_State := next |> <| d_Reviewer := sc_ActorID scope |> <| d_ReviewID := reviewID |> in
  _ ← publish d (cmd_CommandID cmd) stamps;
  _ ← InsertCatalogCommand (cmd_TenantID cmd) (cmd_CommandID cmd) "review" (cmd_RequestDigest cmd) serverID (i64 revision);
  mret d.

(** The revision, and whether it was disabled already. *)
Definition disable_tx (cmd : Command) (scope : Scope) (serverID : string) (revision : Z) (reason : string)
    (stamps : string -> Time * string) : tx (Descriptor * bool) :=
  d ← lockOwn scope serverID revision;
  out ← (if bool_decide (d_State d = CatalogDisabled) then mret (d, true)
         else d ← disableLocked d (sc_ActorID scope) (cmd_TenantID cmd) (cmd_CommandID cmd) (cmd_RequestDigest cmd) reason stamps;
              mret (d, false));
  _ ← InsertCatalogCommand (cmd_TenantID cmd) (cmd_CommandID cmd) "disable" (cmd_RequestDigest cmd) serverID (i64 revision);
  mret out.

(** ** Use cases *)

Section Catalog.
  (** The authorizer, the network policy, and whether an issuer source is
      bound. *)
  Context `{Casbin} (authz : option Authorizer) (policy : NetworkPolicy) (issuers : bool).

(** A revision ([0]: the current one). *)
Definition load (serverID : string) (revision : Z) : proc (res Descriptor) :=
  s ← db (GetServer serverID);
  match found (errorf ErrNotFound) s with
  | Err e => Ret (Err e)
  | Ok s =>
      let revision := if revision =? 0 then u64 (sv_CurrentRevision s) else revision in
      r ← db (GetDescriptor serverID (i64 revision));
      Ret (match found (errorf ErrNotFound) r with Ok r => Ok (DescriptorFromRow r s) | Err e => Err e end)
  end.

(** A command already recorded.  The descriptor pointer is not nil whenever a
    record was found, also when loading failed: the inner [None] is the zero
    descriptor such a pointer leads to. *)
Definition replayCommand (cmd : Command) (kind : string) : proc (option (option Descriptor) * option error) :=
  rec ← db (GetCatalogCommand (cmd_TenantID cmd) (cmd_CommandID cmd));
  match rec with
  | Err e => Ret (None, Some e)
  | Ok None => Ret (None, None)
  | Ok (Some rec) =>
      if negb (String.eqb (cc_CommandKind rec) kind) || negb (String.eqb (cc_RequestDigest rec) (cmd_RequestDigest cmd))
      then Ret (None, Some (errorf ErrCommandConflict))
      else
        d ← load (cc_ServerID rec) (u64 (cc_Revision rec));
        Ret (match d with Ok d => (Some (Some d), None) | Err e => (Some None, Some e) end)
  end.

Definition readLive (resource protocolVersion : string) : proc (res LiveServer) :=
  _ ←? CheckTarget policy resource;
  live ←? ask (DiscoverLive resource protocolVersion);
  if issuers then
    issuer ← ask (IssuerOf resource);
    Ret (match issuer with
         | Ok issuer => Ok (mkLiveServer (ls_Name live) (ls_Version live) (ls_ProtocolVersion live) (ls_Tools live)
                              (ls_Resources live) (ls_Prompts live) (ls_Evidence live) (ls_ConnectionRef live) issuer)
         | Err _ => Fail ErrForbidden
         end)
  else Ret (Ok live).

(** A management call: the command, the role, then a repeated command, which
    is answered by what its pointer leads to. *)
Definition managed (cmd : Command) (scope : Scope) (action kind : string)
    (go_on : proc (res (option Descriptor * bool))) : proc (res (option Descriptor * bool)) :=
  match checkCommand cmd scope with
  | Err e => Ret (Err e)
  | Ok _ =>
  match Require_ authz (sc_TenantID scope) (sc_ActorID scope) action with
  | Err e => Ret (Err e)
  | Ok _ =>
  prev ← replayCommand cmd kind;
  match prev with
  | (Some d, _) => Ret (Ok (d, true))
  | (None, Some e) => Ret (Err e)
  | (None, None) => go_on
  end
  end
  end.

Definition Discover (cmd : Command) (scope : Scope) (decl : Declaration) : proc (res (option Descriptor * bool)) :=
  managed cmd scope ActCatalogDiscover "discover"
    (if String.eqb (dc_DataClass decl) "" then Ret (Fail ErrInvalid)
     else if negb (String.eqb (dc_Transport decl) "streamable-http") then Ret (Fail ErrForbidden)
     else
       live ←? readLive (dc_CanonicalResource decl) (dc_ProtocolVersion decl);
       match BuildDescriptor decl live with
       | Err e => Ret (Err e)
       | Ok desc =>
           out ← db (discover_tx cmd scope decl desc);
           match out with
           | Ok (d, existing) => Ret (Ok (Some d, existing))
           | Err e =>
               if errors_Is e ErrDuplicateKey then
                 prev ← replayCommand cmd "discover";
                 Ret (match prev with (Some d, None) => Ok (d, true) | _ => Err e end)
               else Ret (Err e)
           end
       end).

Definition Review (cmd : Command) (scope : Scope) (serverID : string) (revision : Z) (digest : string)
    (decision : ReviewDecision) (reason : string) : proc (res (option Descriptor * bool)) :=
  managed cmd scope ActCatalogReview "review"
    (stamps ← ask Stamps;
     d ←? db (review_tx cmd scope serverID revision digest decision reason stamps);
     Ret (Ok (Some d, false))).

Definition Disable (cmd : Command) (scope : Scope) (serverID : string) (revision : Z) (reason : string)
    : proc (res (option Descriptor * bool)) :=
  managed cmd scope ActCatalogDisable "disable"
    (stamps ← ask Stamps;
     out ←? db (disable_tx cmd scope serverID revision reason stamps);
     Ret (Ok (Some out.1, out.2))).

Definition visible (scope : Scope) (d : Descriptor) : bool :=
  if negb (String.eqb (d_TenantID d) (sc_TenantID scope)) then false
  else match d_State d with
       | CatalogApproved | CatalogDisabled => true
       | _ => Allowed authz (sc_TenantID scope) (sc_ActorID scope) ActCatalogReadPending
       end.

Definition Get (scope : Scope) (serverID : string) (revision : Z) : proc (res Descriptor) :=
  d ←? load serverID revision;
  Ret (if negb (visible scope d) then Fail ErrNotFound else Ok d).

(** The key a page starts after. *)
Definition page_after (cursor : string) : res (string * Z) :=
  if String.eqb cursor "" then Ok ("", 0)
  else match DecodeString cursor with
       | None => Fail ErrInvalid
       | Some raw => match Sscanf_word_int raw with None => Fail ErrInvalid | Some k => Ok k end
       end.
Fixpoint with_servers (rows : list DescriptorRow) : proc (res (list Descriptor)) :=
  match rows with
  | [] => Ret (Ok [])
  | r :: rest =>
      s ← db (GetServer (dr_ServerID r));
      match found (errorf ErrOther) s with
      | Err e => Ret (Err e)
      | Ok s => out ←? with_servers rest; Ret (Ok (DescriptorFromRow r s :: out))
      end
  end.
(** The descriptors of a page and the cursor of the next one. *)
Definition cursor_of (d : Descriptor) : string := EncodeToString (d_ServerID d +:+ " " +:+ format_int (d_Revision d)).
Definition cut_page (limit : Z) (out : list Descriptor) : list Descriptor * string :=
  if limit <? Z.of_nat (List.length out) then
    let page := firstn (Z.to_nat limit) out in
    (page, match last page with Some d => cursor_of d | None => "" end)
  else (out, "").
Definition List_ (scope : Scope) (state cursor : string) (limit0 : Z) : proc (res (list Descriptor * string)) :=
  let limit := if limit0 <=? 0 then 50 else limit0 in
  match page_after cursor with
  | Err e => Ret (Err e)
  | Ok (server, revision) =>
      rows ←? db (ListDescriptors (mkListDescriptorsParams (sc_TenantID scope) state
                    (Allowed authz (sc_TenantID scope) (sc_ActorID scope) ActCatalogReadPending) server revision
                    (i32 (limit + 1))));
      out ←? with_servers rows;
      Ret (Ok (cut_page limit out))
  end.
End Catalog.
