(* ===== verification/Tasks.v ===== *)
(** * Tasks: the background-task commands ([internal/application/tasks.go])

    Each command is one transaction: the decision under the generation's row
    lock, the CAS update, the attempt record and the event.  The readings of
    the clock are arguments, in the order the command takes them; a command
    that fails leaves the database as it was ([InTx]). *)

From S2P Require Import Prelude Errors GoStrings GoCrypto GoJson GoNum Task TaskLife Catalog Grant Call Event Rows Sql.

(** ** Configuration and interfaces *)

(** The active configuration generation: the bounds, and its expiry. *)
Record Config := mkConfig { cfg_Bounds : Bounds; cfg_Expiry : option Time }.

Definition Ready (cfg : Config) (now : Time) : bool :=
  match cfg_Expiry cfg with None => true | Some e => IsZero e || Before now e end.
Definition admitConfiguration (cfg : Config) (now : Time) : res unit :=
  if Ready cfg now then Ok tt else Fail ErrStaleExecution.

(** [ResultBinding]: a profile whose expectation the owner records itself. *)
Record ResultBinding := mkResultBinding {
  Recorded : Task -> tx (option RecordedResult);
  Accepted : Task -> tx unit }.

(** What the task commands rely on: [Recorded] only reads, and [Accepted]
    leaves the requests and their attempts alone. *)
Class BindingLaws (b : ResultBinding) := {
  recorded_reads : forall t db r db', Recorded b t db = Ok (r, db') -> db' = db;
  accepted_frame : forall t db db', Accepted b t db = Ok (tt, db') ->
    db_requests db' = db_requests db /\ db_attempts db' = db_attempts db }.

Record RequestInput := mkRequestInput {
  in_TaskID : string; in_TenantID : string; in_Kind : string; in_Profile : string; in_Input : bytes;
  in_Effects : Effects; in_DispatchID : string; in_AuthorizationRef : string; in_CorrelationID : string }.

(** ** Commands *)

Definition apply (task : Task) (readRevision : Z) (now : Time) (attemptOutcome : string) : tx unit :=
  n ← UpdateRequest (UpdateParams task readRevision now);
  if negb (n =? 1) then TxFail ErrStaleExecution
  else if negb (String.eqb attemptOutcome "") && (0 <? t_AttemptCount task)
  then SetAttemptOutcome (t_TaskID task) (i64 (t_Generation task)) (i32 (t_AttemptCount task)) (Some attemptOutcome) now
  else mret tt.

Definition attemptOutcomeIfLeased (prev : Task) (outcome : string) : string :=
  if bool_decide (t_State prev = StateLeased) then outcome else "".

Section Commands.
  Context `{Jsonb} (bindings : string -> option ResultBinding) (cfg : Config).

(** The end of [Request]: the new generation and its event, under a current
    authorization and an admitted configuration. *)
Definition commitRequest (candidate : Task) (eventID : string) (now now1 now2 : Time) : tx (Task * bool) :=
  auth ← GrantAuthorization (t_AuthorizationRef candidate) (t_TenantID candidate) now1;
  if negb (bool_decide (auth = AuthorizationCurrent)) then TxFail ErrForbidden
  else
    _ ← lift (admitConfiguration cfg now2);
    _ ← InsertRequest (InsertParams candidate);
    _ ← Publish (RequestedEvent eventID candidate now);
    mret (candidate, false).

Definition Request (inp : RequestInput) (eventID : string) (now0 now now1 now2 : Time) : tx (Task * bool) :=
  _ ← lift (admitConfiguration cfg now0);
  if b_MaxInputBytes (cfg_Bounds cfg) <? len (in_Input inp) then TxFail ErrInputTooLarge
  else
    canonical ← unwrap (errorf ErrInvalid) (CanonicalJSON (in_Input inp));
    candidate ← lift (NewRequest (in_TaskID inp) (in_TenantID inp) (in_Kind inp) (in_Profile inp) canonical
                        (in_Effects inp) (in_DispatchID inp) (in_AuthorizationRef inp) (in_CorrelationID inp)
                        (cfg_Bounds cfg));
    latest ← GetLatestRequestForUpdate (in_TaskID inp);
    match latest with
    | None => commitRequest candidate eventID now now1 now2
    | Some row =>
        let prev := TaskFromRow row in
        if negb (String.eqb (t_TenantID prev) (in_TenantID inp)) then TxFail ErrForbidden
        else if String.eqb (t_InputDigest prev) (t_InputDigest candidate) then mret (prev, true)
        else
          let '(fenced, changed) := Supersede prev in
          _ ← (if changed then apply fenced (t_Revision prev) now (attemptOutcomeIfLeased prev AttemptStale) else mret tt);
          commitRequest (candidate <| t_Generation := u64 (t_Generation prev + 1) |>) eventID now now1 now2
    end.

Definition Claim (taskID : string) (generation : Z) (workerID : string) (lease : Duration) (now0 now1 now : Time)
    : tx (Task * bytes) :=
  _ ← lift (admitConfiguration cfg now0);
  row ← unwrap (errorf ErrNotFound) (GetRequestForUpdate taskID (i64 generation));
  attemptRows ← ListAttempts taskID (i64 generation);
  let previous := map AttemptFromRow attemptRows in
  let current := TaskFromRow row in
  _ ← lift (admitConfiguration cfg now1);
  d ← lift (DecideClaim current previous workerID lease now (cfg_Bounds cfg));
  _ ← (if cd_ExpiredPrevious d
       then SetAttemptOutcome taskID (i64 generation) (i32 (t_AttemptCount current)) (Some AttemptExpired) now
       else mret tt);
  _ ← apply (cd_Task d) (t_Revision current) now "";
  _ ← InsertAttempt taskID (i64 generation) (i32 (a_Ordinal (cd_Attempt d))) workerID now (a_LeaseUntil (cd_Attempt d));
  mret (cd_Task d, t_Input current).

(** [currentAttempt] on the rows. *)
Definition current_attempt_row (task : Task) (rows : list TaskAttempt) : Attempt :=
  currentAttempt task (map AttemptFromRow rows).

Definition Heartbeat (taskID : string) (generation : Z) (workerID : string) (now now' : Time) : tx Task :=
  row ← unwrap (errorf ErrNotFound) (GetRequestForUpdate taskID (i64 generation));
  attempts ← ListAttempts taskID (i64 generation);
  let current := TaskFromRow row in
  extended ← lift (DecideHeartbeat current (current_attempt_row current attempts) workerID now);
  _ ← apply extended (t_Revision current) now' "";
  mret extended.

Definition Submit (taskID : string) (generation : Z) (sub : Submission) (now0 now : Time) : tx SubmitDecision :=
  row ← unwrap (errorf ErrNotFound) (GetRequestForUpdate taskID (i64 generation));
  attempts ← ListAttempts taskID (i64 generation);
  let current := TaskFromRow row in
  auth ← GrantAuthorization (t_AuthorizationRef current) (t_TenantID current) now0;
  let binding := bindings (t_ResultProfile current) in
  recorded ← match binding with Some b => Recorded b current | None => mret None end;
  d ← lift (DecideSubmitRecorded current (current_attempt_row current attempts) sub auth now (cfg_Bounds cfg) recorded);
  _ ← (if sd_Changed d then
         _ ← apply (sd_Task d) (t_Revision current) now (sd_AttemptOutcome d);
         match binding with
         | Some b => if sd_Accepted d then Accepted b (sd_Task d) else mret tt
         | None => mret tt
         end
       else mret tt);
  mret d.

Definition Get (taskID : string) : tx Task :=
  row ← unwrap (errorf ErrNotFound) (GetLatestRequest taskID);
  mret ((TaskFromRow row) <| t_Input := "" |>).

Definition Cancel (taskID : string) (now : Time) : tx (Task * bool) :=
  row ← unwrap (errorf ErrNotFound) (GetLatestRequestForUpdate taskID);
  let current := TaskFromRow row in
  let '(canceled, outcome, did) := DecideCancel current in
  _ ← (if did then apply canceled (t_Revision current) now outcome else mret tt);
  mret (canceled, did).

(** The transaction that settles one expired lease in [SweepExpired], once
    the original dispatch was asked about. *)
Definition settleExpired (taskID : string) (generation : Z) (outcome : DispatchOutcome) (now now' : Time) : tx unit :=
  row ← unwrap (errorf ErrOther) (GetRequestForUpdate taskID generation);
  let current := TaskFromRow row in
  let '(decided, attemptOutcome, changed) := DecideExpire current outcome now (cfg_Bounds cfg) in
  if negb changed then mret tt else apply decided (t_Revision current) now' attemptOutcome.

(** [SweepExpired]: Control's answer about each expired external lease is a
    function of the tenant and the dispatch ([None]: the query failed); every
    reading of the clock in the pass is the same instant here.  The result
    is the number of settled leases. *)
Fixpoint settle_all (dispatch : string -> string -> option DispatchOutcome) (now : Time)
    (expired : list (string * Z)) (db : DB) : Z * DB :=
  match expired with
  | [] => (0, db)
  | (taskID, generation) :: rest =>
      match db_requests db !! (taskID, generation) with
      | None => settle_all dispatch now rest db
      | Some row =>
          let task := TaskFromRow row in
          let answer := if String.eqb (t_Effects task) EffectsExternal
                        then dispatch (t_TenantID task) (t_DispatchID task) else Some DispatchUnknown in
          match answer with
          | None => settle_all dispatch now rest db
          | Some outcome =>
              let changed := (DecideExpire task outcome now (cfg_Bounds cfg)).2 in
              let '(_, db') := InTx (settleExpired taskID generation outcome now now) db in
              let '(n, db'') := settle_all dispatch now rest db' in
              ((if changed then 1 else 0) + n, db'')
          end
      end
  end.
Definition SweepExpired (dispatch : string -> string -> option DispatchOutcome) (now : Time) (limit : nat) (db : DB) : res Z * DB :=
  match ListExpiredLeases now limit db with
  | Ok (expired, _) => let '(n, db') := settle_all dispatch now expired db in (Ok n, db')
  | Err e => (Err e, db)
  end.
End Commands.
