(* ===== verification/Refresh.v ===== *)
(** * Refresh: the catalog refresh ([internal/application/refresh.go])

    The scheduled re-reading of callable revisions: the requests of a pass,
    the live read a claimed refresh performs once per generation, and the
    acceptance that withdraws a drifted revision.  The text of an error is not
    kept by the model, so the reason of a failed rebuild is a parameter. *)

From S2P Require Import Prelude Errors GoStrings GoCrypto GoJson GoNum GoUrl Task TaskLife Catalog Grant Call Event App Rows Sql SqlCalls SqlCatalog Prog Ports Network Grants CatalogApp Tasks.

Definition RefreshActor : string := "mcp-catalog-refresh".
Definition RefreshUnavailable : string := "REFRESH_UNAVAILABLE".
Definition RefreshNotApproved : string := "REFRESH_NOT_APPROVED".

Record RefreshOutcome := mkRefreshOutcome {
  ro_Completed : bool; ro_ResultRef : string; ro_ResultDigest : string; ro_FailureCode : string }.

(** ** Drift *)

Definition declaration_of_tool (t : Tool) : ToolDeclaration :=
  mkToolDeclaration (tl_Method t) "" "" (tl_SideEffecting t) (tl_UnitPrice t) (tl_Idempotent t) (tl_QuerySupported t).
Definition DeclarationOf (d : Descriptor) : Declaration :=
  mkDeclaration (d_CanonicalResource d) (d_Transport d) (d_ProtocolVersion d) (d_Provenance d) ""
    (map declaration_of_tool (d_Tools d)) (d_DataClass d) (d_NetworkScope d) (d_Licenses d).

(** What differs about one reviewed method. *)
Definition tool_drift (live : Descriptor) (rt : Tool) : list string :=
  let lt := default no_tool (Method live (tl_Method rt)) in
  if negb (String.eqb (tl_InputSchemaDigest rt) (tl_InputSchemaDigest lt)) then [tl_Method rt +:+ ": input schema"]
  else if negb (String.eqb (tl_OutputSchemaDigest rt) (tl_OutputSchemaDigest lt)) then [tl_Method rt +:+ ": output schema"]
  else if negb (String.eqb (tl_AnnotationsDigest rt) (tl_AnnotationsDigest lt)) then [tl_Method rt +:+ ": annotations"]
  else [].
Definition driftReason (reviewed live : Descriptor) : string :=
  let parts :=
    (if negb (String.eqb (d_ServerName reviewed) (d_ServerName live)) || negb (String.eqb (d_ServerVersion reviewed) (d_ServerVersion live))
     then ["server " +:+ d_ServerName reviewed +:+ " " +:+ d_ServerVersion reviewed +:+ " -> " +:+ d_ServerName live +:+ " "
           +:+ d_ServerVersion live] else [])
    ++ flat_map (tool_drift live) (d_Tools reviewed)
    ++ (if negb (String.eqb (d_ResourcesDigest reviewed) (d_ResourcesDigest live)) then ["resources"] else [])
    ++ (if negb (String.eqb (d_PromptsDigest reviewed) (d_PromptsDigest live)) then ["prompts"] else [])
    ++ (if negb (String.eqb (d_Issuer reviewed) (d_Issuer live)) then ["issuer"] else []) in
  match parts with [] => "descriptor digest" | _ => strings_Join parts "; " end.

Definition bounded (s : string) (n : nat) : string := if (n <? String.length s)%nat then String.substring 0 n s else s.

(** The result of rebuilding a revision from a live read: the live digest,
    empty when it cannot be rebuilt, and the reason. *)
Definition rebuilt (errorText : error -> string) (desc : Descriptor) (live : LiveServer) : string * string :=
  match BuildDescriptor (DeclarationOf desc) live with
  | Err e => ("", errorText e)
  | Ok r => (d_Digest r, driftReason desc r)
  end.

(** The row of a live read. *)
Definition refresh_row (errorText : error -> string) (taskID : string) (generation : Z) (workerID : string) (desc : Descriptor)
    (live : LiveServer) : InsertRefreshParams :=
  let '(liveDigest, reason) := rebuilt errorText desc live in
  let drift := negb (String.eqb liveDigest (d_Digest desc)) in
  let '(ref, digest) := RefreshResult taskID generation (d_ServerID desc) (d_Revision desc) (d_Digest desc) liveDigest drift in
  mkInsertRefreshParams taskID (i64 generation) workerID (d_ServerID desc) (i64 (d_Revision desc)) (d_Digest desc)
    (optStr liveDigest) drift (optStr (bounded (if drift then reason else "") 1024)) ref digest.

(** ** The profile's binding *)

Definition Recorded (t : Task) : tx (option RecordedResult) :=
  rec ← GetRefresh (t_TaskID t) (i64 (t_Generation t));
  mret (option_map (fun rec => mkRecordedResult (rf_ResultRef rec) (rf_ResultDigest rec)) rec).

Definition Accepted (stamps : string -> Time * string) (t : Task) : tx unit :=
  rec ← unwrap (errorf ErrOther) (GetRefresh (t_TaskID t) (i64 (t_Generation t)));
  if negb (rf_Drift rec) then mret tt
  else
    srv ← unwrap (errorf ErrOther) (GetServer (rf_ServerID rec));
    dr ← unwrap (errorf ErrOther) (GetDescriptorForUpdate (rf_ServerID rec) (rf_Revision rec));
    let d := DescriptorFromRow dr srv in
    if negb (bool_decide (d_State d = CatalogApproved)) then mret tt
    else
      _ ← disableLocked d RefreshActor (d_TenantID d)
            ("refresh:" +:+ t_TaskID t +:+ ":" +:+ format_int (t_Generation t)) (t_InputDigest t) "REFRESH_DRIFT" stamps;
      mret tt.

Definition refresh_binding (stamps : string -> Time * string) : ResultBinding :=
  Tasks.mkResultBinding Recorded (Accepted stamps).

(** The bindings of the service: the refresh profile's. *)
Definition service_bindings (stamps : string -> Time * string) (profile : string) : option ResultBinding :=
  if String.eqb profile CatalogRefreshProfile then Some (refresh_binding stamps) else None.

(** ** Use cases *)

Section Refresh.
  Context `{Jsonb} (policy : NetworkPolicy) (issuers : bool) (errorText : error -> string).

(** The guards of a claimed refresh. *)
Definition claimed (task : Task) (workerID inputDigest : string) (now : Time) : res unit :=
  if negb (String.eqb (t_Kind task) KindCatalogRefresh) || negb (String.eqb (t_ResultProfile task) CatalogRefreshProfile)
  then Fail ErrInvalid
  else if negb (bool_decide (t_State task = StateLeased)) || negb (String.eqb (t_WorkerID task) workerID) then Fail ErrStaleExecution
  else if negb (After (t_LeaseUntil task) now) then Fail ErrStaleExecution
  else if negb (String.eqb (t_InputDigest task) inputDigest) then Fail ErrInvalid
  else Ok tt.

Definition completed (rec : CatalogRefresh) : RefreshOutcome := mkRefreshOutcome true (rf_ResultRef rec) (rf_ResultDigest rec) "".
Definition failed (code : string) : RefreshOutcome := mkRefreshOutcome false "" "" code.

(** The approved revision a request names. *)
Definition named_revision (input : CatalogRefreshInput) : proc (res Descriptor) :=
  dr ← db (GetDescriptor (ri_ServerID input) (i64 (ri_Revision input)));
  match found (errorf ErrOther) dr with
  | Err e => Ret (Err e)
  | Ok dr =>
      srv ← db (GetServer (ri_ServerID input));
      Ret (match found (errorf ErrOther) srv with Ok srv => Ok (DescriptorFromRow dr srv) | Err e => Err e end)
  end.

Definition Advance (taskID : string) (generation : Z) (workerID inputDigest : string) : proc (res RefreshOutcome) :=
  row ← db (GetRequest taskID (i64 generation));
  match found (errorf ErrNotFound) row with
  | Err e => Ret (Err e)
  | Ok row =>
      let task := TaskFromRow row in
      now ← ask Now;
      match claimed task workerID inputDigest now with
      | Err e => Ret (Err e)
      | Ok _ =>
          rec ← db (GetRefresh taskID (i64 generation));
          match rec with
          | Err e => Ret (Err e)
          | Ok (Some rec) => Ret (Ok (completed rec))
          | Ok None =>
              match unmarshal_refresh (t_Input task) with
              | None => Ret (Fail ErrInvalid)
              | Some input =>
                  desc ←? named_revision input;
                  if negb (String.eqb (d_TenantID desc) (t_TenantID task))
                     || negb (String.eqb (d_Digest desc) (ri_DescriptorDigest input)) then Ret (Fail ErrInvalid)
                  else if negb (bool_decide (d_State desc = CatalogApproved)) then Ret (Ok (failed RefreshNotApproved))
                  else
                    live ← readLive policy issuers (d_CanonicalResource desc) (d_ProtocolVersion desc);
                    match live with
                    | Err _ => Ret (Ok (failed RefreshUnavailable))
                    | Ok live =>
                        _ ←? db (InsertRefresh (refresh_row errorText taskID generation workerID desc live));
                        rec ← db (GetRefresh taskID (i64 generation));
                        Ret (match found (errorf ErrOther) rec with Ok rec => Ok (completed rec) | Err e => Err e end)
                    end
              end
          end
      end
  end.

(** The request of one target in a period. *)
Definition refresh_request (row : RefreshTarget) (bucket : Z) : RequestInput :=
  let taskID := "refresh-" +:+ rt_ServerID row +:+ "-r" +:+ format_int (rt_Revision row) +:+ "-" +:+ format_int bucket in
  let input := Marshal (JObj [("schemaVersion", jint 1); ("serverId", JStr (rt_ServerID row));
                              ("revision", jint (u64 (rt_Revision row))); ("descriptorDigest", JStr (rt_DescriptorDigest row))]) in
  mkRequestInput taskID (rt_TenantID row) KindCatalogRefresh CatalogRefreshProfile input EffectsReconstructible ""
    ("grant:" +:+ rt_GrantID row) taskID.

Fixpoint request_all (cfg : Config) (rows : list RefreshTarget) (bucket : Z) : proc Z :=
  match rows with
  | [] => Ret 0
  | row :: rest =>
      now0 ← ask Now; stamps ← ask Stamps; now1 ← ask Now; now2 ← ask Now;
      let '(now, eventID) := stamps (rt_ServerID row) in
      r ← db (Tasks.Request cfg (refresh_request row bucket) eventID now0 now now1 now2);
      n ← request_all cfg rest bucket;
      Ret ((match r with Ok (_, false) => 1 | _ => 0 end) + n)
  end.

(** [None]: the period is shorter than a second and the division panics; a
    configured period is at least a minute. *)
Definition Schedule (cfg : Config) (period : Duration) (max : Z) : proc (option (res Z)) :=
  if period <=? 0 then Ret (Some (Ok 0))
  else
    now ← ask Now;
    rows ← db (ListRefreshTargets now max);
    match rows with
    | Err e => Ret (Some (Err e))
    | Ok rows =>
        let seconds := period ÷ Second in
        if seconds =? 0 then Ret None
        else n ← request_all cfg rows (now / Second ÷ seconds); Ret (Some (Ok n))
    end.
End Refresh.
