(* ===== verification/Projection.v ===== *)
(** * Projection: evicting revoked credentials ([internal/application/projection.go])

    The revision gate and the consumer of the catalog and grant events, from
    the bytes of a message. *)

From S2P Require Import Prelude Errors GoStrings GoCrypto GoJson GoNum GoUrl Task TaskLife Catalog Grant Call Event App Rows Sql SqlCalls Prog Ports.

(** ** The revision gate *)

Definition gate_key (aggregateType aggregateID : string) : string := aggregateType +:+ nul +:+ aggregateID.

(** Whether the revision advances the aggregate, and the gate after it. *)
Definition Admit (limit : Z) (last : gmap string Z) (key : string) (revision : Z) : bool * gmap string Z :=
  if match last !! key with Some l => revision <=? l | None => false end then (false, last)
  else (true, <[key := revision]> (if limit <=? Z.of_nat (size last) then ∅ else last)).

(** ** Payloads *)

Record projectedPayload := mkProjectedPayload {
  pp_Kind : string; pp_ServerID : string; pp_GrantID : string; pp_Revision : string; pp_State : string }.
#[export] Instance projectedPayload_eta : Settable projectedPayload := fun p =>
  mkProjectedPayload (pp_Kind p) (pp_ServerID p) (pp_GrantID p) (pp_Revision p) (pp_State p).

Definition assign_payload (f : string) (v : json) (acc : projectedPayload) : option projectedPayload :=
  if String.eqb f "kind" then s ← decode_string (pp_Kind acc) v; Some (acc <| pp_Kind := s |>)
  else if String.eqb f "serverId" then s ← decode_string (pp_ServerID acc) v; Some (acc <| pp_ServerID := s |>)
  else if String.eqb f "grantId" then s ← decode_string (pp_GrantID acc) v; Some (acc <| pp_GrantID := s |>)
  else if String.eqb f "revision" then s ← decode_string (pp_Revision acc) v; Some (acc <| pp_Revision := s |>)
  else s ← decode_string (pp_State acc) v; Some (acc <| pp_State := s |>).
Definition unmarshal_payload (raw : bytes) : option projectedPayload :=
  v ← Parse raw;
  decode_struct ["kind"; "serverId"; "grantId"; "revision"; "state"] false assign_payload v (mkProjectedPayload "" "" "" "" "").

(** ** The consumer *)

Definition gate_limit : Z := 100000.

(** What an event is checked for before the gate: its payload and revision. *)
Definition check_event (env : Envelope) : res (projectedPayload * Z) :=
  if negb (e_SchemaVersion env =? 1) || negb (String.eqb (e_Producer env) Producer) || String.eqb (e_TenantID env) ""
  then Fail ErrOther
  else
    match unmarshal_payload (e_Payload env) with
    | None => Fail ErrOther
    | Some pl =>
        if negb (String.eqb (pp_Kind pl) (e_EventType env)) then Fail ErrOther
        else
          match ParseUint (e_AggregateRevision env) with
          | None => Fail ErrOther
          | Some rev =>
              if String.eqb (e_EventType env) "mcp.catalog-reviewed" then
                if negb (String.eqb (e_Subject env) SubjectCatalogReviewed)
                   || negb (String.eqb (e_AggregateType env) AggregateDescriptor)
                   || negb (String.eqb (pp_ServerID pl) (e_AggregateID env))
                then Fail ErrOther else Ok (pl, rev)
              else if String.eqb (e_EventType env) "mcp.grant-revoked" then
                if negb (String.eqb (e_Subject env) SubjectGrantRevoked)
                   || negb (String.eqb (e_AggregateType env) AggregateGrant)
                   || negb (String.eqb (pp_GrantID pl) (e_AggregateID env))
                then Fail ErrOther else Ok (pl, rev)
              else Fail ErrOther
          end
    end.

Section Projection.
  Context (self : nat).

Definition admit_event (env : Envelope) (rev : Z) : proc bool :=
  ask (Memory self (fun m =>
    let '(admitted, last) := Admit gate_limit (m_gate m) (gate_key (e_AggregateType env) (e_AggregateID env)) rev in
    (admitted, m <| m_gate := last |>))).

Definition evict_server (env : Envelope) (pl : projectedPayload) : proc (res bool) :=
  if negb (String.eqb (pp_State pl) (catalog_text CatalogDisabled)) && negb (String.eqb (pp_State pl) (catalog_text CatalogRejected))
  then Ret (Ok true)
  else
    s ← db (GetServer (pp_ServerID pl));
    match s with
    | Err e => Ret (Err e)
    | Ok None => Ret (Ok true)
    | Ok (Some s) =>
        if negb (String.eqb (sv_TenantID s) (e_TenantID env)) then Ret (Fail ErrOther)
        else _ ← ask (EvictResource (sv_CanonicalResource s)); Ret (Ok true)
    end.

Definition evict_grant (env : Envelope) (pl : projectedPayload) : proc (res bool) :=
  r ← db (GetGrant (pp_GrantID pl));
  match r with
  | Err e => Ret (Err e)
  | Ok None => Ret (Ok true)
  | Ok (Some r) =>
      if negb (String.eqb (g_TenantID (GrantFromRow r)) (e_TenantID env)) then Ret (Fail ErrOther)
      else _ ← ask (EvictGrant (CacheKey (GrantFromRow r))); Ret (Ok true)
  end.

Definition Apply (env : Envelope) : proc (res bool) :=
  match check_event env with
  | Err e => Ret (Err e)
  | Ok (pl, rev) =>
      admitted ← admit_event env rev;
      if negb admitted then Ret (Ok false)
      else if String.eqb (e_EventType env) "mcp.catalog-reviewed" then evict_server env pl else evict_grant env pl
  end.

(** What [Handle] counts. *)
Inductive projection_outcome := Rejected | Stale | Applied.
Definition maxProjectionEnvelope : Z := 64 * 2 ^ 10.
Definition Handle (data : string) : proc projection_outcome :=
  if maxProjectionEnvelope <? Z.of_nat (String.length data) then Ret Rejected
  else
    match unmarshal_envelope data with
    | None => Ret Rejected
    | Some env =>
        applied ← Apply env;
        Ret (match applied with Err _ => Rejected | Ok false => Stale | Ok true => Applied end)
    end.
End Projection.
