(* ===== verification/Transport.v ===== *)
(** * Transport: the services and the listener ([internal/transport/grpc])

    Every RPC of [server.go], [catalog.go] and [calls.go] as a request, the
    handler that answers it, and the listener around the handlers: the
    authorization by workload identity, the concurrency bound, the validation
    and the construction of the server. *)

From S2P Require Import Prelude Errors GoStrings GoCrypto GoJson GoNum GoUrl GoScan Identity Config Assembly Task Catalog Grant Call Event App Authz Wire Rows Sql Prog Ports Network Calls Grants CatalogApp Tasks Refresh.

(** ** Requests and responses *)

(** The request of each RPC, with the fields its handler reads. *)
Inductive request :=
| ClaimTaskRequest (taskID generation workerID : string) (leaseSeconds : Z)
| HeartbeatTaskRequest (taskID generation workerID : string)
| SubmitTaskResultRequest (taskID generation : string) (sub : Submission)
| GetTaskRequest (taskID : string)
| ListCatalogRequest (scope : Scope) (state cursor : string) (limit : Z)
| GetDescriptorRequest (scope : Scope) (serverID revision : string)
| DiscoverRequest (q : DiscoverServerRequest)
| ReviewDescriptorRequest (command : Command) (scope : Scope) (serverID revision digest decision reason : string)
| DisableDescriptorRequest (command : Command) (scope : Scope) (serverID revision reason : string)
| GrantCreateRequest (q : CreateGrantRequest)
| GetGrantRequest (scope : Scope) (grantID : string)
| ListGrantsRequest (scope : Scope) (state cursor : string) (limit : Z)
| RevokeGrantRequest (command : Command) (scope : Scope) (grantID expectedRevision reason : string)
| GetRevocationProgressRequest (scope : Scope) (grantID : string)
| CallCreateRequest (q : CreateCallRequest)
| GetCallRequest (scope : Scope) (callID : string)
| ReconcileCallRequest (scope : Scope) (callID : string)
| AdvanceRefreshRequest (taskID generation workerID inputDigest : string).

Inductive response :=
| ClaimTaskResponse (task : BackgroundTask) (input : bytes)
| TaskResponse (task : BackgroundTask)
| SubmitTaskResultResponse (task : BackgroundTask) (accepted existing : bool)
| ListCatalogResponse (descriptors : list DescriptorMsg) (nextCursor : string)
| GetDescriptorResponse (descriptor : DescriptorMsg)
| DescriptorResponse (descriptor : DescriptorMsg) (existing : bool)
| GrantResponse (grant : GrantMsg) (existing : bool)
| GetGrantResponse (grant : GrantMsg)
| ListGrantsResponse (grants : list GrantMsg) (nextCursor : string)
| RevocationProgressResponse (grant : GrantMsg) (newAdmissionBlocked sendersConverged : bool)
    (inFlightCalls unknownCalls controlState openCalls : string)
| CreateCallResponse (call : ToolCall) (existing : bool)
| CallResponse (call : ToolCall)
| AdvanceRefreshResponse (state resultRef resultDigest : string) (failureCode : option string).

(** The method a request is sent to. *)
Definition service_path (service : string) : string := "anvilkit.mcp.v1." +:+ service.
Definition method_path (service method : string) : string := "/" +:+ service_path service +:+ "/" +:+ method.
Definition method_of (q : request) : string :=
  match q with
  | ClaimTaskRequest _ _ _ _ => method_path "BackgroundTaskService" "ClaimTask"
  | HeartbeatTaskRequest _ _ _ => method_path "BackgroundTaskService" "HeartbeatTask"
  | SubmitTaskResultRequest _ _ _ => method_path "BackgroundTaskService" "SubmitTaskResult"
  | GetTaskRequest _ => method_path "BackgroundTaskService" "GetTask"
  | ListCatalogRequest _ _ _ _ => method_path "CatalogService" "ListCatalog"
  | GetDescriptorRequest _ _ _ => method_path "CatalogService" "GetDescriptor"
  | DiscoverRequest _ => method_path "CatalogService" "DiscoverServer"
  | ReviewDescriptorRequest _ _ _ _ _ _ _ => method_path "CatalogService" "ReviewDescriptor"
  | DisableDescriptorRequest _ _ _ _ _ => method_path "CatalogService" "DisableDescriptor"
  | GrantCreateRequest _ => method_path "GrantService" "CreateGrant"
  | GetGrantRequest _ _ => method_path "GrantService" "GetGrant"
  | ListGrantsRequest _ _ _ _ => method_path "GrantService" "ListGrants"
  | RevokeGrantRequest _ _ _ _ _ => method_path "GrantService" "RevokeGrant"
  | GetRevocationProgressRequest _ _ => method_path "GrantService" "GetRevocationProgress"
  | CallCreateRequest _ => method_path "CallService" "CreateCall"
  | GetCallRequest _ _ => method_path "CallService" "GetCall"
  | ReconcileCallRequest _ _ => method_path "CallService" "ReconcileCall"
  | AdvanceRefreshRequest _ _ _ _ => method_path "CatalogRefreshService" "AdvanceRefresh"
  end.

(** What a handler answers; [None]: the fuel of a retried command ran out. *)
Abbreviation reply := (option (result Code response)).

Section Handlers.
  Context `{SchemaLibrary, Casbin, Jsonb}.
  (** The code of an error that wraps no sentinel of the program. *)
  Context (other : error -> option Code).
  (** What the services were built with: the replica's upstream table and
      routes, the bounds, the enforcer, the network policy and the text of an
      error. *)
  Context (self : nat) (upstream : list string) (routes : list QualifiedRoute) (fuel : nat) (opts : CallOptions).
  Context (authz : option App.Authorizer) (policy : NetworkPolicy) (issuers : bool) (cfg : Config)
          (errorText : error -> string).

Definition failure (e : error) : reply := Some (Err (toStatus (other e) e)).
Definition answer {A} (respond : A -> response) (r : res A) : reply :=
  match r with Ok a => Some (Ok (respond a)) | Err e => failure e end.
(** Parse, or answer the error's code. *)
Definition parsed {A} (r : res A) (k : A -> proc reply) : proc reply :=
  match r with Ok a => k a | Err e => Ret (failure e) end.
Definition respond {A} (f : A -> response) (p : proc (res A)) : proc reply := r ← p; Ret (answer f r).

(** *** BackgroundTaskService *)

Definition ClaimTask (taskID generation workerID : string) (leaseSeconds : Z) : proc reply :=
  parsed (parseGeneration generation) (fun gen =>
    now0 ← ask Now; now1 ← ask Now; now ← ask Now;
    respond (fun '(task, input) => ClaimTaskResponse (toProto task) input)
      (db (Claim cfg taskID gen workerID (i64 (leaseSeconds * Second)) now0 now1 now))).
Definition HeartbeatTask (taskID generation workerID : string) : proc reply :=
  parsed (parseGeneration generation) (fun gen =>
    now ← ask Now; now' ← ask Now;
    respond (fun task => TaskResponse (toProto task)) (db (Heartbeat taskID gen workerID now now'))).
Definition SubmitTaskResult (taskID generation : string) (sub : Submission) : proc reply :=
  parsed (parseGeneration generation) (fun gen =>
    now0 ← ask Now; now ← ask Now; stamps ← ask Stamps;
    respond (fun d => SubmitTaskResultResponse (toProto (sd_Task d)) (sd_Accepted d) (sd_Existing d))
      (db (Submit (service_bindings stamps) cfg taskID gen sub now0 now))).
Definition GetTask (taskID : string) : proc reply :=
  respond (fun task => TaskResponse (toProto task)) (db (Tasks.Get taskID)).

(** *** CatalogService *)

Section Caller.
  Context (ctx : option AuthInfo).

Definition ListCatalog (scope : Scope) (state cursor : string) (limit : Z) : proc reply :=
  respond (fun '(ds, next) => ListCatalogResponse (map toDescriptor ds) next)
    (CatalogApp.List_ authz (scopeOf ctx scope) (catalogStateOf state) cursor limit).
Definition GetDescriptor (scope : Scope) (serverID revision : string) : proc reply :=
  parsed (revisionOf revision) (fun rev =>
    respond (fun d => GetDescriptorResponse (toDescriptor d)) (CatalogApp.Get authz (scopeOf ctx scope) serverID rev)).

(** A descriptor and whether the command had been decided before. *)
Definition decided (r : option Descriptor * bool) : response :=
  DescriptorResponse (match r.1 with Some d => toDescriptor d | None => zero_descriptor end) r.2.
Definition DiscoverServer (q : DiscoverServerRequest) : proc reply :=
  parsed (declarationOf q) (fun decl =>
    respond decided (Discover authz policy issuers (cmdOf (ds_Command q)) (scopeOf ctx (ds_Scope q)) decl)).
Definition decisionOf (decision : string) : ReviewDecision :=
  if String.eqb decision "REVIEW_DECISION_REJECT" then ReviewReject else ReviewApprove.
Definition ReviewDescriptor (command : Command) (scope : Scope) (serverID revision digest decision reason : string) : proc reply :=
  parsed (revisionOf revision) (fun rev =>
    respond decided (Review authz (cmdOf command) (scopeOf ctx scope) serverID rev digest (decisionOf decision) reason)).
Definition DisableDescriptor (command : Command) (scope : Scope) (serverID revision reason : string) : proc reply :=
  parsed (revisionOf revision) (fun rev =>
    respond decided (Disable authz (cmdOf command) (scopeOf ctx scope) serverID rev reason)).

(** *** GrantService *)

Definition granted (r : Grant * bool) : response := GrantResponse (toGrant r.1) r.2.
Definition CreateGrant (q : CreateGrantRequest) : proc reply :=
  parsed (grantRequestOf q) (fun gr =>
    respond granted (Grants.Create authz (cmdOf (gq_Command q)) (scopeOf ctx (gq_Scope q)) gr)).
Definition GetGrant (scope : Scope) (grantID : string) : proc reply :=
  respond (fun g => GetGrantResponse (toGrant g)) (Grants.Get authz (scopeOf ctx scope) grantID).
Definition ListGrants (scope : Scope) (state cursor : string) (limit : Z) : proc reply :=
  respond (fun '(gs, next) => ListGrantsResponse (map toGrant gs) next)
    (Grants.List_ authz (scopeOf ctx scope) (grantStateOf state) cursor limit).
Definition RevokeGrant (command : Command) (scope : Scope) (grantID expectedRevision reason : string) : proc reply :=
  parsed (revisionOf expectedRevision) (fun rev =>
    respond granted (Revoke authz (cmdOf command) (scopeOf ctx scope) grantID rev reason)).
Definition progressed (p : Progress_) : response :=
  RevocationProgressResponse (toGrant (pg_Grant p)) (pg_NewAdmissionBlocked p) (pg_SendersConverged p)
    (format_int (g_InFlightCalls (pg_Grant p))) (format_int (g_UnknownCalls (pg_Grant p)))
    (g_ControlState (pg_Grant p)) (format_int (pg_OpenCalls p)).
Definition GetRevocationProgress (scope : Scope) (grantID : string) : proc reply :=
  respond progressed (Progress authz (scopeOf ctx scope) grantID).

(** *** CallService *)

Definition CreateCall (q : CreateCallRequest) : proc reply :=
  parsed (callRequestOf q) (fun cr =>
    r ← Calls.Create self upstream routes fuel (cmdOf (cq_Command q)) (scopeOf ctx (cq_Scope q)) cr;
    Ret (r ≫= answer (fun '(call, existing) => CreateCallResponse (toCall call) existing))).
Definition GetCall (scope : Scope) (callID : string) : proc reply :=
  respond (fun call => CallResponse (toCall call)) (Calls.Get (scopeOf ctx scope) callID).
Definition ReconcileCall (scope : Scope) (callID : string) : proc reply :=
  respond (fun call => CallResponse (toCall call)) (ReconcileCallAs self upstream opts authz (scopeOf ctx scope) callID).

(** *** CatalogRefreshService *)

Definition advanced (out : RefreshOutcome) : response :=
  if negb (ro_Completed out) then AdvanceRefreshResponse "REFRESH_STATE_FAILED" "" "" (Some (ro_FailureCode out))
  else AdvanceRefreshResponse "REFRESH_STATE_COMPLETED" (ro_ResultRef out) (ro_ResultDigest out) None.
(** An error of [parseGeneration] leaves without a status: gRPC answers
    [Unknown]. *)
Definition AdvanceRefresh (taskID generation workerID inputDigest : string) : proc reply :=
  match parseGeneration generation with
  | Err _ => Ret (Some (Err Unknown))
  | Ok gen => respond advanced (Refresh.Advance policy issuers errorText taskID gen workerID inputDigest)
  end.

Definition handle_rpc (q : request) : proc reply :=
  match q with
  | ClaimTaskRequest t g w l => ClaimTask t g w l
  | HeartbeatTaskRequest t g w => HeartbeatTask t g w
  | SubmitTaskResultRequest t g s => SubmitTaskResult t g s
  | GetTaskRequest t => GetTask t
  | ListCatalogRequest s st c l => ListCatalog s st c l
  | GetDescriptorRequest s id rev => GetDescriptor s id rev
  | DiscoverRequest q => DiscoverServer q
  | ReviewDescriptorRequest c s id rev dig dec rsn => ReviewDescriptor c s id rev dig dec rsn
  | DisableDescriptorRequest c s id rev rsn => DisableDescriptor c s id rev rsn
  | GrantCreateRequest q => CreateGrant q
  | GetGrantRequest s id => GetGrant s id
  | ListGrantsRequest s st c l => ListGrants s st c l
  | RevokeGrantRequest c s id rev rsn => RevokeGrant c s id rev rsn
  | GetRevocationProgressRequest s id => GetRevocationProgress s id
  | CallCreateRequest q => CreateCall q
  | GetCallRequest s id => GetCall s id
  | ReconcileCallRequest s id => ReconcileCall s id
  | AdvanceRefreshRequest t g w d => AdvanceRefresh t g w d
  end.
End Caller.
End Handlers.

(** ** The listener *)

(** The interceptors, outermost first: the authorization, the bound and the
    validation. *)
Definition authorized (az : option Identity.Authorizer) (ctx : option AuthInfo) (method : string) (next : proc reply) : proc reply :=
  match az with
  | None => next
  | Some a => match Authorize a ctx method with Some c => Ret (Some (Err c)) | None => next end
  end.
Definition bounded (self capacity : nat) (next : proc reply) : proc reply :=
  free ← ask (Memory self (fun m =>
    if (m_slots m <? capacity)%nat then (true, m <| m_slots := S (m_slots m) |>) else (false, m)));
  if free : bool then
    r ← next;
    _ ← ask (Memory self (fun m => (tt, m <| m_slots := pred (m_slots m) |>)));
    Ret r
  else Ret (Some (Err ResourceExhausted)).
Definition validated (valid : bool) (next : proc reply) : proc reply :=
  if valid then next else Ret (Some (Err InvalidArgument)).

(** The identity of the listener; [li_Reloader]: the material is loaded. *)
Record ListenerIdentity := mkListenerIdentity {
  li_Reloader : bool; li_TrustDomain : string; li_Policy : Policy; li_MaxConnectionAge : Duration }.
(** The use cases the server is given. *)
Record use_cases := mkUseCases { uc_catalog : bool; uc_grants : bool; uc_calls : bool; uc_refresh : bool }.
Record Server := mkServer {
  sv_authz : option Identity.Authorizer; sv_services : list string; sv_capacity : nat; sv_age : option Duration }.

Definition registered_services (u : use_cases) : list string :=
  "grpc.health.v1.Health" :: service_path "BackgroundTaskService"
  :: (if uc_catalog u && uc_grants u then [service_path "CatalogService"; service_path "GrantService"] else [])
  ++ (if uc_calls u then [service_path "CallService"] else [])
  ++ (if uc_refresh u then [service_path "CatalogRefreshService"] else []).

Section Listener.
  (** The methods of the generated services, and the validation rules of the
      messages. *)
  Context (methods_of : string -> list string) (validate : request -> bool).

Definition service_info (services : list string) : ServiceInfo := map (fun s => (s, methods_of s)) services.

(** The listener's identity from the workload's: none for the development
    listener ([bootstrap/identity.go]). *)
Definition server (reloader : option Files) (c : Config.Config) : option ListenerIdentity :=
  match reloader with
  | None => None
  | Some _ => Some (mkListenerIdentity true (TrustDomain c) ServicePolicy (si_MaxConnectionAge (gr_Identity (c_GRPC c))))
  end.

(** [None]: an entry of the policy names no service and the server panics. *)
Definition NewServerWithIdentity (id : option ListenerIdentity) (capacity : nat) (u : use_cases) : option (res Server) :=
  let services := registered_services u in
  match id with
  | None => Some (Ok (mkServer None services capacity None))
  | Some id =>
      if negb (li_Reloader id) then Some (Fail ErrOther)
      else match Identity.NewAuthorizer (li_TrustDomain id) (li_Policy id) with
           | Err e => Some (Err e)
           | Ok authz =>
               let age := if li_MaxConnectionAge id <=? 0 then Hour else li_MaxConnectionAge id in
               scoped_policy ← registeredOnly (li_Policy id) services;
               Some (scoped ← Identity.NewAuthorizer (li_TrustDomain id) scoped_policy;
                     match Check_policy scoped (service_info services) with
                     | Some _ => Fail ErrOther
                     | None => Ok (mkServer (Some authz) services capacity (Some age))
                     end)
           end
  end.

(** The listener of a configuration ([module.go]): the workload identity
    first, which fails when its material does not load. *)
Definition new_listener (loads : Files -> bool) (c : Config.Config) (u : use_cases) : option (res Server) :=
  match newWorkloadIdentity loads c with
  | Err e => Some (Err e)
  | Ok reloader => NewServerWithIdentity (server reloader c) (Z.to_nat (gr_Capacity (c_GRPC c))) u
  end.

Definition serve (self : nat) (s : Server) (ctx : option AuthInfo) (q : request) (handler : proc reply) : proc reply :=
  authorized (sv_authz s) ctx (method_of q) (bounded self (sv_capacity s) (validated (validate q) handler)).
End Listener.
