(* ===== verification/TransportSpec.v ===== *)
(** * TransportSpec: who reaches a handler, and what crosses the wire

    A listener that started authorizes every method it registered; a handler
    runs only for the workloads of its method, and roles count only from the
    API.  The numbers and states the service writes are the ones it reads. *)

From S2P Require Import Prelude Errors GoStrings GoCrypto GoJson GoNum GoUrl GoScan Config ConfigSpec Assembly Task Catalog Grant Call Event App Identity Wire Rows Sql Prog Ports Transport.

(** ** The policy of the service *)

(** The workloads that may call each method. *)
Definition callers_of (q : request) : list Workload :=
  match q with
  | ClaimTaskRequest _ _ _ _ | HeartbeatTaskRequest _ _ _ | SubmitTaskResultRequest _ _ _ | GetTaskRequest _ =>
      [backgroundWorker; mcp]
  | CallCreateRequest _ | GetCallRequest _ _ => [api; sidecar]
  | AdvanceRefreshRequest _ _ _ _ => [backgroundWorker]
  | _ => [api]
  end.
Lemma policy_entry q : ServicePolicy !! method_of q = Some (callers_of q).
Proof. destruct q; vm_compute; reflexivity. Qed.

Lemma callers_named q : AnyAuthenticated ∉ callers_of q.
Proof. rewrite list_elem_of_In. destruct q; cbn; intuition discriminate. Qed.

Lemma slices_Sort_nil l : slices_Sort l = [] -> l = [].
Proof. intros H. destruct l as [|x l]; [done|]. assert (Hx : x ∈ slices_Sort (x :: l)) by (apply slices_Sort_elem; left). rewrite H in Hx. by apply elem_of_nil in Hx. Qed.
Lemma length_pos {A} (l : list A) : (0 <? List.length l)%nat = false -> l = [].
Proof. by destruct l. Qed.

(** A complete policy has an entry for every registered method. *)
Lemma Check_policy_complete a info m : Check_policy a info = None -> m ∈ full_methods info -> is_Some (az_policy a !! m).
Proof.
  unfold Check_policy. cbv zeta. intros H Hm. dif H as E. apply orb_false_iff in E as [E _].
  apply length_pos, slices_Sort_nil in E. destruct (az_policy a !! m) as [l|] eqn:El; [by eexists|].
  assert (Hin : In m (List.filter (fun m => match az_policy a !! m with None => true | _ => false end) (full_methods info))).
  { apply filter_In. by rewrite El, <- list_elem_of_In. }
  by rewrite E in Hin.
Qed.
Lemma NewAuthorizer_Ok td p a : NewAuthorizer td p = Ok a ->
  a = mkAuthorizer td p /\ forall m l, p !! m = Some l -> l <> [].
Proof.
  unfold NewAuthorizer. intros H. dif H as E1. dif H as E2. injection H as <-. split; [done|]. intros m l Hm ->.
  rewrite forallb_forall in E2. specialize (E2 (m, [])). cbn in E2. unfold entry_valid in E2. rewrite andb_false_r in E2.
  enough (false = true) by done. apply E2. by apply list_elem_of_In, elem_of_map_to_list.
Qed.
Lemma registeredOnly_lookup p services scoped m l : registeredOnly p services = Some scoped -> scoped !! m = Some l -> p !! m = Some l.
Proof. unfold registeredOnly. destruct (forallb _ _); [|done]. intros [= <-] H. by apply map_lookup_filter_Some in H as [? _]. Qed.

(** Who an authorized call came from. *)
Lemma Authorize_None a ctx m : Authorize a ctx m = None -> exists p, Caller ctx = Some p /\ Allowed a m p = true.
Proof. unfold Authorize, Caller. destruct ctx as [[| |[p|]]|]; try done. destruct (Allowed a m p) eqn:E; [|done]. by exists p. Qed.
Lemma Authorize_Some a ctx m c : Authorize a ctx m = Some c -> c = Unauthenticated \/ c = PermissionDenied.
Proof. unfold Authorize. destruct ctx as [[| |[p|]]|]; try (intros [= <-]; by auto). destruct (Allowed a m p); [done|]. intros [= <-]; by auto. Qed.
Lemma Allowed_entry a m p l : Allowed a m p = true -> az_policy a !! m = Some l -> AnyAuthenticated ∉ l ->
  p_TrustDomain p = az_trustDomain a /\ mkWorkload (p_Namespace p) (p_ServiceAccount p) ∈ l.
Proof.
  unfold Allowed. intros [Ht He]%andb_prop Hl Hany. rewrite Hl in He. cbn in He. apply existsb_exists in He as (w & Hw & E).
  apply String.eqb_eq in Ht. split; [done|]. apply list_elem_of_In in Hw. unfold workload_is in E. apply orb_prop in E as [E|E].
  - by apply bool_decide_eq_true in E as ->.
  - breflect. destruct w as [ns sa]. cbn in *. by subst.
Qed.

(** Roles count only from the API workload. *)
Lemma scopeOf_roles ctx s : sc_Roles (scopeOf ctx s) = [] \/
  exists p, Caller ctx = Some p /\ mkWorkload (p_Namespace p) (p_ServiceAccount p) = api /\ sc_Roles (scopeOf ctx s) = sc_Roles s.
Proof.
  unfold scopeOf. cbn. destruct (Caller ctx) as [p|]; [|by left]. destruct (_ && _) eqn:E; [|by left]. right. exists p.
  breflect. split; [done|]. split; [|done]. destruct p. cbn in *. by subst.
Qed.

Section Listener.
  Context (methods_of : string -> list string) (validate : request -> bool).

Lemma NewServer_Ok id capacity u s : NewServerWithIdentity methods_of (Some id) capacity u = Some (Ok s) ->
  sv_authz s = Some (mkAuthorizer (li_TrustDomain id) (li_Policy id)) /\ sv_services s = registered_services u /\
  sv_capacity s = capacity /\
  forall m, m ∈ full_methods (service_info methods_of (registered_services u)) ->
    exists callers, li_Policy id !! m = Some callers /\ callers <> [].
Proof.
  unfold NewServerWithIdentity. cbv zeta. intros H. destruct (negb _); [done|].
  destruct (NewAuthorizer _ (li_Policy id)) as [a|] eqn:Ea; [|done]. apply NewAuthorizer_Ok in Ea as [-> _].
  destruct (registeredOnly _ _) as [scoped|] eqn:Es; [|done]. cbn in H. injection H as H.
  destruct (NewAuthorizer _ scoped) as [b|] eqn:Eb; [|done]. apply NewAuthorizer_Ok in Eb as [-> Hn]. cbn in H.
  destruct (Check_policy _ _) eqn:Ec; [done|]. injection H as <-. split_and!; try done. intros m Hm.
  destruct (Check_policy_complete _ _ _ Ec Hm) as [l Hl]. cbn in Hl. exists l. split; [by eapply registeredOnly_lookup|by eapply Hn].
Qed.

(** The two listeners of a configuration: the plaintext one of development,
    or the one that authorizes under the service's policy. *)
Lemma new_listener_Ok loads c u s : Config.validate c = [] -> new_listener methods_of loads c u = Some (Ok s) ->
  c_Development c = true /\ si_Mode (gr_Identity (c_GRPC c)) = "development" \/
  sv_authz s = Some (mkAuthorizer (TrustDomain c) ServicePolicy) /\ sv_capacity s = Z.to_nat (gr_Capacity (c_GRPC c)) /\
  forall m, m ∈ full_methods (service_info methods_of (registered_services u)) ->
    exists callers, ServicePolicy !! m = Some callers /\ callers <> [].
Proof.
  intros Hv H. pose proof (valid_listener c Hv) as Hl. unfold new_listener, newWorkloadIdentity in H.
  destruct (String.eqb_spec (si_Mode (gr_Identity (c_GRPC c))) "development") as [E|_].
  - left. split; [|done]. unfold check_listener_identity in Hl. rewrite E in Hl. apply app_nil in Hl as [Hl _].
    cbn in Hl. by destruct (c_Development c).
  - right. destruct (loads _); [|done]. by apply NewServer_Ok in H as (Ea & _ & Hc & Hm).
Qed.

(** C22. Only the listed workloads reach a handler. A listener that was built
    from an admitted configuration is the plaintext listener of development,
    which only a configuration with the development guard has; or it has an
    entry of the service's policy for every method of every service it
    registered, and each call is either refused as unauthenticated or denied
    without taking a slot, being validated or reaching its handler, or comes
    from a verified peer of the configured trust domain whose namespace and
    service account its method lists, and then passes the bound and the
    validation to its handler. Under either listener the roles of a scope count
    only when the verified peer is the API. *)
Theorem only_listed_workloads_reach_handlers loads c u s :
  Config.validate c = [] -> new_listener methods_of loads c u = Some (Ok s) ->
  (c_Development c = true /\ si_Mode (gr_Identity (c_GRPC c)) = "development" \/
   (forall m, m ∈ full_methods (service_info methods_of (registered_services u)) ->
      exists callers, ServicePolicy !! m = Some callers /\ callers <> []) /\
   (forall ctx q,
      (exists code, (code = Unauthenticated \/ code = PermissionDenied) /\
         forall self h, serve validate self s ctx q h = Ret (Some (Err code))) \/
      (exists p, Caller ctx = Some p /\ p_TrustDomain p = TrustDomain c /\
         mkWorkload (p_Namespace p) (p_ServiceAccount p) ∈ callers_of q /\
         forall self h, serve validate self s ctx q h = bounded self (Z.to_nat (gr_Capacity (c_GRPC c))) (validated (validate q) h)))) /\
  (forall ctx sc, sc_Roles (scopeOf ctx sc) <> [] -> exists p, Caller ctx = Some p /\
     mkWorkload (p_Namespace p) (p_ServiceAccount p) = api).
Proof.
  intros Hv H. split; [|intros ctx sc Hr; destruct (scopeOf_roles ctx sc) as [?|(p & ? & ? & _)]; [done|by exists p]].
  destruct (new_listener_Ok _ _ _ _ Hv H) as [Hdev|(Ea & Hc & Hm)]; [by left|right]. split; [done|].
  intros ctx q. unfold serve, authorized. rewrite Ea, Hc. destruct (Authorize _ ctx (method_of q)) as [code|] eqn:E.
  - left. exists code. split; [by eapply Authorize_Some|done].
  - right. apply Authorize_None in E as (p & Hcall & Hal). exists p.
    eapply Allowed_entry in Hal as [Htd Hw]; [|apply policy_entry|apply callers_named]. done.
Qed.
End Listener.

(** The methods of the generated services. *)
Definition generated_methods (service : string) : list string :=
  if String.eqb service "grpc.health.v1.Health" then ["Check"; "List"; "Watch"]
  else if String.eqb service (service_path "BackgroundTaskService") then ["ClaimTask"; "HeartbeatTask"; "SubmitTaskResult"; "GetTask"]
  else if String.eqb service (service_path "CallService") then ["CreateCall"; "GetCall"; "ReconcileCall"] else [].
Definition sidecar_peer : option AuthInfo := Some (PeerInfo (Ok (mkPrincipal "anvilkit.local" "anvilkit-components" "anvilkit-job-access-sidecar"))).
Definition calls_only : use_cases := mkUseCases false false true false.
Definition starts (s : option (res Server)) : bool := match s with Some (Ok _) => true | _ => false end.
Lemma calls_server_starts : starts (new_listener generated_methods (fun _ => true) production calls_only) = true.
Proof. vm_compute. reflexivity. Qed.
Lemma only_listed_workloads_reach_handlers_witness : exists s,
  new_listener generated_methods (fun _ => true) production calls_only = Some (Ok s) /\
  forall q, exists code, (code = Unauthenticated \/ code = PermissionDenied) /\
    forall self h, serve (fun _ => true) self s None q h = Ret (Some (Err code)).
Proof.
  pose proof calls_server_starts as H. destruct (new_listener _ _ _ _) as [[s|]|] eqn:E; try discriminate H.
  exists s. split; [reflexivity|]. intros q.
  destruct (only_listed_workloads_reach_handlers generated_methods (fun _ => true) (fun _ => true) production calls_only s
    ltac:(vm_compute; reflexivity) E) as [[[Hd _]|[_ Hq]] _]; [discriminate Hd|].
  destruct (Hq None q) as [Hr|(p & Hp & _)]; [exact Hr|discriminate Hp].
Defined.

(** The sidecar may create a call but not reconcile one. *)
Lemma sidecar_calls : Authorize (mkAuthorizer "anvilkit.local" ServicePolicy) sidecar_peer (method_path "CallService" "GetCall") = None /\
  Authorize (mkAuthorizer "anvilkit.local" ServicePolicy) sidecar_peer (method_path "CallService" "ReconcileCall") = Some PermissionDenied.
Proof. vm_compute. done. Qed.

(** A generation that does not parse: the task handlers answer the domain's
    code, the refresh handler an error without a status. *)
Lemma refresh_generation_has_no_status `{Jsonb} other policy issuers cfg errorText t g w digest lease :
  Sscanf_uint g = None ->
  AdvanceRefresh other policy issuers errorText t g w digest = Ret (Some (Err Unknown)) /\
  ClaimTask other cfg t g w lease = Ret (Some (Err InvalidArgument)).
Proof. intros Hg. unfold AdvanceRefresh, ClaimTask, parsed, parseGeneration. by rewrite Hg. Qed.
