(* ===== verification/CatalogSpec.v ===== *)
(** * CatalogSpec: the refresh re-reads what was reviewed

    A reviewed revision, declared again from its own fields, builds the same
    descriptor from the same live server: an unchanged server never drifts. *)

From S2P Require Import Prelude Table Errors GoStrings GoTrim GoCrypto GoJson GoNum GoUrl Task TaskLife Catalog Grant Call Event App Rows Sql SqlCalls SqlCatalog CallLife Invariant Prog Ports Network Grants CatalogApp Tasks Refresh.
From Stdlib Require Import Sorted.

(** ** Normalized sets *)

Definition normal (x : string) : string := ToLower (TrimSpace x).
Lemma normalizeSet_elem l x : x ∈ normalizeSet l <-> x <> "" /\ exists y, y ∈ l /\ x = normal y.
Proof.
  unfold normalizeSet. rewrite slices_Compact_elem, slices_Sort_elem, list_elem_of_In, filter_In, in_map_iff. split.
  - intros [(y & <- & Hy%list_elem_of_In) Hn]. breflect. split; [done|]. by exists y.
  - intros [Hn (y & Hy & ->)]. split; [exists y; split; [done|by apply list_elem_of_In]|]. by apply negb_true_iff, String.eqb_neq.
Qed.
Lemma normalizeSet_ext l l' : (forall x, x ∈ normalizeSet l <-> x ∈ normalizeSet l') -> normalizeSet l = normalizeSet l'.
Proof. apply string_lt_unique; apply slices_Compact_sorted, slices_Sort_sorted. Qed.
Lemma normal_idem x : normal (normal x) = normal x.
Proof. apply trim_lower_idem. Qed.
Lemma normalizeSet_idem l : normalizeSet (normalizeSet l) = normalizeSet l.
Proof.
  apply normalizeSet_ext. intros x. rewrite !normalizeSet_elem. split.
  - intros [Hn (y & (_ & z & Hz & ->)%normalizeSet_elem & ->)]. rewrite normal_idem in *. eauto.
  - intros [Hn (y & Hy & ->)]. split; [done|]. exists (normal y). rewrite normal_idem. split; [|done].
    apply normalizeSet_elem. eauto.
Qed.

(** The network scope of a resource's host. *)
Definition scope_with (host : string) (l : list string) : list string :=
  let scope := normalizeSet l in if slices_Contains scope host then scope else normalizeSet (scope ++ [host]).
Lemma normalizeSet_again l h : normalizeSet (normalizeSet (l ++ [h]) ++ [h]) = normalizeSet (l ++ [h]).
Proof.
  apply normalizeSet_ext. intros x. rewrite !normalizeSet_elem. split.
  - intros [Hn (y & Hy & ->)]. split; [done|]. apply elem_of_app in Hy as [Hy|Hy].
    + apply normalizeSet_elem in Hy as (_ & z & Hz & ->). exists z. by rewrite normal_idem.
    + exists y. split; [apply elem_of_app; by right|done].
  - intros [Hn (y & Hy & ->)]. split; [done|]. exists (normal y). rewrite normal_idem. split; [|done].
    apply elem_of_app. left. apply normalizeSet_elem. split; [done|]. by exists y.
Qed.
Lemma scope_with_idem host l : scope_with host (scope_with host l) = scope_with host l.
Proof.
  unfold scope_with. cbv zeta. destruct (slices_Contains (normalizeSet l) host) eqn:E; rewrite normalizeSet_idem; [by rewrite E|].
  destruct (slices_Contains (normalizeSet (_ ++ _)) _); [done|]. apply normalizeSet_again.
Qed.

(** ** Declarations *)

(** A declaration without the digests it may name. *)
Definition undigested (d : ToolDeclaration) : ToolDeclaration :=
  mkToolDeclaration (td_Method d) "" "" (td_SideEffecting d) (td_UnitPrice d) (td_Idempotent d) (td_QuerySupported d).
Definition declarable (d : ToolDeclaration) : Prop :=
  td_Method d <> "" /\ 0 <= Amount (td_UnitPrice d) /\ len (Currency (td_UnitPrice d)) = 3.

Lemma declare_Ok l m m' : declare l m = Ok m' -> (forall k d, m !! k = Some d -> td_Method d = k /\ declarable d) ->
  forall k d, m' !! k = Some d -> td_Method d = k /\ declarable d.
Proof.
  revert m. induction l as [|t l IH]; cbn [declare]; intros m H Hm; [by injection H as <-|]. dif H as E1. dif H as E2. breflect.
  eapply IH; [exact H|]. intros k d. destruct (decide (k = td_Method t)) as [->|Hne].
  - rewrite lookup_insert_eq. intros [= <-]. split; [done|]. unfold declarable. split_and!; [done|lia|lia].
  - rewrite lookup_insert_ne by congruence. apply Hm.
Qed.
Lemma declare_total l m : NoDup (map td_Method l) -> Forall declarable l -> (forall t, t ∈ l -> m !! td_Method t = None) ->
  exists m', declare l m = Ok m' /\ forall k, m' !! k = match List.find (fun t => String.eqb (td_Method t) k) l with
                                                       | Some t => Some t | None => m !! k end.
Proof.
  revert m. induction l as [|t l IH]; cbn [declare map]; intros m Hnd Hl Hm; [by exists m|].
  apply NoDup_cons in Hnd as [Hnt Hnd]. apply Forall_cons in Hl as [(Hne & Ha & Hc) Hl].
  rewrite bool_decide_eq_false_2 by (rewrite (Hm t) by (by left); by intros []).
  rewrite (proj2 (String.eqb_neq _ _) Hne), (proj2 (Z.ltb_ge _ _)), (proj2 (Z.eqb_eq _ _) Hc) by lia. cbn [orb negb].
  destruct (IH (<[td_Method t := t]> m) Hnd Hl) as (m' & Hm' & Hk).
  - intros x Hx. rewrite lookup_insert_ne; [apply Hm; by right|]. intros E. apply Hnt. rewrite E.
    apply list_elem_of_In, in_map. by apply list_elem_of_In.
  - exists m'. split; [done|]. intros k. rewrite Hk. cbn [List.find]. destruct (String.eqb (td_Method t) k) eqn:E.
    + apply String.eqb_eq in E as <-. destruct (List.find _ l) as [x|] eqn:Ef; [|apply lookup_insert_eq].
      apply List.find_some in Ef as [Hx Ex]. breflect. destruct Hnt. rewrite <- Ex. apply list_elem_of_In. by apply in_map.
    + breflect. destruct (List.find _ l); [done|]. by rewrite lookup_insert_ne.
Qed.

Lemma bind_tool_again lt decl t : bind_tool lt decl = Ok t -> td_Method decl = lt_Name lt ->
  tl_Method t = lt_Name lt /\ declaration_of_tool t = undigested decl /\ bind_tool lt (undigested decl) = Ok t.
Proof.
  unfold bind_tool. intros H Hm. apply bind_Ok in H as (input & E1 & H). apply bind_Ok in H as (output & E2 & H).
  apply bind_Ok in H as (ann & E3 & H). rewrite E1, E2, E3. cbn. dif H as E. injection H as <-. split; [done|].
  split; [|done]. unfold declaration_of_tool, undigested. cbn. by rewrite Hm.
Qed.

(** The methods bound against undigested declarations: the same tools, each
    declared, and every declaration either bound or missing. *)
Lemma bind_tools_again live : forall decls acc schemas tools schemas' missing,
  bind_tools live decls acc schemas = Ok (tools, schemas', missing) -> (forall k d, decls !! k = Some d -> td_Method d = k) ->
  exists new, tools = acc ++ new /\ NoDup (map tl_Method new) /\
    bind_tools live (undigested <$> decls) acc schemas = Ok (tools, schemas', undigested <$> missing) /\
    (forall t, t ∈ new -> exists d, decls !! tl_Method t = Some d /\ declaration_of_tool t = undigested d) /\
    (forall k d, decls !! k = Some d -> missing !! k = Some d \/ k ∈ map tl_Method new).
Proof.
  induction live as [|lt live IH]; cbn [bind_tools]; intros decls acc schemas tools schemas' missing H Hk.
  - injection H as <- <- <-. exists []. rewrite app_nil_r. split_and!; [done|constructor|done|by intros t ?%elem_of_nil|by left].
  - rewrite lookup_fmap. destruct (decls !! lt_Name lt) as [decl|] eqn:Ed; [|done]. cbn [fmap option_fmap option_map].
    apply bind_Ok in H as (tool & Et & H). pose proof (Hk _ _ Ed) as Hm.
    destruct (bind_tool_again _ _ _ Et Hm) as (Hn & Hd & Et'). rewrite Et'. cbn [mbind result_bind].
    destruct (IH _ _ _ _ _ _ H) as (new & -> & Hnd & Hb & Hin & Hall).
    { intros k d [_ ?]%lookup_delete_Some. auto. }
    exists (tool :: new). rewrite <- app_assoc. split_and!; [done| |by rewrite <- fmap_delete, Hb, <- app_assoc| |].
    + cbn [map]. apply NoDup_cons. split; [|done]. intros Hx. apply list_elem_of_In, in_map_iff in Hx as (x & Ex & Hx%list_elem_of_In).
      apply Hin in Hx as (d & Hd' & _). rewrite Ex, Hn, lookup_delete_eq in Hd'. done.
    + intros t [->|Ht]%elem_of_cons; [exists decl; by rewrite Hn|]. destruct (Hin _ Ht) as (d & [_ Hd']%lookup_delete_Some & E). eauto.
    + intros k d Hkd. destruct (decide (k = lt_Name lt)) as [->|Hne]; [right; cbn [map]; rewrite Hn; by left|].
      destruct (Hall k d) as [?|?]; [by rewrite lookup_delete_ne|by left|right; cbn [map]; by right].
Qed.

(** ** Building again *)

Lemma sort_tools_methods l : map tl_Method (sort_tools l) ≡ₚ map tl_Method l.
Proof. unfold sort_tools. apply Permutation_map, sort_by_perm. Qed.

(** The tools of a descriptor, declared again, are the undigested
    declarations they were bound to. *)
Lemma declare_again decls declared new : declare decls ∅ = Ok declared -> NoDup (map tl_Method new) ->
  (forall t, t ∈ new -> exists d, declared !! tl_Method t = Some d /\ declaration_of_tool t = undigested d) ->
  (forall k d, declared !! k = Some d -> k ∈ map tl_Method new) ->
  declare (map declaration_of_tool (sort_tools new)) ∅ = Ok (undigested <$> declared).
Proof.
  intros Hd Hnd Hin Hall. pose proof (declare_Ok _ _ _ Hd ltac:(by intros k d ?%lookup_empty_Some)) as Hok.
  set (l := map declaration_of_tool (sort_tools new)).
  assert (forall t, t ∈ l -> exists d, declared !! td_Method t = Some d /\ t = undigested d) as Hl.
  { intros t Ht. unfold l in Ht. apply list_elem_of_In, in_map_iff in Ht as (x & <- & Hx%list_elem_of_In).
    unfold sort_tools in Hx. rewrite sort_by_perm in Hx. destruct (Hin _ Hx) as (d & Hd' & E). exists d. by rewrite <- E. }
  assert (map td_Method l ≡ₚ map tl_Method new) as Hp.
  { unfold l. rewrite map_map. apply sort_tools_methods. }
  destruct (declare_total l ∅) as (m' & Hm & Hk).
  - by rewrite Hp.
  - apply Forall_forall. intros t Ht. destruct (Hl _ Ht) as (d & Hd' & ->). destruct (Hok _ _ Hd') as [_ Hv]. exact Hv.
  - done.
  - rewrite Hm. f_equal. apply map_eq. intros k. rewrite Hk, lookup_fmap, lookup_empty.
    destruct (List.find _ l) as [t|] eqn:Ef.
    + apply List.find_some in Ef as [Ht Ek]. breflect. apply list_elem_of_In in Ht. destruct (Hl _ Ht) as (d & Hd' & ->).
      rewrite <- Ek, Hd'. done.
    + destruct (declared !! k) as [d|] eqn:E; [|done]. pose proof (Hall _ _ E) as Hx. rewrite <- Hp in Hx.
      apply list_elem_of_In, in_map_iff in Hx as (t & Et & Ht). apply (List.find_none _ _ Ef) in Ht.
      by rewrite Et, String.eqb_refl in Ht.
Qed.

(** What [BuildDescriptor] did. *)
Lemma BuildDescriptor_Ok decl live d : BuildDescriptor decl live = Ok d ->
  exists host declared tools schemas, CheckResource (dc_CanonicalResource decl) true = Ok host /\
    declare (dc_Tools decl) ∅ = Ok declared /\ bind_tools (ls_Tools live) declared [] ∅ = Ok (tools, schemas, ∅) /\
    dc_Transport decl = "streamable-http" /\ (DataClassRank (dc_DataClass decl) <? 0) = false /\
    ls_ProtocolVersion live = dc_ProtocolVersion decl /\ d_Digest d = DescriptorDigest d /\
    d = mkDescriptor "" "" 0 (dc_CanonicalResource decl) (dc_Transport decl) (dc_ProtocolVersion decl) (dc_Provenance decl)
          (d_Digest d) (sort_tools tools) (sortNamed (ls_Resources live)) (sortNamed (ls_Prompts live))
          (digestJSON (jarr named_json (sortNamed (ls_Resources live)))) (digestJSON (jarr named_json (sortNamed (ls_Prompts live))))
          (ls_Name live) (ls_Version live) (dc_DataClass decl) (scope_with host (dc_NetworkScope decl))
          (normalizeSet (dc_Licenses decl)) schemas (ls_Issuer live) (ls_Evidence live) (ls_ConnectionRef live)
          CatalogReviewPending "" "" "" zero_time zero_time.
Proof.
  unfold BuildDescriptor. intros H. dif H as E1. dif H as E2. apply bind_Ok in H as (host & Eh & H). cbv zeta in H. dif H as E3.
  apply bind_Ok in H as (declared & Ed & H). apply bind_Ok in H as ([[tools schemas] missing] & Eb & H). dif H as E4. dif H as E5.
  injection H as <-. breflect. subst missing. exists host, declared, tools, schemas. split_and!; done.
Qed.

Lemma BuildDescriptor_again decl live d : BuildDescriptor decl live = Ok d -> BuildDescriptor (DeclarationOf d) live = Ok d.
Proof.
  intros (host & declared & tools & schemas & Eh & Ed & Eb & Et & Ec & Ep & Edg & E)%BuildDescriptor_Ok.
  pose proof (declare_Ok _ _ _ Ed ltac:(by intros k x ?%lookup_empty_Some)) as Hok.
  destruct (bind_tools_again _ _ _ _ _ _ _ Eb ltac:(intros k x Hx; apply (Hok _ _ Hx))) as (new & Hnew & Hnd & Hb & Hin & Hall).
  cbn [app] in Hnew. subst new. rewrite fmap_empty in Hb.
  assert (declare (dc_Tools (DeclarationOf d)) ∅ = Ok (undigested <$> declared)) as Ed'.
  { rewrite E. apply (declare_again _ _ _ Ed Hnd Hin). intros k x Hx. by destruct (Hall _ _ Hx) as [?%lookup_empty_Some|]. }
  unfold BuildDescriptor. rewrite Ed'. clear Ed'.
  assert (dc_Transport (DeclarationOf d) = "streamable-http" /\ dc_DataClass (DeclarationOf d) = dc_DataClass decl /\
    dc_CanonicalResource (DeclarationOf d) = dc_CanonicalResource decl /\ dc_NetworkScope (DeclarationOf d) = scope_with host (dc_NetworkScope decl) /\
    dc_ProtocolVersion (DeclarationOf d) = dc_ProtocolVersion decl /\ dc_Licenses (DeclarationOf d) = normalizeSet (dc_Licenses decl) /\
    dc_Provenance (DeclarationOf d) = dc_Provenance decl /\ dc_ExpectedDigest (DeclarationOf d) = "")
    as (-> & -> & -> & -> & -> & -> & -> & ->) by (rewrite E; by split_and!).
  rewrite Ec, Eh, Ep, String.eqb_refl. cbn [negb result_bind mbind]. rewrite Hb, normalizeSet_idem. cbn [negb result_bind mbind].
  rewrite bool_decide_eq_true_2 by done. cbn [negb]. cbv zeta.
  pose proof (scope_with_idem host (dc_NetworkScope decl)) as Hs. unfold scope_with at 1 in Hs. cbv zeta in Hs. rewrite Hs.
  rewrite String.eqb_refl. cbn [negb andb]. f_equal. fold (scope_with host (dc_NetworkScope decl)).
  set (x := mkDescriptor "" "" 0 _ _ _ _ "" _ _ _ _ _ _ _ _ _ _ _ _ _ _ _ _ _ _ _ _).
  assert (DescriptorDigest x = d_Digest d) as ->; [|by rewrite E, Et].
  rewrite Edg. unfold DescriptorDigest, descriptor_json. rewrite E. unfold x. by rewrite Et.
Qed.

(** ** No drift without a change *)

(** The revision [Discover] records of a built descriptor. *)
Definition recorded_revision (d : Descriptor) (server tenant actor : string) (revision : Z) (cmd : Command) (stamp : option Time) :=
  inserted_descriptor (descriptor_params (d <| d_ServerID := server |> <| d_TenantID := tenant |> <| d_Revision := revision |>
    <| d_DiscoveredBy := actor |>) cmd) stamp.

(** What is declared again depends only on what a row keeps for good. *)
Lemma DeclarationOf_row d server tenant actor revision cmd stamp row s :
  descriptor_identity row = descriptor_identity (recorded_revision d server tenant actor revision cmd stamp) ->
  sv_CanonicalResource s = d_CanonicalResource d -> sv_Transport s = d_Transport d ->
  DeclarationOf (DescriptorFromRow row s) = DeclarationOf d /\ d_Digest (DescriptorFromRow row s) = d_Digest d.
Proof.
  intros E Er Et. unfold descriptor_identity in E. inversion E as [[H1 H2 H3 H4 H5 H6 H7 H8 H9]]. clear E.
  unfold DeclarationOf, DescriptorFromRow. cbn. rewrite Er, Et. split; [f_equal|]; congruence.
Qed.

(** C9. An unchanged server never drifts. Whatever a server answered when a
    revision was discovered, reading the same answer again against the
    recorded revision, at any later state of its row, rebuilds the reviewed
    digest: the refresh records no drift and no reason, so it disables
    nothing. This holds although the row's declaration is not the one that was
    discovered: its sets are normalized, its tools sorted, its scope extended
    by the host and its digests dropped. *)
Theorem unchanged_server_never_drifts decl live d server tenant actor revision cmd stamp row s errorText task gen worker :
  BuildDescriptor decl live = Ok d ->
  descriptor_identity row = descriptor_identity (recorded_revision d server tenant actor revision cmd stamp) ->
  sv_CanonicalResource s = dc_CanonicalResource decl -> sv_Transport s = dc_Transport decl ->
  let recorded := refresh_row errorText task gen worker (DescriptorFromRow row s) live in
  ir_Drift recorded = false /\ ir_DriftReason recorded = None /\
  ir_ReviewedDigest recorded = d_Digest d /\ ir_LiveDigest recorded = optStr (d_Digest d).
Proof.
  intros Hb Hi Hr Ht. pose proof (BuildDescriptor_again _ _ _ Hb) as Ha.
  destruct (DeclarationOf_row d server tenant actor revision cmd stamp row s) as [Ed Eg]; [done| | |].
  1,2: apply BuildDescriptor_Ok in Hb as (? & ? & ? & ? & _ & _ & _ & _ & _ & _ & _ & ->); done.
  unfold refresh_row, rebuilt. rewrite Ed, Ha, Eg, String.eqb_refl. done.
Qed.

Definition quiet_live : LiveServer :=
  mkLiveServer "files" "1" "2025-06-18" [mkLiveTool "write" "{}" "" ""; mkLiveTool "read" "{}" "" ""] [] [] "" "" "".
Definition loose_declaration : Declaration :=
  mkDeclaration "https://mcp.example.com/" "streamable-http" "2025-06-18" "" ""
    [mkToolDeclaration "read" "" "" false (mkMoney "EUR" 1) true false; mkToolDeclaration "write" "" "" true (mkMoney "EUR" 2) false true]
    "internal" [" B.example.com"; "b.example.com"] ["MIT "; "mit"].
Lemma loose_declaration_builds : match BuildDescriptor loose_declaration quiet_live with Ok _ => True | Err _ => False end.
Proof. by vm_compute. Qed.
Lemma unchanged_server_never_drifts_witness : exists d,
  BuildDescriptor loose_declaration quiet_live = Ok d /\
  ir_Drift (refresh_row (fun _ => "") "t" 1 "w" (DescriptorFromRow
    (recorded_revision d "srv" "tenant-1" "mia" 1 (mkCommand "tenant-1" "c" "mia" "d") None)
    (mkServer "srv" "tenant-1" "https://mcp.example.com/" "streamable-http" 1 None)) quiet_live) = false.
Proof.
  pose proof loose_declaration_builds as Hb. destruct (BuildDescriptor loose_declaration quiet_live) as [d|e] eqn:E; [|done].
  exists d. split; [done|].
  exact (proj1 (unchanged_server_never_drifts _ _ _ "srv" "tenant-1" "mia" 1 (mkCommand "tenant-1" "c" "mia" "d") None _
    (mkServer "srv" "tenant-1" "https://mcp.example.com/" "streamable-http" 1 None) (fun _ => "") "t" 1 "w" E eq_refl eq_refl eq_refl)).
Defined.
