(* ===== verification/SessionSpec.v ===== *)
(** * SessionSpec: the reviewed lock of a session, and honest outcomes

    A session opens exactly on the server that was discovered and reviewed,
    as far as the lock of the called method goes; and the outcome recorded
    for a call says what the server answered. *)

From S2P Require Import Prelude Errors GoStrings GoTrim GoCrypto GoJson GoNum GoUrl Task TaskLife Catalog Grant Call Event App Rows Sql SqlCalls SqlCatalog CallLife Invariant Prog Ports Network Egress Session Calls Grants CatalogApp Tasks Refresh CatalogSpec.

(** ** The lock *)

(** What a live server shows of a method: the protocol version, the server's
    name and version, the digests of the schemas and the annotations. *)
Definition tool_lock (t : sdk_tool) : res (string * string * string) :=
  i ← st_InputSchema t; i ← CanonicalDigest i;
  o ← marshal_any (st_OutputSchema t); o ← CanonicalDigest o;
  a ← default (Ok "") (st_Annotations t); a ← AnnotationsDigest a;
  Ok (i, o, a).
Definition lock_of (sv : sdk_server) (method : string) : option (string * (string * string) * (string * string * string)) :=
  match sv_Connect sv, find_tool method (sv_Tools sv) with
  | Ok i, Ok (Some t) => match tool_lock t with Ok l => Some (si_ProtocolVersion i, server_info i, l) | Err _ => None end
  | _, _ => None
  end.
(** The lock a call's target carries. *)
Definition target_lock (t : UpstreamTarget) : string * (string * string) * (string * string * string) :=
  (ut_ProtocolVersion t, (ut_ServerName t, ut_ServerVersion t), (ut_InputSchemaDigest t, ut_OutputSchemaDigest t, ut_AnnotationsDigest t)).
Definition target_in_scope (t : UpstreamTarget) : Prop :=
  exists u, Parse_URL (ut_Resource t) = Some u /\ HostInScope (Hostname u) (session_scope u (ut_NetworkScope t)) = true.

Lemma tool_lock_Ok t i o a : tool_lock t = Ok (i, o, a) <->
  schema_matches (st_InputSchema t) i = true /\ schema_matches (marshal_any (st_OutputSchema t)) o = true /\
  annotations_match (st_Annotations t) a = true.
Proof.
  unfold tool_lock, schema_matches, annotations_match.
  destruct (st_InputSchema t) as [ri|]; cbn; [|by split; [|intros [? _]]]. destruct (CanonicalDigest ri) as [di|]; cbn; [|by split; [|intros [? _]]].
  destruct (marshal_any (st_OutputSchema t)) as [ro|]; cbn; [|by split; [|intros (_ & ? & _)]]. destruct (CanonicalDigest ro) as [do|]; cbn; [|by split; [|intros (_ & ? & _)]].
  destruct (default (Ok "") (st_Annotations t)) as [ra|]; cbn; [|by split; [|intros (_ & _ & ?)]]. destruct (AnnotationsDigest ra) as [da|]; cbn; [|by split; [|intros (_ & _ & ?)]].
  rewrite !String.eqb_eq. split; [by intros [= <- <- <-]|by intros (-> & -> & ->)].
Qed.

Lemma Open_iff sv t : Open sv t = Opened <-> target_in_scope t /\ lock_of sv (ut_Method t) = Some (target_lock t).
Proof.
  unfold Open, target_in_scope, lock_of, target_lock. destruct (Parse_URL (ut_Resource t)) as [u|]; [|by split; [|intros [(? & ? & _) _]]].
  destruct (HostInScope _ _) eqn:Eh; cbn [negb]; [|split; [done|intros [(v & [= <-] & Hv) _]; congruence]].
  destruct (sv_Connect sv) as [i|e]; [|by split; [|intros [_ ?]]].
  destruct (find_tool _ _) as [[tool|]|e]; cycle 1.
  1,2: split; [by destruct (negb _); [|destruct (server_info i) as [? ?]; destruct (_ || _)]|by intros [_ ?]].
  destruct (server_info i) as [name ver].
  destruct (String.eqb_spec (si_ProtocolVersion i) (ut_ProtocolVersion t)) as [<-|Hp]; cbn [negb]; cycle 1.
  { split; [done|]. intros [_ H]. destruct (tool_lock tool); [|done]. congruence. }
  destruct (String.eqb_spec name (ut_ServerName t)) as [<-|Hn]; cbn [negb orb]; cycle 1.
  { split; [done|]. intros [_ H]. destruct (tool_lock tool); [|done]. congruence. }
  destruct (String.eqb_spec ver (ut_ServerVersion t)) as [<-|Hv]; cbn [negb orb]; cycle 1.
  { split; [done|]. intros [_ H]. destruct (tool_lock tool); [|done]. congruence. }
  pose proof (tool_lock_Ok tool (ut_InputSchemaDigest t) (ut_OutputSchemaDigest t) (ut_AnnotationsDigest t)) as Hl.
  destruct (schema_matches (st_InputSchema tool) _), (schema_matches (marshal_any _) _), (annotations_match _ _); cbn [negb];
    (split; [intros H|intros [_ H]]); try done.
  1: { split; [by exists u|]. destruct Hl as [_ Hl]. by rewrite Hl. }
  all: destruct (tool_lock tool) as [l|]; [|done]; injection H as ->; destruct Hl as [Hl _]; by destruct (Hl eq_refl) as (? & ? & ?).
Qed.

(** ** Discovery reads the lock the review binds *)

Definition live_of (t : sdk_tool) (lt : LiveTool) : Prop :=
  lt_Name lt = st_Name t /\ st_InputSchema t = Ok (lt_InputSchema lt) /\
  default (Ok "") (st_OutputSchema t) = Ok (lt_OutputSchema lt) /\ default (Ok "") (st_Annotations t) = Ok (lt_Annotations lt).
Lemma list_tools_Ok tools acc l : (List.length acc <= maxListed)%nat -> list_tools tools acc = Ok l ->
  (List.length l <= maxListed)%nat /\ exists new, l = acc ++ new /\ Forall2 (fun r lt => exists t, r = Ok t /\ live_of t lt) tools new.
Proof.
  revert acc. induction tools as [|[t|e] tools IH]; intros acc Ha; cbn [list_tools]; [| |done].
  - intros [= <-]. split; [done|]. exists []. rewrite app_nil_r. split; [done|constructor].
  - destruct (Nat.eqb_spec (List.length acc) maxListed) as [|Hne]; [done|].
    destruct (st_InputSchema t) as [i|] eqn:Ei; [|done]. destruct (default (Ok "") (st_OutputSchema t)) as [o|] eqn:Eo; [|done].
    destruct (default (Ok "") (st_Annotations t)) as [a|] eqn:Ea; [|done].
    intros [Hl (new & -> & Hnew)]%IH; [|rewrite length_app; cbn [List.length]; lia]. split; [done|].
    exists (mkLiveTool (st_Name t) i o a :: new). rewrite <- app_assoc. split; [done|]. constructor; [by exists t|done].
Qed.

Definition binds (lt : LiveTool) (tool : Tool) : Prop :=
  tl_Method tool = lt_Name lt /\ CanonicalDigest (lt_InputSchema lt) = Ok (tl_InputSchemaDigest tool) /\
  CanonicalDigest (lt_OutputSchema lt) = Ok (tl_OutputSchemaDigest tool) /\ AnnotationsDigest (lt_Annotations lt) = Ok (tl_AnnotationsDigest tool).
Lemma bind_tools_binds live : forall decls acc schemas tools schemas' missing,
  bind_tools live decls acc schemas = Ok (tools, schemas', missing) -> exists new, tools = acc ++ new /\ Forall2 binds live new.
Proof.
  induction live as [|lt live IH]; cbn [bind_tools]; intros decls acc schemas tools schemas' missing H.
  - injection H as <- <- <-. exists []. by rewrite app_nil_r.
  - destruct (decls !! lt_Name lt) as [decl|]; [|done]. apply bind_Ok in H as (tool & Et & H).
    destruct (IH _ _ _ _ _ _ H) as (new & -> & Hnew). exists (tool :: new). rewrite <- app_assoc. split; [done|]. constructor; [|done].
    unfold bind_tool in Et. apply bind_Ok in Et as (i & Ei & Et). apply bind_Ok in Et as (o & Eo & Et). apply bind_Ok in Et as (a & Ea & Et).
    dif Et as E. by injection Et as <-.
Qed.

(** A schema that is absent and one that is null digest alike. *)
Lemma null_digest : CanonicalDigest "null" = CanonicalDigest "".
Proof. reflexivity. Qed.
Lemma live_lock t lt tool : live_of t lt -> binds lt tool ->
  tool_lock t = Ok (tl_InputSchemaDigest tool, tl_OutputSchemaDigest tool, tl_AnnotationsDigest tool).
Proof.
  intros (_ & Hi & Ho & Ha) (_ & Di & Do & Da). unfold tool_lock. rewrite Hi. cbn [mbind result_bind]. rewrite Di. cbn [mbind result_bind].
  destruct (st_OutputSchema t) as [o|]; cbn [default marshal_any] in *.
  - rewrite Ho. cbn [mbind result_bind]. rewrite Do. cbn [mbind result_bind]. rewrite Ha. cbn [mbind result_bind]. by rewrite Da.
  - injection Ho as Ho. rewrite <- Ho in Do. unfold marshal_any. cbn [default mbind result_bind]. rewrite null_digest, Do. cbn [mbind result_bind].
    rewrite Ha. cbn [mbind result_bind]. by rewrite Da.
Qed.

Lemma find_tool_bound tools live new m tool :
  Forall2 (fun r lt => exists t, r = Ok t /\ live_of t lt) tools live -> Forall2 binds live new ->
  NoDup (map tl_Method new) -> tool ∈ new -> tl_Method tool = m ->
  exists t lt, find_tool m tools = Ok (Some t) /\ live_of t lt /\ binds lt tool.
Proof.
  intros Hl Hb. revert tools Hl. induction Hb as [|lt tool0 live new Hbind _ IH]; intros tools Hl Hnd Hin Hm; [by apply elem_of_nil in Hin|].
  apply Forall2_cons_inv_r in Hl as (r & tools' & (t & -> & Ht) & Hl & ->). cbn [map] in Hnd. apply NoDup_cons in Hnd as [Hni Hnd].
  cbn [find_tool]. pose proof Ht as (Hn & _). pose proof Hbind as (Hm0 & _).
  apply elem_of_cons in Hin as [->|Hin].
  - rewrite <- Hn, <- Hm0, Hm, String.eqb_refl. by exists t, lt.
  - destruct (String.eqb_spec (st_Name t) m) as [E|_]; [|by apply IH].
    exfalso. apply Hni. rewrite Hm0, Hn, E, <- Hm. by apply list_elem_of_In, in_map, list_elem_of_In.
Qed.

Lemma discovered_lock authorized sv now resource live decl d m tool :
  Session.Discover authorized sv now resource = Ok live -> BuildDescriptor decl live = Ok d -> Method d m = Some tool ->
  lock_of sv m = Some (d_ProtocolVersion d, (d_ServerName d, d_ServerVersion d),
                       (tl_InputSchemaDigest tool, tl_OutputSchemaDigest tool, tl_AnnotationsDigest tool)).
Proof.
  intros Hd Hb Hm. unfold Session.Discover in Hd. destruct (Parse_URL resource) as [u|]; [|done]. dif Hd as Eh.
  destruct authorized as [[token issuer]|]; [|done]. unfold lock_of. destruct (sv_Connect sv) as [i|]; [|done].
  apply bind_Ok in Hd as (tools & Et & Hd). apply bind_Ok in Hd as (resources & _ & Hd). apply bind_Ok in Hd as (prompts & _ & Hd).
  injection Hd as <-. apply list_tools_Ok in Et as [_ (lts & -> & Hl)]; [|cbn; lia]. cbn [app] in Hb.
  apply BuildDescriptor_Ok in Hb as (host & declared & btools & schemas & _ & Hdecl & Hbind & _ & _ & Hp & _ & Ed). cbn [ls_Tools ls_ProtocolVersion] in *.
  pose proof (declare_Ok _ _ _ Hdecl ltac:(by intros k x ?%lookup_empty_Some)) as Hok.
  destruct (bind_tools_again _ _ _ _ _ _ _ Hbind ltac:(intros k x Hx; apply (Hok _ _ Hx))) as (new & Enew & Hnd & _). cbn [app] in Enew.
  destruct (bind_tools_binds _ _ _ _ _ _ _ Hbind) as (new' & Enew' & Hbinds). cbn [app] in Enew'. subst btools. subst new'.
  unfold Method in Hm. apply find_some in Hm as [Hin Hm]. breflect. apply list_elem_of_In in Hin.
  rewrite Ed in Hin. cbn [d_Tools] in Hin. unfold sort_tools in Hin. rewrite sort_by_perm in Hin.
  destruct (find_tool_bound _ _ _ _ _ Hl Hbinds Hnd Hin Hm) as (t & lt & -> & Hlive & Hbt).
  rewrite (live_lock _ _ _ Hlive Hbt), Ed. cbn. by rewrite Hp, <- surjective_pairing.
Qed.

(** C23. A session opens exactly on what was reviewed. Take a revision built
    from a discovery of a server, one of its methods and the target a call of
    it gets. Opening a session for that call, against whatever server then
    answers, succeeds if and only if the resource's host is in the revision's
    network scope and the server shows the same protocol version, name and
    version, and for the first tool of that name the same schema digests and
    annotations as the discovered one did; every refusal says that nothing was
    sent. In particular it opens on the discovered server itself. *)
Theorem session_opens_on_reviewed_server authorized sv now resource live decl d call g token tool sv' :
  Session.Discover authorized sv now resource = Ok live -> BuildDescriptor decl live = Ok d ->
  Method d (c_Method call) = Some tool -> c_ProtocolVersion call = d_ProtocolVersion d ->
  let t := target call g d token in
  (Open sv' t = Opened <-> target_in_scope t /\ lock_of sv' (c_Method call) = lock_of sv (c_Method call)) /\
  (Open sv' t = Opened \/ exists code, Open sv' t = NotSentError code) /\ is_Some (lock_of sv (c_Method call)).
Proof.
  intros Hd Hb Hm Hp t. pose proof (discovered_lock _ _ _ _ _ _ _ _ _ Hd Hb Hm) as Hl. split_and!.
  - rewrite Open_iff, Hl. unfold t, target, target_lock. rewrite Hm, Hp. done.
  - unfold Open, qualify. repeat (case_match; try (by right; eexists); try (by left)).
  - by rewrite Hl.
Qed.

(** A server read, reviewed, and then met again with and without a changed schema. *)
Definition files_server (schema : string) : sdk_server :=
  mkSdkServer (Ok (mkSdkInit "2025-06-18" (Some ("files", "1")) false false))
    [Ok (mkSdkTool "write" (Ok "{}") None None); Ok (mkSdkTool "read" (Ok schema) None None)] [] [].
Definition files_call : Call :=
  mkCall "call-1" "tenant-1" "grant-1" 1 "srv" 1 "" "2025-06-18" "streamable-http" "go-sdk" "read" false (mkMoney "EUR" 0) "" ""
    "{}" "" "" "" 0 CallAdmitted "" "" None "" "" None None None 0 "" "" 0 0 0.
Definition files_discovered : res LiveServer :=
  Session.Discover (Ok ("", "")) (files_server "{}") 0 "https://mcp.example.com/".
Lemma files_build : match files_discovered with
  | Ok live => match BuildDescriptor loose_declaration live with
               | Ok d => match Method d "read" with Some _ => d_ProtocolVersion d = "2025-06-18" | None => False end
               | Err _ => False end
  | Err _ => False end.
Proof. by vm_compute. Qed.
Lemma session_opens_on_reviewed_server_witness : exists live d, files_discovered = Ok live /\ BuildDescriptor loose_declaration live = Ok d /\
  forall g token, Open (files_server "[]") (target files_call g d token) = Opened ->
    lock_of (files_server "[]") "read" = lock_of (files_server "{}") "read".
Proof.
  pose proof files_build as Hb. destruct files_discovered as [live|] eqn:Ed; [|done].
  destruct (BuildDescriptor loose_declaration live) as [d|] eqn:E; [|done]. destruct (Method d "read") as [tool|] eqn:Em; [|done].
  exists live, d. split; [exact eq_refl|]. split; [exact E|]. intros g token Ho.
  pose proof (proj1 (session_opens_on_reviewed_server _ _ _ _ _ _ _ files_call g token tool (files_server "[]") Ed E Em (eq_sym Hb))) as H.
  exact (proj2 (proj1 H Ho)).
Defined.

(** ** What a send records *)

Lemma wire_answer_Some e code message : wire_answer e = Some (code, message) ->
  WireError code message ∈ e /\ code ∉ localCodes /\ Forall (fun l => cut_off l = false) e.
Proof.
  unfold wire_answer. destruct (as_wire e) as [[c m]|] eqn:Ew; [|done]. destruct (answered e c) eqn:Ea; [|done]. intros [= -> ->].
  unfold answered in Ea. apply andb_true_iff in Ea as [Hl Hc]. apply negb_true_iff in Hl, Hc. split_and!.
  - clear Hl Hc. revert Ew. induction e as [|[] e IH]; cbn [as_wire]; try done; intros H; try (right; by apply IH). injection H as -> ->. by left.
  - intros Hin. assert (existsb (Z.eqb code) localCodes = true) as H; [|congruence]. apply existsb_exists. exists code.
    split; [by apply list_elem_of_In|apply Z.eqb_refl].
  - apply Forall_forall. intros l Hin. destruct (cut_off l) eqn:E; [|done]. assert (existsb cut_off e = true) as H; [|congruence].
    apply existsb_exists. exists l. split; [by apply list_elem_of_In|done].
Qed.

(** A result that can be kept. *)
Definition kept (maxBytes : Z) (a : call_answer) (r : tool_result) (text native : string) : Prop :=
  a = CallResult r /\ cr_native r = Ok native /\ Normalize r = Ok text /\ len text <= maxBytes /\ len native <= maxBytes.
(** No answer arrived: an error without a JSON-RPC answer and without a body
    beyond the bound. *)
Definition unanswered (a : call_answer) : Prop :=
  exists e, a = CallFailure e false /\ wire_answer e = None /\ existsb is_too_large e = false.
(** How the answer is judged: three ways to end, told apart by the answer. *)
Lemma Send_cases maxBytes a :
  (unanswered a /\ Send maxBytes a = (mkUpstreamReply None None false, UnknownError CallOutcomeUnknown)) \/
  (~ unanswered a /\ exists native code, Send maxBytes a = (mkUpstreamReply None (Some native) false, AnsweredError code) /\
     (code = CallProtocolError \/ code = CallResultTooLarge) /\ forall r text native, ~ kept maxBytes a r text native) \/
  (~ unanswered a /\ exists r text native, kept maxBytes a r text native /\
     Send maxBytes a = (mkUpstreamReply (Some text) (Some native) (cr_IsError r), Answered_ok)).
Proof.
  unfold unanswered, kept, Send. cbv zeta. destruct a as [e overflow|r].
  - destruct (wire_answer e) as [[code message]|] eqn:Ew.
    + right; left. split; [intros (e' & [= <- ->] & ? & _); congruence|]. eexists _, _. split_and!; [done|by left|by intros ? ? ? [? _]].
    + destruct (existsb is_too_large e || overflow) eqn:Eo.
      * right; left. split; [intros (e' & [= <- ->] & _ & E); by rewrite E in Eo|]. eexists _, _. split_and!; [done|by right|by intros ? ? ? [? _]].
      * apply orb_false_iff in Eo as [E ->]. left. split; [by exists e|done].
  - right. destruct (cr_native r) as [native|] eqn:En; cycle 1.
    { left. split; [by intros (? & ? & _)|]. eexists _, _. split_and!; [done|by left|]. intros ? ? ? (H & H2 & _). injection H as <-. congruence. }
    destruct (Normalize r) as [text|] eqn:Et; cycle 1.
    { left. split; [by intros (? & ? & _)|]. eexists _, _. split_and!; [done|by left|]. intros ? ? ? (H & _ & H2 & _). injection H as <-. congruence. }
    destruct (_ || _) eqn:E.
    + left. split; [by intros (? & ? & _)|]. eexists _, _. split_and!; [done|by right|]. intros ? ? ? (H & H1 & H2 & H3 & H4). injection H as <-.
      rewrite En in H1. rewrite Et in H2. injection H1 as <-. injection H2 as <-. apply orb_true_iff in E as [E|E]; lia.
    + right. apply orb_false_iff in E as [E1 E2]. split; [by intros (? & ? & _)|]. exists r, text, native. split_and!; try done; lia.
Qed.

(** C25. The recorded outcome is what the server answered. A call is recorded
    unknown exactly when no answer of the server arrived, and then without
    result and usage; succeeded exactly when a result that is not an error
    came back and fits, encoded and normalized, into the bound, and then with
    that normalized result; a result is recorded only within the bound. An
    error counts as the server's answer only with a code the library does not
    make itself and with no failure of the connection beneath it. *)
Theorem outcome_says_what_was_answered maxBytes a call :
  let '(reply, err) := Send maxBytes a in let p := outcome_params call reply err in
  (so_State p = CallUnknown <-> unanswered a) /\ (so_UsageUnits p = None <-> unanswered a) /\
  (so_State p = CallSucceeded <-> exists r text native, kept maxBytes a r text native /\ cr_IsError r = false) /\
  (forall result, so_Result p = Some result -> exists r native, kept maxBytes a r result native /\ so_ResultDigest p = Some (DigestBytes result)) /\
  (forall e overflow code message, a = CallFailure e overflow -> wire_answer e = Some (code, message) ->
     WireError code message ∈ e /\ code ∉ localCodes /\ Forall (fun l => cut_off l = false) e).
Proof.
  destruct (Send_cases maxBytes a) as [[Hu ->]|[(Hu & native & code & -> & Hc & Hk)|(Hu & r & text & native & Hk & ->)]].
  - cbn. split_and!; try done; [split; [done|]|intros; by apply wire_answer_Some]. destruct Hu as (e & -> & _). by intros (r & text & native & (? & _) & _).
  - cbn. split_and!; try done; [|intros; by apply wire_answer_Some]. split; [done|]. intros (r & text & nat & H & _). by apply Hk in H.
  - unfold outcome_params, judge. cbn [up_IsError]. pose proof Hk as (Ha & Hn & Ht & _).
    assert (forall r' text' native', kept maxBytes a r' text' native' -> r' = r /\ text' = text) as Huniq.
    { intros r' text' native' (Ha' & _ & Ht' & _). rewrite Ha in Ha'. injection Ha' as <-. rewrite Ht in Ht'. by injection Ht' as <-. }
    destruct (cr_IsError r) eqn:Ei; cbn; split_and!; try done.
    all: try (by intros; apply wire_answer_Some).
    all: try (intros result [= <-]; by exists r, native).
    + split; [done|]. intros (r' & text' & native' & [-> _]%Huniq & H). congruence.
    + split; [|done]. intros _. by exists r, text, native.
Qed.
(** A refusal by the server, a cut connection and a result beyond the bound. *)
Definition refused_answer : call_answer := CallFailure [OtherError; WireError (-32602) "bad arguments"] false.
Definition cut_answer : call_answer := CallFailure [UrlError; WireError (-32004) "closing"] false.
Example judged : map (fun a => let '(reply, err) := Send 64 a in judge reply err)
    [refused_answer; cut_answer; CallResult (mkToolResult [TextContent "hi"] false None (Ok "{}"));
     CallResult (mkToolResult [TextContent "a text that is longer than the bound allows"] false None (Ok "{}"))] =
  [(CallFailed, CallProtocolError); (CallUnknown, CallOutcomeUnknown); (CallFailed, CallResultTooLarge); (CallFailed, CallResultTooLarge)].
Proof. vm_compute. reflexivity. Qed.
Lemma outcome_says_what_was_answered_witness :
  unanswered cut_answer /\ so_State (let '(reply, err) := Send 64 cut_answer in outcome_params files_call reply err) = CallUnknown.
Proof.
  assert (H : unanswered cut_answer) by (exists [UrlError; WireError (-32004) "closing"]; split_and!; reflexivity). split; [exact H|].
  destruct (outcome_says_what_was_answered 64 cut_answer files_call) as (Hs & _). exact (proj2 Hs H).
Defined.
