(* ===== verification/GrantsSafe.v ===== *)
(** * GrantsSafe: the transactions of the grants keep the invariant

    Every transaction of [Grants] is a sequence of elementary steps; the one
    that makes a grant revoked is so only when none of its calls is open. *)

From S2P Require Import Prelude Table Errors GoStrings GoCrypto GoJson GoNum GoUrl Task TaskLife Catalog Grant Call Event App Rows Sql SqlCalls SqlCatalog CallLife Invariant Prog Ports Grants.

(** ** Statements *)

Lemma limited_steps {A} n (f : DB -> list A) : steps_tx (limited n f).
Proof.
  unfold limited. destruct (_ <? _); [|auto with steps]. by intros except d x d' _ H.
Qed.
#[export] Hint Resolve limited_steps : steps.

Lemma lock_Ok id d cur d' : lock id d = Ok (cur, d') <-> exists g, db_grants d !! id = Some g /\ cur = GrantFromRow g /\ d' = d.
Proof.
  unfold lock. rewrite tx_bind_Ok. setoid_rewrite unwrap_Ok. split.
  - intros (g & d1 & [Hg ->]%gets_Ok & [-> ->]%mret_Ok). by exists g.
  - intros (g & Hg & -> & ->). exists g, d. split; [by apply gets_Ok|by apply mret_Ok].
Qed.

Lemma update_Ok next read d u d' : update next read d = Ok (u, d') <->
  exists g, db_grants d !! g_GrantID next = Some g /\ gw_State g = read /\
    d' = d <| db_grants := <[g_GrantID next := barrier_row g (BarrierParams next read) (db_stamp d)]> (db_grants d) |>.
Proof.
  unfold update, UpdateGrantBarrier. rewrite tx_bind_Ok. cbn [BarrierParams ub_GrantID ub_ExpectedState].
  destruct (db_grants d !! g_GrantID next) as [g|].
  - destruct (bool_decide (gw_State g = read)) eqn:E; breflect.
    + split.
      * intros (n & d1 & [= <- <-] & [_ ->]%mret_Ok). by exists g.
      * intros (x & [= <-] & _ & ->). eexists 1, _. split; [done|]. by destruct u.
    + split; [by intros (n & d1 & [= <- <-] & Hf)|by intros (x & [= <-] & ? & _)].
  - split; [by intros (n & d1 & [= <- <-] & Hf)|by intros (x & ? & _)].
Qed.

Lemma decide_Ok gr decision decider reason commandID digest d u d' :
  decide_ gr decision decider reason commandID digest d = Ok (u, d') ->
  exists x, db_decisions d !! idOf "gd-" [g_GrantID gr; decision; commandID] = None /\
    d' = d <| db_decisions := <[idOf "gd-" [g_GrantID gr; decision; commandID] := x]> (db_decisions d) |> /\
    gd_GrantID x = g_GrantID gr /\ gd_Decision x = decision /\ gd_Decider x = decider /\ gd_CommandID x = commandID /\
    gd_RequestDigest x = digest /\ gd_TenantID x = g_TenantID gr /\ gd_DecisionID x = idOf "gd-" [g_GrantID gr; decision; commandID].
Proof.
  unfold decide_, InsertGrantDecision. cbn [id_DecisionID]. destruct (bool_decide _) eqn:E; [done|]. intros [= <- <-]. breflect.
  eexists. split; [by apply eq_None_not_Some|]. by split_and!.
Qed.
(** A decision on a stored grant. *)
Definition stored (gr : Grant) (d : DB) : Prop := exists g, db_grants d !! g_GrantID gr = Some g /\ gw_TenantID g = g_TenantID gr.
Lemma decide_elem gr decision decider reason commandID digest d u d' : stored gr d ->
  decide_ gr decision decider reason commandID digest d = Ok (u, d') -> elem_step d d'.
Proof.
  intros (g & Hg & Ht) (x & Hn & -> & Hx & _ & _ & _ & _ & Hxt & Hid)%decide_Ok. apply ss_decision; [done|]. split; [done|].
  exists g. by rewrite Hx, Hxt.
Qed.
Lemma decide_steps gr decision decider reason commandID digest d u d' : stored gr d ->
  decide_ gr decision decider reason commandID digest d = Ok (u, d') -> rtc sys_step d d'.
Proof.
  intros Hg H. pose proof (decide_elem _ _ _ _ _ _ _ _ _ Hg H) as Hs. apply decide_Ok in H as (x & _ & -> & _).
  apply rtc_once, quiet_step; [exact Hs|done..].
Qed.

(** The next event of an aggregate. *)
Lemma event_Ok ty id (mk : Z -> Envelope) except d u d' : tables_okx except d -> counted ty = true ->
  (forall rev, e_AggregateType (mk rev) = ty /\ e_AggregateID (mk rev) = id /\ e_AggregateRevision (mk rev) = format_int rev) ->
  (forall rev, announces (db_grants d) (db_servers d) (mk rev)) ->
  (rev ← nextEventRevision ty id; Publish (mk rev)) d = Ok (u, d') ->
  elem_step d d' /\ exists n, d' = d <| db_event_revisions := <[(ty, id) := n]> (db_event_revisions d) |>
                                   <| db_outbox := db_outbox d ++ [mk n] |>.
Proof.
  intros Hok Hc Hmk Han (n & d1 & (n0 & d2 & Hn & [-> ->]%mret_Ok)%tx_bind_Ok & ->%modify_Ok)%tx_bind_Ok.
  unfold NextEventRevision in Hn. destruct (_ <? _) eqn:E; [|done]. injection Hn as <- <-. breflect.
  destruct (sk_events _ _ Hok ty id Hc) as [Hr _].
  assert (match db_event_revisions d !! (ty, id) with Some r => r + 1 | None => 1 end = default 0 (db_event_revisions d !! (ty, id)) + 1) as En
    by (by destruct (db_event_revisions d !! (ty, id))).
  rewrite En in *. set (n := default 0 _ + 1) in *. rewrite u64_id by (unfold is_u64; lia).
  destruct (Hmk n) as (H1 & H2 & H3). split; [|by exists n]. pose proof (ss_event d (mk n) n) as Hs. rewrite H1, H2, H3 in Hs.
  by apply Hs.
Qed.
(** An update of the barrier columns is a step of the grant. *)
Lemma barrier_step g next stamp : gw_State g <> GrantRevoked ->
  (g_State next = gw_State g \/ grant_move (gw_State g) (g_State next)) ->
  (g_State next = GrantRevoked -> g_ControlState next = "converged") ->
  grant_step g (barrier_row g (BarrierParams next (gw_State g)) stamp).
Proof. intros H1 H2 H3. by split_and!. Qed.
Lemma update_elem g next read d u d' : db_grants d !! g_GrantID next = Some g -> gw_State g <> GrantRevoked ->
  (g_State next = gw_State g \/ grant_move (gw_State g) (g_State next)) ->
  (g_State next = GrantRevoked -> g_ControlState next = "converged" /\ no_open_call (db_tools d) (g_GrantID next)) ->
  update next read d = Ok (u, d') -> elem_step d d'.
Proof.
  intros Hg H1 H2 H3 (x & Hx & <- & ->)%update_Ok. rewrite Hg in Hx. injection Hx as <-.
  eapply ss_grant; [done|by apply barrier_step; [..|intros ?%H3; destruct_and!]|]. intros Hst. by apply H3.
Qed.
Lemma update_steps g next read d u d' : db_grants d !! g_GrantID next = Some g -> gw_State g <> GrantRevoked ->
  (g_State next = gw_State g \/ grant_move (gw_State g) (g_State next)) ->
  (g_State next = GrantRevoked -> g_ControlState next = "converged" /\ no_open_call (db_tools d) (g_GrantID next)) ->
  (withdrawn_grant (g_State next) = true -> withdrawn_grant (gw_State g) = true) ->
  update next read d = Ok (u, d') -> sys_step d d'.
Proof.
  intros Hg H1 H2 H3 Hw H. pose proof (update_elem _ _ _ _ _ _ Hg H1 H2 H3 H) as Hs. apply update_Ok in H as (x & Hx & <- & ->).
  rewrite Hg in Hx. injection Hx as <-. apply grant_kept; [done|]. intros Hwn. exists g. split; [done|]. by apply Hw.
Qed.

(** ** Transactions *)

Lemma sys_okx_step except d d' : sys_okx except d -> sys_step d d' -> sys_okx except d'.
Proof. intros Hok Hs. by eapply sys_step_ok. Qed.
Lemma grants_key except d id g : sys_okx except d -> db_grants d !! id = Some g -> g_GrantID (GrantFromRow g) = id.
Proof. intros Hok Hg. by apply (sk_grants _ _ Hok). Qed.

Lemma stored_row except d id g gr : sys_okx except d -> db_grants d !! id = Some g -> g_GrantID gr = g_GrantID (GrantFromRow g) ->
  g_TenantID gr = g_TenantID (GrantFromRow g) -> stored gr d.
Proof. intros Hok Hg E1 E2. exists g. rewrite E1, E2, (grants_key _ _ _ _ Hok Hg). by split. Qed.

(** The revocation of a locked grant. *)
Lemma revokeLocked_steps except d id g commandID digest decider reason stamps u d' :
  sys_okx except d -> db_grants d !! id = Some g -> gw_State g <> GrantRevoking -> gw_State g <> GrantRevoked ->
  revokeLocked (GrantFromRow g) commandID digest decider reason stamps d = Ok (u, d') ->
  rtc sys_step d d' /\ exists g', grant_step g g' /\ gw_State g' = GrantRevoking /\ db_grants d' = <[id := g']> (db_grants d).
Proof.
  intros Hok Hg H1 H2. pose proof (grants_key _ _ _ _ Hok Hg) as Hid. unfold revokeLocked. cbv zeta. set (next := update_field _ _).
  intros ([] & d1 & Hu & ([] & d2 & Hd & He)%tx_bind_Ok)%tx_bind_Ok.
  assert (g_GrantID next = id) as Hn by exact Hid. assert (grant_move (gw_State g) (g_State next)) as Hm by (by constructor).
  assert (elem_step d d1) as S1 by (eapply (update_elem g next); [by rewrite Hn|done|by right|done|exact Hu]).
  apply update_Ok in Hu as (x & Hx & _ & ->). rewrite Hn, Hg in Hx. injection Hx as <-.
  assert (elem_step (d <| db_grants := <[g_GrantID next := barrier_row g (BarrierParams next (gw_State g)) (db_stamp d)]> (db_grants d) |>) d2) as S1'
    by (eapply decide_elem; [|exact Hd]; eexists; split; [apply lookup_insert_eq|done]).
  apply decide_Ok in Hd as (y & Hy & -> & _). destruct (stamps (g_GrantID next)) as [now eventID].
  assert (rtc elem_step d _) as S2 by (eapply rtc_l; [exact S1|]; apply rtc_once, S1').
  apply (event_Ok AggregateGrant (g_GrantID next) (fun rev => GrantRevokedEvent eventID next rev commandID now)
           except) in He as [S3 (n & ->)]; [|by eapply elem_steps; [exact S2|apply Hok]|done..|].
  2: { intros rev. eapply an_grant; [cbn; apply lookup_insert_eq|done|done]. }
  split.
  - apply rtc_once. split; [etrans; [exact S2|by apply rtc_once]|].
    apply (withdrawn_step d _ [GrantRevokedEvent eventID next n commandID now]); [done|..]; cbn [db_grants db_descriptors db_outbox].
    + intros i x Hx Hwx. destruct (decide (i = g_GrantID next)) as [->|Hne].
      * right. exists (GrantRevokedEvent eventID next n commandID now). split; [apply elem_of_app; right; by left|].
        by apply of_aggregate_spec.
      * left. exists x. split; [|done].
        change (<[g_GrantID next := barrier_row g (BarrierParams next (gw_State g)) (db_stamp d)]> (db_grants d) !! i = Some x) in Hx.
        by rewrite lookup_insert_ne in Hx by congruence.
    + intros k x Hx Hwx. left. by exists x.
  - exists (barrier_row g (BarrierParams next (gw_State g)) (db_stamp d)).
    split; [apply barrier_step; [done|by right|done]|split; [done|]].
    exact (f_equal (fun i => <[i := barrier_row g (BarrierParams next (gw_State g)) (db_stamp d)]> (db_grants d)) Hn).
Qed.

Lemma revokeIn_Ok except d id commandID label decider reason stamps u d' :
  sys_okx except d -> revokeIn id commandID label decider reason stamps d = Ok (u, d') ->
  rtc sys_step d d' /\ exists g g', db_grants d !! id = Some g /\ db_grants d' = <[id := g']> (db_grants d) /\
    grant_le g g' /\ closed (gw_State g') = true.
Proof.
  intros Hok (cur & d1 & (g & Hg & -> & ->)%lock_Ok & Hr)%tx_bind_Ok. destruct (_ || _) eqn:E.
  - apply mret_Ok in Hr as [_ ->]. split; [constructor|]. exists g, g. rewrite insert_id by done. split_and!; [done..|constructor|].
    breflect. destruct E as [E|E]; breflect; cbn in E; by rewrite E.
  - breflect. cbn in H, H0. eapply revokeLocked_steps in Hr as [Hs (g' & Hst & Hrev & Hd)]; [|done..]. split; [done|].
    exists g, g'. split_and!; [done..|by apply rtc_once|by rewrite Hrev].
Qed.
Lemma revokeIn_steps id commandID label decider reason stamps : steps_tx (revokeIn id commandID label decider reason stamps).
Proof. intros except d u d' Hok H. by eapply revokeIn_Ok in H as [? _]. Qed.
#[export] Hint Resolve revokeIn_steps : steps.

Lemma revoke_tx_steps cmd scope id expected reason stamps : steps_tx (revoke_tx cmd scope id expected reason stamps).
Proof.
  intros except d b d' Hok (cur & d1 & (g & Hg & -> & ->)%lock_Ok & Hr)%tx_bind_Ok.
  destruct (negb (String.eqb _ _)); [by apply tx_fail_Ok in Hr|]. destruct (negb (_ =? _)); [by apply tx_fail_Ok in Hr|].
  destruct (_ || _) eqn:E.
  - apply tx_bind_Ok in Hr as ([] & d2 & Hd & [_ ->]%mret_Ok). eapply decide_steps; [|exact Hd]. by apply (stored_row except d id g).
  - breflect. cbn in H, H0. apply tx_bind_Ok in Hr as ([] & d2 & Hd & [_ ->]%mret_Ok).
    by eapply revokeLocked_steps in Hd as [Hs _].
Qed.
#[export] Hint Resolve revoke_tx_steps : steps.

(** What the registration decides for each answer, before it is written. *)
Lemma register_tx_steps id answer : steps_tx (register_tx id answer).
Proof.
  intros except d out d' Hok (cur & d1 & (g & Hg & -> & ->)%lock_Ok & Hr)%tx_bind_Ok.
  pose proof (grants_key _ _ _ _ Hok Hg) as Hid.
  destruct (bool_decide _) eqn:Ep; [|apply mret_Ok in Hr as [_ ->]; constructor]. breflect. cbn in Ep, Hr.
  apply tx_bind_Ok in Hr as (next & d2 & Hn & ([] & d3 & Hu & [_ ->]%mret_Ok)%tx_bind_Ok).
  assert (rtc sys_step d d2 /\ db_grants d2 = db_grants d /\ g_GrantID next = id /\
          (g_State next = GrantPending \/ grant_move GrantPending (g_State next)) /\ withdrawn_grant (g_State next) = false) as (S1 & Hd2 & Hnid & Hm & Hnr).
  { destruct answer as [[receipt epoch]|e]; [|destruct (errors_Is e ErrRefused)].
    - apply tx_bind_Ok in Hn as ([] & d4 & Hd & [-> ->]%mret_Ok). pose proof (decide_steps _ _ _ _ _ _ _ _ _ (stored_row _ _ _ _ _ Hok Hg eq_refl eq_refl) Hd) as S1.
      apply decide_Ok in Hd as (x & _ & -> & _). split_and!; [done..|right; constructor|done].
    - apply tx_bind_Ok in Hn as ([] & d4 & Hd & [-> ->]%mret_Ok). pose proof (decide_steps _ _ _ _ _ _ _ _ _ (stored_row _ _ _ _ _ Hok Hg eq_refl eq_refl) Hd) as S1.
      apply decide_Ok in Hd as (x & _ & -> & _). split_and!; [done..|right; constructor|done].
    - apply mret_Ok in Hn as [-> ->]. split_and!; [constructor|done..|by left|by cbn; rewrite Ep]. }
  etrans; [exact S1|]. apply rtc_once. eapply (update_steps g next); [by rewrite Hd2, Hnid|by rewrite Ep|by rewrite Ep|intros E; by rewrite E in Hnr| |exact Hu].
  by rewrite Hnr.
Qed.
#[export] Hint Resolve register_tx_steps : steps.

Lemma expire_tx_steps id now : steps_tx (expire_tx id now).
Proof.
  intros except d u d' Hok (cur & d1 & (g & Hg & -> & ->)%lock_Ok & Hr)%tx_bind_Ok.
  pose proof (grants_key _ _ _ _ Hok Hg) as Hid.
  destruct (_ || _) eqn:E; [apply mret_Ok in Hr as [_ ->]; constructor|]. breflect. cbn in H.
  cbv zeta in Hr. set (next := update_field _ _) in Hr. apply tx_bind_Ok in Hr as ([] & d2 & Hd & Hu). pose proof (decide_steps _ _ _ _ _ _ _ _ _ (stored_row _ _ _ _ _ Hok Hg eq_refl eq_refl) Hd) as S1.
  apply decide_Ok in Hd as (x & _ & -> & _). etrans; [exact S1|]. apply rtc_once.
  eapply (update_steps g next); [by change (g_GrantID next) with (g_GrantID (GrantFromRow g)); rewrite Hid|by rewrite H| |done|done|exact Hu].
  right. rewrite H. constructor.
Qed.
#[export] Hint Resolve expire_tx_steps : steps.

Lemma milestones_steps cur next : steps_tx (revocationMilestones cur next).
Proof. unfold revocationMilestones, GetRevocationRequest. steps_prog. Qed.

(** The barrier transaction may only count the grant's calls as converged when
    none is open. *)
Lemma barrier_tx_steps except id b open stamps d out d' : sys_okx except d ->
  (open = 0 -> no_open_call (db_tools d) id) ->
  barrier_tx id b open stamps d = Ok (out, d') -> rtc sys_step d d'.
Proof.
  intros Hok Hno (cur & d1 & (g & Hg & -> & ->)%lock_Ok & Hr)%tx_bind_Ok.
  pose proof (grants_key _ _ _ _ Hok Hg) as Hid.
  destruct (bool_decide _) eqn:Ep; [|apply mret_Ok in Hr as [_ ->]; constructor]. breflect. cbn in Ep.
  cbn [negb] in Hr. cbv zeta in Hr. set (next0 := with_barrier _ _) in Hr.
  apply tx_bind_Ok in Hr as (next & d2 & Hn & ([] & d3 & Hu & (ms & d4 & Hm & [_ ->]%mret_Ok)%tx_bind_Ok)%tx_bind_Ok).
  assert (rtc sys_step d d2 /\ db_grants d2 = db_grants d /\ db_tools d2 = db_tools d /\ g_GrantID next = id /\
          (g_State next = GrantRevoking \/ grant_move GrantRevoking (g_State next)) /\
          (g_State next = GrantRevoked -> g_ControlState next = "converged" /\ open = 0)) as (S1 & Hd2 & Ht2 & Hnid & Hmv & Hcv).
  { destruct (_ && _) eqn:Ec; [|apply mret_Ok in Hn as [-> ->]; split_and!; [constructor|done..|by left|]; cbn; by rewrite Ep].
    breflect. destruct (stamps id) as [now eventID]. set (next1 := update_field _ _) in Hn.
    apply tx_bind_Ok in Hn as ([] & d5 & Hd & Hn).
    pose proof (decide_steps _ _ _ _ _ _ _ _ _ (stored_row _ _ _ _ _ Hok Hg eq_refl eq_refl) Hd) as S1. destruct (sys_steps _ _ _ S1 Hok) as [Hok5 _].
    apply decide_Ok in Hd as (x & _ & -> & _).
    apply tx_bind_Ok in Hn as (n & d6 & Hrev & ([] & d7 & Hpub & [-> ->]%mret_Ok)%tx_bind_Ok).
    assert ((rev ← nextEventRevision AggregateGrant (g_GrantID next1);
             Publish (GrantRevokedEvent eventID next1 rev (g_RevocationCmdID (GrantFromRow g)) now)) _ = Ok (tt, d7)) as He
      by (apply tx_bind_Ok; eauto).
    apply (event_Ok AggregateGrant (g_GrantID next1)
      (fun rev => GrantRevokedEvent eventID next1 rev (g_RevocationCmdID (GrantFromRow g)) now) except) in He as [S2 (m & ->)]; [|apply Hok5|done..|].
    2: { intros rev. apply (an_grant _ _ _ _ _ _ _ g); [|done|by rewrite Ep]. by change (g_GrantID next1) with (g_GrantID (GrantFromRow g)); rewrite Hid. }
    split_and!; [etrans; [exact S1|]; by apply rtc_once, quiet_step|done..|right; constructor|done]. }
  pose proof (update_steps g next _ _ _ _ ltac:(by rewrite Hd2, Hnid) ltac:(by rewrite Ep) ltac:(by rewrite Ep)
    ltac:(rewrite Ht2, Hnid; naive_solver) ltac:(by rewrite Ep) Hu) as S2.
  assert (rtc sys_step d d3) as S3 by (etrans; [exact S1|by apply rtc_once]).
  destruct (sys_steps _ _ _ S3 Hok) as [Hok3 _]. etrans; [exact S3|]. by eapply milestones_steps.
Qed.

Lemma stored_inserted gr cmd d u d' : InsertGrant (grant_params gr cmd) d = Ok (u, d') -> stored gr d'.
Proof. unfold InsertGrant. destruct (_ || _); [done|]. intros [= _ <-]. eexists. split; [cbn; apply lookup_insert_eq|done]. Qed.
Lemma create_tx_steps cmd scope req now : steps_tx (create_tx cmd scope req now).
Proof.
  intros except d gr d' Hok (s & d1 & [Hs ->]%unwrap_Ok%gets_Ok & Hr)%tx_bind_Ok.
  destruct (String.eqb _ _) eqn:Et; [|by apply tx_fail_Ok in Hr]. cbn [negb] in Hr. breflect.
  apply tx_bind_Ok in Hr as (row & d1 & Hrow & Hr). apply unwrap_Ok, gets_Ok in Hrow as [Hrow ->].
  apply tx_bind_Ok in Hr as (g0 & d1 & Hg0 & Hr). apply lift_Ok in Hg0 as [Hg0 ->].
  apply NewGrant_Ok in Hg0 as (Hb & Hsid & Hrev). destruct Hb as [(Ht & Hsv & Hdr & Hdg & _) [Ha _] _ _ _ _ _ _ (Hr1 & Hp & _)].
  cbn in Hsid, Hrev, Ht, Hsv, Hdr, Hdg, Ha. symmetry in Hs, Hrow.
  apply tx_bind_Ok in Hr as ([] & d1 & Hi & ([] & d2 & Hd & [_ ->]%mret_Ok)%tx_bind_Ok).
  assert (sys_step d d1) as S1.
  { unfold InsertGrant in Hi. cbv zeta in Hi. set (gr0 := identified g0 cmd) in Hi.
    assert (g_Revision gr0 = 1 /\ g_State gr0 = GrantPending /\ g_TenantID gr0 = sv_TenantID s /\ g_ServerID gr0 = dr_ServerID row /\
      g_DescriptorRevision gr0 = u64 (dr_Revision row) /\ g_DescriptorDigest gr0 = dr_DescriptorDigest row) as (E1 & E2 & E3 & E4 & E5 & E6)
      by (by split_and!).
    destruct (_ || _) eqn:E; [done|]. injection Hi as <-. breflect.
    destruct (sk_descriptors _ _ Hok _ _ Hrow) as (Hk & Hi64 & _). injection Hk as Hk1 Hk2.
    apply grant_kept; [|intros Hw; change (withdrawn_grant (g_State gr0) = true) in Hw; by rewrite E2 in Hw]. apply (ss_grant_new _ _ _ row); [by apply eq_None_not_Some|done|by eexists| |done| |done].
    - change (0 < i64 (g_Revision gr0) < 2 ^ 63). by rewrite E1.
    - change (db_descriptors d !! (g_ServerID gr0, i64 (g_DescriptorRevision gr0)) = Some row /\
        dr_DescriptorDigest row = g_DescriptorDigest gr0 /\
        exists s, db_servers d !! g_ServerID gr0 = Some s /\ sv_TenantID s = g_TenantID gr0).
      rewrite E3, E4, E5, E6, i64_u64 by done. rewrite Hk1, Hk2. split_and!; [done..|]. by exists s. }
  etrans; [by apply rtc_once|]. eapply decide_steps; [|exact Hd]. eapply stored_inserted; exact Hi.
Qed.
#[export] Hint Resolve create_tx_steps : steps.
