(* ===== verification/CatalogSafe.v ===== *)
(** * CatalogSafe: the transactions of the catalog and the tasks keep the invariant

    Discovery and review are elementary steps; disabling leaves the order only
    in between: it commits with every grant of the revision closed.  The
    commands of the background requests only touch their own tables, except
    an accepted refresh, which may disable a drifted revision. *)

From S2P Require Import Prelude Table Errors GoStrings GoCrypto GoJson GoNum GoUrl Task TaskLife Catalog Grant Call Event App Rows Sql SqlCalls SqlCatalog CallLife Invariant Prog Ports Network Grants CatalogApp Tasks Refresh GrantsSafe.

(** ** Statements *)

Lemma alter_lookup {K V} `{Countable K} (m : gmap K V) k v f : m !! k = Some v -> alter f k m = <[k := f v]> m.
Proof.
  intros Hk. apply map_eq. intros i. destruct (decide (i = k)) as [->|Hne].
  - by rewrite lookup_alter_eq, lookup_insert_eq, Hk.
  - by rewrite lookup_alter_ne, lookup_insert_ne by congruence.
Qed.

Lemma InsertReview_Ok p d u d' : InsertReview p d = Ok (u, d') ->
  exists x, db_reviews d !! iv_ReviewID p = None /\ d' = d <| db_reviews := <[iv_ReviewID p := x]> (db_reviews d) |> /\
    (rw_ServerID x, rw_Revision x, rw_DescriptorDigest x) = (iv_ServerID p, iv_Revision p, iv_DescriptorDigest p) /\
    rw_Reviewer x = iv_Reviewer p /\ rw_Decision x = iv_Decision p /\ rw_ReviewID x = iv_ReviewID p.
Proof.
  unfold InsertReview. destruct (bool_decide _) eqn:E; [done|]. intros [= <- <-]. breflect. eexists.
  split; [by apply eq_None_not_Some|]. by split_and!.
Qed.
Lemma InsertReview_steps p d u d' :
  (exists x, db_descriptors d !! (iv_ServerID p, iv_Revision p) = Some x /\ dr_DescriptorDigest x = iv_DescriptorDigest p) ->
  InsertReview p d = Ok (u, d') -> rtc sys_step d d'.
Proof.
  intros Hx (w & Hn & -> & Hk & _ & _ & Hid)%InsertReview_Ok. injection Hk as E1 E2 E3.
  apply rtc_once, quiet_step; [apply ss_review_row; [done|]|done..]. split; [done|]. by rewrite E1, E2, E3.
Qed.
Lemma InsertCatalogCommand_steps tenant command kind digest server revision d u d' : is_Some (db_descriptors d !! (server, revision)) ->
  InsertCatalogCommand tenant command kind digest server revision d = Ok (u, d') -> rtc sys_step d d'.
Proof.
  intros Hx H. unfold InsertCatalogCommand in H. destruct (bool_decide _) eqn:E; [done|]. injection H as _ <-. breflect.
  apply rtc_once, quiet_step; [apply ss_command; [by apply eq_None_not_Some|by split]|done..].
Qed.
Lemma InsertRefresh_steps p : steps_tx (InsertRefresh p).
Proof.
  apply steps_one. intros except d u d' _ H. unfold InsertRefresh in H. destruct (_ !! _) as [x|] eqn:E.
  - injection H as _ <-. by left.
  - injection H as _ <-. right. quiet_elem.
Qed.
Lemma InsertServer_steps parts tenant resource transport (server := idOf "srv-" parts) : steps_tx (InsertServer server tenant resource transport).
Proof.
  apply steps_one. intros except d u d' _ H. unfold InsertServer in H. destruct (_ || _) eqn:E; [done|].
  injection H as _ <-. breflect. right. apply quiet_step; [constructor; [by apply eq_None_not_Some|done|by exists parts|done]|done|done].
Qed.
Lemma SetServerRevision_steps server revision : is_i64 revision -> steps_tx (SetServerRevision server revision).
Proof. intros Hi. apply steps_one. intros except d u d' _ ->%modify_Ok. right. quiet_elem. Qed.
#[export] Hint Resolve InsertRefresh_steps InsertServer_steps : steps.

Lemma publish_Ok except x correlation stamps d u d' : tables_okx except d ->
  (exists s, db_servers d !! d_ServerID x = Some s /\ sv_TenantID s = d_TenantID x) ->
  publish x correlation stamps d = Ok (u, d') ->
  elem_step d d' /\ db_grants d' = db_grants d /\ db_descriptors d' = db_descriptors d /\
  exists eventID n now, db_outbox d' = db_outbox d ++ [CatalogReviewedEvent eventID x n correlation now].
Proof.
  intros Hok (s & Hs & Ht) H. unfold publish in H. destruct (stamps _) as [now eventID].
  apply (event_Ok AggregateDescriptor (d_ServerID x) (fun rev => CatalogReviewedEvent eventID x rev correlation now) except)
    in H as [S (n & ->)]; [|done..|by intros rev; eapply an_server]. split_and!; [done..|]. by exists eventID, n, now.
Qed.
(** A decision with its event withdraws nothing unannounced. *)
Lemma decided_announced d k x' y eventID n corr now d' : db_grants d' = db_grants d ->
  db_descriptors d' = <[k := x']> (db_descriptors d) -> db_outbox d' = db_outbox d ++ [CatalogReviewedEvent eventID y n corr now] ->
  d_ServerID y = dr_ServerID x' -> d_State y = dr_State x' -> withdrawn_ok d -> withdrawn_ok d'.
Proof.
  intros Eg Ed Eo Hs Hst. apply (withdrawn_step d d' _ Eo).
  - intros i g Hg Hw. rewrite Eg in Hg. left. by exists g.
  - intros i x Hx Hw. rewrite Ed in Hx. destruct (decide (i = k)) as [->|Hne].
    + rewrite lookup_insert_eq in Hx. injection Hx as <-. right. exists eventID, y, n, corr, now. rewrite Hst.
      split; [|done]. rewrite Eo. apply elem_of_app. right. by left.
    + rewrite lookup_insert_ne in Hx by congruence. left. by exists x.
Qed.
(** A later database has the server, of the same tenant. *)
Lemma server_kept d d' id s : sys_rel d d' -> db_servers d !! id = Some s ->
  exists s', db_servers d' !! id = Some s' /\ sv_TenantID s' = sv_TenantID s.
Proof. intros R Hs. destruct (sr_servers _ _ R _ _ Hs) as (s' & Hs' & [_ Ht]%server_identity_keeps). by exists s'. Qed.

Lemma lockOwn_Ok scope server revision d desc d' : lockOwn scope server revision d = Ok (desc, d') ->
  exists s row, db_servers d !! server = Some s /\ sv_TenantID s = sc_TenantID scope /\
    db_descriptors d !! (server, i64 revision) = Some row /\ desc = DescriptorFromRow row s /\ d' = d.
Proof.
  intros (s & d1 & [Hs ->]%unwrap_Ok%gets_Ok & H)%tx_bind_Ok. destruct (negb _) eqn:E; [by apply tx_fail_Ok in H|]. breflect.
  apply tx_bind_Ok in H as (row & d1 & [Hr ->]%unwrap_Ok%gets_Ok & [-> ->]%mret_Ok). by exists s, row.
Qed.

(** ** Discovery and review *)

Lemma GetDescriptorByDigest_none server digest d : GetDescriptorByDigest server digest d = Ok (None, d) ->
  forall k x, db_descriptors d !! k = Some x -> dr_ServerID x = server -> dr_DescriptorDigest x <> digest.
Proof.
  intros [H _]%gets_Ok k x Hk Hs Hd. symmetry in H.
  assert (In x (rows_of (db_descriptors d))) as Hin by (apply list_elem_of_In, rows_of_elem; eauto).
  apply (List.find_none _ _ H) in Hin. unfold of_digest in Hin. by rewrite Hs, Hd, !String.eqb_refl in Hin.
Qed.

Lemma own_server_steps scope resource transport : steps_tx (own_server scope resource transport).
Proof. unfold own_server, GetServerByResourceForUpdate. steps_prog. Qed.
Lemma own_server_row scope resource transport except d s d' : sys_okx except d ->
  own_server scope resource transport d = Ok (s, d') -> db_servers d' !! sv_ServerID s = Some s.
Proof.
  intros Hok H.
  assert (forall d2, servers_ok (db_servers d2) -> forall s2, List.find (at_resource (sc_TenantID scope) resource) (rows_of (db_servers d2)) = Some s2 ->
    db_servers d2 !! sv_ServerID s2 = Some s2) as Hfind.
  { intros d2 Hs2 s2 [Hin _]%List.find_some. unfold rows_of in Hin. apply in_map_iff in Hin as ([k x] & <- & Hin).
    apply list_elem_of_In, elem_of_map_to_list in Hin. destruct (Hs2 _ _ Hin) as [<- _]. done. }
  destruct (sys_steps _ _ _ (own_server_steps _ _ _ _ _ _ _ Hok H) Hok) as [Hok' _].
  apply tx_bind_Ok in H as (o & d1 & [Ho ->]%gets_Ok & H). destruct o as [s0|].
  - apply mret_Ok in H as [-> ->]. symmetry in Ho. apply (Hfind d); [apply Hok|done].
  - apply tx_bind_Ok in H as ([] & d1 & Hi & [Hg ->]%unwrap_Ok%gets_Ok). symmetry in Hg. apply (Hfind d1); [apply Hok'|done].
Qed.

Lemma discover_tx_steps cmd scope decl desc : d_State desc = CatalogReviewPending -> steps_tx (discover_tx cmd scope decl desc).
Proof.
  intros Hp. unfold discover_tx. intros except d out d' Hok (s & d1 & Hs & H)%tx_bind_Ok.
  pose proof (own_server_steps _ _ _ _ _ _ _ Hok Hs) as S1. destruct (sys_steps _ _ _ S1 Hok) as [Hok1 _].
  pose proof (own_server_row _ _ _ _ _ _ _ Hok Hs) as Hrow. etrans; [exact S1|]. clear S1 Hs Hok d. rename d1 into d.
  apply tx_bind_Ok in H as (same & d1 & Hsame & (out' & d2 & Hout & ([] & d3 & Hc & [-> ->]%mret_Ok)%tx_bind_Ok)%tx_bind_Ok).
  assert (d1 = d) as -> by (by apply gets_Ok in Hsame as [_ ->]).
  assert (rtc sys_step d d2 /\ is_Some (db_descriptors d2 !! (d_ServerID out'.1, i64 (d_Revision out'.1)))) as [S2 Hx].
  { destruct same as [same|].
    { apply mret_Ok in Hout as [-> ->]. split; [constructor|]. apply gets_Ok in Hsame as [Hsame _]. symmetry in Hsame.
      apply List.find_some in Hsame as [Hin _]. apply list_elem_of_In, rows_of_elem in Hin as [k Hk].
      destruct (sk_descriptors _ _ Hok1 _ _ Hk) as (E & Hi & _). cbn [fst d_ServerID d_Revision DescriptorFromRow]. rewrite i64_u64, E by done. by exists same. } cbv zeta in Hout. set (desc' := update_field _ _) in Hout.
    apply tx_bind_Ok in Hout as ([] & d4 & Hi & ([] & d5 & Hsv & [-> ->]%mret_Ok)%tx_bind_Ok).
    assert (sys_step d d4) as S3.
    { unfold InsertDescriptor in Hi. destruct (bool_decide _) eqn:E; [done|]. injection Hi as <-. breflect.
      apply revision_kept; [|by change (withdrawn_revision (d_State desc) = false); rewrite Hp]. apply ss_descriptor_new; [by apply eq_None_not_Some|done|apply i64_range|by exists s|exact Hp|done|].
      exact (GetDescriptorByDigest_none _ _ _ Hsame). }
    split.
    2: { apply modify_Ok in Hsv as ->. unfold InsertDescriptor in Hi. destruct (bool_decide _) in Hi; [done|]. injection Hi as <-.
         eexists. cbn [db_descriptors fst]. apply lookup_insert_eq. }
    eapply rtc_l; [exact S3|]. eapply SetServerRevision_steps; [apply i64_range| |exact Hsv]. by eapply sys_okx_step. }
  etrans; [exact S2|]. by eapply InsertCatalogCommand_steps.
Qed.

(** The two verdicts of a review. *)
Lemma CheckReview_Ok d reviewer digest decision next : CheckReview d reviewer digest decision = Ok next ->
  d_Digest d = digest /\ reviewer <> d_DiscoveredBy d /\ d_State d = CatalogReviewPending /\
  (next = CatalogApproved /\ decision = ReviewApprove \/ next = CatalogRejected /\ decision = ReviewReject).
Proof.
  unfold CheckReview. intros H. dif H as E1. dif H as E2. dif H as E3. breflect. dif H as E4.
  - injection H as <-. breflect. split_and!; auto.
  - dif H as E5. injection H as <-. breflect. split_and!; auto.
Qed.

Lemma review_tx_steps cmd scope server revision digest decision reason stamps :
  steps_tx (review_tx cmd scope server revision digest decision reason stamps).
Proof.
  intros except d out d' Hok (desc & d1 & (s & row & Hs & Ht & Hrow & -> & ->)%lockOwn_Ok & H)%tx_bind_Ok.
  apply tx_bind_Ok in H as (next & d1 & [Hc ->]%lift_Ok & H). apply CheckReview_Ok in Hc as (Hdg & Hne & Hst & Hv). cbn in Hdg, Hne, Hst.
  cbv zeta in H. apply tx_bind_Ok in H as ([] & d1 & Hi & ([] & d2 & Hu & H)%tx_bind_Ok).
  assert (rtc sys_step d d1) as S1 by (eapply InsertReview_steps; [|exact Hi]; by exists row).
  destruct (sys_steps _ _ _ S1 Hok) as [Hok1 R1]. apply InsertReview_Ok in Hi as (w & _ & Ed1 & Hkey & Hrev & Hdec & _). cbn in Hkey, Hrev, Hdec.
  assert (db_descriptors d1 !! (server, i64 revision) = Some row) as Hrow1 by (by rewrite Ed1).
  assert (db_reviews d1 !! idOf "rev-" [cmd_TenantID cmd; cmd_CommandID cmd] = Some w) as Hw by (rewrite Ed1; apply lookup_insert_eq).
  clear Ed1. destruct (sk_descriptors _ _ Hok _ _ Hrow) as (Hk & Hi64 & _). injection Hk as Hk1 Hk2.
  apply modify_Ok in Hu. set (upd := fun _ : DescriptorRow => _) in Hu. rewrite (alter_lookup _ _ row upd Hrow1) in Hu.
  assert (elem_step d1 d2) as S2.
  { rewrite Hu. eapply ss_reviewed; [exact Hrow1|exact Hst|..].
    - split_and!; [done| |done]. rewrite Hst. destruct Hv as [[-> _]|[-> _]]; constructor.
    - intros [= E]. by apply Hne.
    - assert (forall dec, decision = dec -> decided_by (db_reviews d1) (upd row) dec) as Hdb.
      { intros dec <-. exists (sc_ActorID scope), (idOf "rev-" [cmd_TenantID cmd; cmd_CommandID cmd]), w.
        split_and!; [done..|]. rewrite Hkey. cbn. by rewrite Hk1, Hk2. }
      destruct Hv as [[-> Hd]|[-> Hd]]; [left|right]; (split; [done|by apply Hdb]). }
  apply tx_bind_Ok in H as ([] & d3 & Hp & ([] & d4 & Hcmd & [_ ->]%mret_Ok)%tx_bind_Ok).
  pose proof (elem_step_ok _ _ _ S2 (sk_tables _ _ Hok1)) as Hok2.
  assert (sys_step d1 d3) as S3.
  { apply (publish_Ok except) in Hp as (S3 & Eg & Ed & eventID & n & now & Eo); [|exact Hok2|].
    2: { cbn. rewrite Hk1. apply (server_kept d); [|done]. eapply sys_rel_trans; [exact R1|].
         exact (elem_step_rel _ _ _ S2 (sk_tables _ _ Hok1)). }
    split; [by eapply rtc_l, rtc_once|]. rewrite Hu in Eg, Ed, Eo. by apply (decided_announced d1 (server, i64 revision) (upd row) _ eventID n _ now d3 Eg Ed Eo). }
  etrans; [exact S1|]. eapply rtc_l; [exact S3|]. eapply InsertCatalogCommand_steps; [|exact Hcmd].
  destruct (sys_step_rel _ _ _ S3 Hok1) as [_ _ R3 _ _ _ _ _ _ _]. destruct (table_le_row _ _ _ _ _ _ R3 Hrow1) as (x & Hx & _). by exists x.
Qed.

(** ** Disabling *)

Lemma revoke_all_Ok except ids commandID label decider reason stamps : forall d u d', sys_okx except d ->
  revoke_all ids commandID label decider reason stamps d = Ok (u, d') ->
  rtc sys_step d d' /\ db_descriptors d' = db_descriptors d /\
  (forall id, id ∈ ids -> exists g, db_grants d' !! id = Some g /\ closed (gw_State g) = true) /\
  (forall id g', db_grants d' !! id = Some g' -> exists g, db_grants d !! id = Some g /\ grant_le g g').
Proof.
  induction ids as [|id ids IH]; intros d u d' Hok H.
  - apply mret_Ok in H as [_ ->]. split_and!; [constructor|done|by intros id ?%elem_of_nil|].
    intros id g Hg. exists g. split; [done|constructor].
  - cbn [revoke_all] in H. apply tx_bind_Ok in H as ([] & d1 & H1 & H2).
    assert (db_descriptors d1 = db_descriptors d) as Hd1.
    { clear -H1. unfold revokeIn in H1. apply tx_bind_Ok in H1 as (cur & d2 & (g & _ & -> & ->)%lock_Ok & H).
      destruct (_ || _); [by apply mret_Ok in H as [_ ->]|]. unfold revokeLocked in H. cbv zeta in H. set (next := update_field _ _) in H.
      apply tx_bind_Ok in H as ([] & d3 & (x & _ & _ & ->)%update_Ok & ([] & d4 & (y & _ & -> & _)%decide_Ok & He)%tx_bind_Ok).
      apply tx_bind_Ok in He as (n & d5 & (n0 & d6 & Hn & [-> ->]%mret_Ok)%tx_bind_Ok & Hp). destruct (stamps _) as [now eventID].
      apply modify_Ok in Hp as ->. unfold NextEventRevision in Hn. destruct (_ <? _) in Hn; [|done]. by injection Hn as _ <-. }
    apply (revokeIn_Ok except) in H1 as (S1 & g & g1 & Hg & Hgr & Hle & Hcl); [|done].
    destruct (sys_steps _ _ _ S1 Hok) as [Hok1 _]. destruct (IH _ _ _ Hok1 H2) as (S2 & Hd2 & Hin & Hback).
    destruct (sys_steps _ _ _ S2 Hok1) as [_ R2].
    split_and!; [by etrans|congruence|..].
    + intros i [->|Hi]%elem_of_cons; [|by apply Hin].
      assert (db_grants d1 !! id = Some g1) as Hg1 by (rewrite Hgr; apply lookup_insert_eq).
      destruct (table_le_row _ _ _ _ _ _ (sr_grants _ _ R2) Hg1) as (g2 & Hg2 & Hle2). exists g2. split; [done|].
      by eapply grant_le_closed.
    + intros i g2 (x & Hx & Hle2)%Hback. rewrite Hgr in Hx. destruct (decide (i = id)) as [->|Hne].
      * rewrite lookup_insert_eq in Hx. injection Hx as <-. exists g. split; [done|]. by etrans.
      * rewrite lookup_insert_ne in Hx by congruence. eauto.
Qed.

Lemma ListGrantsOfDescriptor_elem server revision d ids d' : grants_ok (db_grants d) ->
  ListGrantsOfDescriptor server revision d = Ok (ids, d') ->
  d' = d /\ forall id g, db_grants d !! id = Some g -> (gw_ServerID g, gw_DescriptorRevision g) = (server, revision) ->
    closed (gw_State g) = false -> id ∈ ids.
Proof.
  intros Hok [-> ->]%gets_Ok. split; [done|]. intros id g Hg [= <- <-] Hcl. apply slices_Sort_elem.
  apply list_elem_of_In, in_map_iff. exists g. split; [by apply Hok|]. apply filter_In.
  split; [apply list_elem_of_In, rows_of_elem; eauto|]. rewrite String.eqb_refl, Z.eqb_refl. by destruct (gw_State g).
Qed.

(** Disabling a locked revision: it commits with the revision disabled and
    every grant of it closed. *)
Lemma disableLocked_Ok d k row s actor tenant command digest reason stamps out d' :
  sys_ok d -> db_descriptors d !! k = Some row -> db_servers d !! k.1 = Some s -> dr_State row <> CatalogDisabled ->
  disableLocked (DescriptorFromRow row s) actor tenant command digest reason stamps d = Ok (out, d') ->
  sys_ok d' /\ sys_rel d d' /\
  (exists row', db_descriptors d' !! k = Some row' /\ dr_State row' = CatalogDisabled) /\
  (forall id g, db_grants d' !! id = Some g -> (gw_ServerID g, gw_DescriptorRevision g) = k -> closed (gw_State g) = true).
Proof.
  intros Hok Hrow Hsv Hst H. destruct (sk_descriptors _ _ Hok _ _ Hrow) as (<- & Hi64 & _). unfold disableLocked in H. cbv zeta in H.
  set (k := (dr_ServerID row, dr_Revision row)) in *.
  apply tx_bind_Ok in H as ([] & d1 & Hi & ([] & d2 & Hu & H)%tx_bind_Ok).
  assert (rtc sys_step d d1) as S1.
  { eapply InsertReview_steps; [|exact Hi]. exists row. cbn. by rewrite i64_u64. }
  destruct (sys_steps _ _ _ S1 Hok) as [Hok1 R1]. apply InsertReview_Ok in Hi as (w & _ & Ed1 & _). assert (db_descriptors d1 !! k = Some row) as Hrow1 by (by rewrite Ed1).
  clear Ed1. apply modify_Ok in Hu. cbn [d_ServerID d_Revision DescriptorFromRow] in Hu. rewrite i64_u64 in Hu by done. fold k in Hu.
  set (upd := fun _ : DescriptorRow => _) in Hu. rewrite (alter_lookup _ _ row upd Hrow1) in Hu.
  apply tx_bind_Ok in H as ([] & d3 & Hp & (ids & d4 & Hl & ([] & d5 & Hr & [_ ->]%mret_Ok)%tx_bind_Ok)%tx_bind_Ok).
  assert (tables_okx (Some k) d2 /\ sys_rel d1 d2) as [Hok2 R2]
    by (rewrite Hu; exact (disable_step _ k row (upd row) Hrow1 eq_refl Hst eq_refl eq_refl eq_refl (sk_tables _ _ Hok1))).
  apply (publish_Ok (Some k)) in Hp as (S3 & Eg & Ed & eventID & n & now & Eo); [|exact Hok2|].
  2: { apply (server_kept d); [by eapply sys_rel_trans|done]. }
  pose proof (elem_step_rel _ _ _ S3 Hok2) as R3.
  assert (sys_okx (Some k) d3) as Hok3.
  { split; [exact (elem_step_ok _ _ _ S3 Hok2)|]. rewrite Hu in Eg, Ed, Eo.
    apply (decided_announced d1 k (upd row) _ eventID n _ now d3 Eg Ed Eo); [done..|]. apply Hok1. }
  assert (i64 (u64 (dr_Revision row)) = dr_Revision row) as Erev by (by apply i64_u64).
  apply ListGrantsOfDescriptor_elem in Hl as [-> Hids]; [|apply Hok3]. cbn in Hids. rewrite Erev in Hids.
  apply (revoke_all_Ok (Some k)) in Hr as (S4 & Hd4 & Hin & Hback); [|done]. destruct (sys_steps _ _ _ S4 Hok3) as [Hok4 R4].
  assert (forall id g, db_grants d5 !! id = Some g -> (gw_ServerID g, gw_DescriptorRevision g) = k -> closed (gw_State g) = true) as Hcl.
  { intros id g Hg Hk. destruct (Hback _ _ Hg) as (g0 & Hg0 & Hle). pose proof (grant_le_keeps _ _ Hle) as Hid.
    apply grant_identity_keeps in Hid as (_ & _ & _ & Es & Er & _).
    destruct (closed (gw_State g0)) eqn:E; [by eapply grant_le_closed|].
    destruct (Hin id) as (g2 & Hg2 & Hcl2); [|by rewrite Hg in Hg2; injection Hg2 as <-].
    apply (Hids _ _ Hg0); [|done]. by rewrite <- Es, <- Er. }
  assert (sys_rel d d5) as R by (do 3 (eapply sys_rel_trans; [eassumption|]); exact R4).
  split_and!; [by eapply except_none|done| |done].
  destruct (table_le_row _ _ _ _ k (upd row) (sr_descriptors _ _ R3)) as (x & Hx & Hle); [rewrite Hu; apply lookup_insert_eq|].
  exists x. rewrite Hd4. split; [done|]. clear -Hle. apply rtc_inv in Hle as [<-|(y & (_ & Hm & _) & _)]; [done|].
  inversion Hm. done.
Qed.

Lemma steps_good_bind {A B} (m : tx A) (k : A -> tx B) : steps_tx m -> (forall a, good_tx (k a)) -> good_tx (m ≫= k).
Proof. intros Hm. apply good_bind. by apply steps_good. Qed.

Lemma disable_tx_good cmd scope server revision reason stamps : good_tx (disable_tx cmd scope server revision reason stamps).
Proof.
  intros d out d' Hok (desc & d1 & (s & row & Hs & Ht & Hrow & -> & ->)%lockOwn_Ok & H)%tx_bind_Ok.
  apply tx_bind_Ok in H as (out' & d2 & Ho & ([] & d3 & Hc & [-> ->]%mret_Ok)%tx_bind_Ok).
  assert (sys_ok d2 /\ sys_rel d d2) as [Hok2 R2].
  { destruct (bool_decide _) eqn:E; [apply mret_Ok in Ho as [_ ->]; split; [done|apply sys_rel_refl]|]. breflect.
    apply tx_bind_Ok in Ho as (dd & d4 & Hdis & [_ ->]%mret_Ok).
    eapply disableLocked_Ok in Hdis as (Hok4 & R4 & _); [|done..]. done. }
  assert (rtc sys_step d2 d3) as S3.
  { eapply InsertCatalogCommand_steps; [|exact Hc]. destruct (table_le_row _ _ _ _ _ _ (sr_descriptors _ _ R2) Hrow) as (x & Hx & _). by exists x. }
  destruct (sys_steps _ _ _ S3 Hok2) as [Hok3 R3].
  split; [done|]. by eapply sys_rel_trans.
Qed.

(** ** The background requests *)

Lemma requests_steps {A} (m : tx A) : (forall d a d', m d = Ok (a, d') ->
  exists reqs atts, d' = d <| db_requests := reqs |> <| db_attempts := atts |> /\
    (requests_filed (db_requests d) (db_attempts d) -> requests_filed reqs atts)) -> steps_tx m.
Proof. intros Hm. apply steps_one. intros except d a d' _ (reqs & atts & -> & Hf)%Hm. right. quiet_elem. Qed.
Lemma requests_same (d : DB) reqs : d <| db_requests := reqs |> = d <| db_requests := reqs |> <| db_attempts := db_attempts d |>.
Proof. by destruct d. Qed.
Lemma attempts_same (d : DB) atts : d <| db_attempts := atts |> = d <| db_requests := db_requests d |> <| db_attempts := atts |>.
Proof. by destruct d. Qed.

Lemma requests_kept (d : DB) : d = d <| db_requests := db_requests d |> <| db_attempts := db_attempts d |>.
Proof. by destruct d. Qed.
Lemma UpdateRequest_steps p : steps_tx (UpdateRequest p).
Proof.
  apply requests_steps. intros d n d' H. unfold UpdateRequest in H. pose proof (requests_kept d) as Hd.
  destruct (_ !! _) as [r|] eqn:E; [destruct (_ =? _)|]; injection H as _ <-; [|eauto..]. rewrite requests_same.
  eexists _, _. split; [done|]. intros [H1 H2]. split; [|done]. apply all_rows_insert; [done|]. exact (H1 _ _ E).
Qed.
Lemma InsertAttempt_steps task generation ordinal worker leased until_ : steps_tx (InsertAttempt task generation ordinal worker leased until_).
Proof.
  apply requests_steps. intros d n d' H. unfold InsertAttempt in H. destruct (existsb _ _); [done|]. injection H as _ <-.
  rewrite attempts_same. eexists _, _. split; [done|]. intros [H1 H2]. split; [done|]. apply all_rows_insert; [done|].
  rewrite insert_sorted_perm. constructor; [done|]. unfold attempts_of.
  destruct (db_attempts d !! (task, generation)) as [l|] eqn:E; [exact (H2 _ _ E)|constructor].
Qed.
Lemma SetAttemptOutcome_steps task generation ordinal outcome at_ : steps_tx (SetAttemptOutcome task generation ordinal outcome at_).
Proof.
  apply requests_steps. intros d n d' ->%modify_Ok. rewrite attempts_same. eexists _, _. split; [done|]. intros [H1 H2].
  split; [done|]. apply all_rows_alter; [done|]. intros l Hl. apply Forall_map. eapply Forall_impl; [exact Hl|].
  intros a Ha. by destruct (_ =? _).
Qed.
Lemma InsertRequest_steps `{Jsonb} p : steps_tx (InsertRequest p).
Proof.
  apply requests_steps. intros d n d' H0. unfold InsertRequest in H0. destruct (_ !! _); [done|]. destruct (jsonb_text _); [|done].
  injection H0 as _ <-. rewrite requests_same. eexists _, _. split; [done|]. intros [H1 H2]. split; [|done]. by apply all_rows_insert.
Qed.
Lemma PublishRequested_steps eventID t now : steps_tx (Publish (RequestedEvent eventID t now)).
Proof. apply steps_one. intros except d u d' _ ->%modify_Ok. right. quiet_elem. Qed.
#[export] Hint Resolve UpdateRequest_steps InsertAttempt_steps SetAttemptOutcome_steps InsertRequest_steps PublishRequested_steps : steps.

Lemma apply_steps task read now outcome : steps_tx (apply task read now outcome).
Proof. unfold apply. steps_prog. Qed.
Lemma GrantAuthorization_steps ref tenant now : steps_tx (GrantAuthorization ref tenant now).
Proof. unfold GrantAuthorization, GetGrantState. steps_prog. Qed.
#[export] Hint Resolve apply_steps GrantAuthorization_steps : steps.

Section TaskSteps.
  Context `{Jsonb} (cfg : Config).

Lemma commitRequest_steps candidate eventID now now1 now2 : steps_tx (commitRequest cfg candidate eventID now now1 now2).
Proof. unfold commitRequest. steps_prog. Qed.
Hint Resolve commitRequest_steps : steps.
Lemma Request_steps inp eventID now0 now now1 now2 : steps_tx (Request cfg inp eventID now0 now now1 now2).
Proof. unfold Request, CanonicalJSON, GetLatestRequestForUpdate, GetLatestRequest. steps_prog. Qed.
Lemma Claim_steps task generation worker lease now0 now1 now : steps_tx (Claim cfg task generation worker lease now0 now1 now).
Proof. unfold Claim, GetRequestForUpdate, GetRequest, ListAttempts. steps_prog. Qed.
Lemma Heartbeat_steps task generation worker now now' : steps_tx (Heartbeat task generation worker now now').
Proof. unfold Heartbeat, GetRequestForUpdate, GetRequest, ListAttempts. steps_prog. Qed.
Lemma task_get_steps task : steps_tx (Tasks.Get task).
Proof. unfold Tasks.Get, GetLatestRequest. steps_prog. Qed.
Lemma Cancel_steps task now : steps_tx (Cancel task now).
Proof. unfold Cancel, GetLatestRequestForUpdate, GetLatestRequest. steps_prog. Qed.
Lemma settleExpired_steps task generation outcome now now' : steps_tx (settleExpired cfg task generation outcome now now').
Proof. unfold settleExpired, GetRequestForUpdate, GetRequest. steps_prog. Qed.

(** An accepted refresh. *)
Lemma Accepted_good stamps t : good_tx (Accepted stamps t).
Proof.
  intros d u d' Hok (rec & d1 & [Hrec ->]%unwrap_Ok%gets_Ok & H1)%tx_bind_Ok.
  destruct (negb _); [apply mret_Ok in H1 as [_ ->]; split; [done|apply sys_rel_refl]|].
  apply tx_bind_Ok in H1 as (s & d1 & [Hs ->]%unwrap_Ok%gets_Ok & H1).
  apply tx_bind_Ok in H1 as (row & d1 & [Hrow ->]%unwrap_Ok%gets_Ok & H1). cbv zeta in H1.
  destruct (bool_decide _) eqn:E; cbn [negb] in H1; [|apply mret_Ok in H1 as [_ ->]; split; [done|apply sys_rel_refl]]. breflect.
  apply tx_bind_Ok in H1 as (out & d1 & Hd & [_ ->]%mret_Ok). symmetry in Hrow.
  apply (disableLocked_Ok d (rf_ServerID rec, rf_Revision rec)) in Hd as (Hok1 & R1 & _); [done..|]. cbn in E. congruence.
Qed.

(** Submission under the service's bindings. *)
Lemma Submit_good stamps task generation sub now0 now : good_tx (Submit (service_bindings stamps) cfg task generation sub now0 now).
Proof.
  unfold Submit, GetRequestForUpdate, GetRequest, ListAttempts, service_bindings.
  do 2 (apply steps_good_bind; [auto with steps|intros ?]). cbv zeta.
  apply steps_good_bind; [auto with steps|intros ?]. apply steps_good_bind.
  { destruct (String.eqb _ _); [|auto with steps]. cbn [Tasks.Recorded refresh_binding]. unfold Refresh.Recorded, GetRefresh. steps_prog. }
  intros recorded. apply steps_good_bind; [auto with steps|intros dec]. apply good_bind; [|intros ?; apply steps_good; auto with steps].
  destruct (sd_Changed dec); [|apply steps_good; auto with steps]. apply steps_good_bind; [auto with steps|intros ?].
  destruct (String.eqb _ _); [|apply steps_good; auto with steps].
  destruct (sd_Accepted dec); [|apply steps_good; auto with steps]. apply Accepted_good.
Qed.
End TaskSteps.
#[export] Hint Resolve Request_steps Claim_steps Heartbeat_steps task_get_steps Cancel_steps settleExpired_steps : steps.
