(* ===== verification/CallsSafe.v ===== *)
(** * CallsSafe: the call processes keep the protocol

    What the statements on calls do to the rows, and that every process of
    [Calls] is quiet: it starts and ends without the right to send, and the
    one send it makes in between is of a call whose marker its own transaction
    committed. *)

From S2P Require Import Prelude Table Errors GoStrings GoCrypto GoJson GoNum GoUrl Task TaskLife Catalog Grant Call Event App Rows Sql SqlCalls SqlCatalog CallLife Invariant Prog Ports Protocol Calls GrantsSafe.

(** ** The statements *)

Lemma row_step_stamp r r' s : row_step r r' -> row_step r (r' <| tr_UpdatedAt := s |>).
Proof. by destruct r'. Qed.

(** An update that is a step of the row and leaves its marker. *)
Lemma update_tool_steps c cond f :
  (forall d r, cond d r = true -> row_step r (f d r) /\ tr_SendMarkerAt (f d r) = tr_SendMarkerAt r) -> steps_tx (update_tool c cond f).
Proof.
  intros Hs. apply steps_one. intros except d n d' _ [[_ ->]|(_ & r & Hr & Hc & ->)]%update_tool_Ok; [by left|right].
  destruct (Hs _ _ Hc) as [Hst Hm]. apply quiet_step; [|done|done]. eapply ss_call; [exact Hr|by apply row_step_stamp|]. cbn. congruence.
Qed.

Lemma admission_steps c s dispatchID code :
  s = CallAdmitted \/ s = CallDenied -> steps_tx (SetToolRequestAdmission c s dispatchID code).
Proof.
  intros Hs. apply update_tool_steps. intros d r Hr. breflect. split; [|done]. split; [done|]. right.
  destruct Hs as [-> | ->]; cbn; rewrite Hr; (split; [constructor|done]).
Qed.
Lemma outcome_steps p :
  (forall s, s ∈ so_Expected p -> call_move s (so_State p)) -> so_State p <> CallSent -> steps_tx (SetToolRequestOutcome p).
Proof.
  intros Hm Hs. apply update_tool_steps. intros d r Hr. breflect. split; [|done]. split; [done|]. right. cbn.
  split; [by apply Hm|]. by rewrite bool_decide_eq_false_2.
Qed.
Lemma abandoned_steps c code age : steps_tx (SetAbandonedToolRequestUnknown c code age).
Proof.
  apply update_tool_steps. intros d r Hr. breflect. split; [|done]. split; [done|]. right. cbn. rewrite H. split; [constructor|done].
Qed.
Lemma observed_steps c n : steps_tx (SetToolRequestObserved c n).
Proof. apply update_tool_steps. intros d r Hr. split; [|done]. split; [done|]. by left. Qed.
#[export] Hint Resolve abandoned_steps observed_steps : steps.

(** ** The marker *)

(** The row the marker statement leaves. *)
Definition marked_row (d : DB) (r : ToolRequest) : ToolRequest :=
  r <| tr_State := CallSent |> <| tr_SendMarkerAt := db_stamp d |> <| tr_UpdatedAt := db_stamp d |>.

Lemma mark_Ok call now d marked d' : mark call now d = Ok (marked, d') -> d' = d /\ marked = false \/
  exists g r, db_grants d !! c_GrantID call = Some g /\ g_Revision (GrantFromRow g) = c_GrantRevision call /\
    Executable (GrantFromRow g) now = true /\ db_tools d !! c_CallID call = Some r /\
    tr_State r = CallAdmitted /\ tr_SendMarkerAt r = None /\
    d' = d <| db_tools := <[c_CallID call := marked_row d r]> (db_tools d) |> /\ marked = true.
Proof.
  intros (gr & d1 & [Hg ->]%unwrap_Ok%gets_Ok & Hc)%tx_bind_Ok. cbv zeta in Hc.
  destruct (_ || _) eqn:E; [apply mret_Ok in Hc as [-> ->]; by left|]. breflect.
  apply tx_bind_Ok in Hc as (n & d2 & [[-> ->]|(-> & r & Hr & Hcond & ->)]%update_tool_Ok & [-> ->]%mret_Ok); [by left|right].
  breflect. exists gr, r. by split_and!.
Qed.
Lemma mark_marks call now d d' :
  mark call now d = Ok (true, d') -> ~ marked (db_tools d) (c_CallID call) /\ marked (db_tools d') (c_CallID call).
Proof.
  intros [[_ ?]|(g & r & _ & _ & _ & Hr & Hs & Hm & -> & _)]%mark_Ok; [done|]. split.
  - intros (r' & Hr' & Hm'). congruence.
  - eexists. cbn. rewrite lookup_insert_eq. by split.
Qed.

(** The call a process holds is a stored one, of its grant. *)
Definition call_known (call : Call) (d : DB) : Prop :=
  exists r, db_tools d !! c_CallID call = Some r /\ tr_GrantID r = c_GrantID call.

Lemma call_known_stable call : stable (call_known call).
Proof.
  intros d d' R (r & Hr & Hg). destruct (table_le_row _ _ _ _ _ _ (sr_tools _ _ R) Hr) as (r' & Hr' & Hle).
  exists r'. split; [done|]. apply row_le_keeps in Hle as [(_ & E & _)%call_identity_keeps _]. congruence.
Qed.
Lemma call_known_row d c r : sys_ok d -> db_tools d !! c = Some r -> call_known (CallFromRow r) d.
Proof. intros Hok Hr. exists r. destruct (sk_tools _ _ Hok _ _ Hr) as [E _]. cbn. by rewrite E. Qed.

Lemma mark_good call now d marked d' : sys_ok d -> call_known call d -> mark call now d = Ok (marked, d') ->
  sys_ok d' /\ sys_rel d d'.
Proof.
  intros Hok (x & Hx & Hg) Hm. eapply (sys_steps None); [|done].
  apply mark_Ok in Hm as [[-> _]|(g & r & Hgr & Hrev & Hex & Hr & Hs & Hm & -> & _)]; [constructor|].
  rewrite Hx in Hr. injection Hr as <-. apply rtc_once, quiet_step; [|done|done]. apply (ss_call _ _ x); [done|..].
  - apply row_step_stamp. split; [done|]. right. cbn. rewrite Hs. split; [constructor|done].
  - intros _ _. destruct (sk_calls _ _ Hok _ _ Hx) as (g' & Hg' & Hr'). rewrite Hg, Hgr in Hg'. injection Hg' as <-.
    exists g. unfold Executable in Hex. breflect. by rewrite Hg.
Qed.

(** ** Recording *)

Section Recording.
  Context {SL : SchemaLibrary} (upstream : list string) (routes : list QualifiedRoute).

(** Every guard of [Create]'s transaction. *)
Record call_guards (cmd : Command) (scope : Scope) (req : CallRequest) (callID : string) (now : Time) (d : DB)
    (g : Grant) (desc : Descriptor) (tool : Tool) (route : string) : Prop := {
  cg_grant : exists gr, db_grants d !! cr_GrantID req = Some gr /\ g = GrantFromRow gr;
  cg_caller : g_TenantID g = sc_TenantID scope /\ callerMaySend scope g = true;
  cg_current : g_Revision g = cr_GrantRevision req /\ Executable g now = true /\ cr_Method req ∈ g_Methods g;
  cg_descriptor : exists dr srv, db_descriptors d !! (g_ServerID g, i64 (g_DescriptorRevision g)) = Some dr /\
    db_servers d !! g_ServerID g = Some srv /\ desc = DescriptorFromRow dr srv;
  cg_approved : d_State desc = CatalogApproved /\ d_Digest desc = g_DescriptorDigest g;
  cg_method : Method desc (cr_Method req) = Some tool;
  cg_arguments : CheckArguments (default "" (d_InputSchemas desc !! cr_Method req)) (cr_Arguments req) = Ok tt;
  cg_route : routeOf upstream routes g = Some route;
  cg_unrestricted : forall c r, db_tools d !! c = Some r -> tr_TenantID r = g_TenantID g -> tr_ServerID r = g_ServerID g ->
    tr_State r <> CallUnknown;
  cg_new : db_tools d !! callID = None /\ forall c r, db_tools d !! c = Some r -> tr_TenantID r = g_TenantID g ->
    tr_CommandID r <> cmd_CommandID cmd }.

(** The row [Create] inserts behind them. *)
Definition recorded_row (cmd : Command) (req : CallRequest) (callID : string) (d : DB) (g : Grant) (tool : Tool)
    (route : string) : ToolRequest :=
  inserted_tool (mkInsertToolRequestParams callID (g_TenantID g) (g_GrantID g) (i64 (g_Revision g)) (g_ServerID g)
    (i64 (g_DescriptorRevision g)) (cr_Method req) (cr_ArgumentRef req) (cr_ArgumentDigest req)
    (Some (cr_OperationID req)) (Some (cr_AttemptID req)) (cmd_CommandID cmd) (cmd_RequestDigest cmd)
    (Some (Truncate (cr_Deadline req) Microsecond)) (cr_InstanceID req) (i64 (cr_ExecutionEpoch req))
    (cr_Arguments req) (g_DescriptorDigest g) (g_ProtocolVersion g) (g_Transport g) route
    (tl_SideEffecting tool) (Currency (tl_UnitPrice tool)) (Amount (tl_UnitPrice tool))) (db_stamp d).

Lemma record_call_Ok cmd scope req callID now d u d' :
  record_call upstream routes cmd scope req callID now d = Ok (u, d') ->
  exists g desc tool route, call_guards cmd scope req callID now d g desc tool route /\
    d' = d <| db_tools := <[callID := recorded_row cmd req callID d g tool route]> (db_tools d) |>.
Proof.
  unfold record_call. intros Hc. apply tx_bind_Ok in Hc as (gr & ? & Hg & Hc). apply unwrap_Ok, gets_Ok in Hg as [Hg ->].
  destruct (String.eqb (gw_TenantID gr) _) eqn:E1; [|by apply tx_fail_Ok in Hc]. cbn [negb] in Hc. cbv zeta in Hc.
  destruct (callerMaySend scope (GrantFromRow gr)) eqn:E2; [|by apply tx_fail_Ok in Hc]. cbn [negb] in Hc.
  destruct (g_Revision (GrantFromRow gr) =? cr_GrantRevision req) eqn:E3; [|by apply tx_fail_Ok in Hc]. cbn [negb] in Hc.
  destruct (Executable (GrantFromRow gr) now) eqn:E4; [|by apply tx_fail_Ok in Hc]. cbn [negb] in Hc.
  destruct (slices_Contains (g_Methods (GrantFromRow gr)) (cr_Method req)) eqn:E5; [|by apply tx_fail_Ok in Hc]. cbn [negb] in Hc.
  apply tx_bind_Ok in Hc as (dr & ? & Hd & Hc). apply unwrap_Ok, gets_Ok in Hd as [Hd ->].
  destruct (_ || _) eqn:E6; [by apply tx_fail_Ok in Hc|].
  apply tx_bind_Ok in Hc as (srv & ? & Hs & Hc). apply unwrap_Ok, gets_Ok in Hs as [Hs ->].
  destruct (Method _ _) as [tool|] eqn:E7; [|by apply tx_fail_Ok in Hc].
  apply tx_bind_Ok in Hc as ([] & ? & [E8 ->]%lift_Ok & Hc).
  destruct (routeOf _ _ _) as [route|] eqn:E9; [|by apply tx_fail_Ok in Hc].
  apply tx_bind_Ok in Hc as (restricted & ? & [E10 ->]%gets_Ok & Hc).
  destruct restricted; [by apply tx_fail_Ok in Hc|]. symmetry in E10.
  apply InsertToolRequest_Ok in Hc as (Hnew & Hcmd & ->). breflect.
  exists (GrantFromRow gr), (DescriptorFromRow dr srv), tool, route. split; [|done].
  apply slices_Contains_spec in E5. constructor; try done; [by exists gr|by exists dr, srv| |].
  - intros c r Hr Ht Hsv Hu. pose proof (rows_exist_not _ _ E10 _ _ Hr) as Hx.
    cbn beta in Hx.
    by rewrite Ht, Hsv, Hu, !String.eqb_refl, bool_decide_eq_true_2 in Hx.
  - split; [done|]. intros c r Hr Ht Hcm. specialize (Hcmd _ _ Hr). unfold by_command in Hcmd. cbn in Hcmd, Ht.
    by rewrite Ht, Hcm, !String.eqb_refl in Hcmd.
Qed.

Lemma record_call_steps cmd scope req callID now : steps_tx (record_call upstream routes cmd scope req callID now).
Proof.
  intros except d u d' Hok (g & desc & tool & route & Hc & ->)%record_call_Ok.
  destruct Hc as [(gr & Hg & ->) _ (_ & Hex & _) _ _ _ _ _ _ [Hn _]]. apply rtc_once, quiet_step; [|done|done]. 
  destruct (sk_grants _ _ Hok _ _ Hg) as [Hid Hr]. assert (is_i64 (gw_Revision gr)) as Hi by (unfold is_i64; lia).
  apply ss_call_new; [done..| |]; exists gr.
  - cbn. rewrite Hid, i64_u64 by done. unfold Executable in Hex. breflect. by split_and!.
  - destruct (sk_bound _ _ Hok _ _ Hg) as (x & (Hx & _) & _). destruct (sk_descriptors _ _ Hok _ _ Hx) as (Hk & Hi' & _).
    injection Hk as _ Hk. rewrite Hk in Hi'. unfold call_terms, granted_terms. cbn. rewrite Hid, !i64_u64 by done. by split.
Qed.
End Recording.
#[export] Hint Resolve record_call_steps : steps.

(** ** The processes *)

Section Processes.
  Context `{SchemaLibrary, Casbin}.
  Context (self : nat) (upstream : list string) (routes : list QualifiedRoute) (opts : CallOptions)
          (authz : option Authorizer).

Lemma load_knows P c : quietly P (load c) (fun r d => match r with Ok call => call_known call d | Err _ => True end).
Proof.
  unfold load. eapply quietly_bind.
  - apply (quietly_db _ _ (fun r d => match r with Some row => call_known (CallFromRow row) d | None => True end)).
    + intros d r d' Hok _ [-> ->]%gets_Ok. split_and!; [done|apply sys_rel_refl|]. destruct (_ !! _) eqn:E; [|done].
      by eapply call_known_row.
    + intros [row|]; [apply call_known_stable|done].
  - intros r. apply quietly_value. intros d [_ Hr]. by destruct r as [[row|]|].
Qed.
Lemma load_quiet c : quiet (load c).
Proof. exact (quietly_weaken _ _ _ _ _ (load_knows (fun _ => True) c) (fun _ H => H) (fun _ _ _ _ => I)). Qed.
Hint Resolve load_quiet : quiet.
Lemma get_quiet scope c : quiet (Get scope c).
Proof. unfold Get. quiet_prog. Qed.
Lemma observe_quiet call : quiet (observe call).
Proof. unfold observe. destruct (observation call) as [[outcome units]|]; quiet_prog. Qed.
Hint Resolve observe_quiet : quiet.
Lemma observe_again_quiet c : quiet (observe_again c).
Proof. unfold observe_again. quiet_prog. Qed.
Hint Resolve observe_again_quiet : quiet.

Lemma expected_moves s s' : call_move s s' -> forall x, x ∈ [s] -> call_move x s'.
Proof. by intros Hm x ->%list_elem_of_singleton. Qed.
Lemma cancel_quiet call code : quiet (cancel call code).
Proof.
  unfold cancel. apply quietly_then; [|intros r; quiet_prog]. apply quietly_good, steps_good, outcome_steps; [|done].
  apply expected_moves. constructor.
Qed.
Hint Resolve cancel_quiet : quiet.

Lemma judge_moves reply err : call_move CallSent (judge reply err).1 /\ (judge reply err).1 <> CallSent.
Proof. unfold judge. destruct err; cbn; [destruct (up_IsError reply)|..]; by split; [constructor|]. Qed.
Lemma outcome_params_steps call reply err : steps_tx (SetToolRequestOutcome (outcome_params call reply err)).
Proof.
  pose proof (judge_moves reply err) as [Hm Hs]. unfold outcome_params. destruct (judge reply err) as [state code].
  apply outcome_steps; [|done]. by apply expected_moves.
Qed.
Hint Resolve outcome_params_steps : steps.

(** The right to send: owned from the commit of the marker to the send. *)
Lemma send_right d w t ts c : service_inv d w (t :: ts) -> tk_right t = None -> ~ In c (w_sends w ++ rights ts) -> marked (db_tools d) c ->
  service_inv d w (mkToken (Some c) (tk_knows t) :: ts).
Proof.
  intros (Hok & Hnd & Hm & Hk) Ht Hn Hc. unfold service_inv. rewrite rights_cons, Ht in *. cbn [tk_right].
  rewrite <- Permutation_middle. split_and!; [done|constructor; [by rewrite list_elem_of_In|done]|by constructor|].
  apply Forall_cons in Hk as [[Hs Hx] Hk]. by repeat constructor.
Qed.
Lemma sent_right d m l K ts c : service_inv d (mkWorld m l) (mkToken (Some c) K :: ts) ->
  service_inv d (mkWorld m (l ++ [c])) (mkToken None K :: ts).
Proof.
  unfold service_inv. rewrite !rights_cons. cbn [tk_right w_sends]. rewrite <- app_assoc. intros (Hok & Hnd & Hm & Hk).
  apply Forall_cons in Hk as [[Hs Hx] Hk]. by split_and!; [..|repeat constructor].
Qed.

Lemma mark_and_send_quiet call : quietly (call_known call) (mark_and_send call) (fun _ _ => True).
Proof.
  unfold mark_and_send. apply quietly_then; [quiet_prog|]. intros now t Ht HP.
  change (db (mark call now) ≫= ?k) with (Db (mark call now) (fun r => Ret r ≫= k)).
  intros d w ts Hi. split; [by intros e _; exists t|]. intros marked_now d' Hm.
  pose proof Hi as (Hok & _ & Hall & Hk). apply Forall_cons in Hk as [[_ Hk] _].
  destruct (mark_good _ _ _ _ _ Hok (HP _ Hk) Hm) as [Hok' R].
  assert (service_inv d' w (t :: ts)) as Hi' by (eapply service_inv_le; [exact Hi|done|exact R|done|by eapply token_ok_le]).
  split; [done|]. split; [|by exists t].
  destruct marked_now; [|exists t; split; [done|by apply cancel_quiet]].
  destruct (mark_marks _ _ _ _ Hm) as [Hfresh Hmarked]. exists (mkToken (Some (c_CallID call)) (tk_knows t)). split.
  - apply send_right; [done..| |done]. intros Hin. apply Hfresh. rewrite rights_cons, Ht in Hall.
    rewrite Forall_forall in Hall. by apply Hall, list_elem_of_In.
  - cbn. clear -Ht HP. intros d w ts x w' Hi ->. exists (mkToken None (tk_knows t)). destruct w as [m l].
    split; [by apply sent_right|]. destruct x as [reply err].
    assert (quietly (call_known call) (n ← db (SetToolRequestOutcome (outcome_params call reply err));
        match n with Ok 1 => observe_again (c_CallID call) | _ => Ret tt end) (fun _ _ => True)) as Hq by quiet_prog.
    exact (Hq (mkToken None (tk_knows t)) eq_refl HP).
Qed.
Hint Resolve mark_and_send_quiet : quiet.

Lemma send_context_quiet call : quiet (send_context call).
Proof. unfold send_context. quiet_prog. Qed.
Hint Resolve send_context_quiet : quiet.
Lemma send_quiet call : quietly (call_known call) (send upstream call) (fun _ _ => True).
Proof. unfold send. quiet_prog. Qed.
Lemma send_admitted_quiet call dispatchID :
  quietly (call_known call) (send upstream (call <| c_State := CallAdmitted |> <| c_DispatchID := dispatchID |>)) (fun _ _ => True).
Proof. apply (quietly_known _ _ _ (send_quiet _)). by intros d. Qed.
Hint Resolve send_admitted_quiet : quiet.

Lemma admission_allowed_steps c dispatchID : steps_tx (SetToolRequestAdmission c CallAdmitted dispatchID None).
Proof. apply admission_steps. by left. Qed.
Lemma admission_denied_steps c dispatchID code : steps_tx (SetToolRequestAdmission c CallDenied dispatchID code).
Proof. apply admission_steps. by right. Qed.
Hint Resolve admission_allowed_steps admission_denied_steps : steps.
Lemma admitCall_quiet call : quietly (call_known call) (admitCall upstream call) (fun _ _ => True).
Proof. unfold admitCall. quiet_prog. Qed.
Hint Resolve admitCall_quiet : quiet.

(** A process that loads a call and goes on with it. *)
Lemma loaded_quietly {A} P c (k : res Call -> proc A) Q :
  (forall call, quietly (call_known call) (k (Ok call)) Q) -> (forall e, quietly (fun _ => True) (k (Err e)) Q) ->
  quietly P (r ← load c; k r) Q.
Proof.
  intros Hok Herr. eapply quietly_bind; [apply load_knows|]. intros [call|e].
  - eapply quietly_weaken; [apply Hok|by intros d [_ ?]|done].
  - eapply quietly_weaken; [apply Herr|done|done].
Qed.
Lemma advance_quiet c : quiet (advance upstream c).
Proof. unfold advance. apply loaded_quietly; intros; quiet_prog. Qed.
Hint Resolve advance_quiet : quiet.
Lemma dispatch_quiet c : quiet (dispatch self upstream c).
Proof. unfold dispatch, untrack. quiet_prog. Qed.
Hint Resolve dispatch_quiet : quiet.

Lemma commercial_quiet scope req : quiet (commercial scope req).
Proof. unfold commercial. quiet_prog. Qed.
Hint Resolve commercial_quiet : quiet.
Lemma create_quiet fuel cmd scope req : quiet (Create self upstream routes fuel cmd scope req).
Proof.
  induction fuel as [|fuel IH]; cbn [Create]; [quiet_prog|]. unfold track.
  quiet_prog; try exact IH.
Qed.

Lemma abandon_quiet c : quiet (abandon c).
Proof.
  unfold abandon. apply quietly_then; [|intros r; quiet_prog]. apply quietly_good, steps_good, outcome_steps; [|done].
  apply expected_moves. constructor.
Qed.
Hint Resolve abandon_quiet : quiet.
Lemma abandon_all_quiet l : quiet (abandon_all l).
Proof. induction l as [|x l IH]; cbn [abandon_all]; quiet_prog. Qed.
Hint Resolve abandon_all_quiet : quiet.
Lemma shutdown_quiet : quiet (Shutdown self).
Proof. unfold Shutdown. quiet_prog. Qed.

Lemma due_quiet c : quiet (dueForResolve self opts c).
Proof. unfold dueForResolve. quiet_prog. Qed.
Hint Resolve due_quiet : quiet.
Lemma resolve_quiet call : quiet (resolve call).
Proof.
  unfold resolve. apply quietly_then; [quiet_prog|]. intros [v|]; [|quiet_prog].
  destruct (resolution v) as [[state code]|] eqn:E; [|quiet_prog]. apply quietly_then; [|intros r; quiet_prog].
  assert (state = CallFailed \/ state = CallSucceeded) as Hs.
  { unfold resolution in E. repeat case_match; simplify_eq; auto. }
  apply quietly_good, steps_good, outcome_steps; [|by destruct Hs as [-> | ->]].
  apply expected_moves. destruct Hs as [-> | ->]; constructor.
Qed.
Hint Resolve resolve_quiet : quiet.
Lemma reconcileOne_quiet call : quietly (call_known call) (reconcileOne self upstream opts call) (fun _ _ => True).
Proof. unfold reconcileOne. quiet_prog. Qed.
Hint Resolve reconcileOne_quiet : quiet.

Definition rows_known (rows : list ToolRequest) (d : DB) : Prop := Forall (fun r => call_known (CallFromRow r) d) rows.
Lemma rows_known_stable rows : stable (rows_known rows).
Proof. intros d d' R Hr. eapply Forall_impl; [exact Hr|]. intros r. by apply call_known_stable. Qed.
Lemma open_requests_known d p rows d' : sys_ok d -> ListOpenToolRequests p d = Ok (rows, d') -> d' = d /\ rows_known rows d.
Proof.
  intros Hok [-> ->]%gets_Ok. split; [done|]. apply Forall_forall. intros r Hr.
  assert (forall A n (l : list A) x, x ∈ firstn n l -> x ∈ l) as Hfirst.
  { intros A n l x Hx. rewrite <- (firstn_skipn n l). apply elem_of_app. by left. }
  apply Hfirst in Hr. rewrite sort_by_perm in Hr.
  apply list_elem_of_In, filter_In in Hr as [Hr _]. apply list_elem_of_In, rows_of_elem in Hr as [c Hr]. by eapply call_known_row.
Qed.

Lemma reconcile_rows_quiet rows : quietly (rows_known rows) (reconcile_rows self upstream opts rows) (fun _ _ => True).
Proof.
  induction rows as [|x rows IH]; cbn [reconcile_rows]; [quiet_prog|]. apply quietly_then.
  - apply (quietly_known _ _ _ (reconcileOne_quiet _)). by intros d [? _]%Forall_cons.
  - intros _. apply (quietly_known _ _ _ IH). by intros d [_ ?]%Forall_cons.
Qed.
Hint Resolve reconcile_rows_quiet : quiet.
Lemma reconcile_pages_quiet fuel : forall after seen total,
  quiet (reconcile_pages self upstream opts fuel after seen total).
Proof.
  induction fuel as [|fuel IH]; intros after seen total; cbn [reconcile_pages]; [quiet_prog|].
  apply quietly_then; [quiet_prog|]. intros stopped. destruct (stopped : bool); [quiet_prog|].
  eapply quietly_bind; [eapply (quietly_db _ _ rows_known); [|apply rows_known_stable]|].
  - intros d rows d' Hok _ [-> Hr]%open_requests_known; [|done]. split_and!; [done|apply sys_rel_refl|done].
  - intros [rows|e]; [|apply quietly_drop; quiet_prog].
    apply (quietly_known (rows_known rows)); [|by intros d [_ ?]]. destruct (last rows); quiet_prog; apply IH.
Qed.
Hint Resolve reconcile_pages_quiet : quiet.
Lemma reconcile_quiet fuel : quiet (Reconcile self upstream opts fuel).
Proof. unfold Reconcile. quiet_prog. Qed.
Lemma reconcileCall_quiet c : quiet (ReconcileCall self upstream opts c).
Proof. unfold ReconcileCall. apply loaded_quietly; intros; quiet_prog. Qed.
Hint Resolve reconcileCall_quiet : quiet.
Lemma reconcileCallAs_quiet scope c : quiet (ReconcileCallAs self upstream opts authz scope c).
Proof. unfold ReconcileCallAs. quiet_prog. Qed.
End Processes.
