(* ===== verification/GrantsQuiet.v ===== *)
(** * GrantsQuiet: the processes of grant management keep the protocol

    The one transaction that needs to know more than its own reads is the last
    one of a revocation: that no call of the grant is open was read before it,
    and stays true because the grant's calls are frozen. *)

From S2P Require Import Prelude Table Errors GoStrings GoCrypto GoJson GoNum GoBase64 GoUrl Task TaskLife Catalog Grant Call Event App Rows Sql SqlCalls SqlCatalog CallLife Invariant Prog Ports Protocol Grants GrantsSafe.

(** ** What a revocation knows *)

(** The grant is closed, at the revision its calls have. *)
Definition closed_at (id : string) (revision : Z) (d : DB) : Prop :=
  exists g, db_grants d !! id = Some g /\ closed (gw_State g) = true /\ gw_Revision g = revision.
(** The grant is closed and none of its calls is open. *)
Definition drained (id : string) (d : DB) : Prop :=
  (exists g, db_grants d !! id = Some g /\ closed (gw_State g) = true) /\ no_open_call (db_tools d) id.

Lemma closed_at_stable id revision : stable (closed_at id revision).
Proof.
  intros d d' R (g & Hg & Hc & Hr). destruct (table_le_row _ _ _ _ _ _ (sr_grants _ _ R) Hg) as (g' & Hg' & Hle).
  exists g'. split_and!; [done|by eapply grant_le_closed|]. apply grant_le_keeps, grant_identity_keeps in Hle. naive_solver congruence.
Qed.
Lemma drained_stable id : stable (drained id).
Proof.
  intros d d' R [(g & Hg & Hc) Hno]. split.
  - destruct (table_le_row _ _ _ _ _ _ (sr_grants _ _ R) Hg) as (g' & Hg' & Hle). exists g'. split; [done|by eapply grant_le_closed].
  - intros c r' Hr' Hid. destruct (sr_frozen _ _ R id g Hg Hc c r' Hr' Hid) as (r & Hr & _).
    destruct (table_le_row _ _ _ _ _ _ (sr_tools _ _ R) Hr) as (x & Hx & Hle). rewrite Hr' in Hx. injection Hx as <-.
    eapply row_le_closed; [exact Hle|]. apply (Hno c); [done|].
    apply row_le_keeps in Hle as [(_ & E & _)%call_identity_keeps _]. congruence.
Qed.

(** Counting no open request of a closed grant, at its revision, drains it. *)
Lemma counted_none d id revision n d' : sys_ok d -> closed_at id revision d ->
  CountOpenToolRequests id revision d = Ok (n, d') -> d' = d /\ (n = 0 -> drained id d).
Proof.
  intros Hok (g & Hg & Hc & Hrev) [-> ->]%gets_Ok. split; [done|]. intros Hn. split; [by exists g|].
  intros c r Hr Hid. destruct (is_open (tr_State r)) eqn:Ho; [|done].
  destruct (sk_calls _ _ Hok _ _ Hr) as (g' & Hg' & Hr'). rewrite Hid, Hg in Hg'. injection Hg' as <-.
  assert (In r []) as []. destruct (List.filter _ _) as [|x l] eqn:E; [|cbn in Hn; lia]. rewrite <- E. apply filter_In. split.
  - apply list_elem_of_In, rows_of_elem. by exists c.
  - rewrite Hid, <- Hr', Hrev, String.eqb_refl, Z.eqb_refl. exact Ho.
Qed.

(** What is known of a loaded grant. *)
Definition grant_known (id : string) (g : Grant) (d : DB) : Prop :=
  g_GrantID g = id /\ (g_State g = GrantRevoking -> closed_at id (i64 (g_Revision g)) d).
Lemma grant_known_stable id g : stable (grant_known id g).
Proof. intros d d' R [Hid Hc]. split; [done|]. intros Hs. eapply closed_at_stable; eauto. Qed.
Lemma grant_known_row d id g : sys_ok d -> db_grants d !! id = Some g -> grant_known id (GrantFromRow g) d.
Proof.
  intros Hok Hg. destruct (sk_grants _ _ Hok _ _ Hg) as [Hid Hr]. split; [done|]. cbn. intros Hs. exists g.
  split_and!; [done|by rewrite Hs|]. rewrite i64_u64; [done|]. unfold is_i64. lia.
Qed.

(** ** The processes *)

Section Processes.
  Context `{Casbin} (authz : option Authorizer).

Lemma grant_load_knows P id : quietly P (load id) (fun r d => match r with Ok g => grant_known id g d | Err _ => True end).
Proof.
  unfold load. eapply quietly_bind.
  - apply (quietly_db _ _ (fun r d => match r with Some row => grant_known id (GrantFromRow row) d | None => True end)).
    + intros d r d' Hok _ [-> ->]%gets_Ok. split_and!; [done|apply sys_rel_refl|]. destruct (_ !! _) eqn:E; [|done].
      by apply grant_known_row.
    + intros [row|]; [apply grant_known_stable|done].
  - intros r. apply quietly_value. intros d [_ Hr]. by destruct r as [[row|]|].
Qed.
Lemma grant_load_quiet id : quiet (load id).
Proof. exact (quietly_weaken _ _ _ _ _ (grant_load_knows (fun _ => True) id) (fun _ H => H) (fun _ _ _ _ => I)). Qed.
Hint Resolve grant_load_quiet : quiet.

Hint Resolve register_tx_steps create_tx_steps revoke_tx_steps expire_tx_steps : steps.
Lemma register_quiet id : quiet (register id).
Proof. unfold register. quiet_prog. Qed.
Hint Resolve register_quiet : quiet.
Lemma replay_quiet cmd : quiet (replay cmd).
Proof. unfold replay. quiet_prog. Qed.
Hint Resolve replay_quiet : quiet.
Lemma grant_create_quiet cmd scope req : quiet (Create authz cmd scope req).
Proof. unfold Create. quiet_prog. Qed.

(** The end of a revocation: the count, and the transaction it allows. *)
Lemma barrier_quiet id gid revision b : quietly (fun d => gid = id /\ closed_at gid revision d)
  (open ←? db (CountOpenToolRequests gid revision); stamps ← ask Stamps; db (barrier_tx id b open stamps)) (fun _ _ => True).
Proof.
  eapply quietly_bind.
  - apply (quietly_db _ _ (fun n d => n = 0 -> drained id d)).
    + intros d n d' Hok [-> Hc] Hn. destruct (counted_none _ _ _ _ _ Hok Hc Hn) as [-> Hd]. split_and!; [done|apply sys_rel_refl|done].
    + intros n d d' R Hd ->. eapply drained_stable; eauto.
  - intros [n|e]; [|apply quietly_ret]. apply (quietly_known (fun d => n = 0 -> drained id d)); [|by intros d [_ Hd]].
    apply quietly_then; [quiet_prog|]. intros stamps.
    eapply quietly_weaken; [apply (quietly_db (fun d => n = 0 -> drained id d) _ (fun _ _ => True))|done|done].
    + intros d a d' Hok Hd Hb. assert (rtc sys_step d d') as S.
      { eapply barrier_tx_steps; [exact Hok| |exact Hb]. intros ->. by apply Hd. }
      by destruct (sys_steps _ _ _ S Hok).
    + done.
Qed.
Lemma grant_advance_quiet id : quiet (advance id).
Proof.
  unfold advance. eapply quietly_bind; [apply grant_load_knows|]. intros [gr|e]; [|quiet_prog].
  destruct (bool_decide (g_State gr = GrantRevoking)) eqn:Er; breflect; [rewrite Er|destruct (g_State gr); by try quiet_prog].
  apply (quietly_known (fun d => g_GrantID gr = id /\ closed_at (g_GrantID gr) (i64 (g_Revision gr)) d));
    [|intros d (_ & -> & Hc); auto].
  apply quietly_then; [quiet_prog|]. intros [b|e]; [|quiet_prog]. apply quietly_then; [quiet_prog|]. intros b'.
  apply barrier_quiet.
Qed.
Hint Resolve grant_advance_quiet : quiet.
Lemma advance_or_load_quiet id : quiet (advance_or_load id).
Proof. unfold advance_or_load. quiet_prog. Qed.
Hint Resolve advance_or_load_quiet : quiet.
Lemma revoke_quiet cmd scope id revision reason : quiet (Revoke authz cmd scope id revision reason).
Proof. unfold Revoke, GetGrantDecisionByCommand. quiet_prog. Qed.

Lemma grant_get_quiet scope id : quiet (Get authz scope id).
Proof. unfold Get. quiet_prog. Qed.
Hint Resolve grant_get_quiet : quiet.
Lemma progress_quiet scope id : quiet (Progress authz scope id).
Proof. unfold Progress. quiet_prog. Qed.
Lemma list_quiet scope state cursor limit : quiet (List_ authz scope state cursor limit).
Proof. unfold List_, ListGrants. quiet_prog. Qed.

Lemma advance_all_quiet ids : quiet (advance_all ids).
Proof. induction ids as [|id ids IH]; cbn [advance_all]; quiet_prog. Qed.
Lemma expire_all_quiet ids : quiet (expire_all ids).
Proof. induction ids as [|id ids IH]; cbn [expire_all]; quiet_prog. Qed.
Hint Resolve advance_all_quiet expire_all_quiet : quiet.
Lemma grant_reconcile_quiet olderThan limit : quiet (Reconcile olderThan limit).
Proof. unfold Reconcile, ListOpenBarriers, ListExpiredGrants. quiet_prog. Qed.
End Processes.
