(* ===== verification/Service.v ===== *)
(** * Service: the processes of the service

    Every use case of every component, on any replica under any
    configuration, as the processes that may start; all of them keep the
    protocol. *)

From S2P Require Import Prelude Table Errors GoStrings GoCrypto GoJson GoNum GoBase64 GoUrl Identity Task TaskLife Catalog Grant Call Event App Authz Wire Rows Sql SqlCalls SqlCatalog CallLife Invariant Prog Ports Transport Protocol Network Calls Grants CatalogApp Tasks Refresh Projection GrantsSafe CatalogSafe CallsSafe GrantsQuiet.

(** ** The catalog, the refresh and the projection *)

Lemma BuildDescriptor_pending decl live d : BuildDescriptor decl live = Ok d -> d_State d = CatalogReviewPending.
Proof.
  unfold BuildDescriptor. intros H. dif H as E1. dif H as E2. apply bind_Ok in H as (host & _ & H). cbv zeta in H. dif H as E3.
  apply bind_Ok in H as (declared & _ & H). apply bind_Ok in H as ([[tools schemas] missing] & _ & H). dif H as E4. dif H as E5.
  by injection H as <-.
Qed.

Section Catalog.
  Context `{Casbin} (authz : option Authorizer) (policy : NetworkPolicy) (issuers : bool).

Lemma catalog_load_quiet server revision : quiet (CatalogApp.load server revision).
Proof. unfold CatalogApp.load. quiet_prog. Qed.
Hint Resolve catalog_load_quiet : quiet.
Lemma replayCommand_quiet cmd kind : quiet (replayCommand cmd kind).
Proof. unfold replayCommand, GetCatalogCommand. quiet_prog. Qed.
Hint Resolve replayCommand_quiet : quiet.
Lemma CheckTarget_quiet resource : quiet (CheckTarget policy resource).
Proof. unfold CheckTarget. quiet_prog. Qed.
Hint Resolve CheckTarget_quiet : quiet.
Lemma readLive_quiet resource version : quiet (readLive policy issuers resource version).
Proof. unfold readLive. quiet_prog. Qed.
Hint Resolve readLive_quiet : quiet.

Lemma managed_quiet cmd scope action kind p : quiet p -> quiet (managed authz cmd scope action kind p).
Proof. intros Hp. unfold managed. quiet_prog. Qed.
Lemma discover_quiet cmd scope decl : quiet (Discover authz policy issuers cmd scope decl).
Proof.
  apply managed_quiet. destruct (String.eqb _ _); [quiet_prog|]. destruct (negb _); [quiet_prog|].
  apply quietly_then; [quiet_prog|]. intros [live|e]; [|quiet_prog].
  destruct (BuildDescriptor decl live) as [desc|e] eqn:E; [|quiet_prog].
  apply quietly_then; [|intros r; quiet_prog]. apply quietly_good, steps_good, discover_tx_steps. by eapply BuildDescriptor_pending.
Qed.
Hint Resolve review_tx_steps : steps.
Hint Resolve disable_tx_good : quiet.
Lemma review_quiet cmd scope server revision digest decision reason :
  quiet (Review authz cmd scope server revision digest decision reason).
Proof. apply managed_quiet. quiet_prog. Qed.
Lemma disable_quiet cmd scope server revision reason : quiet (Disable authz cmd scope server revision reason).
Proof. apply managed_quiet. quiet_prog. Qed.
Lemma catalog_get_quiet scope server revision : quiet (CatalogApp.Get authz scope server revision).
Proof. unfold CatalogApp.Get. quiet_prog. Qed.
Lemma with_servers_quiet rows : quiet (with_servers rows).
Proof. induction rows as [|r rows IH]; cbn [with_servers]; quiet_prog. Qed.
Hint Resolve with_servers_quiet : quiet.
Lemma catalog_list_quiet scope state cursor limit : quiet (CatalogApp.List_ authz scope state cursor limit).
Proof. unfold CatalogApp.List_, ListDescriptors. quiet_prog. Qed.
End Catalog.
#[local] Hint Resolve readLive_quiet : quiet.

Section RefreshProcesses.
  Context `{Jsonb} (policy : NetworkPolicy) (issuers : bool) (errorText : error -> string).

Lemma named_revision_quiet input : quiet (named_revision input).
Proof. unfold named_revision. quiet_prog. Qed.
Hint Resolve named_revision_quiet : quiet.
Lemma refresh_quiet task generation worker digest :
  quiet (Refresh.Advance policy issuers errorText task generation worker digest).
Proof. unfold Advance, GetRefresh, GetRequest. quiet_prog. Qed.
Lemma request_all_quiet cfg rows bucket : quiet (request_all cfg rows bucket).
Proof. induction rows as [|row rows IH]; cbn [request_all]; quiet_prog. Qed.
Hint Resolve request_all_quiet : quiet.
Lemma schedule_quiet cfg period max : quiet (Schedule cfg period max).
Proof. unfold Schedule, ListRefreshTargets. quiet_prog. Qed.
End RefreshProcesses.

Lemma evict_server_quiet env pl : quiet (evict_server env pl).
Proof. unfold evict_server. quiet_prog. Qed.
Lemma evict_grant_quiet env pl : quiet (evict_grant env pl).
Proof. unfold evict_grant. quiet_prog. Qed.
#[local] Hint Resolve evict_server_quiet evict_grant_quiet : quiet.
Lemma admit_event_quiet self env rev : quiet (admit_event self env rev).
Proof. unfold admit_event. quiet_prog. Qed.
#[local] Hint Resolve admit_event_quiet : quiet.
Lemma apply_quiet self env : quiet (Projection.Apply self env).
Proof. unfold Projection.Apply. quiet_prog. Qed.
#[local] Hint Resolve apply_quiet : quiet.
Lemma handle_quiet self data : quiet (Projection.Handle self data).
Proof. unfold Projection.Handle. quiet_prog. Qed.

(** ** The listener *)

Section TransportProcesses.
  Context `{SchemaLibrary, Casbin, Jsonb} (other : error -> option Code).
  Context (self : nat) (upstream : list string) (routes : list QualifiedRoute) (fuel : nat) (opts : CallOptions).
  Context (authz : option App.Authorizer) (policy : NetworkPolicy) (issuers : bool) (cfg : Config) (errorText : error -> string).

Hint Resolve create_quiet get_quiet reconcileCallAs_quiet grant_create_quiet revoke_quiet grant_get_quiet progress_quiet
  list_quiet discover_quiet review_quiet disable_quiet catalog_get_quiet catalog_list_quiet refresh_quiet Submit_good : quiet.

Lemma rpc_quiet ctx q : quiet (handle_rpc other self upstream routes fuel opts authz policy issuers cfg errorText ctx q).
Proof.
  destruct q;
    cbv [handle_rpc ClaimTask HeartbeatTask SubmitTaskResult GetTask ListCatalog GetDescriptor DiscoverServer ReviewDescriptor
         DisableDescriptor CreateGrant GetGrant ListGrants RevokeGrant GetRevocationProgress CreateCall GetCall
         Transport.ReconcileCall AdvanceRefresh respond parsed]; quiet_prog.
Qed.
Lemma serve_quiet validate s ctx q p : quiet p -> quiet (serve validate self s ctx q p).
Proof. intros Hp. unfold serve, authorized, Transport.bounded, validated, quiet in *. quiet_prog.
Qed.
End TransportProcesses.

(** ** The service *)

Section Service.
  Context `{SchemaLibrary, Casbin, Jsonb}.

(** The use cases, on any replica under any configuration; a command on
    background tasks is one transaction, at the clock's readings. *)
Inductive service_process : proc unit -> Prop :=
| sp_call_create self upstream routes fuel cmd scope req :
    service_process (ignore (Calls.Create self upstream routes fuel cmd scope req))
| sp_call_get scope c : service_process (ignore (Calls.Get scope c))
| sp_call_shutdown self : service_process (ignore (Calls.Shutdown self))
| sp_call_reconcile self upstream opts fuel : service_process (ignore (Calls.Reconcile self upstream opts fuel))
| sp_call_reconcile_one self upstream opts c : service_process (ignore (ReconcileCall self upstream opts c))
| sp_call_reconcile_as self upstream opts authz scope c :
    service_process (ignore (ReconcileCallAs self upstream opts authz scope c))
| sp_grant_create authz cmd scope req : service_process (ignore (Grants.Create authz cmd scope req))
| sp_grant_revoke authz cmd scope id revision reason : service_process (ignore (Revoke authz cmd scope id revision reason))
| sp_grant_get authz scope id : service_process (ignore (Grants.Get authz scope id))
| sp_grant_progress authz scope id : service_process (ignore (Progress authz scope id))
| sp_grant_list authz scope state cursor limit : service_process (ignore (Grants.List_ authz scope state cursor limit))
| sp_grant_reconcile olderThan limit : service_process (ignore (Grants.Reconcile olderThan limit))
| sp_discover authz policy issuers cmd scope decl : service_process (ignore (Discover authz policy issuers cmd scope decl))
| sp_review authz cmd scope server revision digest decision reason :
    service_process (ignore (Review authz cmd scope server revision digest decision reason))
| sp_disable authz cmd scope server revision reason :
    service_process (ignore (Disable authz cmd scope server revision reason))
| sp_catalog_get authz scope server revision : service_process (ignore (CatalogApp.Get authz scope server revision))
| sp_catalog_list authz scope state cursor limit : service_process (ignore (CatalogApp.List_ authz scope state cursor limit))
| sp_refresh policy issuers errorText task generation worker digest :
    service_process (ignore (Refresh.Advance policy issuers errorText task generation worker digest))
| sp_schedule cfg period max : service_process (ignore (Schedule cfg period max))
| sp_rpc other self upstream routes fuel opts authz policy issuers cfg errorText validate s ctx q :
    service_process (ignore (serve validate self s ctx q
      (handle_rpc other self upstream routes fuel opts authz policy issuers cfg errorText ctx q)))
| sp_projection self data : service_process (ignore (Projection.Handle self data))
| sp_task_request cfg inp eventID now0 now now1 now2 :
    service_process (ignore (db (Tasks.Request cfg inp eventID now0 now now1 now2)))
| sp_task_claim cfg task generation worker lease now0 now1 now :
    service_process (ignore (db (Claim cfg task generation worker lease now0 now1 now)))
| sp_task_heartbeat task generation worker now now' : service_process (ignore (db (Heartbeat task generation worker now now')))
| sp_task_submit stamps cfg task generation sub now0 now :
    service_process (ignore (db (Submit (service_bindings stamps) cfg task generation sub now0 now)))
| sp_task_cancel task now : service_process (ignore (db (Tasks.Cancel task now)))
| sp_task_expire cfg task generation outcome now now' :
    service_process (ignore (db (settleExpired cfg task generation outcome now now'))).

Lemma ignored {A} (p : proc A) : quiet p -> quiet (ignore p).
Proof. intros Hp. unfold ignore. apply quietly_then; [done|]. intros a. apply quietly_ret. Qed.
#[local] Hint Resolve Submit_good : quiet.
Lemma service_quiet p : service_process p -> quiet p.
Proof.
  destruct 1; apply ignored; eauto using create_quiet, get_quiet, shutdown_quiet, reconcile_quiet,
    reconcileCall_quiet, reconcileCallAs_quiet, grant_create_quiet, revoke_quiet, grant_get_quiet, progress_quiet,
    list_quiet, grant_reconcile_quiet, discover_quiet, review_quiet, disable_quiet, catalog_get_quiet, catalog_list_quiet, refresh_quiet,
    schedule_quiet, handle_quiet, serve_quiet, rpc_quiet; quiet_prog.
Qed.

Abbreviation service_pool := (pool (E := eff) (W := world)).
Abbreviation service_run := (pool_run handle service_process service_env).

Definition started (now : Time) (mem : nat -> memory) : service_pool := mkPool (empty_db now) (mkWorld mem []) [].

(** The pools the service reaches from its empty database. *)
Definition reached (p : service_pool) : Prop := exists now mem, service_run (started now mem) p.

Lemma reached_inv p : reached p -> pool_inv handle service_inv sys_rel p.
Proof.
  intros (now & mem & Hr). refine (proj1 (pool_sound _ _ _ _ _ _ (service_protocol _ service_quiet) _ _ Hr _)).
  exists []. split; [|constructor]. split_and!; [apply sys_ok_empty|constructor..].
Qed.
Lemma reached_ok p : reached p -> sys_ok (pl_db p).
Proof. by intros (ts & (Hok & _) & _)%reached_inv. Qed.
Lemma reached_sends p : reached p ->
  NoDup (w_sends (pl_world p)) /\ forall c, c ∈ w_sends (pl_world p) -> marked (db_tools (pl_db p)) c.
Proof.
  intros (ts & (_ & Hnd & Hm & _) & _)%reached_inv. split; [by apply NoDup_app in Hnd as [? _]|].
  intros c Hc. rewrite Forall_forall in Hm. apply Hm, elem_of_app. by left.
Qed.
Lemma run_rel p q : reached p -> service_run p q -> sys_rel (pl_db p) (pl_db q).
Proof. intros Hp Hr. exact (proj2 (pool_sound _ _ _ _ _ _ (service_protocol _ service_quiet) _ _ Hr (reached_inv _ Hp))). Qed.

Lemma pool_run_trans p q r : service_run p q -> service_run q r -> service_run p r.
Proof.
  intros Hpq Hqr. revert Hpq. induction Hqr as [x|x y z _ IH Hs]; intros Hpq; [done|].
  eapply pr_step; [by apply IH|exact Hs].
Qed.
Lemma reached_run p q : reached p -> service_run p q -> reached q.
Proof. intros (now & mem & Hr) Hpq. exists now, mem. by eapply pool_run_trans. Qed.
End Service.

Abbreviation service_pool := (pool (E := eff) (W := world)).
Abbreviation service_run := (pool_run handle service_process service_env).
