(* ===== verification/Paging.v ===== *)
(** * Paging: the pages of a listing, one after the other, are the listing

    A page starts after the key its cursor names and ends with the cursor of
    its last item when more follow.  Over a database that does not change,
    following the cursors from the empty one ends, and yields every listed
    item once and in order. *)

From S2P Require Import Prelude Errors GoStrings GoCrypto GoJson GoBase64 GoUrl UrlText GoScan Catalog Grant Event App Task TaskLife Call Rows Sql SqlCalls SqlCatalog Invariant Prog Ports Grants CatalogApp Service.
From Stdlib Require Import Sorted.

(** ** Filters *)

Lemma filter_all {A} (f : A -> bool) l : (forall x, x ∈ l -> f x = true) -> List.filter f l = l.
Proof.
  induction l as [|x l IH]; intros H; [done|]. cbn. rewrite H by (by left). f_equal. apply IH. intros y Hy. apply H. by right.
Qed.
Lemma filter_none {A} (f : A -> bool) l : (forall x, x ∈ l -> f x = false) -> List.filter f l = [].
Proof. induction l as [|x l IH]; intros H; [done|]. cbn. rewrite H by (by left). apply IH. intros y Hy. apply H. by right. Qed.

(** ** Pages *)

Section Pages.
  Context {X : Type} (items : list X) (cursor_of : X -> string) (after : string -> X -> bool) (limit : Z).
  Context (Hlimit : 0 < limit).
  Context (Hsorted : StronglySorted (fun a b => after (cursor_of a) b = true) items).
  Context (Hasym : forall a b, a ∈ items -> b ∈ items -> after (cursor_of a) b = true -> after (cursor_of b) a = false).
  Context (Hirr : forall a, a ∈ items -> after (cursor_of a) a = false).
  Context (Hcursor : forall a, a ∈ items -> cursor_of a <> "").

Definition cut (out : list X) : list X * string :=
  if limit <? Z.of_nat (List.length out) then
    let page := firstn (Z.to_nat limit) out in (page, match last page with Some a => cursor_of a | None => "" end)
  else (out, "").
Definition page_rows (rest : list X) : list X * string := cut (firstn (Z.to_nat (limit + 1)) rest).

(** The items after one of them are those that follow it. *)
Lemma after_item l1 a l2 : items = l1 ++ a :: l2 -> List.filter (after (cursor_of a)) items = l2.
Proof.
  intros E. pose proof Hsorted as Hs. assert (a ∈ items) as Ha by (rewrite E; apply elem_of_app; right; by left).
  assert (forall x, x ∈ l1 -> after (cursor_of x) a = true) as H1.
  { rewrite E in Hs. clear E. induction l1 as [|x l1 IH]; [by intros x ?%elem_of_nil|]. cbn [app] in Hs.
    apply StronglySorted_inv in Hs as [Hs Hx]. intros y [->|Hy]%elem_of_cons; [|by apply IH].
    rewrite List.Forall_forall in Hx. apply Hx, in_or_app. right. by left. }
  assert (forall x, x ∈ l2 -> after (cursor_of a) x = true) as H2.
  { rewrite E in Hs. clear E H1. induction l1 as [|x l1 IH]; cbn [app] in Hs; apply StronglySorted_inv in Hs as [Hs Hx]; [|by apply IH].
    intros y Hy%list_elem_of_In. rewrite List.Forall_forall in Hx. by apply Hx. }
  rewrite E at 1. rewrite List.filter_app. cbn [List.filter]. rewrite Hirr by done.
  rewrite (filter_all _ l2) by done. rewrite (filter_none _ l1); [done|]. intros x Hx. apply Hasym; [|done|by apply H1]. rewrite E. apply elem_of_app. by left.
Qed.

(** A page of what is left: all of it, or a part with the cursor that leads to
    what is left then. *)
Lemma page_rows_spec l1 rest : items = l1 ++ rest ->
  page_rows rest = (rest, "") \/
  exists out a rest', page_rows rest = (out ++ [a], cursor_of a) /\ rest = out ++ a :: rest' /\ (List.length rest' < List.length rest)%nat.
Proof.
  intros E. unfold page_rows, cut. set (n := Z.to_nat limit). replace (Z.to_nat (limit + 1)) with (S n) by (unfold n; lia).
  rewrite length_firstn. destruct (Z.ltb_spec limit (Z.of_nat (Nat.min (S n) (List.length rest)))) as [H|H].
  - right. assert (n < List.length rest)%nat as Hn by (unfold n; lia). destruct n as [|m] eqn:En; [lia|].
    destruct (lookup_lt_is_Some_2 rest m) as [a Ha]; [lia|]. exists (firstn m rest), a, (skipn (S m) rest).
    rewrite firstn_firstn. replace (Nat.min (S m) (S (S m))) with (S m) by lia.
    rewrite (take_S_r rest m a Ha), last_snoc. split; [done|]. split.
    + rewrite <- (take_drop (S m) rest) at 1. by rewrite (take_S_r rest m a Ha), <- app_assoc.
    + rewrite length_skipn. lia.
  - left. f_equal. apply firstn_all2. unfold n in *. lia.
Qed.

  (** What a page shows of its rows. *)
  Context {Y : Type} (show : X -> Y) (page : string -> res (list Y * string)).
Definition shown (p : list X * string) : list Y * string := (map show p.1, p.2).
  Context (Hfirst : page "" = Ok (shown (page_rows items))).
  Context (Hpage : forall a, a ∈ items -> page (cursor_of a) = Ok (shown (page_rows (List.filter (after (cursor_of a)) items)))).

(** Follow the cursors. *)
Fixpoint follow (fuel : nat) (cursor : string) : option (list Y) :=
  match fuel with
  | O => None
  | S n =>
      match page cursor with
      | Err _ => None
      | Ok (out, next) => if String.eqb next "" then Some out else option_map (app out) (follow n next)
      end
  end.

Lemma follow_rest fuel cursor l1 rest : items = l1 ++ rest -> page cursor = Ok (shown (page_rows rest)) ->
  (List.length rest < fuel)%nat -> follow fuel cursor = Some (map show rest).
Proof.
  revert cursor l1 rest. induction fuel as [|n IH]; intros cursor l1 rest E Hp Hf; [lia|]. cbn [follow]. rewrite Hp.
  destruct (page_rows_spec l1 rest E) as [->|(out & a & rest' & -> & -> & Hl)]; [done|].
  assert (a ∈ items) as Ha by (rewrite E; apply elem_of_app; right; apply elem_of_app; right; by left).
  cbn [shown fst snd]. rewrite (proj2 (String.eqb_neq _ _) (Hcursor a Ha)). rewrite (IH (cursor_of a) (l1 ++ out ++ [a]) rest').
  - cbn. by rewrite !map_app, <- app_assoc.
  - by rewrite E, <- !app_assoc.
  - rewrite Hpage by done. do 3 f_equal. apply (after_item (l1 ++ out)). by rewrite E, <- !app_assoc.
  - lia.
Qed.
Lemma follow_all fuel : (List.length items < fuel)%nat -> follow fuel "" = Some (map show items).
Proof. intros Hf. by apply (follow_rest fuel "" [] items). Qed.
End Pages.

(** ** Ordered rows *)

Lemma sort_by_strict {A} (le : A -> A -> bool) (lt : A -> A -> Prop) l :
  (forall a b, le a b = true \/ le b a = true) -> (forall a b c, le a b = true -> le b c = true -> le a c = true) ->
  NoDup l -> (forall a b, a ∈ l -> b ∈ l -> le a b = true -> a <> b -> lt a b) -> StronglySorted lt (sort_by le l).
Proof.
  intros Htot Htr Hnd Hlt. pose proof (sort_by_sorted le Htot Htr l) as Hs. pose proof (sort_by_perm le l) as Hp.
  assert (NoDup (sort_by le l)) as Hnd' by (by rewrite Hp).
  assert (forall a, a ∈ sort_by le l -> a ∈ l) as Hin by (intros a; by rewrite Hp).
  clear Hp Hnd. induction Hs as [|a s _ IH Ha]; [constructor|]. apply NoDup_cons in Hnd' as [Hna Hnd']. constructor.
  - apply IH; [done|]. intros b Hb. apply Hin. by right.
  - rewrite List.Forall_forall in Ha |- *. intros b Hb. apply Hlt; [apply Hin; by left|apply Hin; right; by apply list_elem_of_In|by apply Ha|].
    intros <-. apply Hna. by apply list_elem_of_In.
Qed.

Lemma insert_sorted_filter {A} (le : A -> A -> bool) (f : A -> bool) x l :
  (forall a b c, le a b = true -> le b c = true -> le a c = true) ->
  StronglySorted (fun a b => le a b = true) l ->
  List.filter f (insert_sorted le x l) = if f x then insert_sorted le x (List.filter f l) else List.filter f l.
Proof.
  intros Htr. induction 1 as [|a l Hl IH Ha]; cbn; [by destruct (f x)|]. destruct (le x a) eqn:E.
  - cbn. destruct (f x) eqn:Ex; [|done]. destruct (f a) eqn:Ea; [cbn; by rewrite E|].
    assert (forall b, b ∈ List.filter f l -> le x b = true) as Hb.
    { intros b [Hb _]%list_elem_of_In%filter_In. rewrite List.Forall_forall in Ha. eauto. }
    destruct (List.filter f l) as [|b r]; [done|]. cbn. by rewrite Hb by (by left).
  - cbn. rewrite IH. destruct (f x), (f a) eqn:Ea; try done. cbn. by rewrite E.
Qed.
Lemma sort_by_filter {A} (le : A -> A -> bool) (f : A -> bool) l :
  (forall a b, le a b = true \/ le b a = true) -> (forall a b c, le a b = true -> le b c = true -> le a c = true) ->
  sort_by le (List.filter f l) = List.filter f (sort_by le l).
Proof.
  intros Htot Htr. unfold sort_by. induction l as [|x l IH]; [done|]. cbn. rewrite insert_sorted_filter; [|done|by apply sort_by_sorted].
  destruct (f x); cbn; by rewrite IH.
Qed.

Lemma filter_and {A} (f g : A -> bool) l : List.filter (fun x => f x && g x) l = List.filter g (List.filter f l).
Proof. induction l as [|x l IH]; [done|]. cbn. destruct (f x); cbn; [|done]. by rewrite IH. Qed.
Lemma firstn_elem {A} n (l : list A) x : x ∈ firstn n l -> x ∈ l.
Proof. intros H. rewrite <- (take_drop n l). apply elem_of_app. by left. Qed.
Lemma StronglySorted_weaken {A} (R S : A -> A -> Prop) l :
  (forall a b, a ∈ l -> b ∈ l -> R a b -> S a b) -> StronglySorted R l -> StronglySorted S l.
Proof.
  intros HRS. induction 1 as [|a l _ IH Ha]; [constructor|]. constructor.
  - apply IH. intros x y Hx Hy. apply HRS; by right.
  - rewrite List.Forall_forall in Ha |- *. intros b Hb. apply HRS; [by left|right; by apply list_elem_of_In|by apply Ha].
Qed.
Lemma filter_NoDup {A} (f : A -> bool) l : NoDup l -> NoDup (List.filter f l).
Proof.
  induction 1 as [|x l Hx _ IH]; [constructor|]. cbn. destruct (f x); [|done]. constructor; [|done].
  rewrite list_elem_of_In, filter_In, <- list_elem_of_In. by intros [? _].
Qed.
Lemma filter_sub {A} (f : A -> bool) l x : x ∈ List.filter f l -> x ∈ l.
Proof. by intros [Hx%list_elem_of_In _]%list_elem_of_In%filter_In. Qed.
Lemma last_map {A B} (f : A -> B) l : last (map f l) = option_map f (last l).
Proof. induction l as [|x [|y l] IH]; [done|done|]. exact IH. Qed.

Lemma string_ltb_leb a b : String.ltb a b = true <-> String.leb a b = true /\ a <> b.
Proof.
  unfold String.ltb, String.leb. destruct (String.compare a b) eqn:E; split; intros H; try done.
  - destruct H as [_ H]. by apply String.compare_eq_iff in E.
  - split; [done|]. intros ->. pose proof (String.compare_antisym b b) as Ha. by rewrite E in Ha.
  - by destruct H.
Qed.
Lemma string_ltb_asym a b : String.ltb a b = true -> String.ltb b a = false.
Proof.
  intros [H Hn]%string_ltb_leb. destruct (String.ltb b a) eqn:E; [|done]. apply string_ltb_leb in E as [E _].
  destruct Hn. by apply String.leb_antisym.
Qed.
Lemma string_leb_refl a : String.leb a a = true.
Proof. by destruct (String.leb_total a a). Qed.
Lemma string_ltb_irr a : String.ltb a a = false.
Proof. destruct (String.ltb a a) eqn:E; [|done]. by apply string_ltb_leb in E as [_ []]. Qed.

(** Rows that hold their key are all different. *)
Lemma rows_of_NoDup `{Countable K} {V} (m : gmap K V) (key : V -> K) :
  (forall k v, m !! k = Some v -> key v = k) -> NoDup (rows_of m).
Proof.
  intros Hk. unfold rows_of. apply (NoDup_fmap_1 key). change (key <$> map snd (map_to_list m)) with (map key (map snd (map_to_list m))).
  rewrite map_map. replace (map (fun x => key x.2) (map_to_list m)) with (map_to_list m).*1; [apply NoDup_fst_map_to_list|].
  apply map_ext_in. intros [k v] Hx%list_elem_of_In%elem_of_map_to_list. symmetry. by apply Hk.
Qed.

(** ** Cursors *)

Lemma EncodeToString_nil s : EncodeToString s = "" -> s = "".
Proof. intros E. pose proof (DecodeString_EncodeToString s) as H. rewrite E in H. by injection H as <-. Qed.
Lemma grants_page_after id : Grants.page_after (EncodeToString id) = Ok id.
Proof.
  unfold Grants.page_after. destruct (String.eqb (EncodeToString id) "") eqn:E.
  - apply String.eqb_eq, EncodeToString_nil in E. by rewrite E.
  - by rewrite DecodeString_EncodeToString.
Qed.
Lemma string_ltb_nil s : s <> "" -> String.ltb "" s = true.
Proof. by destruct s. Qed.

(** ** Listings *)

Section Listings.
  Context `{Casbin} (authz : option Authorizer) {W : Type} (answer : forall X, W -> eff X -> X * W) (d : DB) (w : W).
  Context (scope : Scope) (state : string) (limit0 : Z) (Hlimit0 : limit0 < 2 ^ 31 - 1).

Definition run {A} (p : proc A) : A := oc_value (exec answer p d w).
Definition limit_of : Z := if limit0 <=? 0 then 50 else limit0.
Lemma limit_of_range : 0 < limit_of /\ i32 (limit_of + 1) = limit_of + 1.
Proof. unfold limit_of. destruct (Z.leb_spec limit0 0); (split; [lia|]); apply i32_id; lia. Qed.

(** The rows of a limited statement. *)
Lemma limited_page {A} (f : DB -> list A) : limited (i32 (limit_of + 1)) f d = Ok (firstn (Z.to_nat (limit_of + 1)) (f d), d).
Proof. destruct limit_of_range as [Hl ->]. unfold limited. by rewrite (proj2 (Z.ltb_ge _ _)) by lia. Qed.

(** The listed grants, and the pages of them. *)
Definition grants_params : ListGrantsParams :=
  mkListGrantsParams (sc_TenantID scope) state (Allowed authz (sc_TenantID scope) (sc_ActorID scope) ActGrantReadAll)
    (sc_ProjectID scope) (sc_ActorID scope) "" 0.
Definition grant_le (a b : GrantRow) : bool := String.leb (gw_GrantID a) (gw_GrantID b).
Lemma grant_le_order : (forall a b, grant_le a b = true \/ grant_le b a = true) /\
  (forall a b c, grant_le a b = true -> grant_le b c = true -> grant_le a c = true).
Proof. split; [intros a b; apply String.leb_total|intros a b c; apply leb_trans]. Qed.
Definition grant_listing : list GrantRow := sort_by grant_le (List.filter (listed_grant grants_params) (rows_of (db_grants d))).
Definition grant_cursor (g : GrantRow) : string := EncodeToString (gw_GrantID g).
Definition grant_after (c : string) (g : GrantRow) : bool :=
  match Grants.page_after c with Ok k => String.ltb k (gw_GrantID g) | Err _ => false end.

Lemma grant_cut out : Grants.cut_page limit_of (map GrantFromRow out) = shown GrantFromRow (cut grant_cursor limit_of out).
Proof.
  unfold Grants.cut_page, cut. rewrite length_map. destruct (_ <? _) eqn:E; [|done]. unfold shown. cbn [fst snd].
  rewrite firstn_map, last_map. f_equal. destruct (last _) as [g|] eqn:El; [done|].
  apply last_None in El. pose proof limit_of_range as [Hl _]. apply Z.ltb_lt in E. apply (f_equal (@List.length _)) in El.
  rewrite length_firstn in El. cbn in El. lia.
Qed.
Lemma grant_page cursor k : Grants.page_after cursor = Ok k ->
  run (Grants.List_ authz scope state cursor limit0) =
  Ok (shown GrantFromRow (page_rows grant_cursor limit_of (List.filter (grant_after cursor) grant_listing))).
Proof.
  intros Hk. unfold run, Grants.List_. fold limit_of. rewrite Hk. unfold db, ListGrants. cbn [exec mbind prog_mbind prog_bind].
  rewrite limited_page. cbn [exec oc_value prog_bind]. rewrite grant_cut. unfold page_rows. do 4 f_equal.
  unfold grant_listing. rewrite <- sort_by_filter by apply grant_le_order.
  rewrite <- filter_and. unfold grant_after. by rewrite Hk.
Qed.

Lemma grants_paged fuel : grants_ok (db_grants d) -> (forall g, g ∈ rows_of (db_grants d) -> gw_GrantID g <> "") ->
  (List.length grant_listing < fuel)%nat ->
  follow (fun c => run (Grants.List_ authz scope state c limit0)) fuel "" = Some (map GrantFromRow grant_listing).
Proof.
  intros Hok Hne Hf. pose proof (sort_by_perm grant_le (List.filter (listed_grant grants_params) (rows_of (db_grants d)))) as Hp.
  assert (forall g, g ∈ grant_listing -> gw_GrantID g <> "") as Hin.
  { intros g Hg. apply Hne. unfold grant_listing in Hg. rewrite Hp in Hg. by apply filter_sub in Hg. }
  assert (forall a, grant_after (grant_cursor a) = fun g => String.ltb (gw_GrantID a) (gw_GrantID g)) as Ha.
  { intros a. unfold grant_after, grant_cursor. by rewrite grants_page_after. }
  apply (follow_all grant_listing grant_cursor grant_after limit_of (proj1 limit_of_range)).
  - apply sort_by_strict; [apply grant_le_order..| |].
    + apply filter_NoDup, (rows_of_NoDup _ gw_GrantID). intros k v Hk. by apply Hok in Hk as [? _].
    + intros a b Hia%filter_sub%rows_of_elem Hib%filter_sub%rows_of_elem Hle Hn. rewrite Ha. apply string_ltb_leb. split; [done|].
      destruct Hia as [ka Hka], Hib as [kb Hkb]. intros E. apply Hn. pose proof (Hok _ _ Hka) as [Ea _].
      pose proof (Hok _ _ Hkb) as [Eb _]. congruence.
  - intros a b _ _. rewrite !Ha. apply string_ltb_asym.
  - intros a _. rewrite Ha. apply string_ltb_irr.
  - intros a Ha' E%EncodeToString_nil. by apply (Hin a).
  - rewrite (grant_page "" "") by done. do 3 f_equal. apply filter_all. intros g Hg. apply string_ltb_nil. by apply Hin.
  - intros a _. apply (grant_page _ (gw_GrantID a)), grants_page_after.
  - done.
Qed.

(** The listed revisions, and the pages of them. *)
Definition descriptors_params : ListDescriptorsParams :=
  mkListDescriptorsParams (sc_TenantID scope) state (Allowed authz (sc_TenantID scope) (sc_ActorID scope) ActCatalogReadPending) "" 0 0.
Definition descriptor_row_le (a b : DescriptorRow) : bool := revision_le (descriptor_key a) (descriptor_key b).
Definition descriptor_listing : list DescriptorRow :=
  sort_by descriptor_row_le (List.filter (listed_descriptor d descriptors_params) (rows_of (db_descriptors d))).
(** A revision as its server's. *)
Definition describe (r : DescriptorRow) : Descriptor :=
  DescriptorFromRow r (default (mkServer "" "" "" "" 0 None) (db_servers d !! dr_ServerID r)).
Definition descriptor_cursor (r : DescriptorRow) : string := EncodeToString (dr_ServerID r +:+ " " +:+ format_int (u64 (dr_Revision r))).
Definition descriptor_after (c : string) (r : DescriptorRow) : bool :=
  match CatalogApp.page_after c with Ok k => negb (revision_le (descriptor_key r) k) | Err _ => false end.
(** Keys a cursor can carry: a server id of visible characters, a revision
    that is not negative. *)
Definition key_printable (k : string * Z) : Prop := k.1 <> "" /\ all_bytes word_byte k.1 = true /\ 0 <= k.2 < 2 ^ 63.

Lemma revision_le_order : (forall a b, revision_le a b = true \/ revision_le b a = true) /\
  (forall a b c, revision_le a b = true -> revision_le b c = true -> revision_le a c = true) /\
  (forall a b, revision_le a b = true -> revision_le b a = true -> a = b).
Proof.
  assert (forall a b : string * Z, revision_le a b = true <-> (String.leb a.1 b.1 = true /\ (a.1 = b.1 -> a.2 <= b.2))) as Hle.
  { intros [a x] [b y]. unfold revision_le. cbn. rewrite orb_true_iff, andb_true_iff, string_ltb_leb, String.eqb_eq, Z.leb_le.
    destruct (decide (a = b)) as [->|Hn].
    - pose proof (string_leb_refl b). split; [intros [[_ H']|[_ H']]; [done|by split]|intros [_ H']; right; by split; [|apply H']].
    - split; [intros [[H' _]|[E _]]; [by split|done]|intros [H' _]; by left]. }
  split_and!.
  - intros [a x] [b y]. rewrite !Hle. cbn. destruct (decide (a = b)) as [->|Hn].
    + rewrite string_leb_refl. destruct (Z.le_ge_cases x y); [left|right]; by split.
    + destruct (String.leb_total a b) as [Ht|Ht]; [left|right]; (split; [done|intros E; by destruct Hn]).
  - intros [a x] [b y] [c z]. rewrite !Hle. cbn. intros [H1 H2] [H3 H4]. split; [by eapply leb_trans|]. intros ->.
    pose proof (String.leb_antisym _ _ H1 H3) as ->. etrans; [by apply H2|by apply H4].
  - intros [a x] [b y]. rewrite !Hle. cbn. intros [H1 H2] [H3 H4]. pose proof (String.leb_antisym _ _ H1 H3) as ->.
    f_equal. apply Z.le_antisymm; auto.
Qed.

Lemma descriptor_row_order : (forall a b, descriptor_row_le a b = true \/ descriptor_row_le b a = true) /\
  (forall a b c, descriptor_row_le a b = true -> descriptor_row_le b c = true -> descriptor_row_le a c = true).
Proof. split; [intros a b; apply revision_le_order|intros a b c; apply revision_le_order]. Qed.
Lemma descriptor_listing_row r : r ∈ descriptor_listing -> exists k, db_descriptors d !! k = Some r.
Proof. unfold descriptor_listing. rewrite (sort_by_perm descriptor_row_le). by intros Hr%filter_sub%rows_of_elem. Qed.

Lemma catalog_cut out : CatalogApp.cut_page limit_of (map describe out) = shown describe (cut descriptor_cursor limit_of out).
Proof.
  unfold CatalogApp.cut_page, cut. rewrite length_map. destruct (_ <? _); [|done]. unfold shown. cbn [fst snd].
  rewrite firstn_map, last_map. by destruct (last _).
Qed.
Lemma with_servers_run rows : (forall r, r ∈ rows -> is_Some (db_servers d !! dr_ServerID r)) ->
  exec answer (with_servers rows) d w = mkOutcome (Ok (map describe rows)) d w [].
Proof.
  induction rows as [|r rows IH]; intros Hs; [done|]. cbn [with_servers]. unfold db. cbn [exec mbind prog_mbind prog_bind].
  destruct (Hs r ltac:(by left)) as [s Es]. change (GetServer (dr_ServerID r) d) with (@Ok error _ (db_servers d !! dr_ServerID r, d)).
  rewrite Es. cbn [found]. change (prog_bind ?p ?k) with (p ≫= k).
  rewrite exec_bind, IH by (intros x Hx; apply Hs; by right). cbn. unfold describe. by rewrite Es.
Qed.
Lemma catalog_page cursor k : descriptors_ok (db_descriptors d) (db_servers d) -> CatalogApp.page_after cursor = Ok k ->
  run (CatalogApp.List_ authz scope state cursor limit0) =
  Ok (shown describe (page_rows descriptor_cursor limit_of (List.filter (descriptor_after cursor) descriptor_listing))).
Proof.
  intros Hok Hk. unfold run, CatalogApp.List_. fold limit_of. rewrite Hk. destruct k as [server revision]. unfold db, ListDescriptors.
  cbn [exec mbind prog_mbind prog_bind]. rewrite limited_page. cbn [exec oc_value prog_bind].
  change (prog_bind ?p ?k) with (p ≫= k). rewrite exec_bind.
  assert (List.filter (fun r => listed_descriptor d (mkListDescriptorsParams (sc_TenantID scope) state
            (Allowed authz (sc_TenantID scope) (sc_ActorID scope) ActCatalogReadPending) server revision (i32 (limit_of + 1))) r
            && negb (revision_le (descriptor_key r) (server, revision))) (rows_of (db_descriptors d)) =
          List.filter (descriptor_after cursor) (List.filter (listed_descriptor d descriptors_params) (rows_of (db_descriptors d)))) as E.
  { rewrite <- filter_and. unfold descriptor_after. by rewrite Hk. }
  cbn [ld_AfterServer ld_AfterRevision]. rewrite E. clear E.
  change (fun a b => revision_le (descriptor_key a) (descriptor_key b)) with descriptor_row_le.
  rewrite (sort_by_filter _ _ _ (proj1 descriptor_row_order) (proj2 descriptor_row_order)). fold descriptor_listing.
  rewrite with_servers_run.
  - cbn [exec oc_value oc_db oc_world]. by rewrite catalog_cut.
  - intros r Hr. apply firstn_elem, filter_sub, descriptor_listing_row in Hr as [key Hr]. by apply Hok in Hr as (_ & _ & ?).
Qed.

Lemma catalog_page_after r : key_printable (descriptor_key r) ->
  CatalogApp.page_after (descriptor_cursor r) = Ok (descriptor_key r).
Proof.
  intros (Hn & Hb & Hr). unfold CatalogApp.page_after, descriptor_cursor. cbn in Hn, Hb, Hr. rewrite u64_id by (unfold is_u64; lia).
  destruct (String.eqb (EncodeToString _) "") eqn:E.
  - apply String.eqb_eq, EncodeToString_nil in E. by destruct (dr_ServerID r).
  - by rewrite DecodeString_EncodeToString, Sscanf_word_int_format.
Qed.

Lemma descriptors_paged fuel : descriptors_ok (db_descriptors d) (db_servers d) ->
  (forall k r, db_descriptors d !! k = Some r -> key_printable k) -> (List.length descriptor_listing < fuel)%nat ->
  follow (fun c => run (CatalogApp.List_ authz scope state c limit0)) fuel "" = Some (map describe descriptor_listing).
Proof.
  intros Hok Hpr Hf.
  assert (forall r, r ∈ descriptor_listing -> db_descriptors d !! descriptor_key r = Some r /\ key_printable (descriptor_key r)) as Hin.
  { intros r [k Hk]%descriptor_listing_row. pose proof (Hok _ _ Hk) as (E & _). unfold descriptor_key. rewrite E. eauto. }
  assert (forall a b, a ∈ descriptor_listing -> descriptor_after (descriptor_cursor a) b = negb (descriptor_row_le b a)) as Ha.
  { intros a b [_ Hp]%Hin. unfold descriptor_after. by rewrite catalog_page_after. }
  apply (follow_all descriptor_listing descriptor_cursor descriptor_after limit_of (proj1 limit_of_range)).
  - apply (StronglySorted_weaken (fun a b => descriptor_row_le a b = true /\ a <> b)).
    { intros a b Hia Hib [Hle Hn]. rewrite Ha by done. apply negb_true_iff. destruct (descriptor_row_le b a) eqn:E; [|done].
      destruct Hn. pose proof (proj2 (proj2 revision_le_order) _ _ Hle E) as Ek. destruct (Hin _ Hia) as [H1 _], (Hin _ Hib) as [H2 _].
      rewrite Ek in H1. congruence. }
    apply sort_by_strict; [apply descriptor_row_order..| |by intros].
    apply filter_NoDup, (rows_of_NoDup _ descriptor_key). intros k v Hk. by apply Hok in Hk as [? _].
  - intros a b Hia Hib. rewrite !Ha by done. intros H1%negb_true_iff. apply negb_false_iff.
    by destruct (proj1 descriptor_row_order a b) as [|E]; [|rewrite E in H1].
  - intros a Hia. rewrite Ha by done. apply negb_false_iff. by destruct (proj1 descriptor_row_order a a).
  - intros a [_ (Hn & _)]%Hin E%EncodeToString_nil. cbn in Hn. by destruct (dr_ServerID a).
  - rewrite (catalog_page "" ("", 0)) by done. do 3 f_equal. apply filter_all. intros r [_ (Hn & _)]%Hin.
    cbn in Hn.
    change (negb (revision_le (descriptor_key r) ("", 0)) = true). unfold revision_le, descriptor_key. cbn [fst snd].
    by destruct (dr_ServerID r).
  - intros a [_ Hp]%Hin. by apply (catalog_page _ (descriptor_key a)), catalog_page_after.
  - done.
Qed.
End Listings.

(** The ids the service makes are words. *)
Lemma hex_word s : GoCrypto.all_bytes is_hex_digit s = true -> all_bytes word_byte s = true.
Proof.
  induction s as [|c s IH]; [done|]. rewrite all_bytes_cons. cbn [GoCrypto.all_bytes]. intros [Hc Hs]%andb_true_iff.
  rewrite IH, andb_true_r by done. by destruct c as [[] [] [] [] [] [] [] []].
Qed.
Lemma word_prefix n s : all_bytes word_byte s = true -> all_bytes word_byte (String.substring 0 n s) = true.
Proof.
  revert s. induction n as [|n IH]; intros [|c s]; try done. rewrite all_bytes_cons. intros [Hc Hs]%andb_true_iff.
  change (String.substring 0 (S n) (String c s)) with (String c (String.substring 0 n s)). by rewrite all_bytes_cons, Hc, IH.
Qed.
Lemma made_id_word prefix id : made_id prefix id -> prefix <> "" -> all_bytes word_byte prefix = true ->
  id <> "" /\ all_bytes word_byte id = true.
Proof.
  intros [parts ->] Hn Hp. unfold idOf. split; [by destruct prefix|].
  rewrite all_bytes_app, Hp. by apply word_prefix, hex_word, hex_all, Sum256_bytes.
Qed.
Lemma key_made d k r : sys_ok d -> db_descriptors d !! k = Some r -> 0 <= dr_Revision r -> key_printable k.
Proof.
  intros Hok Hk Hr. destruct (sk_descriptors _ _ Hok _ _ Hk) as (<- & Hi & [s Hs]). unfold is_i64 in Hi.
  destruct (made_id_word "srv-" _ (fl_server_ids _ (sk_filed _ _ Hok) _ _ Hs)) as [H1 H2]; [done..|]. split_and!; cbn; [done..|lia].
Qed.
Lemma grant_named d g : sys_ok d -> g ∈ rows_of (db_grants d) -> gw_GrantID g <> "".
Proof.
  intros Hok [id Hg]%rows_of_elem. destruct (sk_grants _ _ Hok _ _ Hg) as [-> _].
  by destruct (made_id_word "grt-" _ (fl_grant_ids _ (sk_filed _ _ Hok) _ _ Hg)).
Qed.

(** C21. Paging is complete. In every database the service reaches whose
    revisions are not negative (they are counted up from zero, and wrap past
    2^63 - 1), while nothing else changes it, a caller that follows the cursors
    of the grants or of the catalog from the empty one, with any limit below
    2^31 - 1, comes to an end and has read exactly the listed rows, each once
    and in the order of their ids: whatever the page size, no row is skipped
    and none is repeated. *)
Theorem paging_is_complete `{SchemaLibrary, Casbin, Jsonb} (p : service_pool) authz {W} (answer : forall X, W -> eff X -> X * W) w
    scope state limit0 : reached p -> limit0 < 2 ^ 31 - 1 ->
  (forall k r, db_descriptors (pl_db p) !! k = Some r -> 0 <= dr_Revision r) ->
  let grants := grant_listing authz (pl_db p) scope state in
  let revisions := descriptor_listing authz (pl_db p) scope state in
  follow (fun c => run answer (pl_db p) w (Grants.List_ authz scope state c limit0)) (S (List.length grants)) "" =
    Some (map GrantFromRow grants) /\
  follow (fun c => run answer (pl_db p) w (CatalogApp.List_ authz scope state c limit0)) (S (List.length revisions)) "" =
    Some (map (describe (pl_db p)) revisions).
Proof.
  intros Hr Hl Hd. apply reached_ok in Hr. split.
  - apply grants_paged; [done|apply Hr|by intros g; apply grant_named|lia].
  - apply descriptors_paged; [done|apply Hr| |lia]. intros k r Hk. eapply key_made; [done..|by eapply Hd].
Qed.
