(* ===== verification/System.v ===== *)
(** * System: what holds of every pool the service reaches

    From its empty database, with any number of replicas running any of the
    use cases under any configuration, whatever Control, the upstream servers,
    the authorization servers and the clock answer, with commits lost or
    unacknowledged and processes crashing between any two steps. *)

From S2P Require Import Prelude Table Errors GoStrings GoCrypto GoJson GoNum GoBase64 GoUrl Task TaskLife Catalog Grant Call Event App Rows Sql SqlCalls SqlCatalog CallLife Invariant Prog Ports Protocol Service.

Section System.
  Context `{SchemaLibrary, Casbin, Jsonb}.
  Implicit Types p q : service_pool.

(** ** Calls *)

(** C1. At most one send, whatever happens: in every pool the service reaches -
    with commits lost or unacknowledged and processes crashing between any two
    steps - no call id is sent twice, and every call that was sent has its
    committed send marker and a row that is sent, succeeded, failed or
    unknown. *)
Theorem at_most_one_send p :
  reached p ->
  NoDup (w_sends (pl_world p)) /\
  forall c, c ∈ w_sends (pl_world p) -> exists r, db_tools (pl_db p) !! c = Some r /\
    tr_SendMarkerAt r <> None /\ was_sent (tr_State r) = true.
Proof.
  intros Hp. destruct (reached_sends _ Hp) as [Hnd Hm]. split; [done|]. intros c (r & Hr & Hmk)%Hm. exists r.
  split_and!; [done..|]. destruct (sk_tools _ _ (reached_ok _ Hp) _ _ Hr) as [_ E].
  rewrite bool_decide_eq_false_2 in E by done. by destruct (was_sent _).
Qed.

(** C15. A call that is recorded canceled or denied was never sent and never
    will be: the zero usage reported for it is true in every later pool. *)
Theorem canceled_call_never_sent p q c r :
  reached p -> service_run p q -> db_tools (pl_db p) !! c = Some r ->
  tr_State r = CallCanceled \/ tr_State r = CallDenied -> c ∉ w_sends (pl_world q).
Proof.
  intros Hp Hr Hc Hs Hin. pose proof (reached_run _ _ Hp Hr) as Hq. destruct (reached_sends _ Hq) as [_ Hm].
  apply Hm in Hin as (r' & Hr' & Hmk). destruct (table_le_row _ _ _ _ _ _ (sr_tools _ _ (run_rel _ _ Hp Hr)) Hc) as (r2 & Hr2 & Hle).
  rewrite Hr' in Hr2. injection Hr2 as <-. apply row_le_keeps in Hle as (_ & Hf).
  destruct (sk_tools _ _ (reached_ok _ Hq) _ _ Hr') as [_ E]. rewrite bool_decide_eq_false_2 in E by done.
  rewrite Hf in E by (by destruct Hs as [-> | ->]). by destruct Hs as [Hs|Hs]; rewrite Hs in E.
Qed.

(** C10. The life of a stored call: from any reached pool to any later one its
    row is never deleted, its identity, arguments, deadline and exposure never
    change, its committed marker is never withdrawn or moved, its state only
    follows the transitions of a call, and a succeeded, failed, denied or
    canceled call stays what it is. *)
Theorem call_row_life p q c r :
  reached p -> service_run p q -> db_tools (pl_db p) !! c = Some r ->
  exists r', db_tools (pl_db q) !! c = Some r' /\ call_identity r' = call_identity r /\
    rtc call_move (tr_State r) (tr_State r') /\
    (tr_SendMarkerAt r <> None -> tr_SendMarkerAt r' = tr_SendMarkerAt r) /\
    (call_final (tr_State r) = true -> tr_State r' = tr_State r).
Proof.
  intros Hp Hr Hc. destruct (table_le_row _ _ _ _ _ _ (sr_tools _ _ (run_rel _ _ Hp Hr)) Hc) as (r' & Hr' & Hle).
  exists r'. split; [done|]. pose proof (row_le_keeps _ _ Hle) as (Hid & Hf). split_and!; [done| | |done].
  - clear -Hle. induction Hle as [|x y z [_ [[E _]|[Hmv _]]] _ IH]; [done|by rewrite <- E|by econstructor].
  - exact (row_le_keeps_marker _ _ _ Hle (sk_tools _ _ (reached_ok _ Hp) _ _ Hc)).
Qed.

(** ** Revocation *)

(** C2. Revocation is final: once a grant is revoking, revoked, expired or
    refused, it never is pending or active again, no call of it is recorded any
    more, no call of it commits a send marker any more, and so every call of
    it that is ever sent had its marker by then. *)
Theorem revocation_is_final p q id g :
  reached p -> service_run p q -> db_grants (pl_db p) !! id = Some g -> closed (gw_State g) = true ->
  (exists g', db_grants (pl_db q) !! id = Some g' /\ closed (gw_State g') = true) /\
  forall c r', db_tools (pl_db q) !! c = Some r' -> tr_GrantID r' = id ->
    exists r, db_tools (pl_db p) !! c = Some r /\
      (tr_SendMarkerAt r = None -> tr_SendMarkerAt r' = None /\ c ∉ w_sends (pl_world q)).
Proof.
  intros Hp Hr Hg Hcl. pose proof (run_rel _ _ Hp Hr) as R. split.
  - destruct (table_le_row _ _ _ _ _ _ (sr_grants _ _ R) Hg) as (g' & Hg' & Hle). exists g'. split; [done|by eapply grant_le_closed].
  - intros c r' Hc Hid. destruct (sr_frozen _ _ R id g Hg Hcl c r' Hc Hid) as (r & Hc' & Hm). exists r. split; [done|].
    intros Hn. specialize (Hm Hn). split; [done|]. intros Hin.
    destruct (reached_sends _ (reached_run _ _ Hp Hr)) as [_ Hs]. apply Hs in Hin as (x & Hx & Hmk). congruence.
Qed.

(** C5. A revoked grant is drained: when a grant is recorded revoked, Control's
    barrier converged and every call of it is succeeded, failed, denied or
    canceled - and stays so in every later pool. *)
Theorem revoked_means_drained p q id g :
  reached p -> service_run p q -> db_grants (pl_db p) !! id = Some g -> gw_State g = GrantRevoked ->
  gw_ControlState g = "converged" /\
  forall c r, db_tools (pl_db q) !! c = Some r -> tr_GrantID r = id -> call_final (tr_State r) = true.
Proof.
  intros Hp Hr Hg Hs. destruct (sk_revoked _ _ (reached_ok _ Hp) _ _ Hg Hs) as [Hc Hno]. split; [done|].
  intros c r' Hr' Hid. pose proof (run_rel _ _ Hp Hr) as R.
  destruct (sr_frozen _ _ R id g Hg ltac:(by rewrite Hs) c r' Hr' Hid) as (r & Hr0 & _).
  destruct (table_le_row _ _ _ _ _ _ (sr_tools _ _ R) Hr0) as (x & Hx & Hle). rewrite Hr' in Hx. injection Hx as <-.
  pose proof (row_le_keeps _ _ Hle) as [(_ & E & _)%call_identity_keeps Hf].
  specialize (Hno _ _ Hr0 ltac:(congruence)). destruct (tr_State r); try done; by rewrite Hf.
Qed.

(** C11. The life of a grant: its row is never deleted, its tenant, subject,
    server, descriptor, methods, cost cap, expiry, audience and policy digest
    never change, and its state only follows the transitions of a grant; in
    particular a revoked grant stays revoked. *)
Theorem grant_row_life p q id g :
  reached p -> service_run p q -> db_grants (pl_db p) !! id = Some g ->
  exists g', db_grants (pl_db q) !! id = Some g' /\ grant_identity g' = grant_identity g /\
    rtc grant_move (gw_State g) (gw_State g') /\ (gw_State g = GrantRevoked -> g' = g).
Proof.
  intros Hp Hr Hg. destruct (table_le_row _ _ _ _ _ _ (sr_grants _ _ (run_rel _ _ Hp Hr)) Hg) as (g' & Hg' & Hle).
  exists g'. split_and!; [done|by apply grant_le_keeps| |].
  - clear -Hle. induction Hle as [|x y z (_ & _ & [E|Hm] & _) _ IH]; [done|by rewrite <- E|by econstructor].
  - intros Hs. destruct Hle as [|x y z (_ & Hn & _) _]; [done|congruence].
Qed.

(** ** The catalog *)

(** C3. A grant that may execute, or is about to, is bound to what was reviewed:
    it names a descriptor revision of a server of its own tenant by exactly
    that revision's digest, and while it is pending or active the revision is
    approved - by a recorded review of exactly that digest whose reviewer is
    not the actor who discovered it. *)
Theorem live_grant_is_reviewed p id g :
  reached p -> db_grants (pl_db p) !! id = Some g -> gw_State g = GrantPending \/ gw_State g = GrantActive ->
  exists d s w reviewer, db_descriptors (pl_db p) !! (gw_ServerID g, gw_DescriptorRevision g) = Some d /\
    dr_DescriptorDigest d = gw_DescriptorDigest g /\ dr_State d = CatalogApproved /\
    db_servers (pl_db p) !! gw_ServerID g = Some s /\ sv_TenantID s = gw_TenantID g /\
    dr_Reviewer d = Some reviewer /\ reviewer <> dr_DiscoveredBy d /\
    rw_Reviewer w = reviewer /\ rw_Decision w = ReviewApprove /\ rw_DescriptorDigest w = gw_DescriptorDigest g /\
    exists rid, db_reviews (pl_db p) !! rid = Some w.
Proof.
  intros Hp Hg Hs. pose proof (reached_ok _ Hp) as Hok.
  destruct (sk_bound _ _ Hok _ _ Hg) as (d & (Hd & Hdg & s & Hsv & Ht) & Ha).
  destruct Ha as [|Ha]; [by destruct Hs as [-> | ->]|done|]. destruct (sk_reviewed _ _ Hok _ _ Hd) as (Hne & Happ & _).
  destruct (Happ Ha) as (reviewer & rid & w & Hr & _ & Hw & Hwr & Hwd & Hwx). injection Hwx as _ _ Hwdg.
  exists d, s, w, reviewer. split_and!; try done; [congruence|congruence|by exists rid].
Qed.

(** C12. The life of a reviewed revision: a descriptor revision is never deleted
    and its contents never change - the digest, tools, schemas, network scope,
    licenses and discoverer stay what was discovered; its state only goes from
    pending to approved or rejected and from anything to disabled; once it is
    decided its reviewer and review never change; and a server never gets two
    revisions of one digest. *)
Theorem descriptor_row_life p q k d :
  reached p -> service_run p q -> db_descriptors (pl_db p) !! k = Some d ->
  exists d', db_descriptors (pl_db q) !! k = Some d' /\ descriptor_identity d' = descriptor_identity d /\
    rtc descriptor_move (dr_State d) (dr_State d') /\
    (dr_State d <> CatalogReviewPending -> dr_Reviewer d' = dr_Reviewer d /\ dr_ReviewID d' = dr_ReviewID d) /\
    forall k2 d2, db_descriptors (pl_db q) !! k2 = Some d2 -> dr_ServerID d2 = dr_ServerID d ->
      dr_DescriptorDigest d2 = dr_DescriptorDigest d -> k2 = k.
Proof.
  intros Hp Hr Hk. destruct (table_le_row _ _ _ _ _ _ (sr_descriptors _ _ (run_rel _ _ Hp Hr)) Hk) as (d' & Hk' & Hle).
  pose proof (descriptor_le_keeps _ _ Hle) as Hid. exists d'. split_and!; [done..| | |].
  - clear -Hle. induction Hle as [|x y z (_ & Hm & _) _ IH]; [done|by econstructor].
  - clear -Hle. induction Hle as [|x y z (_ & Hm & Hr) _ IH]; [done|]. intros Hs. destruct (Hr Hs) as [<- <-]. apply IH.
    by destruct Hm.
  - intros k2 d2 Hk2 Hs Hdg. apply descriptor_identity_keeps in Hid as (Es & _ & Ed & _).
    eapply (sk_digests _ _ (reached_ok _ (reached_run _ _ Hp Hr))); [exact Hk2|exact Hk'|congruence..].
Qed.

(** ** The record *)

(** C13. The events of an aggregate have no gaps: in every reached pool, the
    events published for a grant or for a server carry the revisions 1, 2, 3,
    ... in the order they were committed, each once, up to the aggregate's
    counter, which is below 2^63. *)
Theorem events_without_gaps p ty id :
  reached p -> ty = AggregateGrant \/ ty = AggregateDescriptor ->
  exists n : nat, Z.of_nat n < 2 ^ 63 /\
    event_revisions ty id (db_outbox (pl_db p)) = map (fun i => format_int (Z.of_nat i)) (seq 1 n).
Proof.
  intros Hp Hty. destruct (sk_events _ _ (reached_ok _ Hp) ty id) as [Hn He]; [by destruct Hty as [-> | ->]|].
  exists (Z.to_nat (default 0 (db_event_revisions (pl_db p) !! (ty, id)))). split; [lia|done].
Qed.

(** C20. The record only grows: from any reached pool to any later one, no
    review, grant decision, catalog command or refresh record is deleted or
    rewritten, and the published events are continued in order. *)
Theorem record_only_grows p q :
  reached p -> service_run p q ->
  db_reviews (pl_db p) ⊆ db_reviews (pl_db q) /\ db_decisions (pl_db p) ⊆ db_decisions (pl_db q) /\
  db_commands (pl_db p) ⊆ db_commands (pl_db q) /\ db_refreshes (pl_db p) ⊆ db_refreshes (pl_db q) /\
  exists l, db_outbox (pl_db q) = db_outbox (pl_db p) ++ l.
Proof. intros Hp Hr. destruct (run_rel _ _ Hp Hr). by split_and!. Qed.
(** ** The shape of the database *)


End System.
