(* ===== verification/Delivery.v ===== *)
(** * Delivery: from a committed withdrawal to the evicted tokens

    The message of an envelope is read back as the envelope, and the events of
    a reached database, delivered in order to the projection of a replica, are
    all applied while its reads are answered: each evicts the tokens of the
    grant or the server that the database says was withdrawn.  A read that fails
    comes behind the revision gate, and loses the eviction. *)

From S2P Require Import Prelude Table Errors GoStrings GoTrim GoCrypto GoJson GoNum GoBase64 GoUrl UrlText GoScan JsonText GoRaw Task TaskLife Catalog Grant Call Event App Wire WireSpec Rows Sql SqlCalls SqlCatalog CallLife Invariant Prog Ports Projection Service.
From Stdlib Require Import Ascii.

(** ** The message of an envelope *)

(** The texts of an envelope that its producer does not fix. *)
Definition texts_valid (e : Envelope) : bool :=
  forallb ValidString [e_EventID e; e_EventType e; e_Producer e; e_Subject e; e_TenantID e; e_AggregateType e; e_AggregateID e;
                       e_AggregateRevision e; e_OccurredAt e; e_CorrelationID e].
Lemma valid_aggregate e : texts_valid e = true -> ValidString (e_AggregateID e) = true.
Proof. unfold texts_valid. intros Hv. rewrite forallb_forall in Hv. apply Hv. do 6 right. by left. Qed.
Definition envelope_members (e : Envelope) (payload : json) : list (string * json) :=
  [("eventId", JStr (e_EventID e)); ("eventType", JStr (e_EventType e)); ("schemaVersion", JNum (format_int (e_SchemaVersion e)));
   ("producer", JStr (e_Producer e)); ("subject", JStr (e_Subject e)); ("tenantId", JStr (e_TenantID e));
   ("aggregateType", JStr (e_AggregateType e)); ("aggregateId", JStr (e_AggregateID e));
   ("aggregateRevision", JStr (e_AggregateRevision e)); ("occurredAt", JStr (e_OccurredAt e));
   ("correlationId", JStr (e_CorrelationID e)); ("payload", payload)].
Lemma marshal_not_empty v : json_ok v = true -> String.eqb (Marshal v) "" = false.
Proof. intros H. destruct (marshal_start v H) as (b & l & E & _). apply String.eqb_neq. intros E'. by rewrite E' in E. Qed.
Lemma Marshal_Envelope_object e payload : e_Payload e = Marshal payload -> json_ok payload = true -> levels payload <= max_depth ->
  Marshal_Envelope e = Ok (Marshal (JObj (envelope_members e payload))).
Proof.
  intros Hp Hok Hl. unfold Marshal_Envelope. rewrite Hp, marshal_not_empty, compact_marshalled by done. done.
Qed.

(** An envelope survives its message. *)
Lemma envelope_roundtrip e payload raw : texts_valid e = true -> is_i64 (e_SchemaVersion e) ->
  e_Payload e = Marshal payload -> json_ok payload = true -> levels payload < max_depth ->
  Marshal_Envelope e = Ok raw -> unmarshal_envelope raw = Some e.
Proof.
  intros Ht Hv Hp Hok Hl Hm. rewrite (Marshal_Envelope_object e payload) in Hm by (done || lia).
  assert (raw = Marshal (JObj (envelope_members e payload))) as -> by congruence.
  unfold texts_valid in Ht. cbn [forallb] in Ht. repeat (apply andb_true_iff in Ht as [? Ht]).
  unfold unmarshal_envelope, decode_raw. rewrite raw_object_marshalled; [|done| |].
  - change (texts (envelope_members e payload)) with (map (fun p => (fst p, Marshal (snd p))) (envelope_members e payload)).
    cbn [mbind option_bind map fst snd envelope_members Marshal assign_members].
    repeat match goal with |- context [field_of envelope_names ?k] =>
      replace (field_of envelope_names k) with (Some k) by reflexivity end.
    cbn [assign_envelope String.eqb Ascii.eqb Bool.eqb]. rewrite !raw_string_marshalled by done. cbn [mbind option_bind].
    change (format_int (e_SchemaVersion e)) with (Marshal (JNum (format_int (e_SchemaVersion e)))).
    rewrite Parse_Marshal by (done || apply number_text_int). cbn [mbind option_bind decode_int]. rewrite ParseInt_format by done.
    cbn [mbind option_bind]. repeat (rewrite raw_string_marshalled by done; cbn [mbind option_bind]). rewrite <- Hp. by destruct e.
  - repeat constructor; cbn; try done; try lia; apply number_text_int.
  - pose proof (levels_nonneg payload). unfold max_depth in *. cbn. lia.
Qed.

(** ** What the consumer makes of the events *)

Lemma check_event_ok env pl rev : e_SchemaVersion env = 1 -> e_Producer env = Producer -> e_TenantID env <> "" ->
  unmarshal_payload (e_Payload env) = Some pl -> pp_Kind pl = e_EventType env -> ParseUint (e_AggregateRevision env) = Some rev ->
  e_EventType env = "mcp.catalog-reviewed" /\ e_Subject env = SubjectCatalogReviewed /\ e_AggregateType env = AggregateDescriptor /\
    pp_ServerID pl = e_AggregateID env \/
  e_EventType env = "mcp.grant-revoked" /\ e_Subject env = SubjectGrantRevoked /\ e_AggregateType env = AggregateGrant /\
    pp_GrantID pl = e_AggregateID env ->
  check_event env = Ok (pl, rev).
Proof.
  intros H1 H2 H3 H4 H5 H6 H7. unfold check_event. rewrite H1, H2, H4, H5, H6, (proj2 (String.eqb_neq _ _) H3), String.eqb_refl.
  destruct H7 as [(-> & -> & -> & ->)|(-> & -> & -> & ->)]; cbn; by rewrite String.eqb_refl.
Qed.
Lemma check_grant eventID g rev corr now : g_TenantID g <> "" -> is_u64 rev -> ValidString (g_GrantID g) = true ->
  check_event (GrantRevokedEvent eventID g rev corr now) =
  Ok (mkProjectedPayload "mcp.grant-revoked" "" (g_GrantID g) (format_int (g_Revision g)) (grant_text (g_State g)), rev).
Proof.
  intros Ht Hr Hid. apply check_event_ok; try done; [|by apply ParseUint_format|by right].
  unfold unmarshal_payload, GrantRevokedEvent, aggregateEnvelope. cbn [e_Payload]. rewrite Parse_Marshal; [done| |done].
  cbn [json_ok forallb fst snd]. rewrite Hid, valid_number. by destruct (g_State g).
Qed.
Lemma reviewed_payload eventID d rev corr now : ValidString (d_ServerID d) = true ->
  unmarshal_payload (e_Payload (CatalogReviewedEvent eventID d rev corr now)) =
  Some (mkProjectedPayload "mcp.catalog-reviewed" (d_ServerID d) "" (format_int (d_Revision d)) (catalog_text (d_State d))).
Proof.
  intros Hid. unfold unmarshal_payload, CatalogReviewedEvent, aggregateEnvelope. cbn [e_Payload]. rewrite Parse_Marshal; [done| |done].
  cbn [json_ok forallb fst snd]. rewrite Hid, valid_number. by destruct (d_State d).
Qed.
Lemma check_server eventID d rev corr now : d_TenantID d <> "" -> is_u64 rev -> ValidString (d_ServerID d) = true ->
  check_event (CatalogReviewedEvent eventID d rev corr now) =
  Ok (mkProjectedPayload "mcp.catalog-reviewed" (d_ServerID d) "" (format_int (d_Revision d)) (catalog_text (d_State d)), rev).
Proof.
  intros Ht Hr Hid. apply check_event_ok; try done; [by apply reviewed_payload|by apply ParseUint_format|by left].
Qed.
(** Equal events of valid texts announce the same state. *)
Lemma reviewed_state i d rev corr now i' d' rev' corr' now' : ValidString (d_ServerID d) = true ->
  CatalogReviewedEvent i d rev corr now = CatalogReviewedEvent i' d' rev' corr' now' ->
  d_ServerID d' = d_ServerID d /\ d_State d' = d_State d.
Proof.
  intros Hid E. assert (d_ServerID d' = d_ServerID d) as Hs by exact (f_equal e_AggregateID (eq_sym E)). split; [done|].
  pose proof (reviewed_payload i d rev corr now Hid) as H1. rewrite E, reviewed_payload in H1 by (by rewrite Hs).
  injection H1 as _ _ H1. by destruct (d_State d), (d_State d').
Qed.

(** ** A replica's consumer *)

Inductive eviction := TokensOf (cacheKey : string) | TokensAt (resource : string).
(** The memory of the replica and what it evicted. *)
Record consumer := mkConsumer { cn_memory : memory; cn_evicted : list eviction }.
Definition new_consumer : consumer := mkConsumer fresh_memory [].
(** The answers the projection gets: its own memory and the token cache.  It
    asks nothing else. *)
Definition consume (X : Type) (c : consumer) (e : eff X) : X * consumer :=
  match e in eff X return X * consumer with
  | Memory _ f => ((f (cn_memory c)).1, mkConsumer (f (cn_memory c)).2 (cn_evicted c))
  | EvictGrant key => (0, mkConsumer (cn_memory c) (cn_evicted c ++ [TokensOf key]))
  | EvictResource resource => (0, mkConsumer (cn_memory c) (cn_evicted c ++ [TokensAt resource]))
  | Now => (0, c)
  | CtxErr | Drained => (false, c)
  | CheckExecution _ _ _ _ => (Fail ErrOther, c)
  | AdmitTool _ => (Fail ErrOther, c)
  | ObserveTool _ _ _ _ _ => (Fail ErrOther, c)
  | GetTool _ _ => (Fail ErrOther, c)
  | Token _ => (Fail ErrOther, c)
  | Open_ _ _ => (Opened, c)
  | Send _ _ _ => ((mkUpstreamReply None None false, Answered_ok), c)
  | Register _ _ => (Fail ErrOther, c)
  | BeginRevocation _ _ _ | Revocation _ _ => (Fail ErrOther, c)
  | DiscoverLive _ _ => (Fail ErrOther, c)
  | IssuerOf _ => (Fail ErrOther, c)
  | LookupNetIP _ => (Fail ErrOther, c)
  | Stamps => (fun _ => (0, ""), c)
  end.
(** A process none of whose reads is answered: the connection is lost, or the
    statement times out. *)
Fixpoint unread {A} (p : proc A) (c : consumer) : A * consumer :=
  match p with
  | Ret a => (a, c)
  | Db _ k => unread (k (Fail ErrOther)) c
  | Ask e k => unread (k (consume _ c e).1) (consume _ c e).2
  | Fork _ r => unread r c
  end.
(** One message, handled while the database is [d] and answers, or does not. *)
Definition deliver (self : nat) (reads : bool) (d : DB) (c : consumer) (data : string) : projection_outcome * consumer :=
  if reads then let o := exec consume (Handle self data) d c in (oc_value o, oc_world o) else unread (Handle self data) c.
Fixpoint deliver_all (self : nat) (l : list (bool * DB * string)) (c : consumer) : list projection_outcome * consumer :=
  match l with
  | [] => ([], c)
  | (reads, d, data) :: r =>
      let '(out, c') := deliver self reads d c data in let '(outs, c'') := deliver_all self r c' in (out :: outs, c'')
  end.

(** What an event withdraws from the token caches, as the database has it. *)
Inductive withdraws (d : DB) : Envelope -> list eviction -> Prop :=
| wd_grant eventID g rev corr now row : db_grants d !! g_GrantID g = Some row -> closed (gw_State row) = true ->
    withdraws d (GrantRevokedEvent eventID g rev corr now) [TokensOf (CacheKey (GrantFromRow row))]
| wd_server eventID x rev corr now s : db_servers d !! d_ServerID x = Some s -> d_State x = CatalogDisabled \/ d_State x = CatalogRejected ->
    withdraws d (CatalogReviewedEvent eventID x rev corr now) [TokensAt (sv_CanonicalResource s)]
| wd_kept eventID x rev corr now : d_State x <> CatalogDisabled -> d_State x <> CatalogRejected ->
    withdraws d (CatalogReviewedEvent eventID x rev corr now) [].

Definition gate_of (c : consumer) : gmap string Z := m_gate (cn_memory c).
Definition key_of (e : Envelope) : string := gate_key (e_AggregateType e) (e_AggregateID e).
Definition after_gate (e : Envelope) (rev : Z) (g : gmap string Z) : gmap string Z := (Admit gate_limit g (key_of e) rev).2.

Definition evict (c : consumer) (evs : list eviction) : consumer := mkConsumer (cn_memory c) (cn_evicted c ++ evs).
Lemma exec_db_bind {X A} (m : tx X) (k : res X -> proc A) d c x d' : m d = Ok (x, d') ->
  exec consume (db m ≫= k) d c = exec consume (k (Ok x)) d' c.
Proof. intros H. rewrite exec_bind. unfold db. cbn [exec]. rewrite H. cbn. by destruct (exec consume (k (Ok x)) d' c). Qed.
Lemma evict_grant_runs d c env pl row : db_grants d !! pp_GrantID pl = Some row -> gw_TenantID row = e_TenantID env ->
  exec consume (evict_grant env pl) d c = mkOutcome (Ok true) d (evict c [TokensOf (CacheKey (GrantFromRow row))]) [].
Proof.
  intros Hr Ht. unfold evict_grant. rewrite (exec_db_bind _ _ _ _ _ d) by (unfold GetGrant, gets; by rewrite Hr).
  cbn iota beta. replace (g_TenantID (GrantFromRow row)) with (e_TenantID env) by done. by rewrite String.eqb_refl.
Qed.
Lemma evict_server_runs d c env pl s : db_servers d !! pp_ServerID pl = Some s -> sv_TenantID s = e_TenantID env ->
  exec consume (evict_server env pl) d c = mkOutcome (Ok true) d
    (if negb (String.eqb (pp_State pl) (catalog_text CatalogDisabled)) && negb (String.eqb (pp_State pl) (catalog_text CatalogRejected))
     then c else evict c [TokensAt (sv_CanonicalResource s)]) [].
Proof.
  intros Hr Ht. unfold evict_server. destruct (negb _ && negb _); [done|].
  rewrite (exec_db_bind _ _ _ _ _ d) by (unfold GetServer, gets; by rewrite Hr).
  cbn iota beta. by rewrite Ht, String.eqb_refl.
Qed.
Lemma catalog_text_withdrawn s :
  (negb (String.eqb (catalog_text s) (catalog_text CatalogDisabled)) && negb (String.eqb (catalog_text s) (catalog_text CatalogRejected))) =
  negb (bool_decide (s = CatalogDisabled \/ s = CatalogRejected)).
Proof. destruct s; case_bool_decide as H; try done; exfalso; naive_solver. Qed.

(** What the consumer reads in the message of an event that the database
    announces. *)
Definition grant_event (d : DB) (e : Envelope) (pl : projectedPayload) : Prop :=
  exists row, e_EventType e = "mcp.grant-revoked" /\ db_grants d !! pp_GrantID pl = Some row /\ gw_TenantID row = e_TenantID e /\
    withdraws d e [TokensOf (CacheKey (GrantFromRow row))].
Definition server_event (d : DB) (e : Envelope) (pl : projectedPayload) : Prop :=
  exists s st, e_EventType e = "mcp.catalog-reviewed" /\ db_servers d !! pp_ServerID pl = Some s /\ sv_TenantID s = e_TenantID e /\
    pp_State pl = catalog_text st /\
    withdraws d e (if bool_decide (st = CatalogDisabled \/ st = CatalogRejected) then [TokensAt (sv_CanonicalResource s)] else []).
Lemma announced_checked d e raw rev :
  announces (db_grants d) (db_servers d) e -> e_TenantID e <> "" -> texts_valid e = true -> Marshal_Envelope e = Ok raw ->
  e_AggregateRevision e = format_int rev -> is_u64 rev ->
  unmarshal_envelope raw = Some e /\ exists pl, check_event e = Ok (pl, rev) /\ (grant_event d e pl \/ server_event d e pl).
Proof.
  intros Ha Ht Hv Hm Hrev Hu.
  pose proof (valid_aggregate e Hv) as Hid.
  destruct Ha as [eventID g r corr now row Hrow Htn Hcl|eventID x r corr now s Hs Htn]; cbn in Hrev, Ht;
    cbn [e_AggregateID GrantRevokedEvent CatalogReviewedEvent aggregateEnvelope] in Hid; apply format_int_inj in Hrev as ->.
  - split; [eapply envelope_roundtrip; [done|done|reflexivity| |done|done]|].
    { cbn [json_ok forallb fst snd]. rewrite Hid, valid_number. by destruct (g_State g). }
    eexists. split; [by apply check_grant|]. left. exists row. by split_and!; [..|apply wd_grant].
  - split; [eapply envelope_roundtrip; [done|done|reflexivity| |done|done]|].
    { cbn [json_ok forallb fst snd]. rewrite Hid, valid_number. by destruct (d_State x). }
    eexists. split; [by apply check_server|]. right. exists s, (d_State x). split_and!; [done..|].
    destruct (bool_decide_reflect (d_State x = CatalogDisabled \/ d_State x = CatalogRejected)); [by apply wd_server|].
    apply wd_kept; naive_solver.
Qed.

(** A delivered event is stale when the gate refuses it, and applied
    otherwise. *)
Definition admits (c : consumer) (e : Envelope) (rev : Z) : bool := (Admit gate_limit (gate_of c) (key_of e) rev).1.
Definition gated (c : consumer) (e : Envelope) (rev : Z) : consumer :=
  mkConsumer ((cn_memory c) <| m_gate := after_gate e rev (gate_of c) |>) (cn_evicted c).
Lemma admit_event_runs self d c e rev :
  exec consume (admit_event self e rev) d c = mkOutcome (admits c e rev) d (gated c e rev) [].
Proof.
  unfold admits, gated, after_gate, admit_event, gate_of. cbn. unfold key_of.
  by destruct (Admit gate_limit (m_gate (cn_memory c)) (gate_key (e_AggregateType e) (e_AggregateID e)) rev).
Qed.
Lemma unread_bind {A B} (p : proc A) (k : A -> proc B) : forall c, unread (p ≫= k) c = unread (k (unread p c).1) (unread p c).2.
Proof.
  change (p ≫= k) with (prog_bind p k). induction p as [A a|A X m h IH|A X e h IH|A f _ r IH]; intros c; cbn; [done|apply IH..].
Qed.
Lemma admit_event_unread self c e rev : unread (admit_event self e rev) c = (admits c e rev, gated c e rev).
Proof.
  unfold admits, gated, after_gate, admit_event, gate_of. cbn. unfold key_of.
  by destruct (Admit gate_limit (m_gate (cn_memory c)) (gate_key (e_AggregateType e) (e_AggregateID e)) rev).
Qed.
Lemma deliver_read self d c e raw rev :
  announces (db_grants d) (db_servers d) e -> e_TenantID e <> "" -> texts_valid e = true ->
  Marshal_Envelope e = Ok raw -> Z.of_nat (String.length raw) <= maxProjectionEnvelope ->
  e_AggregateRevision e = format_int rev -> is_u64 rev ->
  exists evs, withdraws d e evs /\
    deliver self true d c raw = if admits c e rev then (Applied, evict (gated c e rev) evs) else (Stale, gated c e rev).
Proof.
  intros Ha Ht Hv Hm Hsize Hrev Hu. destruct (announced_checked d e raw rev) as (Hraw & pl & Hpl & Hcase); [done..|].
  assert (forall o c', exec consume (Apply self e) d c = mkOutcome o d c' [] ->
    deliver self true d c raw = (match o with Err _ => Rejected | Ok false => Stale | Ok true => Applied end, c')) as Hgo.
  { intros o c' E. unfold deliver, Handle. rewrite (proj2 (Z.ltb_ge _ _)) by lia. rewrite Hraw, exec_bind, E. done. }
  destruct Hcase as [(row & Hty & Hrow & Htn & Hw)|(s & st & Hty & Hs & Htn & Hst & Hw)]; eexists; (split; [exact Hw|]);
    (destruct (admits c e rev) eqn:Hadm; [apply (Hgo (Ok true))|apply (Hgo (Ok false))]);
    unfold Apply; rewrite Hpl, exec_bind, admit_event_runs, Hadm; cbn [oc_value oc_db oc_world negb]; try done; rewrite Hty.
  - cbn iota. by rewrite (evict_grant_runs d _ e pl row).
  - cbn iota. rewrite (evict_server_runs d _ e pl s), Hst, catalog_text_withdrawn by done.
    destruct (bool_decide _); [done|]. cbn. unfold evict. rewrite app_nil_r. by destruct (gated c e rev).
Qed.

Lemma deliver_unread self d c e raw rev :
  announces (db_grants d) (db_servers d) e -> e_TenantID e <> "" -> texts_valid e = true ->
  Marshal_Envelope e = Ok raw -> Z.of_nat (String.length raw) <= maxProjectionEnvelope ->
  e_AggregateRevision e = format_int rev -> is_u64 rev ->
  exists o, deliver self false d c raw = if admits c e rev then (o, gated c e rev) else (Stale, gated c e rev).
Proof.
  intros Ha Ht Hv Hm Hsize Hrev Hu. destruct (announced_checked d e raw rev) as (Hraw & pl & Hpl & Hcase); [done..|].
  unfold deliver, Handle. rewrite (proj2 (Z.ltb_ge _ _)) by lia. rewrite Hraw, unread_bind. unfold Apply. rewrite Hpl, unread_bind, admit_event_unread.
  cbn [fst snd]. destruct (admits c e rev); cbn [negb]; [|by exists Stale]. destruct (String.eqb _ _).
  - unfold evict_server. destruct (negb _ && negb _); by eexists.
  - unfold evict_grant. by eexists.
Qed.
(** Both ways: what a delivery evicts, and when it is rejected. *)
Lemma deliver_announced self reads d c e raw rev :
  announces (db_grants d) (db_servers d) e -> e_TenantID e <> "" -> texts_valid e = true ->
  Marshal_Envelope e = Ok raw -> Z.of_nat (String.length raw) <= maxProjectionEnvelope ->
  e_AggregateRevision e = format_int rev -> is_u64 rev ->
  exists evs got o, withdraws d e evs /\ (got = evs \/ got = [] /\ reads = false) /\ (o = Rejected -> reads = false) /\
    deliver self reads d c raw = if admits c e rev then (o, evict (gated c e rev) got) else (Stale, gated c e rev).
Proof.
  intros Ha Ht Hv Hm Hsize Hrev Hu. destruct (deliver_read self d c e raw rev) as (evs & Hw & Hd); [done..|]. destruct reads.
  - exists evs, evs, Applied. split_and!; [done|by left|done|done].
  - destruct (deliver_unread self d c e raw rev) as (o & Ho); [done..|]. exists evs, [], o. split_and!; [done|by right|done|].
    rewrite Ho. destruct (admits c e rev); [|done]. unfold evict. rewrite app_nil_r. by destruct (gated c e rev).
Qed.
Lemma Admit_again limit g key rev : (Admit limit (Admit limit g key rev).2 key rev).1 = false.
Proof.
  unfold Admit at 2. destruct (match g !! key with Some l => rev <=? l | None => false end) eqn:E; unfold Admit; cbn [snd].
  - by rewrite E.
  - by rewrite lookup_insert_eq, Z.leb_refl.
Qed.
(** The gate has recorded the revision of an event by the time a read fails,
    so the event delivered again is stale, and its tokens stay. *)
Lemma failed_read_loses_eviction self d c e raw rev d' reads :
  announces (db_grants d) (db_servers d) e -> announces (db_grants d') (db_servers d') e -> e_TenantID e <> "" -> texts_valid e = true ->
  Marshal_Envelope e = Ok raw -> Z.of_nat (String.length raw) <= maxProjectionEnvelope ->
  e_AggregateRevision e = format_int rev -> is_u64 rev ->
  let c' := (deliver self false d c raw).2 in
  cn_evicted c' = cn_evicted c /\ (deliver self reads d' c' raw).1 = Stale /\ cn_evicted (deliver self reads d' c' raw).2 = cn_evicted c.
Proof.
  intros Ha Ha' Ht Hv Hm Hsize Hrev Hu c'. destruct (deliver_unread self d c e raw rev) as (o & Ho); [done..|].
  assert (c' = gated c e rev) as -> by (unfold c'; rewrite Ho; by destruct (admits c e rev)).
  destruct (deliver_announced self reads d' (gated c e rev) e raw rev) as (evs & got & o' & _ & _ & _ & ->); [done..|].
  assert (admits (gated c e rev) e rev = false) as Hs; [|by rewrite Hs].
  apply Admit_again.
Qed.

(** ** The gate over a stream of events *)

Definition number_of (seen : list Envelope) (e : Envelope) : nat :=
  List.length (List.filter (of_aggregate (e_AggregateType e) (e_AggregateID e)) seen).
(** The gate holds no revision of an aggregate past the events delivered. *)
Definition gate_ok (seen : list Envelope) (g : gmap string Z) : Prop :=
  forall e l, counted (e_AggregateType e) = true -> g !! key_of e = Some l -> l <= Z.of_nat (number_of seen e).

Lemma gate_key_inj e e' : counted (e_AggregateType e) = true -> counted (e_AggregateType e') = true -> key_of e = key_of e' ->
  of_aggregate (e_AggregateType e') (e_AggregateID e') e = true.
Proof.
  unfold key_of, gate_key, counted. intros H H' E. rewrite of_aggregate_spec.
  apply orb_true_iff in H, H'. rewrite !String.eqb_eq in H, H'.
  destruct H as [H|H], H' as [H'|H']; rewrite H, H' in E |- *; try discriminate; split; try done; by repeat injection E as E.
Qed.
Lemma number_of_app seen x e : number_of (seen ++ [x]) e =
  (number_of seen e + if of_aggregate (e_AggregateType e) (e_AggregateID e) x then 1 else 0)%nat.
Proof. unfold number_of. rewrite List.filter_app, length_app. cbn [List.filter]. by destruct (of_aggregate _ _ x). Qed.
Lemma Admit_lookup g k rev key l : (Admit gate_limit g k rev).2 !! key = Some l -> g !! key = Some l \/ key = k /\ l = rev /\ (Admit gate_limit g k rev).1 = true.
Proof.
  unfold Admit. destruct (match g !! k with Some l => rev <=? l | None => false end); cbn; [by left|].
  destruct (decide (key = k)) as [->|Hk]; [rewrite lookup_insert_eq; intros [= <-]; by right|].
  rewrite lookup_insert_ne by done. destruct (gate_limit <=? Z.of_nat (size g)); [by rewrite lookup_empty|by left].
Qed.
(** The next event of the stream passes the gate, and an earlier one leaves it
    no worse. *)
Lemma gate_next seen g e : gate_ok seen g -> counted (e_AggregateType e) = true ->
  (Admit gate_limit g (key_of e) (Z.of_nat (S (number_of seen e)))).1 = true /\
  gate_ok (seen ++ [e]) (after_gate e (Z.of_nat (S (number_of seen e))) g).
Proof.
  intros Hg Hc. split.
  - unfold Admit. destruct (g !! key_of e) as [l|] eqn:E; [|done]. apply Hg in E; [|done]. by rewrite (proj2 (Z.leb_gt _ _)) by lia.
  - intros e' l Hc' Hl. rewrite number_of_app. apply Admit_lookup in Hl as [Hl|(Hk & -> & _)]; [apply Hg in Hl; [lia|done]|].
    rewrite (gate_key_inj e e') by done. apply gate_key_inj in Hk; [|done..]. apply of_aggregate_spec in Hk as [Et Ei].
    unfold number_of. rewrite Et, Ei. lia.
Qed.
Lemma gate_again seen g e rev : gate_ok seen g -> counted (e_AggregateType e) = true -> rev <= Z.of_nat (number_of seen e) ->
  gate_ok seen (after_gate e rev g).
Proof.
  intros Hg Hc Hr e' l Hc' Hl. apply Admit_lookup in Hl as [Hl|(Hk & -> & _)]; [by apply Hg|].
  apply gate_key_inj in Hk; [|done..]. apply of_aggregate_spec in Hk as [Et Ei]. unfold number_of in *. rewrite <- Et, <- Ei. exact Hr.
Qed.

(** ** The stream *)

Definition events (d : DB) : list Envelope := List.filter (fun e => counted (e_AggregateType e)) (db_outbox d).
Lemma filter_filter {A} (f g : A -> bool) l : (forall x, f x = true -> g x = true) -> List.filter f (List.filter g l) = List.filter f l.
Proof.
  intros H. induction l as [|x l IH]; [done|]. cbn. destruct (g x) eqn:G; cbn; rewrite IH; [done|].
  destruct (f x) eqn:F; [|done]. by rewrite H in G.
Qed.
(** The events of an aggregate are numbered as the stream has them. *)
Lemma event_number d seen e rest : sys_ok d -> events d = seen ++ e :: rest ->
  e_AggregateRevision e = format_int (Z.of_nat (S (number_of seen e))) /\ Z.of_nat (S (number_of seen e)) < 2 ^ 63.
Proof.
  intros Hok E. assert (counted (e_AggregateType e) = true) as Hc.
  { assert (In e (events d)) as [_ H]%filter_In by (rewrite E; apply in_elt). exact H. }
  destruct (sk_events _ _ Hok (e_AggregateType e) (e_AggregateID e) Hc) as [Hn He].
  unfold event_revisions in He. rewrite <- (filter_filter _ (fun x => counted (e_AggregateType x))) in He
    by (intros x [Ht _]%of_aggregate_spec; by rewrite <- Ht).
  change (List.filter (fun x => counted (e_AggregateType x)) (db_outbox d)) with (events d) in He.
  rewrite E, List.filter_app in He. cbn [List.filter] in He. rewrite (proj2 (of_aggregate_spec _ _ e)) in He by done.
  rewrite map_app in He. cbn [map] in He. unfold number_of.
  set (A := List.filter (of_aggregate (e_AggregateType e) (e_AggregateID e)) seen) in *.
  set (n := Z.to_nat (default 0 (db_event_revisions d !! (e_AggregateType e, e_AggregateID e)))) in *.
  assert (List.length (map e_AggregateRevision A) = List.length A) as HA by apply length_map.
  assert (nth_error (map (fun i => format_int (Z.of_nat i)) (seq 1 n)) (List.length A) = Some (e_AggregateRevision e)) as Hx.
  { rewrite <- He, nth_error_app2 by lia. by rewrite HA, Nat.sub_diag. }
  rewrite nth_error_map, nth_error_seq in Hx. destruct (List.length A <? n)%nat eqn:Hl; [|done].
  apply Nat.ltb_lt in Hl. cbn in Hx. split; [by injection Hx|]. lia.
Qed.

(** A delivery: the event, its message, the pool while it is handled, and
    whether the database answers the projection's read meanwhile. *)
Section Stream.
  Context `{SchemaLibrary, Casbin, Jsonb}.

Record delivery := mkDelivery { dl_pool : service_pool; dl_reads : bool; dl_event : Envelope; dl_message : string }.
(** The event was committed, and its message is one the consumer reads. *)
Definition delivered (x : delivery) : Prop :=
  reached (dl_pool x) /\ dl_event x ∈ db_outbox (pl_db (dl_pool x)) /\
  e_TenantID (dl_event x) <> "" /\ texts_valid (dl_event x) = true /\
  Marshal_Envelope (dl_event x) = Ok (dl_message x) /\ Z.of_nat (String.length (dl_message x)) <= maxProjectionEnvelope.
(** The order of a stream that delivers at least once: the events in order,
    and between them any number of repetitions of earlier ones. *)
Inductive at_least_once : list Envelope -> list delivery -> list Envelope -> Prop :=
| al_done seen : at_least_once seen [] []
| al_next seen x l rest : at_least_once (seen ++ [dl_event x]) l rest -> at_least_once seen (x :: l) (dl_event x :: rest)
| al_again seen x l rest : dl_event x ∈ seen -> at_least_once seen l rest -> at_least_once seen (x :: l) rest.

Lemma delivered_at self c x rev : delivered x -> counted (e_AggregateType (dl_event x)) = true ->
  e_AggregateRevision (dl_event x) = format_int rev -> is_u64 rev ->
  exists evs got o, withdraws (pl_db (dl_pool x)) (dl_event x) evs /\ (got = evs \/ got = [] /\ dl_reads x = false) /\
    (o = Rejected -> dl_reads x = false) /\
    deliver self (dl_reads x) (pl_db (dl_pool x)) c (dl_message x) =
      if admits c (dl_event x) rev then (o, evict (gated c (dl_event x) rev) got) else (Stale, gated c (dl_event x) rev).
Proof.
  intros (Hq & Hin & Ht & Hv & Hm & Hs) Hc Hr Hu. apply deliver_announced; try done.
  by apply (sk_announced _ _ (reached_ok _ Hq)).
Qed.
(** What a run over deliveries answers and evicts. *)
Definition carried (l : list delivery) (rest : list Envelope) (c : consumer) (r : list projection_outcome * consumer) : Prop :=
  Forall2 (fun x o => o = Rejected -> dl_reads x = false) l r.1 /\
  (forall e, e ∈ rest -> exists x evs, x ∈ l /\ dl_event x = e /\ withdraws (pl_db (dl_pool x)) e evs /\
    (evs ⊆ cn_evicted r.2 \/ dl_reads x = false)) /\
  (forall v, v ∈ cn_evicted r.2 -> v ∈ cn_evicted c \/
    exists x evs, x ∈ l /\ withdraws (pl_db (dl_pool x)) (dl_event x) evs /\ v ∈ evs) /\
  cn_evicted c ⊆ cn_evicted r.2.
Lemma carried_cons x l rest rest' c c1 o evs got r : (o = Rejected -> dl_reads x = false) -> cn_evicted c1 = cn_evicted c ++ got ->
  got = evs \/ got = [] /\ dl_reads x = false -> withdraws (pl_db (dl_pool x)) (dl_event x) evs ->
  (forall e, e ∈ rest' -> e ∈ rest \/ e = dl_event x /\ (got = evs \/ dl_reads x = false)) ->
  carried l rest c1 r -> carried (x :: l) rest' c (o :: r.1, r.2).
Proof.
  intros Ho Hc1 Hgot Hw Hrest (Hr & He & Hv & Hsub). assert (got ⊆ cn_evicted r.2) as Hg.
  { intros v Hin. apply Hsub. rewrite Hc1. apply elem_of_app. by right. }
  split_and!; cbn [fst snd]; [by constructor|..].
  - intros e [Hin|[-> Hwe]]%Hrest; [destruct (He e Hin) as (y & evs' & Hy & ?); exists y, evs'; split; [by right|done]|].
    exists x, evs. split_and!; [by left|done..|]. destruct Hwe as [->|]; [by left|by right].
  - intros v [Hin|(y & evs' & Hy & ?)]%Hv; [|right; exists y, evs'; split; [by right|done]].
    rewrite Hc1 in Hin. apply elem_of_app in Hin as [|Hin]; [by left|right]. exists x, evs. split_and!; [by left|done|].
    destruct Hgot as [->|[-> _]]; [done|by apply elem_of_nil in Hin].
  - intros v Hin. apply Hsub. rewrite Hc1. apply elem_of_app. by left.
Qed.
Lemma deliver_all_cons self reads d raw l c o c1 : deliver self reads d c raw = (o, c1) ->
  deliver_all self ((reads, d, raw) :: l) c = (o :: (deliver_all self l c1).1, (deliver_all self l c1).2).
Proof. intros E. cbn [deliver_all]. rewrite E. by destruct (deliver_all self l c1). Qed.
(** What the replica gets of the deliveries. *)
Definition handed (l : list delivery) : list (bool * DB * string) :=
  map (fun x => (dl_reads x, pl_db (dl_pool x), dl_message x)) l.
Lemma event_counted d seen e rest : events d = seen ++ e :: rest -> counted (e_AggregateType e) = true.
Proof. intros E. assert (In e (events d)) as [_ H']%filter_In by (rewrite E; apply in_elt). exact H'. Qed.

Lemma stream_delivered self d l : sys_ok d -> Forall delivered l -> forall seen rest c,
  events d = seen ++ rest -> at_least_once seen l rest -> gate_ok seen (gate_of c) ->
  carried l rest c (deliver_all self (handed l) c).
Proof.
  intros Hok. induction 1 as [|x l Hx Hl IH]; intros seen rest c E Hal Hg.
  { inversion Hal; subst. unfold carried. cbn. split; [by constructor|]. split; [by intros e ?%elem_of_nil|]. split; [by intros v Hv; left|done]. }
  inversion Hal as [|? ? ? rest' Hal'|? ? ? ? Hin Hal']; subst; unfold handed; cbn [map]; fold (handed l).
  - pose proof (event_counted _ _ _ _ E) as Hc. destruct (event_number d seen (dl_event x) rest' Hok E) as [Hrev Hb].
    destruct (gate_next seen (gate_of c) (dl_event x) Hg Hc) as [Hadm Hg'].
    destruct (delivered_at self c x _ Hx Hc Hrev) as (evs & got & o & Hw & Hgot & Ho & Hd); [unfold is_u64; lia|].
    unfold admits in Hd. rewrite Hadm in Hd. rewrite (deliver_all_cons _ _ _ _ _ _ _ _ Hd).
    eapply (carried_cons _ _ rest' _ _ (evict (gated c _ _) got) o evs got); [done|done|done|done| |apply (IH (seen ++ [dl_event x])); [by rewrite <- app_assoc|done..]].
    intros e [->|]%elem_of_cons; [right; split; [done|destruct Hgot as [|[]]; auto]|by left].
  - destruct (list_elem_of_split _ _ Hin) as (seen1 & seen2 & Hseen).
    assert (events d = seen1 ++ dl_event x :: (seen2 ++ rest)) as E' by (rewrite E, Hseen, <- app_assoc; done).
    pose proof (event_counted _ _ _ _ E') as Hc. destruct (event_number d seen1 (dl_event x) _ Hok E') as [Hrev Hb].
    destruct (delivered_at self c x _ Hx Hc Hrev) as (evs & got & o & Hw & Hgot & Ho & Hd); [unfold is_u64; lia|].
    set (rev := Z.of_nat (S (number_of seen1 (dl_event x)))) in *.
    assert (gate_ok seen (after_gate (dl_event x) rev (gate_of c))) as Hg'.
    { apply gate_again; [done..|]. subst rev seen. unfold number_of. rewrite List.filter_app, length_app. cbn [List.filter].
      rewrite (proj2 (of_aggregate_spec _ _ (dl_event x))) by done. cbn. lia. }
    destruct (admits c (dl_event x) rev); rewrite (deliver_all_cons _ _ _ _ _ _ _ _ Hd).
    + eapply (carried_cons _ _ rest _ _ (evict (gated c _ _) got) o evs got); [done|done|done|done|by left|by apply (IH seen)].
    + destruct (IH seen rest (gated c (dl_event x) rev) E Hal' Hg') as (Ha & He & Hv & Hs). split_and!; cbn [fst snd]; [by constructor|..|done].
      * intros e (y & evs' & Hy & ?)%He. exists y, evs'. split; [by right|done].
      * intros v [Hv'|(y & evs' & Hy & ?)]%Hv; [by left|right; exists y, evs'; split; [by right|done]].
Qed.

(** ** What the stream makes of the database *)

(** The identity of a grant is its cache key, and a server keeps its resource. *)
Lemma CacheKey_identity g g' : grant_identity g' = grant_identity g -> CacheKey (GrantFromRow g') = CacheKey (GrantFromRow g).
Proof. unfold grant_identity. intros E. unfold CacheKey, dimensions, GrantFromRow. cbn. by simplify_eq; repeat match goal with H : _ = _ |- _ => rewrite H; clear H end. Qed.
Definition along (p q : service_pool) : Prop := service_run p q \/ service_run q p.
Lemma along_rel p q : reached p -> reached q -> along p q ->
  sys_rel (pl_db p) (pl_db q) \/ sys_rel (pl_db q) (pl_db p).
Proof. intros Hp Hq [Hr|Hr]; [left|right]; by apply run_rel. Qed.
Lemma same_grant p q id g g' : reached p -> reached q -> along p q -> db_grants (pl_db p) !! id = Some g ->
  db_grants (pl_db q) !! id = Some g' -> grant_identity g' = grant_identity g.
Proof.
  intros Hp Hq Ha Hg Hg'. destruct (along_rel _ _ Hp Hq Ha) as [R|R].
  - destruct (table_le_row _ _ _ _ _ _ (sr_grants _ _ R) Hg) as (x & Hx & Hle). rewrite Hg' in Hx. injection Hx as <-.
    by apply grant_le_keeps.
  - destruct (table_le_row _ _ _ _ _ _ (sr_grants _ _ R) Hg') as (x & Hx & Hle). rewrite Hg in Hx. injection Hx as <-.
    symmetry. by apply grant_le_keeps.
Qed.
Lemma same_server p q id s s' : reached p -> reached q -> along p q -> db_servers (pl_db p) !! id = Some s ->
  db_servers (pl_db q) !! id = Some s' -> sv_CanonicalResource s' = sv_CanonicalResource s.
Proof.
  intros Hp Hq Ha Hs Hs'. assert (server_identity s' = server_identity s) as E.
  { destruct (along_rel _ _ Hp Hq Ha) as [R|R].
    - destruct (sr_servers _ _ R _ _ Hs) as (x & Hx & Hle). rewrite Hs' in Hx. by injection Hx as <-.
    - destruct (sr_servers _ _ R _ _ Hs') as (x & Hx & Hle). rewrite Hs in Hx. by injection Hx as <-. }
  unfold server_identity in E. by simplify_eq.
Qed.
(** The event of a withdrawn grant evicts its tokens, and the event of a
    withdrawn revision those of its server. *)
Lemma grant_evicted p q e evs id g : reached p -> reached q -> along p q -> db_grants (pl_db p) !! id = Some g ->
  of_aggregate AggregateGrant id e = true -> withdraws (pl_db q) e evs -> TokensOf (CacheKey (GrantFromRow g)) ∈ evs.
Proof.
  intros Hp Hq Ha Hg [Hty Hid]%of_aggregate_spec Hw. destruct Hw as [i x rev corr now row Hrow _|i x rev corr now s _ _|i x rev corr now _ _].
  - cbn in Hid. subst id. rewrite (CacheKey_identity g row) by (by eapply (same_grant p q)). by left.
  - discriminate Hty.
  - discriminate Hty.
Qed.
Lemma server_evicted p q evs i y rev corr now s : reached p -> reached q -> along p q ->
  db_servers (pl_db p) !! d_ServerID y = Some s -> withdrawn_revision (d_State y) = true -> ValidString (d_ServerID y) = true ->
  withdraws (pl_db q) (CatalogReviewedEvent i y rev corr now) evs -> TokensAt (sv_CanonicalResource s) ∈ evs.
Proof.
  intros Hp Hq Ha Hs Hwd Hv Hw. remember (CatalogReviewedEvent i y rev corr now) as e eqn:E.
  destruct Hw as [i' x rev' corr' now' row Hrow _|i' x rev' corr' now' s' Hs' _|i' x rev' corr' now' Hk1 Hk2].
  - discriminate (f_equal e_AggregateType E).
  - symmetry in E. apply reviewed_state in E as [Eid _]; [|done]. rewrite Eid in Hs'.
    rewrite <- (same_server p q _ s s') by done. by left.
  - symmetry in E. apply reviewed_state in E as [_ Est]; [|done]. rewrite Est in Hk1, Hk2. by destruct (d_State y).
Qed.

(** An event of the grant, and one that withdraws a revision of the server. *)
Definition of_grant (id : string) (e : Envelope) : Prop := of_aggregate AggregateGrant id e = true.
Definition withdrawal_of (id : string) (e : Envelope) : Prop := exists i y rev corr now,
  e = CatalogReviewedEvent i y rev corr now /\ d_ServerID y = id /\ withdrawn_revision (d_State y) = true.

(** C6. Every withdrawal reaches every replica whose reads are answered. Take
    any reached pool and a replica that starts to listen anywhere in the stream
    of its committed grant and catalog events, and deliver the rest of the
    stream to its projection in commit order and at least once, each event
    handled at any moment after its commit; the events have a tenant and valid
    texts, and their messages keep the bound of the consumer. A message is
    rejected only when the database did not answer its read. For every grant
    that is being revoked or is revoked the tokens of exactly that grant are
    evicted, and for every rejected or disabled revision the tokens of its
    server's resource, unless they were withdrawn before the replica listened
    or the read of such an event failed (the gate has recorded its revision by
    then, so the event delivered again is stale); and no other token is
    evicted. *)
Theorem withdrawals_reach_every_replica self p l before rest :
  reached p -> events (pl_db p) = before ++ rest -> Forall (fun x => delivered x /\ along p (dl_pool x)) l ->
  at_least_once before l rest ->
  let '(answers, c) := deliver_all self (handed l) new_consumer in
  Forall2 (fun x o => o = Rejected -> dl_reads x = false) l answers /\
  (forall id g, db_grants (pl_db p) !! id = Some g -> withdrawn_grant (gw_State g) = true ->
    grant_announced id before \/ TokensOf (CacheKey (GrantFromRow g)) ∈ cn_evicted c \/
    exists x, x ∈ l /\ dl_reads x = false /\ of_grant id (dl_event x)) /\
  (forall k x s, db_descriptors (pl_db p) !! k = Some x -> withdrawn_revision (dr_State x) = true ->
    db_servers (pl_db p) !! dr_ServerID x = Some s ->
    server_announced (dr_ServerID x) before \/ TokensAt (sv_CanonicalResource s) ∈ cn_evicted c \/
    exists y, y ∈ l /\ dl_reads y = false /\ withdrawal_of (dr_ServerID x) (dl_event y)) /\
  (forall v, v ∈ cn_evicted c -> exists x evs, x ∈ l /\ withdraws (pl_db (dl_pool x)) (dl_event x) evs /\ v ∈ evs).
Proof.
  intros Hp E Hl Hal. assert (Forall delivered l) as Hd by (eapply Forall_impl; [exact Hl|by intros x []]).
  pose proof (stream_delivered self _ l (reached_ok _ Hp) Hd before rest new_consumer E Hal) as H'.
  destruct (deliver_all _ _ _) as [answers c]. destruct H' as (Ha & He & Hv & _); [by intros e rev' _; cbn; rewrite lookup_empty|].
  destruct (sk_withdrawn _ _ (reached_ok _ Hp)) as [W1 W2]. cbn [fst snd] in *.
  assert (forall e, e ∈ db_outbox (pl_db p) -> counted (e_AggregateType e) = true -> e ∈ before \/ e ∈ rest) as Hev.
  { intros e Hin Hc. apply elem_of_app. rewrite <- E. by apply list_elem_of_In, filter_In; rewrite <- list_elem_of_In. }
  assert (forall e, e ∈ rest -> exists x evs, x ∈ l /\ dl_event x = e /\ reached (dl_pool x) /\ along p (dl_pool x) /\ texts_valid e = true /\
    withdraws (pl_db (dl_pool x)) e evs /\ (evs ⊆ cn_evicted c \/ dl_reads x = false)) as Hrest.
  { intros e (x & evs & Hx & <- & Hw & Hs)%He. rewrite Forall_forall in Hl. destruct (Hl _ Hx) as [(Hq & _ & _ & Ht & _) Hr].
    by exists x, evs. }
  split_and!; [done|..].
  - intros id g Hg (e & Hin & Hag)%(W1 _ _ Hg). pose proof Hag as [Hty _]%of_aggregate_spec.
    destruct (Hev e Hin) as [Hb|(x & evs & Hx & <- & Hq & Hr & _ & Hw & Hs)%Hrest]; [by rewrite <- Hty|left; by exists e|right].
    destruct Hs as [Hs|Hs]; [left|right; by exists x]. apply Hs. exact (grant_evicted _ _ _ _ _ _ Hp Hq Hr Hg Hag Hw).
  - intros k x s Hx (i & y & rev & corr & now & Hin & Hid & Hwd)%(W2 _ _ Hx) Hs. rewrite <- Hid in Hs |- *.
    destruct (Hev _ Hin) as [Hb|(z & evs & Hz & Hze & Hq & Hr & Ht & Hw & Hsub)%Hrest]; [done|left; by exists i, y, rev, corr, now|right].
    destruct Hsub as [Hsub|Hsub]; [left|right; exists z; rewrite Hze; split_and!; [done..|by exists i, y, rev, corr, now]].
    apply Hsub. apply valid_aggregate in Ht. exact (server_evicted _ _ _ _ _ _ _ _ _ Hp Hq Hr Hs Hwd Ht Hw).
  - intros v Hin. destruct (Hv v Hin) as [Hbad|]; [by apply elem_of_nil in Hbad|done].
Qed.
End Stream.
