(* ===== verification/CallsSpec.v ===== *)
(** * CallsSpec: what a call's transactions require

    The marker commits under an executable grant only; a call is recorded only
    behind every guard of [Create]; an identical command that lost the race is
    answered by the row that won it. *)

From S2P Require Import Prelude Table Errors GoStrings GoCrypto GoJson GoNum GoBase64 GoUrl Task TaskLife Catalog Grant Call Event App Rows Sql SqlCalls SqlCatalog CallLife Invariant Prog Journal Ports Protocol Calls CallsSafe Service.

(** ** The marker *)

(** The marker commits exactly when, in that same transaction, the grant
    still is at the call's revision and executable and the call is admitted and
    unmarked; it then only turns that row into a sent one marked with the
    transaction's time. *)
Theorem marker_needs_executable_grant call now d d' :
  mark call now d = Ok (true, d') <->
  exists g r, db_grants d !! c_GrantID call = Some g /\ g_Revision (GrantFromRow g) = c_GrantRevision call /\
    Executable (GrantFromRow g) now = true /\
    db_tools d !! c_CallID call = Some r /\ tr_State r = CallAdmitted /\ tr_SendMarkerAt r = None /\
    d' = d <| db_tools := <[c_CallID call := marked_row d r]> (db_tools d) |>.
Proof.
  split.
  - intros [[_ ?]|(g & r & H1 & H2 & H3 & H4 & H5 & H6 & H7 & _)]%mark_Ok; [done|]. exists g, r. by split_and!.
  - intros (g & r & Hg & Hrev & Hex & Hr & Hs & Hm & ->). unfold mark. rewrite tx_bind_Ok. setoid_rewrite unwrap_Ok.
    exists g, d. split; [by apply gets_Ok|]. cbv zeta.
    rewrite Hrev, Z.eqb_refl, Hex. cbn [negb orb]. apply tx_bind_Ok. eexists 1, _. split; [|by apply mret_Ok].
    unfold SetToolRequestMarker, update_tool. rewrite Hr, !bool_decide_eq_true_2 by done. done.
Qed.

(** ** Recording *)

Section Recording.
  Context {SL : SchemaLibrary} (upstream : list string) (routes : list QualifiedRoute).

(** What the row of a recorded call binds. *)
Definition binds (cmd : Command) (req : CallRequest) (g : Grant) (tool : Tool) (route : string) (r : ToolRequest) : Prop :=
  (tr_TenantID r, tr_GrantID r, u64 (tr_GrantRevision r), tr_ServerID r, tr_Method r, tr_Route r) =
    (g_TenantID g, g_GrantID g, u64 (i64 (g_Revision g)), g_ServerID g, cr_Method req, route) /\
  (tr_CommandID r, tr_RequestDigest r, tr_Arguments r, tr_DescriptorDigest r, tr_SideEffecting r) =
    (cmd_CommandID cmd, cmd_RequestDigest cmd, cr_Arguments req, g_DescriptorDigest g, tl_SideEffecting tool) /\
  (tr_ExposureCurrency r, tr_ExposureAmount r) = (Currency (tl_UnitPrice tool), Amount (tl_UnitPrice tool)).
(** A call was recorded behind the guards of the transaction. *)
Definition recorded cmd scope req callID now d d' : Prop :=
  exists g desc tool route r, call_guards upstream routes cmd scope req callID now d g desc tool route /\
    d' = d <| db_tools := <[callID := r]> (db_tools d) |> /\ fresh_row r /\ row_ok callID r /\ binds cmd req g tool route r.
Lemma record_call_recorded cmd scope req callID now d u d' :
  record_call upstream routes cmd scope req callID now d = Ok (u, d') -> recorded cmd scope req callID now d d'.
Proof.
  intros (g & desc & tool & route & Hc & ->)%record_call_Ok. exists g, desc, tool, route. eexists. by split_and!.
Qed.

(** *** The guards of [Create] before its transaction *)

Section Creating.
  Context `{Casbin} (self : nat).

Definition closing : eff bool := Memory self (fun m => (m_closing m, m)).
(** What Control is asked about an execution under a grant. *)
Definition execution (scope : Scope) (serverID : string) (req : CallRequest) : eff (res ExecutionDecision) :=
  CheckExecution scope "mcp-tool" (serverID +:+ "/" +:+ cr_Method req) "execute".
(** Control allowed the execution, unless the grant was not found, or found
    in another tenant. *)
Definition authorized scope req (h : list (entry eff)) : Prop :=
  exists d0 gr, Did (GetGrant (cr_GrantID req)) d0 (Ok gr) ∈ h /\ gr = db_grants d0 !! cr_GrantID req /\
    match gr with
    | None => True
    | Some gr => gw_TenantID gr <> sc_TenantID scope \/
        exists decision, Asked (execution scope (gw_ServerID gr) req) (Ok decision) ∈ h /\ ed_Allowed decision = true
    end.
(** The journal of a process that may record a call. *)
Definition may_record cmd scope req (h : list (entry eff)) d d' : Prop :=
  checkCommand cmd scope = Ok tt /\ Asked closing false ∈ h /\
  (exists d0, Did (GetToolRequestByCommand (cmd_TenantID cmd) (cmd_CommandID cmd)) d0 (Ok None) ∈ h) /\
  authorized scope req h /\
  exists now, Asked Now now ∈ h /\ CheckCallRequest req now = Ok tt /\
    recorded cmd scope req (idOf "call-" [cmd_TenantID cmd; cmd_CommandID cmd]) now d d'.

Lemma only_reads_gets {X} (f : DB -> X) : only_reads (gets f).
Proof. by intros d a d' [_ ->]%gets_Ok. Qed.
Lemma answered_gets {X} (f : DB -> X) d a : answered (gets f) d (Ok a) -> a = f d.
Proof. by intros (d' & [-> _]%gets_Ok)%answered_Ok. Qed.

Lemma load_reads may c (h : list (entry eff)) Q : (forall h' a, Q h' a) -> jwp may (load c) h Q.
Proof. intros HQ. unfold load. apply jwp_read; [apply only_reads_gets|]. intros d r _. cbn. apply HQ. Qed.
Lemma commercial_authorized may scope req (h : list (entry eff)) :
  jwp may (commercial scope req) h (fun h' r => (exists l, h' = h ++ l) /\ (r = Ok tt -> authorized scope req h')).
Proof.
  unfold commercial. apply jwp_read; [apply only_reads_gets|]. intros d r Ha. destruct r as [[gr|]|e]; [|split; [by eexists|]..].
  - pose proof (answered_gets _ _ _ Ha) as Hg. destruct (String.eqb_spec (gw_TenantID gr) (sc_TenantID scope)) as [E|E]; cbn [negb].
    + apply jwp_bind, jwp_ask. intros [decision|e]; (split; [rewrite <- app_assoc; by eexists|]); [|done].
      destruct (ed_Allowed decision) eqn:Ed; [intros _|done]. exists d, (Some gr). split_and!; [auto with journal|done|right].
      exists decision. auto with journal.
    + split; [by eexists|]. intros _. exists d, (Some gr). split_and!; [auto with journal|done|by left].
  - intros _. exists d, None. split_and!; [auto with journal|by apply answered_gets in Ha|done].
  - done.
Qed.
Lemma in_app (v : entry eff) h l : v ∈ h -> v ∈ h ++ l.
Proof. intros ?. apply elem_of_app. by left. Qed.
Lemma Create_records cmd scope req fuel : forall h,
  jwp (may_record cmd scope req) (Create self upstream routes fuel cmd scope req) h (fun _ _ => True).
Proof.
  induction fuel as [|fuel IH]; intros h; [done|]. cbn [Create]. destruct (checkCommand cmd scope) as [[]|] eqn:Ec; [|done].
  apply jwp_ask. intros [|]; [done|]. apply jwp_read; [apply only_reads_gets|]. intros d0 prev Hprev. destruct prev as [[prev|]|e]; [done| |done].
  apply jwp_ask. intros now. destruct (CheckCallRequest req now) as [[]|] eqn:Er; [|done]. cbv zeta. apply jwp_bind.
  eapply jwp_mono; [apply commercial_authorized|]. intros h' [[]|e] [[l ->] Ha]; [|done]. apply jwp_db.
  - intros d d' [[u Hu] _]. split; [done|]. split; [by apply in_app, in_app, in_app, entry_last|].
    split; [exists d0; by apply in_app, in_app, entry_last|]. split; [by apply Ha|]. exists now. split; [by apply in_app, entry_last|].
    split; [done|]. by apply record_call_recorded in Hu.
  - intros d [u|e] _; [|destruct (errors_Is e ErrDuplicateKey); [apply IH|done]].
    apply jwp_ask. intros ?. apply (jwp_bind _ (go _)). apply (jwp_bind _ (load _)). by apply load_reads.
Qed.

(** C16. A call is recorded only behind every guard of [Create]. Along every
    run of the process, whatever the answers and whatever becomes of its
    transactions, over databases the service went through, a transaction of it
    that changes the database records one call, and by then: the command is
    the caller's own; the replica had answered that it is not closing; no call
    of the command was found; the request is one for an instant the clock
    showed; and Control had allowed the execution of the method on the grant's
    server, unless the grant did not exist yet when it was read for that. The
    transaction itself saw that the caller may send under a grant of its tenant
    that is current, executable and names the method; that the grant's
    descriptor revision is still the approved one it was bound to and has the
    method; that the arguments satisfy the reviewed schema; that the
    combination is a qualified route; that no call to that server has an
    unknown outcome; and that neither the call id nor the command was used. The
    row recorded binds all of them and is accepted, unmarked and not yet
    admitted. *)
Theorem call_recorded_only_guarded `{Jsonb} fuel cmd scope req h X (m : tx X) k q d' :
  walks (Create self upstream routes fuel cmd scope req) h (Db m k) -> changes m (pl_db q) d' ->
  (forall Y (m0 : tx Y) d0 r, Did m0 d0 r ∈ h -> exists p, reached p /\ service_run p q /\ pl_db p = d0) ->
  checkCommand cmd scope = Ok tt /\ Asked closing false ∈ h /\
  (exists d0, Did (GetToolRequestByCommand (cmd_TenantID cmd) (cmd_CommandID cmd)) d0 (Ok None) ∈ h) /\
  exists now g desc tool route r,
    let callID := idOf "call-" [cmd_TenantID cmd; cmd_CommandID cmd] in
    Asked Now now ∈ h /\ CheckCallRequest req now = Ok tt /\
    ((exists d0, Did (GetGrant (cr_GrantID req)) d0 (Ok None) ∈ h /\ db_grants d0 !! cr_GrantID req = None) \/
     (exists decision, Asked (execution scope (g_ServerID g) req) (Ok decision) ∈ h /\ ed_Allowed decision = true)) /\
    call_guards upstream routes cmd scope req callID now (pl_db q) g desc tool route /\
    d' = (pl_db q) <| db_tools := <[callID := r]> (db_tools (pl_db q)) |> /\ fresh_row r /\ row_ok callID r /\
    binds cmd req g tool route r.
Proof.
  intros Hw Hc Hpast. destruct (walks_changes (may_record cmd scope req) _ _ _ _ _ _ _ _ Hw (Create_records cmd scope req fuel []) Hc)
    as (H1 & H2 & H3 & (d0 & gr & Hdid & Hgr & Ha) & now & Hn & Hr & g & desc & tool & route & r & Hg & Hd & Hf & Hok & Hb).
  split_and!; [done..|]. exists now, g, desc, tool, route, r. split_and!; [done|done| |done..].
  destruct gr as [gr|]; [right|left; by exists d0]. destruct (Hpast _ _ _ _ Hdid) as (p & Hp & Hrun & <-).
  destruct Hg as [(gr' & Hgr' & ->) [Ht _] _ _ _ _ _ _ _ _]. symmetry in Hgr.
  destruct (grant_stays _ _ _ _ (run_rel _ _ Hp Hrun) Hgr) as (x & Hx & (_ & _ & E & Es & _)%grant_identity_keeps).
  rewrite Hgr' in Hx. injection Hx as <-. destruct Ha as [Ha|(decision & Hd' & Hal)]; [|exists decision; cbn; by rewrite Es].
  cbn in Ht. congruence.
Qed.
End Creating.

(** The guards before the insert answer no duplicate key. *)
Lemma CheckArguments_error schema args e : CheckArguments schema args = Err e -> err_is e <> ErrDuplicateKey.
Proof. unfold CheckArguments. intros Hc. repeat case_match; simplify_eq; done. Qed.

Lemma record_call_duplicate cmd scope req callID now d e :
  record_call upstream routes cmd scope req callID now d = Err e -> err_is e = ErrDuplicateKey ->
  is_Some (db_tools d !! callID) \/
  exists c r, db_tools d !! c = Some r /\ tr_TenantID r = sc_TenantID scope /\ tr_CommandID r = cmd_CommandID cmd.
Proof.
  unfold record_call. intros Hc Hd. apply tx_bind_Err in Hc as [Hc|(gr & ? & Hg & Hc)];
    [by apply unwrap_gets_Err in Hc as ->|]. apply unwrap_Ok, gets_Ok in Hg as [Hg ->].
  destruct (String.eqb (gw_TenantID gr) _) eqn:E1; [|by injection Hc as <-]. cbn [negb] in Hc. cbv zeta in Hc.
  repeat (match type of Hc with (if ?c then _ else _) _ = _ => destruct c; [by injection Hc as <-|] end).
  apply tx_bind_Err in Hc as [Hc|(dr & ? & Hg2 & Hc)]; [by apply unwrap_gets_Err in Hc as ->|].
  apply unwrap_Ok, gets_Ok in Hg2 as [_ ->]. destruct (_ || _); [by injection Hc as <-|].
  apply tx_bind_Err in Hc as [Hc|(srv & ? & Hg3 & Hc)]; [by apply unwrap_gets_Err in Hc as ->|].
  apply unwrap_Ok, gets_Ok in Hg3 as [_ ->]. destruct (Method _ _) as [tool|]; [|by injection Hc as <-].
  apply tx_bind_Err in Hc as [Hc|(u & ? & [_ ->]%lift_Ok & Hc)].
  { unfold lift in Hc. destruct (CheckArguments _ _) eqn:Ea; [done|]. injection Hc as <-.
    by apply CheckArguments_error in Ea. }
  destruct (routeOf _ _ _); [|by injection Hc as <-].
  apply tx_bind_Err in Hc as [Hc|(restricted & ? & [_ ->]%gets_Ok & Hc)]; [done|].
  destruct restricted; [by injection Hc as <-|]. apply InsertToolRequest_Err in Hc as [_ [Hid|(c & r & Hr & Ht & Hcm)]]; [by left|].
  right. exists c, r. split_and!; [done| |done]. cbn in Ht. breflect. by rewrite Ht.
Qed.

(** An identical command that lost the race is answered, not repeated: when
    recording a call finds its key taken, then in every later pool - whatever
    the service did in between - the lookup by command that [Create] makes next
    finds the recorded call, unless another command has the same call id. *)
Theorem lost_race_is_answered `{Casbin, Jsonb} p q cmd scope req callID now e :
  reached p -> service_run p q -> checkCommand cmd scope = Ok tt ->
  record_call upstream routes cmd scope req callID now (pl_db p) = Err e -> errors_Is e ErrDuplicateKey = true ->
  (forall r, db_tools (pl_db p) !! callID = Some r -> tr_TenantID r = cmd_TenantID cmd /\ tr_CommandID r = cmd_CommandID cmd) ->
  exists r, GetToolRequestByCommand (cmd_TenantID cmd) (cmd_CommandID cmd) (pl_db q) = Ok (Some r, pl_db q) /\
    tr_TenantID r = cmd_TenantID cmd /\ tr_CommandID r = cmd_CommandID cmd.
Proof.
  intros Hp Hq Hcmd Hc Hd%errors_Is_spec Hid. pose proof (sr_tools _ _ (run_rel _ _ Hp Hq)) as Hle.
  assert (cmd_TenantID cmd = sc_TenantID scope) as Ht.
  { unfold checkCommand in Hcmd. destruct (_ || _) eqn:E; [done|]. by breflect. }
  assert (exists c r, db_tools (pl_db p) !! c = Some r /\ tr_TenantID r = cmd_TenantID cmd /\ tr_CommandID r = cmd_CommandID cmd)
    as (c & r & Hr & Hrt & Hrc).
  { apply (record_call_duplicate _ _ _ _ _ _ _ Hc) in Hd as [[r Hr]|(c & r & Hr & H1 & H2)]; [|rewrite Ht; eauto].
    exists callID, r. split; [done|]. by apply Hid. }
  destruct (table_le_row _ _ _ _ _ _ Hle Hr) as (r' & Hr' & Hstep). apply row_le_keeps in Hstep as [Heq _].
  injection Heq as _ E1 _ _ _ _ _ _ _ _ _ E2 _ _ _ _ _ _ _ _ _ _ _.
  eapply GetToolRequestByCommand_finds; [exact Hr'|congruence..].
Qed.
End Recording.
