(* ===== verification/Demo.v ===== *)
(** * Demo: one run of the service from its empty database

    A manager discovers a server, a reviewer approves the revision, a grant
    manager creates a grant, which Control registers, and the actor's call is
    recorded, admitted, marked, sent and answered; then the grant is revoked.
    The run witnesses the properties of [System] and [CallsSpec]; what its
    stages show is computed once. *)

From S2P Require Import Prelude Table Errors GoStrings GoCrypto GoJson GoNum GoBase64 GoUrl UrlText GoScan Task TaskLife Catalog Grant Call Event App Authz Rows Sql SqlCalls SqlCatalog CallLife Invariant Prog Journal Ports Protocol Network Projection Calls Grants CatalogApp Tasks CallsSafe Service Paging System Delivery CallsSpec.

(** ** What is outside the service *)

(** A schema library that resolves every schema and accepts every instance. *)
Definition demo_schemas : SchemaLibrary :=
  {| Schema := json; Resolved := json; schema_Unmarshal := Parse; schema_Resolve := Some; schema_Validate := fun _ _ => true |}.
Definition demo_jsonb : Jsonb := fun s => if Valid s then Some s else None.
#[local] Existing Instances demo_schemas demo_enforcer demo_jsonb.

Definition demo_live : LiveServer :=
  mkLiveServer "files" "1" "2025-06-18" [mkLiveTool "read" "{}" "" ""] [] [] "" "" "".

(** Every party agrees and the tool answers. *)
Definition agree (X : Type) (w : world) (e : eff X) : X * world :=
  match e in eff X return X * world with
  | Now => (500, w)
  | CtxErr => (false, w)
  | Drained => (true, w)
  | Memory r f => ((f (w_mem w r)).1, mkWorld (fun n => if Nat.eqb n r then (f (w_mem w r)).2 else w_mem w n) (w_sends w))
  | CheckExecution _ _ _ _ => (Ok (mkExecutionDecision true "1" ""), w)
  | AdmitTool _ => (Ok (mkToolAdmission "dispatch-1" true "" "authorized"), w)
  | ObserveTool _ _ _ _ _ => (Ok tt, w)
  | GetTool _ _ => (Ok (mkDispatchView "unknown" ""), w)
  | Token _ => (Ok "", w)
  | Open_ _ _ => (Opened, w)
  | Send c _ _ => ((mkUpstreamReply (Some "{}") (Some "native") false, Answered_ok), mkWorld (w_mem w) (w_sends w ++ [c]))
  | Register _ _ => (Ok ("receipt-1", 1), w)
  | BeginRevocation _ _ _ | Revocation _ _ => (Ok (mkBarrier "converged" 0 0 (Some 500)), w)
  | DiscoverLive _ _ => (Ok demo_live, w)
  | IssuerOf _ => (Ok "", w)
  | LookupNetIP _ => (Ok [Addr4 [93; 184; 216; 34]], w)
  | EvictGrant _ | EvictResource _ => (0, w)
  | Stamps => (fun _ => (500, "event-1"), w)
  end.
Lemma agree_handles X w (e : eff X) : handle X w e (agree X w e).1 (agree X w e).2.
Proof. by destruct e. Qed.

(** ** The actors and their commands *)

Definition demo_authz : option Authorizer := Some (mkAuthorizer (map group_of
  [mkRoleBinding "tenant-1" "mia" RoleCatalogManager; mkRoleBinding "tenant-1" "bob" RoleCatalogReviewer;
   mkRoleBinding "tenant-1" "gus" RoleGrantManager])).
Definition demo_policy : NetworkPolicy := mkNetworkPolicy ["mcp.example.com"] [].
Definition scope_of (actor : string) : Scope := mkScope "tenant-1" "" actor [].
Definition command_of (id actor : string) : Command := mkCommand "tenant-1" id actor ("digest-" +:+ id).
Definition demo_declaration : Declaration :=
  mkDeclaration "https://mcp.example.com/" "streamable-http" "2025-06-18" "" ""
    [mkToolDeclaration "read" "" "" false (mkMoney "EUR" 1) true false] "internal" ["mcp.example.com"] [].
Definition demo_discover : proc (res (option Descriptor * bool)) :=
  Discover demo_authz demo_policy false (command_of "c1" "mia") (scope_of "mia") demo_declaration.
Definition demo_serverID : string := Eval vm_compute in idOf "srv-" ["tenant-1"; "https://mcp.example.com/"].
Definition demo_grantID : string := Eval vm_compute in idOf "grt-" ["tenant-1"; "c3"].
Definition demo_callID : string := Eval vm_compute in idOf "call-" ["tenant-1"; "c4"].
Definition demo_routes : list QualifiedRoute :=
  [mkQualifiedRoute "https://mcp.example.com/" "2025-06-18" "streamable-http" "gateway"].
Definition demo_request : CallRequest :=
  mkCallRequest demo_grantID 1 "read" "arg-1" (cr_ArgumentDigest demo_call_request) demo_arguments "op-1" "attempt-1" "" 7 1000.

(** ** The stages *)

Definition w0 : world := mkWorld (fun _ => fresh_memory) [].
Definition o1 := exec agree demo_discover (empty_db 500) w0.
Definition demo_digest : string := Eval vm_compute in
  match db_descriptors (oc_db o1) !! (demo_serverID, 1) with Some r => dr_DescriptorDigest r | None => "" end.
Definition demo_review : proc (res (option Descriptor * bool)) :=
  Review demo_authz (command_of "c2" "bob") (scope_of "bob") demo_serverID 1 demo_digest ReviewApprove "".
Definition o2 := exec agree demo_review (oc_db o1) (oc_world o1).
Definition demo_grant : proc (res (Grant * bool)) :=
  Grants.Create demo_authz (command_of "c3" "gus") (scope_of "gus")
    (mkGrantRequest "tenant" "tenant-1" demo_serverID 1 demo_digest ["read"] [] [] "reports" "internal" (mkMoney "EUR" 500) None).
Definition o3 := exec agree demo_grant (oc_db o2) (oc_world o2).
Definition demo_call : proc (option (res (Call * bool))) :=
  Calls.Create 0 ["gateway"] demo_routes 2 (command_of "c4" "alice") (scope_of "alice") demo_request.
Definition o4 := exec agree demo_call (oc_db o3) (oc_world o3).
(** The call's goroutine. *)
Definition demo_dispatch : proc unit := hd (Ret tt) (oc_started o4).

(** The call is sent and answered. *)
Definition o5 := exec agree demo_dispatch (oc_db o4) (oc_world o4).

(** Or its grant is revoked first: the call is canceled unsent, and the
    repeated command finds the grant drained. *)
Definition demo_revoke : proc (res (Grant * bool)) :=
  Revoke demo_authz (command_of "c5" "gus") (scope_of "gus") demo_grantID 1 "done".
Definition r5 := exec agree demo_revoke (oc_db o4) (oc_world o4).
Definition r6 := exec agree demo_dispatch (oc_db r5) (oc_world r5).
Definition r7 := exec agree demo_revoke (oc_db r6) (oc_world r6).

(** The call's state, whether it is unmarked, and whether it is the grant's. *)
Definition call_state (d : DB) : option (CallState * bool * bool) :=
  option_map (fun r => (tr_State r, bool_decide (tr_SendMarkerAt r = None), String.eqb (tr_GrantID r) demo_grantID))
    (db_tools d !! demo_callID).
Definition call_command (d : DB) : option (string * string) :=
  option_map (fun r => (tr_TenantID r, tr_CommandID r)) (db_tools d !! demo_callID).
Definition grant_state (d : DB) : option GrantState := option_map gw_State (db_grants d !! demo_grantID).
Definition revision_state (d : DB) : option CatalogState := option_map dr_State (db_descriptors d !! (demo_serverID, 1)).
Definition demo_record (d : DB) : option error :=
  match record_call ["gateway"] demo_routes (command_of "c4" "alice") (scope_of "alice") demo_request demo_callID 500 d with
  | Ok _ => None
  | Err e => Some e
  end.

(** What a process asks and does on one database until its [n]-th further
    transaction, and whether that one records the call. *)
Fixpoint journal_of {A} (n : nat) (p : proc A) (d : DB) (w : world) : list (entry eff) * proc A :=
  match p with
  | Ret a => ([], Ret a)
  | Db m k =>
      match n with
      | O => ([], Db m k)
      | S n =>
          match m d with
          | Ok (a, _) => let r := journal_of n (k (Ok a)) d w in (Did m d (Ok a) :: r.1, r.2)
          | Err e => let r := journal_of n (k (Err e)) d w in (Did m d (Err e) :: r.1, r.2)
          end
      end
  | Ask e k => let x := agree _ w e in let r := journal_of n (k x.1) d x.2 in (Asked e x.1 :: r.1, r.2)
  | Fork _ r => journal_of n r d w
  end.
Definition has_call (d : DB) : bool := match db_tools d !! demo_callID with Some _ => true | None => false end.
Definition records {A} (p : proc A) (d : DB) : bool :=
  match p with Db m _ => match m d with Ok (_, d') => has_call d' && negb (has_call d) | Err _ => false end | _ => false end.
Definition demo_journal : list (entry eff) * proc (option (res (Call * bool))) := journal_of 2 demo_call (oc_db o3) (oc_world o3).

(** The message of an event, and whether the consumer reads it. *)
Definition message (e : Envelope) : string := match Marshal_Envelope e with Ok raw => raw | Err _ => "" end.
Definition deliverable (e : Envelope) : bool :=
  negb (String.eqb (e_TenantID e) "") && texts_valid e && match Marshal_Envelope e with Ok _ => true | Err _ => false end &&
  (Z.of_nat (String.length (message e)) <=? maxProjectionEnvelope).

(** What the stages show, computed once. *)
Record summary := mkSummary {
  sm_started : nat; sm_discovered : option CatalogState; sm_reviewed : option CatalogState; sm_granted : option GrantState;
  sm_recorded : bool; sm_lost : option error; sm_command : option (string * string);
  sm_accepted : option (CallState * bool * bool);
  sm_answered : option (CallState * bool * bool); sm_sent : list string; sm_revoking : option GrantState;
  sm_waiting : option (CallState * bool * bool);
  sm_canceled : option (CallState * bool * bool); sm_revoked : option GrantState; sm_events : list string;
  sm_grants : list string; sm_revisions : list (string * Z); sm_deliverable : list (string * bool) }.
Definition demo_summary : summary :=
  mkSummary (List.length (oc_started o4)) (revision_state (oc_db o1)) (revision_state (oc_db o2)) (grant_state (oc_db o3))
    (records demo_journal.2 (oc_db o3)) (demo_record (oc_db o4)) (call_command (oc_db o4)) (call_state (oc_db o4))
    (call_state (oc_db o5)) (w_sends (oc_world o5)) (grant_state (oc_db r5)) (call_state (oc_db r5))
    (call_state (oc_db r6)) (grant_state (oc_db r7)) (event_revisions AggregateGrant demo_grantID (db_outbox (oc_db r7)))
    (map gw_GrantID (rows_of (db_grants (oc_db o4)))) (map fst (map_to_list (db_descriptors (oc_db o4))))
    (map (fun e => (e_EventType e, deliverable e)) (events (oc_db r7))).
Lemma demo_summary_eq : demo_summary =
  mkSummary 1%nat (Some CatalogReviewPending) (Some CatalogApproved) (Some GrantActive)
    true (Some (errorf ErrDuplicateKey)) (Some ("tenant-1", "c4")) (Some (CallAccepted, true, true))
    (Some (CallSucceeded, false, true)) [demo_callID] (Some GrantRevoking) (Some (CallAccepted, true, true))
    (Some (CallCanceled, true, true)) (Some GrantRevoked) ["1"; "2"] [demo_grantID] [(demo_serverID, 1)]
    [("mcp.catalog-reviewed", true); ("mcp.grant-revoked", true); ("mcp.grant-revoked", true)].
Proof. vm_compute. reflexivity. Qed.
Lemma one_started {A} (l : list A) x : List.length l = 1%nat -> l = [hd x l].
Proof. by destruct l as [|y [|z l]]. Qed.
Lemma demo_started : oc_started o4 = [demo_dispatch].
Proof. apply one_started. exact (f_equal sm_started demo_summary_eq). Qed.

(** ** The pools of the run *)

Lemma o1_eq : o1 = exec agree demo_discover (empty_db 500) w0.
Proof. reflexivity. Qed.
Lemma o2_eq : o2 = exec agree demo_review (oc_db o1) (oc_world o1).
Proof. reflexivity. Qed.
Lemma o3_eq : o3 = exec agree demo_grant (oc_db o2) (oc_world o2).
Proof. reflexivity. Qed.
Lemma o4_eq : o4 = exec agree demo_call (oc_db o3) (oc_world o3).
Proof. reflexivity. Qed.
Lemma o5_eq : o5 = exec agree demo_dispatch (oc_db o4) (oc_world o4).
Proof. reflexivity. Qed.
Lemma r5_eq : r5 = exec agree demo_revoke (oc_db o4) (oc_world o4).
Proof. reflexivity. Qed.
Lemma r6_eq : r6 = exec agree demo_dispatch (oc_db r5) (oc_world r5).
Proof. reflexivity. Qed.
Lemma r7_eq : r7 = exec agree demo_revoke (oc_db r6) (oc_world r6).
Proof. reflexivity. Qed.

#[local] Opaque o1 o2 o3 o4 o5 r5 r6 r7 demo_discover demo_review demo_grant demo_call demo_dispatch demo_revoke.

Lemma process_run (p : proc unit) d w l1 l2 o : o = exec agree p d w ->
  service_run (mkPool d w (l1 ++ p :: l2)) (mkPool (oc_db o) (oc_world o) (l1 ++ oc_started o ++ l2)).
Proof. intros ->. exact (exec_run_gone agree handle service_process service_env agree_handles p eq_refl d w l1 l2). Qed.
Lemma first_run (p : proc unit) d w l o : o = exec agree p d w ->
  service_run (mkPool d w (p :: l)) (mkPool (oc_db o) (oc_world o) (oc_started o ++ l)).
Proof. exact (process_run p d w [] l o). Qed.
Lemma entry_run {A} (p : proc A) d w l o : service_process (ignore p) -> o = exec agree p d w ->
  service_run (mkPool d w l) (mkPool (oc_db o) (oc_world o) (oc_started o ++ l)).
Proof.
  intros Hp ->. eapply pool_run_left; [by apply ps_start|]. eapply pool_run_trans.
  - exact (exec_run agree handle service_process service_env agree_handles p (fun _ => Ret tt) d w [] l).
  - eapply pr_step; [apply pr_refl|apply ps_gone].
Qed.

Definition pool1 : service_pool := mkPool (oc_db o1) (oc_world o1) (oc_started o1 ++ []).
Definition pool2 : service_pool := mkPool (oc_db o2) (oc_world o2) (oc_started o2 ++ pl_procs pool1).
Definition pool3 : service_pool := mkPool (oc_db o3) (oc_world o3) (oc_started o3 ++ pl_procs pool2).
Definition pool4 : service_pool := mkPool (oc_db o4) (oc_world o4) (demo_dispatch :: pl_procs pool3).
Definition pool5 : service_pool := mkPool (oc_db o5) (oc_world o5) (oc_started o5 ++ pl_procs pool3).
Definition pool5r : service_pool := mkPool (oc_db r5) (oc_world r5) (oc_started r5 ++ demo_dispatch :: pl_procs pool3).
Definition pool6r : service_pool := mkPool (oc_db r6) (oc_world r6) (oc_started r5 ++ oc_started r6 ++ pl_procs pool3).
Definition pool7r : service_pool := mkPool (oc_db r7) (oc_world r7) (oc_started r7 ++ pl_procs pool6r).

Lemma demo_reached1 : reached pool1.
Proof.
  exists 500, (fun _ => fresh_memory).
  exact (entry_run demo_discover _ _ [] o1 (sp_discover demo_authz demo_policy false _ _ _) o1_eq).
Qed.
Lemma demo_reached2 : reached pool2.
Proof. exact (reached_run _ _ demo_reached1 (entry_run demo_review _ _ _ o2 (sp_review demo_authz _ _ _ _ _ _ _) o2_eq)). Qed.
Lemma demo_reached3 : reached pool3.
Proof. exact (reached_run _ _ demo_reached2 (entry_run demo_grant _ _ _ o3 (sp_grant_create demo_authz _ _ _) o3_eq)). Qed.
Lemma demo_reached4 : reached pool4.
Proof.
  pose proof (entry_run demo_call _ _ (pl_procs pool3) o4 (sp_call_create 0 ["gateway"] demo_routes 2 _ _ _) o4_eq) as Hr.
  rewrite demo_started in Hr. exact (reached_run _ _ demo_reached3 Hr).
Qed.
Lemma demo_run45 : service_run pool4 pool5.
Proof. exact (first_run demo_dispatch _ _ (pl_procs pool3) o5 o5_eq). Qed.
Lemma demo_run4r : service_run pool4 pool5r.
Proof. exact (entry_run demo_revoke _ _ _ r5 (sp_grant_revoke demo_authz _ _ _ _ _) r5_eq). Qed.
Lemma demo_run5r : service_run pool5r pool6r.
Proof. exact (process_run demo_dispatch _ _ (oc_started r5) (pl_procs pool3) r6 r6_eq). Qed.
Lemma demo_run6r : service_run pool6r pool7r.
Proof. exact (entry_run demo_revoke _ _ _ r7 (sp_grant_revoke demo_authz _ _ _ _ _) r7_eq). Qed.
Lemma demo_reached5r : reached pool5r.
Proof. exact (reached_run _ _ demo_reached4 demo_run4r). Qed.
Lemma demo_reached6r : reached pool6r.
Proof. exact (reached_run _ _ demo_reached5r demo_run5r). Qed.
Lemma demo_reached7r : reached pool7r.
Proof. exact (reached_run _ _ demo_reached6r demo_run6r). Qed.

(** ** Witnesses *)

Lemma call_row d s unmarked : call_state d = Some (s, unmarked, true) ->
  exists r, db_tools d !! demo_callID = Some r /\ tr_State r = s /\ bool_decide (tr_SendMarkerAt r = None) = unmarked /\
    tr_GrantID r = demo_grantID.
Proof. unfold call_state. destruct (_ !! _) as [r|]; [|done]. intros [= <- <- Hg]. exists r. by breflect. Qed.
Lemma grant_row d s : grant_state d = Some s -> exists g, db_grants d !! demo_grantID = Some g /\ gw_State g = s.
Proof. unfold grant_state. destruct (_ !! _) as [g|]; [|done]. intros [= <-]. by exists g. Qed.
Lemma revision_row d s : revision_state d = Some s ->
  exists x, db_descriptors d !! (demo_serverID, 1) = Some x /\ dr_State x = s.
Proof. unfold revision_state. destruct (_ !! _) as [x|]; [|done]. intros [= <-]. by exists x. Qed.

Lemma at_most_one_send_witness :
  w_sends (pl_world pool5) = [demo_callID] /\
  exists r, db_tools (pl_db pool5) !! demo_callID = Some r /\ tr_SendMarkerAt r <> None /\ was_sent (tr_State r) = true.
Proof.
  assert (w_sends (pl_world pool5) = [demo_callID]) as Hs by exact (f_equal sm_sent demo_summary_eq).
  split; [exact Hs|]. apply (at_most_one_send pool5 (reached_run _ _ demo_reached4 demo_run45)). rewrite Hs. by left.
Defined.

Lemma call_row_life_witness :
  exists r r', db_tools (pl_db pool4) !! demo_callID = Some r /\ tr_State r = CallAccepted /\
    db_tools (pl_db pool5) !! demo_callID = Some r' /\ call_identity r' = call_identity r /\
    rtc call_move (tr_State r) (tr_State r').
Proof.
  destruct (call_row (pl_db pool4) _ _ (f_equal sm_accepted demo_summary_eq)) as (r & Hr & Hs & _).
  destruct (call_row_life pool4 pool5 demo_callID r demo_reached4 demo_run45 Hr) as (r' & Hr' & Hid & Hmv & _).
  exists r, r'. split; [exact Hr|]. split; [exact Hs|]. split; [exact Hr'|]. split; [exact Hid|exact Hmv].
Defined.

Lemma canceled_call_never_sent_witness : demo_callID ∉ w_sends (pl_world pool7r).
Proof.
  destruct (call_row (pl_db pool6r) _ _ (f_equal sm_canceled demo_summary_eq)) as (r & Hr & Hs & _).
  exact (canceled_call_never_sent pool6r pool7r demo_callID r demo_reached6r demo_run6r Hr (or_introl Hs)).
Defined.

(** The call accepted before its grant was revoked is never marked or sent. *)
Lemma revocation_is_final_witness :
  (exists r', db_tools (pl_db pool6r) !! demo_callID = Some r' /\ tr_SendMarkerAt r' = None) /\
  demo_callID ∉ w_sends (pl_world pool6r).
Proof.
  destruct (grant_row (pl_db pool5r) _ (f_equal sm_revoking demo_summary_eq)) as (g & Hg & Hs).
  destruct (call_row (pl_db pool5r) _ _ (f_equal sm_waiting demo_summary_eq)) as (r & Hr & _ & Hn%bool_decide_eq_true & _).
  destruct (call_row (pl_db pool6r) _ _ (f_equal sm_canceled demo_summary_eq)) as (r' & Hr' & _ & _ & Hid).
  destruct (revocation_is_final pool5r pool6r demo_grantID g demo_reached5r demo_run5r Hg ltac:(rewrite Hs; reflexivity)) as [_ Hf].
  destruct (Hf _ _ Hr' Hid) as (x & Hx & Hm). assert (x = r) as -> by congruence. destruct (Hm Hn) as [Hm' Hsend].
  split; [exists r'; split; [exact Hr'|exact Hm']|exact Hsend].
Defined.

Lemma revoked_means_drained_witness :
  exists g, db_grants (pl_db pool7r) !! demo_grantID = Some g /\ gw_State g = GrantRevoked /\ gw_ControlState g = "converged".
Proof.
  destruct (grant_row (pl_db pool7r) _ (f_equal sm_revoked demo_summary_eq)) as (g & Hg & Hs). exists g. split; [exact Hg|].
  split; [exact Hs|]. exact (proj1 (revoked_means_drained pool7r pool7r demo_grantID g demo_reached7r (pr_refl _ _ _ _) Hg Hs)).
Defined.

Lemma demo_run47 : service_run pool4 pool7r.
Proof. exact (pool_run_trans _ _ _ demo_run4r (pool_run_trans _ _ _ demo_run5r demo_run6r)). Qed.

Lemma grant_row_life_witness :
  exists g g', gw_State g = GrantRevoking /\ gw_State g' = GrantRevoked /\ grant_identity g' = grant_identity g /\
    rtc grant_move (gw_State g) (gw_State g').
Proof.
  destruct (grant_row (pl_db pool5r) _ (f_equal sm_revoking demo_summary_eq)) as (g & Hg & Hs).
  destruct (grant_row (pl_db pool7r) _ (f_equal sm_revoked demo_summary_eq)) as (x & Hx & Hxs).
  destruct (grant_row_life pool5r pool7r demo_grantID g demo_reached5r (pool_run_trans _ _ _ demo_run5r demo_run6r) Hg)
    as (g' & Hg' & Hid & Hm & _). assert (x = g') as -> by congruence.
  exists g, g'. split; [exact Hs|]. split; [exact Hxs|]. split; [exact Hid|exact Hm].
Defined.

Lemma live_grant_is_reviewed_witness :
  exists g d reviewer, db_grants (pl_db pool3) !! demo_grantID = Some g /\ gw_State g = GrantActive /\
    dr_DescriptorDigest d = gw_DescriptorDigest g /\ dr_State d = CatalogApproved /\
    dr_Reviewer d = Some reviewer /\ reviewer <> dr_DiscoveredBy d.
Proof.
  destruct (grant_row (pl_db pool3) _ (f_equal sm_granted demo_summary_eq)) as (g & Hg & Hs).
  destruct (live_grant_is_reviewed pool3 demo_grantID g demo_reached3 Hg (or_intror Hs))
    as (d & s & w & reviewer & _ & Hdg & Ha & _ & _ & Hr & Hne & _).
  exists g, d, reviewer. split; [exact Hg|]. split; [exact Hs|]. split; [exact Hdg|]. split; [exact Ha|]. split; [exact Hr|exact Hne].
Defined.

Lemma demo_run12 : service_run pool1 pool2.
Proof. exact (entry_run demo_review _ _ _ o2 (sp_review demo_authz _ _ _ _ _ _ _) o2_eq). Qed.
Lemma descriptor_row_life_witness :
  exists d d', dr_State d = CatalogReviewPending /\ dr_State d' = CatalogApproved /\
    descriptor_identity d' = descriptor_identity d /\ rtc descriptor_move (dr_State d) (dr_State d').
Proof.
  destruct (revision_row (pl_db pool1) _ (f_equal sm_discovered demo_summary_eq)) as (d & Hd & Hs).
  destruct (revision_row (pl_db pool2) _ (f_equal sm_reviewed demo_summary_eq)) as (x & Hx & Hxs).
  destruct (descriptor_row_life pool1 pool2 _ d demo_reached1 demo_run12 Hd) as (d' & Hd' & Hid & Hm & _).
  assert (x = d') as -> by congruence.
  exists d, d'. split; [exact Hs|]. split; [exact Hxs|]. split; [exact Hid|exact Hm].
Defined.

Lemma events_without_gaps_witness :
  event_revisions AggregateGrant demo_grantID (db_outbox (pl_db pool7r)) = ["1"; "2"] /\
  exists n : nat, ["1"; "2"] = map (fun i => format_int (Z.of_nat i)) (seq 1 n).
Proof.
  assert (event_revisions AggregateGrant demo_grantID (db_outbox (pl_db pool7r)) = ["1"; "2"]) as He
    by exact (f_equal sm_events demo_summary_eq).
  split; [exact He|]. destruct (events_without_gaps pool7r AggregateGrant demo_grantID demo_reached7r (or_introl eq_refl)) as (n & _ & Hn).
  exists n. rewrite <- He. exact Hn.
Defined.

(** Every event in its turn, and all of them once more. *)
Definition demo_delivery (e : Envelope) : delivery := mkDelivery pool7r true e (message e).
Definition demo_stream : list delivery := map demo_delivery (events (pl_db pool7r)) ++ map demo_delivery (events (pl_db pool7r)).
Lemma again seen es : (forall e, e ∈ es -> e ∈ seen) -> at_least_once seen (map demo_delivery es) [].
Proof.
  induction es as [|e es IH]; intros H; [constructor|]. apply al_again; [apply H; left|]. apply IH. intros x Hx. apply H. by right.
Qed.
Lemma in_turn es all : forall seen, seen ++ es = all -> at_least_once seen (map demo_delivery es ++ map demo_delivery all) es.
Proof.
  induction es as [|e es IH]; intros seen <-; [apply again; intros e; by rewrite app_nil_r|].
  apply (al_next seen (demo_delivery e)). apply IH. cbn. by rewrite <- app_assoc.
Qed.
Lemma deliverable_delivered q e : reached q -> e ∈ events (pl_db q) -> deliverable e = true -> delivered (mkDelivery q true e (message e)).
Proof.
  intros Hq [He _]%list_elem_of_In%filter_In [[[Ht%negb_true_iff%String.eqb_neq Hv]%andb_true_iff Hm]%andb_true_iff Hs%Z.leb_le]%andb_true_iff.
  split; [done|]. split; [by apply list_elem_of_In|]. split_and!; try done. cbn [dl_event dl_message]. unfold message. by destruct (Marshal_Envelope e).
Qed.
Lemma all_delivered q : reached q -> forallb snd (map (fun e => (e_EventType e, deliverable e)) (events (pl_db q))) = true ->
  Forall (fun x => delivered x /\ along q (dl_pool x)) (map (fun e => mkDelivery q true e (message e)) (events (pl_db q))).
Proof.
  intros Hq H. rewrite forallb_forall in H. apply Forall_map, Forall_forall. intros e He. split; [|left; apply pr_refl].
  apply deliverable_delivered; [done..|]. apply (H (e_EventType e, deliverable e)).
  by apply (in_map (fun e => (e_EventType e, deliverable e))), list_elem_of_In.
Qed.
Lemma demo_delivered : Forall (fun x => delivered x /\ along pool7r (dl_pool x)) demo_stream.
Proof.
  pose proof (all_delivered pool7r demo_reached7r (f_equal (fun s => forallb snd (sm_deliverable s)) demo_summary_eq)) as H.
  exact (proj2 (Forall_app _ _ _) (conj H H)).
Qed.
Lemma demo_reads x : x ∈ demo_stream -> dl_reads x = false -> False.
Proof.
  unfold demo_stream. rewrite <- map_app. intros (e & -> & _)%list_elem_of_fmap. discriminate.
Qed.
Lemma demo_answered answers : Forall2 (fun x o => o = Rejected -> dl_reads x = false) demo_stream answers ->
  Forall2 (fun _ o => o <> Rejected) demo_stream answers.
Proof.
  intros H. assert (forall x, x ∈ demo_stream -> dl_reads x = true) as Hr.
  { intros x Hx. destruct (dl_reads x) eqn:E; [done|]. by destruct (demo_reads x Hx). }
  induction H as [|x o l os Ho _ IH]; constructor; [|apply IH; intros y Hy; apply Hr; by right].
  intros E. apply Ho in E. rewrite Hr in E; [done|by left].
Qed.
Lemma withdrawals_reach_every_replica_witness :
  let '(answers, c) := deliver_all 0 (handed demo_stream) new_consumer in
  Forall2 (fun _ o => o <> Rejected) demo_stream answers /\ map e_EventType (events (pl_db pool7r)) =
    ["mcp.catalog-reviewed"; "mcp.grant-revoked"; "mcp.grant-revoked"] /\
  exists g, db_grants (pl_db pool7r) !! demo_grantID = Some g /\ gw_State g = GrantRevoked /\
    TokensOf (CacheKey (GrantFromRow g)) ∈ cn_evicted c.
Proof.
  pose proof (withdrawals_reach_every_replica 0 pool7r demo_stream [] _ demo_reached7r eq_refl demo_delivered (in_turn _ _ [] eq_refl)) as H.
  destruct (deliver_all _ _ _) as [answers c]. destruct H as (Ha & Hg & _). split; [exact (demo_answered _ Ha)|]. split.
  - pose proof (f_equal (fun s => map fst (sm_deliverable s)) demo_summary_eq) as Hd. cbn [sm_deliverable map fst] in Hd.
    rewrite <- Hd. unfold demo_summary. cbn [sm_deliverable]. symmetry. apply map_map.
  - destruct (grant_row (pl_db pool7r) _ (f_equal sm_revoked demo_summary_eq)) as (g & Hrow & Hst). exists g.
    split; [exact Hrow|]. split; [exact Hst|]. destruct (Hg _ _ Hrow ltac:(rewrite Hst; reflexivity)) as [(e & He & _)|[Hin|(x & Hx & Hf & _)]]; [|exact Hin|].
    + destruct (proj1 (elem_of_nil e) He).
    + destruct (demo_reads _ Hx Hf).
Defined.

Lemma record_only_grows_witness : exists l, db_outbox (pl_db pool7r) = db_outbox (pl_db pool4) ++ l.
Proof. exact (proj2 (proj2 (proj2 (proj2 (record_only_grows pool4 pool7r demo_reached4 demo_run47))))). Defined.

Lemma journal_walks {A} (p : proc A) d (q : proc A) : forall n w h, walks p h q ->
  walks p (h ++ (journal_of n q d w).1) (journal_of n q d w).2.
Proof.
  induction q as [A a|A X m k IH|A X e k IH|A c _ r IH]; intros n w h H; cbn [journal_of fst snd].
  - by rewrite app_nil_r.
  - destruct n as [|n]; [by rewrite app_nil_r|].
    destruct (m d) as [[a d']|e] eqn:E; cbn [fst snd]; (change (?v :: ?l) with ([v] ++ l); rewrite app_assoc; apply IH, wk_db; [done|]).
    + by eapply an_ok.
    + by apply an_err.
  - change (?v :: ?l) with ([v] ++ l). rewrite app_assoc. by apply IH, wk_ask.
  - apply IH. by eapply wk_fork.
Qed.
Definition done_on (d : DB) (v : entry eff) : Prop := match v with Did _ d' _ => d' = d | Asked _ _ => True end.
Lemma journal_database {A} (q : proc A) d v : forall n w, v ∈ (journal_of n q d w).1 -> done_on d v.
Proof.
  induction q as [A a|A X m k IH|A X e k IH|A c _ r IH]; intros n w; cbn [journal_of fst].
  - by intros ?%elem_of_nil.
  - destruct n as [|n]; [by intros ?%elem_of_nil|].
    destruct (m d) as [[a d']|e]; cbn [fst]; (intros [->|Hv]%elem_of_cons; [done|by eapply IH]).
  - intros [->|Hv]%elem_of_cons; [done|by eapply IH].
  - by apply IH.
Qed.
(** The call of the run, recorded behind Control's permission. *)
Lemma call_recorded_only_guarded_witness : exists X (m : tx X) k d' r,
  walks demo_call demo_journal.1 (Db m k) /\ changes m (pl_db pool3) d' /\ db_tools d' !! demo_callID = Some r /\ fresh_row r /\
  exists now, Asked Now now ∈ demo_journal.1 /\ CheckCallRequest demo_request now = Ok tt.
Proof.
  assert (records demo_journal.2 (oc_db o3) = true) as Hr by exact (f_equal sm_recorded demo_summary_eq).
  pose proof (journal_walks demo_call (oc_db o3) demo_call 2 (oc_world o3) [] (wk_start _)) as Hw.
  change ([] ++ ?l) with l in Hw. fold demo_journal in Hw. unfold records in Hr.
  destruct demo_journal.2 as [a|X m k|X e k|c q]; [discriminate Hr| |discriminate Hr|discriminate Hr].
  destruct (m (oc_db o3)) as [[a d']|e] eqn:E; [|discriminate Hr]. apply andb_true_iff in Hr as [H1 H2%negb_true_iff].
  assert (changes m (pl_db pool3) d') as Hc by (split; [exists a; exact E|]; intros Ed; rewrite Ed in H1; change (pl_db pool3) with (oc_db o3) in H1; congruence).
  destruct (call_recorded_only_guarded ["gateway"] demo_routes 0 2 (command_of "c4" "alice") (scope_of "alice") demo_request
    demo_journal.1 X m k pool3 d' Hw Hc) as (_ & _ & _ & now & g & desc & tool & route & r & Hn & Hq & _ & _ & Hd & Hf & _).
  - intros Y m0 d0 r0 Hin. exists pool3. split; [exact demo_reached3|]. split; [apply pr_refl|].
    exact (eq_sym (journal_database demo_call (oc_db o3) (Did m0 d0 r0) 2 (oc_world o3) Hin)).
  - exists X, m, k, d', r. split; [exact Hw|]. split; [exact Hc|]. split; [rewrite Hd; apply lookup_insert_eq|].
    split; [exact Hf|]. exists now. split; [exact Hn|exact Hq].
Defined.

(** The same command again, on the database where its row won. *)
Lemma lost_race_is_answered_witness :
  exists r, GetToolRequestByCommand "tenant-1" "c4" (pl_db pool5) = Ok (Some r, pl_db pool5) /\ tr_CommandID r = "c4".
Proof.
  assert (demo_record (pl_db pool4) = Some (errorf ErrDuplicateKey)) as Hr by exact (f_equal sm_lost demo_summary_eq).
  unfold demo_record in Hr. destruct (record_call _ _ _ _ _ _ _ _) as [|e] eqn:E; [discriminate Hr|]. injection Hr as ->.
  destruct (lost_race_is_answered ["gateway"] demo_routes pool4 pool5 (command_of "c4" "alice") (scope_of "alice") _ _ _ _
    demo_reached4 demo_run45 ltac:(reflexivity) E
    ltac:(reflexivity)) as (r & Hr & _ & Hc).
  - intros r Hr. assert (call_command (pl_db pool4) = Some ("tenant-1", "c4")) as Hx by exact (f_equal sm_command demo_summary_eq).
    unfold call_command in Hx. rewrite Hr in Hx. injection Hx as -> ->. split; reflexivity.
  - exists r. split; [exact Hr|exact Hc].
Defined.

Lemma map_elem {A B} (f : A -> B) l x : x ∈ l -> f x ∈ map f l.
Proof. rewrite !list_elem_of_In. apply in_map. Qed.
Lemma demo_revision_keys : map fst (map_to_list (db_descriptors (oc_db o4))) = [(demo_serverID, 1)].
Proof. exact (f_equal sm_revisions demo_summary_eq). Qed.
Lemma demo_revisions k r : db_descriptors (oc_db o4) !! k = Some r -> 0 <= dr_Revision r.
Proof.
  intros Hk. destruct (sk_descriptors _ _ (reached_ok _ demo_reached4) _ _ Hk) as (E & _).
  apply elem_of_map_to_list, (map_elem fst) in Hk. rewrite demo_revision_keys in Hk. cbn [fst] in Hk.
  apply list_elem_of_singleton in Hk. rewrite Hk in E. injection E as _ ->. discriminate.
Qed.
Lemma paging_is_complete_witness :
  follow (fun c => run agree (oc_db o4) w0 (Grants.List_ demo_authz (scope_of "gus") "" c 1))
    (S (List.length (grant_listing demo_authz (oc_db o4) (scope_of "gus") ""))) "" =
    Some (map GrantFromRow (grant_listing demo_authz (oc_db o4) (scope_of "gus") "")).
Proof.
  exact (proj1 (paging_is_complete pool4 demo_authz agree w0 (scope_of "gus") "" 1 demo_reached4 eq_refl demo_revisions)).
Defined.
