(* ===== verification/TasksSim.v ===== *)
(** * TasksSim: the task commands implement the life of a generation

    A generation of the database is its row with its attempts; each command
    of [Tasks] that commits takes one step of [TaskLife] on the generation it
    names (or none) and leaves every other generation alone.  Hence every
    generation of a reachable database is a reachable generation, and the
    properties of [TaskLife] hold of the stored rows. *)

From S2P Require Import Prelude Errors GoStrings GoCrypto GoJson GoNum Task TaskLife Catalog Grant Call Event Rows Sql SqlCalls Tasks.

(** ** Abstraction *)

Definition gen_of (db : DB) (k : string * Z) : option generation :=
  option_map (fun r => mkGeneration (TaskFromRow r) (map AttemptFromRow (attempts_of db k.1 k.2))) (db_requests db !! k).

(** What the columns hold. *)
Record wf_row (k : string * Z) (r : BackgroundRequest) : Prop := {
  wf_id : br_TaskID r = k.1;
  wf_generation : br_Generation r = k.2 /\ is_i64 k.2;
  wf_revision : is_i64 (br_Revision r);
  wf_max : 0 <= br_MaxAttempts r < 2 ^ 31 }.
Definition wf_attempts (l : list TaskAttempt) : Prop := List.Forall (fun a => - 2 ^ 31 <= ta_Ordinal a < 2 ^ 31) l.

Record wf_db (db : DB) : Prop := {
  wf_rows : forall k r, db_requests db !! k = Some r -> wf_row k r;
  wf_lists : forall k, wf_attempts (attempts_of db k.1 k.2);
  wf_orphans : forall k, db_requests db !! k = None -> attempts_of db k.1 k.2 = [] }.

(** Everything but the request tables. *)
Definition same_rest (db db' : DB) : Prop :=
  db_now db' = db_now db /\ db_servers db' = db_servers db /\ db_descriptors db' = db_descriptors db /\
  db_reviews db' = db_reviews db /\ db_commands db' = db_commands db /\ db_grants db' = db_grants db /\
  db_decisions db' = db_decisions db /\ db_tools db' = db_tools db /\ db_refreshes db' = db_refreshes db /\
  db_event_revisions db' = db_event_revisions db /\ db_outbox db' = db_outbox db.

(** Nothing of any other generation changed. *)
Definition others_same (k : string * Z) (db db' : DB) : Prop :=
  forall k', k' <> k -> db_requests db' !! k' = db_requests db !! k' /\ attempts_of db' k'.1 k'.2 = attempts_of db k'.1 k'.2.

(** ** Rows and decisions *)

Lemma str_optStr s : str (optStr s) = s.
Proof. unfold optStr. destruct (String.eqb s "") eqn:E; cbn; [by breflect|done]. Qed.

Lemma Task_ext t t' :
  t_TaskID t = t_TaskID t' -> t_Generation t = t_Generation t' -> t_TenantID t = t_TenantID t' ->
  t_Kind t = t_Kind t' -> t_InputDigest t = t_InputDigest t' -> t_Input t = t_Input t' -> t_State t = t_State t' ->
  t_WorkerID t = t_WorkerID t' -> t_LeaseUntil t = t_LeaseUntil t' -> t_AttemptCount t = t_AttemptCount t' ->
  t_MaxAttempts t = t_MaxAttempts t' -> t_ResultProfile t = t_ResultProfile t' -> t_Effects t = t_Effects t' ->
  t_DispatchID t = t_DispatchID t' -> t_AuthorizationRef t = t_AuthorizationRef t' -> t_RetryAt t = t_RetryAt t' ->
  t_ResultRef t = t_ResultRef t' -> t_ResultDigest t = t_ResultDigest t' -> t_FailureCode t = t_FailureCode t' ->
  t_Revision t = t_Revision t' -> t_CorrelationID t = t_CorrelationID t' -> t = t'.
Proof. destruct t, t'. cbn. intros. by subst. Qed.

Lemma TaskFromRow_ranges r : is_u64 (t_Revision (TaskFromRow r)) /\ is_u32 (t_AttemptCount (TaskFromRow r)).
Proof. split; [apply u64_range|apply u32_range]. Qed.

(** A row updated from a task of the same identity reads back as that task. *)
Lemma TaskFromRow_updated k r t' rev now stamp :
  wf_row k r -> identity t' = identity (TaskFromRow r) -> is_u64 (t_Revision t') -> is_u32 (t_AttemptCount t') ->
  TaskFromRow (updated_row r (UpdateParams t' rev now) stamp) = stored_task t'.
Proof.
  intros Hwf Hid Hr Ha. unfold identity in Hid. injection Hid as E1 E2 E3 E4 E5 E6 E7 E8 E9 E10 E11 E12.
  apply Task_ext; cbn in *; rewrite ?str_optStr, ?u64_i64, ?u32_i32 by done; try done.
  - by destruct (negb _ && _).
  - unfold optTs. destruct (t_RetryAt t') as [x|]; [|done]. by destruct (IsZero x).
Qed.

Lemma AttemptFromRow_outcomes ordinal outcome now l :
  wf_attempts l -> is_u32 ordinal ->
  map AttemptFromRow (map (fun a => if ta_Ordinal a =? i32 ordinal
                            then a <| ta_Outcome := Some outcome |> <| ta_SubmittedAt := Some (us now) |> else a) l)
  = set_outcome ordinal outcome (map AttemptFromRow l).
Proof.
  intros Hwf Ho. unfold set_outcome. rewrite !map_map. apply map_ext_in. intros a Ha.
  unfold wf_attempts in Hwf. rewrite List.Forall_forall in Hwf. specialize (Hwf a Ha). cbn.
  destruct (ta_Ordinal a =? i32 ordinal) eqn:E; breflect.
  - rewrite E, u32_i32, Z.eqb_refl by done. unfold AttemptFromRow. cbn. by rewrite E, u32_i32.
  - destruct (u32 (ta_Ordinal a) =? ordinal) eqn:E2; [|done]. breflect. exfalso. apply E. rewrite <- E2.
    by rewrite i32_u32.
Qed.

Lemma attempts_of_alter f k k' db :
  attempts_of (db <| db_attempts := alter f k (db_attempts db) |>) k'.1 k'.2 =
  if decide (k' = k) then default [] (f <$> db_attempts db !! k) else attempts_of db k'.1 k'.2.
Proof.
  unfold attempts_of. cbn. rewrite <- (surjective_pairing k'). case_decide as E.
  - subst k'. by rewrite lookup_alter_eq.
  - by rewrite lookup_alter_ne.
Qed.

Lemma SetAttemptOutcome_effect k ordinal outcome now db db' u :
  SetAttemptOutcome k.1 k.2 (i32 ordinal) (Some outcome) now db = Ok (u, db') -> wf_db db -> is_u32 ordinal ->
  wf_db db' /\ db_requests db' = db_requests db /\ same_rest db db' /\ others_same k db db' /\
  map AttemptFromRow (attempts_of db' k.1 k.2) = set_outcome ordinal outcome (map AttemptFromRow (attempts_of db k.1 k.2)).
Proof.
  unfold SetAttemptOutcome. intros ->%modify_Ok Hwf Ho. rewrite <- (surjective_pairing k).
  set (f := map _).
  assert (forall k', attempts_of (db <| db_attempts := alter f k (db_attempts db) |>) k'.1 k'.2 =
    if decide (k' = k) then f (attempts_of db k.1 k.2) else attempts_of db k'.1 k'.2) as Hat.
  { intros k'. rewrite attempts_of_alter. case_decide; [|done]. unfold attempts_of.
    rewrite <- (surjective_pairing k). by destruct (db_attempts db !! k). }
  assert (wf_attempts (f (attempts_of db k.1 k.2))) as Hf.
  { pose proof (wf_lists _ Hwf k) as Hl. unfold wf_attempts in *. apply Forall_map.
    eapply List.Forall_impl; [|exact Hl]. intros a Ha. by destruct (_ =? _). }
  split_and!; [|done|by repeat split|..].
  - destruct Hwf as [Hr Hl Ho']. constructor; cbn; [done|..].
    + intros k'. rewrite Hat. by case_decide.
    + intros k' Hk. rewrite Hat. case_decide; [subst k'|by apply Ho']. by rewrite (Ho' _ Hk).
  - intros k' Hne. split; [done|]. rewrite Hat. by case_decide.
  - rewrite Hat. rewrite decide_True by done. by apply AttemptFromRow_outcomes; [apply (wf_lists _ Hwf)|].
Qed.

Lemma UpdateRequest_effect p db n db' :
  UpdateRequest p db = Ok (n, db') -> n = 1 ->
  exists r, db_requests db !! (up_TaskID p, up_Generation p) = Some r /\ br_Revision r = up_ExpectedRevision p /\
    db' = db <| db_requests := <[(up_TaskID p, up_Generation p) := updated_row r p (db_stamp db)]> (db_requests db) |>.
Proof.
  unfold UpdateRequest. intros H ->. destruct (db_requests db !! _) as [r|]; [|done].
  destruct (br_Revision r =? _) eqn:E; [|done]. breflect. injection H as <-. eauto.
Qed.

Lemma identity_key k r t' :
  wf_row k r -> identity t' = identity (TaskFromRow r) -> t_TaskID t' = k.1 /\ i64 (t_Generation t') = k.2.
Proof.
  intros [Hi [Hg Hk] _ _] Hid. unfold identity in Hid. injection Hid as E1 E2 _ _ _ _ _ _ _ _ _ _.
  rewrite E1, E2. cbn. rewrite Hg, i64_u64 by done. done.
Qed.

Lemma gen_of_lookup db k r :
  db_requests db !! k = Some r -> gen_of db k = Some (mkGeneration (TaskFromRow r) (map AttemptFromRow (attempts_of db k.1 k.2))).
Proof. intros H. unfold gen_of. by rewrite H. Qed.

Lemma apply_effect k r t' rv now outcome db db' u :
  apply t' rv now outcome db = Ok (u, db') -> wf_db db -> db_requests db !! k = Some r ->
  identity t' = identity (TaskFromRow r) -> is_u64 (t_Revision t') -> is_u32 (t_AttemptCount t') ->
  wf_db db' /\ same_rest db db' /\ others_same k db db' /\
  gen_of db' k = Some (mkGeneration (stored_task t') (record_outcome t' outcome (map AttemptFromRow (attempts_of db k.1 k.2)))).
Proof.
  intros H Hwf Hr Hid Hrev Hcnt. pose proof (wf_rows _ Hwf _ _ Hr) as Hwr.
  destruct (identity_key _ _ _ Hwr Hid) as [Hk1 Hk2].
  unfold apply in H. apply tx_bind_Ok in H as (n & db1 & Hu & H).
  destruct (n =? 1) eqn:En; [|by apply tx_fail_Ok in H]. breflect.
  apply UpdateRequest_effect in Hu as (r' & Hr' & _ & ->); [|done].
  assert ((up_TaskID (UpdateParams t' rv now), up_Generation (UpdateParams t' rv now)) = k) as Hkey
    by (cbn; rewrite Hk1, Hk2; symmetry; apply surjective_pairing).
  rewrite Hkey in *. rewrite Hr in Hr'. injection Hr' as <-.
  set (row := updated_row r _ _) in *.
  assert (TaskFromRow row = stored_task t') as Hrow by (by eapply TaskFromRow_updated).
  set (db1 := db <| db_requests := _ |>) in *.
  assert (wf_db db1) as Hwf1.
  { destruct Hwf as [Hrows Hl Ho]. constructor; cbn.
    - intros k' r2. destruct (decide (k' = k)) as [->|Hne]; [|rewrite lookup_insert_ne by congruence; apply Hrows].
      rewrite lookup_insert_eq. intros [= <-]. destruct Hwr as [A1 A2 A3 A4].
      constructor; [exact A1|exact A2|apply i64_range|exact A4].
    - exact Hl.
    - intros k' Hk'. apply Ho. destruct (decide (k' = k)) as [->|Hne]; [by rewrite lookup_insert_eq in Hk'|].
      rewrite lookup_insert_ne in Hk' by congruence. done. }
  assert (gen_of db1 k = Some (mkGeneration (stored_task t') (map AttemptFromRow (attempts_of db k.1 k.2)))) as Hg1.
  { rewrite <- Hrow. apply (gen_of_lookup db1 k row). cbn. by rewrite lookup_insert_eq. }
  assert (others_same k db db1) as Ho1 by (intros k' Hne; cbn; by rewrite lookup_insert_ne).
  unfold record_outcome. cbn in H. destruct (negb (String.eqb outcome "") && (0 <? t_AttemptCount t')) eqn:E.
  - rewrite Hk1, Hk2 in H. apply SetAttemptOutcome_effect in H as (Hwf2 & Hreq & Hrest & Hoth & Hat); [|done..].
    split_and!; [done|..].
    + unfold same_rest in *. naive_solver congruence.
    + intros k' Hne. destruct (Hoth k' Hne) as [-> ->]. by apply Ho1.
    + unfold gen_of in *. rewrite Hreq, Hat. destruct (db_requests db1 !! k) as [b|]; [|done].
      pose proof (f_equal (option_map gen_task) Hg1) as Hb. cbn [option_map gen_task] in Hb. apply (inj Some) in Hb.
      cbn [option_map]. by rewrite Hb.
  - apply mret_Ok in H as [_ ->]. by split_and!.
Qed.

Lemma insert_sorted_last {A} (le : A -> A -> bool) x l :
  List.Forall (fun y => le x y = false) l -> insert_sorted le x l = l ++ [x].
Proof. induction 1 as [|y l Hy _ IH]; cbn; [done|]. by rewrite Hy, IH. Qed.

(** The stored ordinals are 1..n once the generation keeps its invariant. *)
Lemma ordinals_bound l c :
  wf_attempts l -> map a_Ordinal (map AttemptFromRow l) = seqZ 1 c -> c < 2 ^ 31 ->
  List.Forall (fun a => ta_Ordinal a < c + 1) l.
Proof.
  unfold wf_attempts. rewrite !List.Forall_forall. intros Hl Ho Hc a Ha. specialize (Hl a Ha).
  assert (u32 (ta_Ordinal a) ∈ seqZ 1 c) as Hin.
  { rewrite <- Ho, map_map. apply list_elem_of_In, in_map_iff. by exists a. }
  apply elem_of_seqZ in Hin. assert (ta_Ordinal a = u32 (ta_Ordinal a)) as He; [|lia].
  rewrite <- (i32_u32 (ta_Ordinal a)) at 1 by done. apply i32_id. lia.
Qed.

Lemma max_bound db k r :
  wf_db db -> db_requests db !! k = Some r -> t_MaxAttempts (TaskFromRow r) < 2 ^ 31.
Proof.
  intros Hwf Hr. destruct (wf_rows _ Hwf _ _ Hr) as [_ _ _ Hmax]. cbn. rewrite u32_id by (unfold is_u32; lia). lia.
Qed.

Lemma InsertAttempt_effect k n w leased until db db' u :
  InsertAttempt k.1 k.2 (i32 n) w leased until db = Ok (u, db') -> wf_db db -> is_Some (db_requests db !! k) ->
  1 <= n < 2 ^ 31 -> List.Forall (fun a => ta_Ordinal a < n) (attempts_of db k.1 k.2) ->
  wf_db db' /\ db_requests db' = db_requests db /\ same_rest db db' /\ others_same k db db' /\
  attempts_of db' k.1 k.2 =
    attempts_of db k.1 k.2 ++ [mkTaskAttempt k.1 k.2 n w (Some (us leased)) (Some (us until)) None None].
Proof.
  unfold InsertAttempt. intros H Hwf Hk Hn Hl. destruct (existsb _ _); [done|].
  rewrite i32_id in H by lia. rewrite insert_sorted_last in H.
  2: { eapply List.Forall_impl; [|exact Hl]. intros a Ha. cbn in *. apply Z.leb_gt. lia. }
  injection H as _ <-. rewrite <- (surjective_pairing k).
  set (row := mkTaskAttempt _ _ _ _ _ _ _ _). set (l' := attempts_of db k.1 k.2 ++ [row]).
  assert (forall k', attempts_of (db <| db_attempts := <[k:=l']> (db_attempts db) |>) k'.1 k'.2 =
    if decide (k' = k) then l' else attempts_of db k'.1 k'.2) as Hat.
  { intros k'. unfold attempts_of. cbn. rewrite <- (surjective_pairing k'). case_decide as E.
    - subst k'. by rewrite lookup_insert_eq.
    - by rewrite lookup_insert_ne by congruence. }
  split_and!; [|done|by repeat split|..].
  - destruct Hwf as [Hr Hls Ho]. constructor; cbn; [done|..].
    + intros k'. rewrite Hat. case_decide; [|done]. apply Forall_app. split; [apply Hls|]. constructor; [cbn; lia|done].
    + intros k' Hk'. rewrite Hat. case_decide; [subst k'|by apply Ho]. destruct Hk. congruence.
  - intros k' Hne. split; [done|]. rewrite Hat. by case_decide.
  - rewrite Hat. by rewrite decide_True.
Qed.

Lemma others_same_trans k db1 db2 db3 : others_same k db1 db2 -> others_same k db2 db3 -> others_same k db1 db3.
Proof. intros H1 H2 k' Hne. destruct (H1 k' Hne) as [E1 E2], (H2 k' Hne) as [E3 E4]. by rewrite E3, E4. Qed.
Lemma same_rest_trans db1 db2 db3 : same_rest db1 db2 -> same_rest db2 db3 -> same_rest db1 db3.
Proof. unfold same_rest. intros. destruct_and!. split_and!; congruence. Qed.

(** What it means for a committed command to take a step on generation [k]. *)
Record simulates (bounds : Bounds) (db : DB) (k : string * Z) (e : event) (db' : DB) : Prop := {
  sim_wf : wf_db db';
  sim_others : others_same k db db';
  sim_step : exists g g', gen_of db k = Some g /\ gen_of db' k = Some g' /\ gen_step bounds g e g' }.

(** A command that writes one decided row takes the decision's step. *)
Lemma apply_simulates bounds k r t' outcome e rv now db db' u :
  wf_db db -> db_requests db !! k = Some r ->
  gen_step bounds (mkGeneration (TaskFromRow r) (map AttemptFromRow (attempts_of db k.1 k.2))) e
    (mkGeneration (stored_task t') (record_outcome t' outcome (map AttemptFromRow (attempts_of db k.1 k.2)))) ->
  apply t' rv now outcome db = Ok (u, db') ->
  simulates bounds db k e db' /\ same_rest db db' /\ option_map gen_task (gen_of db' k) = Some (stored_task t').
Proof.
  intros Hwf Hr Hs Ha. pose proof (step_row _ _ _ _ Hs) as (Hch & Hid & Hrev). cbn [gen_task] in *.
  assert (is_u64 (t_Revision t')) as H64 by (change (t_Revision t') with (t_Revision (stored_task t')); rewrite Hrev; apply u64_range).
  assert (is_u32 (t_AttemptCount t')) as H32.
  { change (t_AttemptCount t') with (t_AttemptCount (stored_task t')).
    destruct e; cbn [row_change] in Hch; destruct_and!;
      match goal with H : t_AttemptCount (stored_task t') = _ |- _ => rewrite H end; apply u32_range. }
  apply (apply_effect k r) in Ha as (Hwf' & Hrest & Hoth & Hg); [|done|done|exact Hid|done|done].
  split_and!; [|done|by rewrite Hg]. constructor; [done|done|].
  eexists _, _. split_and!; [by apply gen_of_lookup|exact Hg|exact Hs].
Qed.

(** Only the request tables matter. *)
Lemma wf_frame db db' :
  db_requests db' = db_requests db -> db_attempts db' = db_attempts db ->
  (wf_db db -> wf_db db') /\ (forall k, gen_of db' k = gen_of db k) /\
  (forall k, attempts_of db' k.1 k.2 = attempts_of db k.1 k.2).
Proof.
  intros Hr Ha. assert (forall k, attempts_of db' k.1 k.2 = attempts_of db k.1 k.2) as Hat
    by (intros k; unfold attempts_of; by rewrite Ha).
  split_and!; [|intros k; unfold gen_of; by rewrite Hr, Hat|done].
  intros [H1 H2 H3]. constructor; [by rewrite Hr|intros k; rewrite Hat; apply H2|].
  intros k Hk. rewrite Hat. apply H3. by rewrite <- Hr.
Qed.

Lemma GrantAuthorization_reads ref tenant now db a db' : GrantAuthorization ref tenant now db = Ok (a, db') -> db' = db.
Proof.
  unfold GrantAuthorization. intros H. destruct (_ || _); [by apply tx_fail_Ok in H|].
  apply tx_bind_Ok in H as ([[[[? ?] ?] ?]|] & ? & [_ ->]%gets_Ok & H); [|by apply mret_Ok in H as [_ ->]].
  destruct (_ && _); by apply mret_Ok in H as [_ ->].
Qed.

(** The latest row is the row of the greatest generation. *)
Lemma newest_spec rows r :
  newest rows = Some r -> r ∈ rows /\ forall r', r' ∈ rows -> br_Generation r' <= br_Generation r.
Proof.
  revert r. induction rows as [|x rows IH]; cbn; intros r H; [done|].
  fold (newest rows) in H. destruct (newest rows) as [b|] eqn:E.
  - destruct (IH b eq_refl) as [Hb Hmax].
    destruct (br_Generation b <? br_Generation x) eqn:El; breflect; injection H as <-.
    + split; [by left|]. intros r' [->|Hr']%elem_of_cons; [lia|]. specialize (Hmax r' Hr'). lia.
    + split; [by right|]. intros r' [->|Hr']%elem_of_cons; [lia|]. by apply Hmax.
  - injection H as <-. destruct rows as [|y rows]; cbn in E; [|by repeat case_match].
    split; [by left|]. intros r' [->|Hr']%elem_of_cons; [lia|by apply elem_of_nil in Hr'].
Qed.

Lemma latest_lookup taskID db r db' :
  wf_db db -> GetLatestRequest taskID db = Ok (Some r, db') ->
  db' = db /\ db_requests db !! (taskID, br_Generation r) = Some r.
Proof.
  unfold GetLatestRequest. intros Hwf [Hn ->]%gets_Ok. split; [done|]. symmetry in Hn.
  apply newest_spec in Hn as [Hin _].
  apply list_elem_of_In, filter_In in Hin as [Hin He%String.eqb_eq].
  apply list_elem_of_In, rows_of_elem in Hin as (k & Hk). destruct (wf_rows _ Hwf _ _ Hk) as [H1 [H2 _] _ _].
  rewrite <- He, H1, H2, <- (surjective_pairing k). done.
Qed.

Section Simulation.
  Context `{Jsonb} (bindings : string -> option ResultBinding) (cfg : Config).
  Context (Hlaws : forall p b, bindings p = Some b -> BindingLaws b).
  Implicit Types db : DB.

Lemma claim_simulates taskID generation w lease now0 now1 now db t input db' :
  wf_db db -> (forall g, gen_of db (taskID, i64 generation) = Some g -> Terminal (t_State (gen_task g)) = false -> gen_inv g) ->
  Claim cfg taskID generation w lease now0 now1 now db = Ok ((t, input), db') ->
  simulates (cfg_Bounds cfg) db (taskID, i64 generation) (EvClaim w) db' /\ same_rest db db' /\
  input = t_Input t /\ option_map gen_task (gen_of db' (taskID, i64 generation)) = Some (stored_task t).
Proof.
  intros Hwf Hinv Hc. set (k := (taskID, i64 generation)) in *. unfold Claim in Hc.
  apply tx_bind_Ok in Hc as (? & ? & [_ ->]%lift_Ok & Hc).
  apply tx_bind_Ok in Hc as (r & ? & Hr & Hc). apply unwrap_Ok, gets_Ok in Hr as [Hr ->]. symmetry in Hr.
  apply tx_bind_Ok in Hc as (rows & ? & [-> ->]%gets_Ok & Hc).
  apply tx_bind_Ok in Hc as (? & ? & [_ ->]%lift_Ok & Hc).
  apply tx_bind_Ok in Hc as (d & ? & [Hd ->]%lift_Ok & Hc).
  apply tx_bind_Ok in Hc as (? & db1 & Hx & Hc). apply tx_bind_Ok in Hc as (? & db2 & Ha & Hc).
  apply tx_bind_Ok in Hc as (? & db3 & Hi & Hc). apply mret_Ok in Hc as [[= -> ->] ->].
  pose proof (gen_of_lookup db k r Hr) as Hg.
  pose proof (max_bound _ _ _ Hwf Hr) as Hmax.
  assert (gen_step (cfg_Bounds cfg) (mkGeneration (TaskFromRow r) (map AttemptFromRow (attempts_of db k.1 k.2))) (EvClaim w)
    (mkGeneration (stored_task (cd_Task d))
       ((if cd_ExpiredPrevious d
         then set_outcome (t_AttemptCount (TaskFromRow r)) AttemptExpired (map AttemptFromRow (attempts_of db k.1 k.2))
         else map AttemptFromRow (attempts_of db k.1 k.2)) ++ [stored_attempt (cd_Attempt d)]))) as Hstep
    by (by eapply step_claim).
  pose proof (Hinv _ Hg (step_not_terminal _ _ _ _ Hstep)) as Hgi.
  pose proof (step_row _ _ _ _ Hstep) as (Hrow & Hid & Hrev). cbn [gen_task row_change] in Hrow, Hid, Hrev.
  apply DecideClaim_inv in Hd as (_ & _ & _ & Hlt & Htask & Hatt). destruct Hgi as [Hcnt _ Hord _ _ _ _ _ _]. cbn [gen_task gen_attempts] in Hcnt, Hord.
  assert (u32 (t_AttemptCount (TaskFromRow r) + 1) = t_AttemptCount (TaskFromRow r) + 1) as Hu
    by (apply u32_id; unfold is_u32; lia).
  set (atts1 := if cd_ExpiredPrevious d then set_outcome _ _ _ else _) in *.
  assert (wf_db db1 /\ db_requests db1 = db_requests db /\ same_rest db db1 /\ others_same k db db1 /\
    map AttemptFromRow (attempts_of db1 k.1 k.2) = atts1) as (Hwf1 & Hreq1 & Hrest1 & Hoth1 & Hat1).
  { unfold atts1. destruct (cd_ExpiredPrevious d).
    - eapply SetAttemptOutcome_effect; [exact Hx|done|apply u32_range].
    - apply mret_Ok in Hx as [_ ->]. by split_and!. }
  assert (db_requests db1 !! k = Some r) as Hr1 by (by rewrite Hreq1).
  apply (apply_effect k r) in Ha as (Hwf2 & Hrest2 & Hoth2 & Hg2); 
    [|done|done|exact Hid|rewrite Htask; apply u64_range|rewrite Htask; apply u32_range].
  unfold record_outcome in Hg2. cbn [negb andb String.eqb] in Hg2. rewrite Hat1 in Hg2.
  rewrite Hatt in Hi. cbn [a_Ordinal a_LeaseUntil] in Hi. rewrite Hu in Hi.
  unfold gen_of in Hg2. destruct (db_requests db2 !! k) as [r2|] eqn:Hr2; [|done]. cbn [option_map] in Hg2.
  assert (map AttemptFromRow (attempts_of db2 k.1 k.2) = atts1 /\ TaskFromRow r2 = stored_task (cd_Task d)) as [Hat2 Ht2].
  { split; [exact (f_equal gen_attempts (inj Some _ _ Hg2))|exact (f_equal gen_task (inj Some _ _ Hg2))]. }
  apply (InsertAttempt_effect k) in Hi as (Hwf3 & Hreq3 & Hrest3 & Hoth3 & Hat3); [|done|by eexists|lia|].
  2: { apply ordinals_bound; [apply (wf_lists _ Hwf2)| |lia]. rewrite Hat2. unfold atts1.
       by destruct (cd_ExpiredPrevious d); autorewrite with go_rw. }
  assert (gen_of db3 k = Some (mkGeneration (stored_task (cd_Task d)) (atts1 ++ [stored_attempt (cd_Attempt d)]))) as Hg3.
  { unfold gen_of. rewrite Hreq3, Hr2. cbn [option_map]. rewrite Hat3, map_app, Hat2, Ht2, Hatt. cbn [map].
    unfold stored_attempt, AttemptFromRow.
    cbn [ta_Ordinal ta_WorkerID ta_LeasedAt ta_LeaseUntil ta_Outcome a_Ordinal a_WorkerID a_LeasedAt a_LeaseUntil a_Outcome ts str].
    rewrite (u32_id (t_AttemptCount (TaskFromRow r) + 1)) by (unfold is_u32; lia). done. }
  split; [|split_and!].
  - constructor; [done|eauto using others_same_trans|]. eexists _, _. split_and!; [exact Hg|exact Hg3|exact Hstep].
  - eauto using same_rest_trans.
  - injection Hid as _ _ _ _ _ Hin _ _ _ _ _ _. by rewrite <- Hin.
  - by rewrite Hg3.
Qed.

Lemma heartbeat_simulates taskID generation w now now' db t db' :
  wf_db db -> Heartbeat taskID generation w now now' db = Ok (t, db') ->
  simulates (cfg_Bounds cfg) db (taskID, i64 generation) (EvHeartbeat w) db' /\ same_rest db db' /\
  option_map gen_task (gen_of db' (taskID, i64 generation)) = Some (stored_task t).
Proof.
  intros Hwf Hc. set (k := (taskID, i64 generation)) in *. unfold Heartbeat in Hc.
  apply tx_bind_Ok in Hc as (r & ? & Hr & Hc). apply unwrap_Ok, gets_Ok in Hr as [Hr ->]. symmetry in Hr.
  apply tx_bind_Ok in Hc as (rows & ? & [-> ->]%gets_Ok & Hc).
  apply tx_bind_Ok in Hc as (t' & ? & [Hd ->]%lift_Ok & Hc).
  apply tx_bind_Ok in Hc as (? & db1 & Ha & [-> ->]%mret_Ok).
  exact (apply_simulates _ k _ _ "" _ _ _ _ _ _ Hwf Hr (step_heartbeat (cfg_Bounds cfg) _ _ _ _ _ Hd) Ha).
Qed.

Lemma submit_simulates taskID generation sub now0 now db d db' :
  wf_db db -> Submit bindings cfg taskID generation sub now0 now db = Ok (d, db') ->
  (sd_Changed d = false /\ sd_Existing d = true /\ db' = db) \/
  (sd_Changed d = true /\ simulates (cfg_Bounds cfg) db (taskID, i64 generation) (EvSubmit sub) db' /\
   option_map gen_task (gen_of db' (taskID, i64 generation)) = Some (stored_task (sd_Task d))).
Proof.
  intros Hwf Hc. set (k := (taskID, i64 generation)) in *. unfold Submit in Hc.
  apply tx_bind_Ok in Hc as (r & ? & Hr & Hc). apply unwrap_Ok, gets_Ok in Hr as [Hr ->]. symmetry in Hr.
  apply tx_bind_Ok in Hc as (rows & ? & [-> ->]%gets_Ok & Hc). cbv zeta in Hc.
  apply tx_bind_Ok in Hc as (auth & db1 & Hauth & Hc).
  apply GrantAuthorization_reads in Hauth as ->.
  apply tx_bind_Ok in Hc as (recorded & db2 & Hrec & Hc).
  assert (db2 = db) as ->.
  { destruct (bindings _) as [b|] eqn:Eb; [|by apply mret_Ok in Hrec as [_ ->]].
    eapply (@recorded_reads b (Hlaws _ _ Eb)); exact Hrec. }
  apply tx_bind_Ok in Hc as (d' & ? & [Hd ->]%lift_Ok & Hc).
  apply tx_bind_Ok in Hc as (? & db3 & Hch & [-> ->]%mret_Ok).
  destruct (sd_Changed d') eqn:Ec.
  - right. split; [done|]. apply tx_bind_Ok in Hch as (? & db4 & Ha & Hacc).
    destruct (apply_simulates _ k _ _ _ _ _ _ _ _ _ Hwf Hr (step_submit _ _ _ _ _ _ _ _ Hd Ec) Ha)
      as ([Hwf4 Hoth4 Hst4] & _ & Ht4).
    assert (db_requests db3 = db_requests db4 /\ db_attempts db3 = db_attempts db4) as [Hfr Hfa].
    { destruct (bindings _) as [b|] eqn:Eb; [|by apply mret_Ok in Hacc as [_ ->]].
      destruct (sd_Accepted d'); [|by apply mret_Ok in Hacc as [_ ->]].
      destruct x. eapply (@accepted_frame b (Hlaws _ _ Eb)); exact Hacc. }
    destruct (wf_frame _ _ Hfr Hfa) as (Hwf3 & Hgen & Hat3). rewrite Hgen. split; [|done].
    constructor; [by apply Hwf3| |by rewrite Hgen]. intros k' Hne. rewrite Hfr, Hat3. by apply Hoth4.
  - left. apply mret_Ok in Hch as [_ ->]. split; [done|]. split; [|done].
    apply DecideSubmitRecorded_inv in Hd as [[He _]|(_ & He & _)]; [done|congruence].
Qed.

Lemma settle_simulates taskID generation outcome now now' db u db' :
  wf_db db -> settleExpired cfg taskID generation outcome now now' db = Ok (u, db') ->
  db' = db \/ (simulates (cfg_Bounds cfg) db (taskID, generation) (EvExpire outcome) db' /\ same_rest db db').
Proof.
  intros Hwf Hc. set (k := (taskID, generation)) in *. unfold settleExpired in Hc.
  apply tx_bind_Ok in Hc as (r & ? & Hr & Hc). apply unwrap_Ok, gets_Ok in Hr as [Hr ->]. symmetry in Hr. cbv zeta in Hc.
  destruct (DecideExpire _ _ _ _) as [[t' out] changed] eqn:Hd.
  destruct changed; cbn [negb] in Hc; [|left; by apply mret_Ok in Hc as [_ ->]].
  right. edestruct (apply_simulates (cfg_Bounds cfg) k r t' out (EvExpire outcome)) as (Hs & Hrest & _);
    [done|done|exact (step_expire _ _ _ _ _ _ _ Hd)|exact Hc|done].
Qed.

Lemma cancel_simulates taskID now db t changed db' :
  wf_db db -> Cancel taskID now db = Ok ((t, changed), db') ->
  exists r, db_requests db !! (taskID, br_Generation r) = Some r /\
    if changed then simulates (cfg_Bounds cfg) db (taskID, br_Generation r) EvCancel db' /\ same_rest db db'
    else db' = db /\ t = TaskFromRow r /\ Terminal (t_State t) = true.
Proof.
  intros Hwf Hc. unfold Cancel in Hc.
  apply tx_bind_Ok in Hc as (r & ? & Hr & Hc). apply unwrap_Ok, (latest_lookup _ _ _ _ Hwf) in Hr as [-> Hr].
  exists r. split; [done|]. cbv zeta in Hc.
  destruct (DecideCancel (TaskFromRow r)) as [[t' out] did] eqn:Hd.
  apply tx_bind_Ok in Hc as (? & db1 & Ha & [[= -> ->] ->]%mret_Ok). destruct did.
  - destruct (apply_simulates _ (taskID, br_Generation r) _ _ _ _ _ _ _ _ _ Hwf Hr
      (step_cancel (cfg_Bounds cfg) _ _ _ _ Hd) Ha) as (Hs & Hrest & _). done.
  - apply mret_Ok in Ha as [_ ->]. unfold DecideCancel in Hd. destruct (Terminal _) eqn:E; [|done].
    by injection Hd as <- <-.
Qed.
End Simulation.

(** ** Creation *)

Section Creation.
  Context `{JsonbLaws} (cfg : Config).
  Context (Hmax : 0 <= b_MaxAttempts (cfg_Bounds cfg) < 2 ^ 31).
  Implicit Types db : DB.

(** A stored candidate is a created generation. *)
Lemma InsertRequest_effect t db db' u :
  InsertRequest (InsertParams t) db = Ok (u, db') -> wf_db db -> 0 <= t_MaxAttempts t < 2 ^ 31 ->
  jsonb_text (t_Input t) = Some (t_Input t) ->
  t_WorkerID t = "" -> t_LeaseUntil t = zero_time -> t_AttemptCount t = 0 -> t_RetryAt t = None -> t_ResultRef t = "" ->
  t_ResultDigest t = "" -> t_FailureCode t = "" -> t_Revision t = 1 -> is_u64 (t_Generation t) ->
  let k := (t_TaskID t, i64 (t_Generation t)) in
  wf_db db' /\ others_same k db db' /\ gen_of db k = None /\ gen_of db' k = Some (mkGeneration t []).
Proof.
  intros Hi Hwf Hm Hj E1 E2 E3 E4 E5 E6 E7 E8 E9 k. unfold InsertRequest in Hi. cbn [ip_TaskID ip_Generation ip_Input InsertParams] in Hi.
  fold k in Hi. destruct (db_requests db !! k) as [r|] eqn:Hk; [done|]. rewrite Hj in Hi. injection Hi as _ <-.
  set (row := mkBackgroundRequest _ _ _ _ _ _ _ _ _ _ _ _ _ _ _ _ _ _ _ _ _ _ _ _).
  assert (TaskFromRow row = t) as Hrow.
  { apply Task_ext; cbn; rewrite ?str_optStr, ?E1, ?E2, ?E3, ?E4, ?E5, ?E6, ?E7, ?E8; try done.
    - by rewrite u64_i64.
    - apply u32_i32. unfold is_u32. lia. }
  split_and!.
  - destruct Hwf as [Hr Hl Ho]. constructor; cbn [db_requests update_field].
    + intros k' r'. cbn. destruct (decide (k' = k)) as [->|Hne].
      * rewrite lookup_insert_eq. intros [= <-]. constructor; cbn; [done|split; [done|apply i64_range]|done|].
        rewrite i32_id; lia.
      * rewrite lookup_insert_ne by congruence. apply Hr.
    + exact Hl.
    + intros k' Hk'. apply Ho. cbn in Hk'. destruct (decide (k' = k)) as [->|Hne]; [done|].
      by rewrite lookup_insert_ne in Hk' by congruence.
  - intros k' Hne. split; [|done]. cbn. by rewrite lookup_insert_ne by congruence.
  - unfold gen_of. by rewrite Hk.
  - unfold gen_of. cbn. rewrite lookup_insert_eq. cbn. rewrite Hrow.
    change (attempts_of _ _ _) with (attempts_of db k.1 k.2). by rewrite (wf_orphans _ Hwf _ Hk).
Qed.

(** A candidate as [Request] prepares it. *)
Record candidate_of (inp : RequestInput) (n : Z) (t : Task) : Prop := {
  cand_created : created (mkGeneration t []);
  cand_stored : forall db db' u, InsertRequest (InsertParams t) db = Ok (u, db') -> wf_db db ->
    let k := (in_TaskID inp, i64 n) in
    wf_db db' /\ others_same k db db' /\ gen_of db k = None /\ gen_of db' k = Some (mkGeneration t []);
  cand_auth : t_AuthorizationRef t = in_AuthorizationRef inp /\ t_TenantID t = in_TenantID inp }.

Lemma NewRequest_candidate inp canonical n t :
  jsonb_text (in_Input inp) = Some canonical -> is_u64 n ->
  NewRequest (in_TaskID inp) (in_TenantID inp) (in_Kind inp) (in_Profile inp) canonical (in_Effects inp)
    (in_DispatchID inp) (in_AuthorizationRef inp) (in_CorrelationID inp) (cfg_Bounds cfg) = Ok t ->
  candidate_of inp n (t <| t_Generation := n |>).
Proof.
  intros Hj Hn Hr. constructor.
  - eapply created_intro; [|exact Hr]. unfold is_u32. lia.
  - intros db db' u Hi Hwf. apply NewRequest_inv in Hr as (_ & _ & _ & ->).
    apply (InsertRequest_effect _ _ _ _ Hi Hwf); cbn; try done. by eapply jsonb_canonical.
  - by apply NewRequest_inv in Hr as (_ & _ & _ & ->).
Qed.

Lemma commitRequest_effect inp n t eventID now now1 now2 db t' b db' :
  commitRequest cfg t eventID now now1 now2 db = Ok ((t', b), db') -> wf_db db -> candidate_of inp n t ->
  let k := (in_TaskID inp, i64 n) in
  t' = t /\ b = false /\ wf_db db' /\ others_same k db db' /\ gen_of db k = None /\
  gen_of db' k = Some (mkGeneration t []) /\ db_outbox db' = db_outbox db ++ [RequestedEvent eventID t now] /\
  GrantAuthorization (in_AuthorizationRef inp) (in_TenantID inp) now1 db = Ok (AuthorizationCurrent, db) /\
  Ready cfg now2 = true.
Proof.
  intros Hc Hwf Hcand k. unfold commitRequest in Hc. apply tx_bind_Ok in Hc as (auth & db1 & Hauth & Hc).
  pose proof (GrantAuthorization_reads _ _ _ _ _ _ Hauth) as ->.
  destruct (cand_auth _ _ _ Hcand) as [Ha1 Ha2]. rewrite Ha1, Ha2 in Hauth.
  destruct (bool_decide (auth = AuthorizationCurrent)) eqn:E; [|by apply tx_fail_Ok in Hc].
  apply bool_decide_eq_true in E as ->. cbn [negb] in Hc.
  apply tx_bind_Ok in Hc as (? & ? & [Hadm ->]%lift_Ok & Hc).
  apply tx_bind_Ok in Hc as (? & db2 & Hi & Hc).
  pose proof Hi as Hi'. apply (cand_stored _ _ _ Hcand) in Hi as (Hwf2 & Hoth & Hnone & Hg); [|done].
  apply tx_bind_Ok in Hc as (? & db3 & ->%modify_Ok & [[= -> ->] ->]%mret_Ok).
  set (db3 := db2 <| db_outbox := _ |>).
  destruct (wf_frame db2 db3 eq_refl eq_refl) as (Hw & Hgen & Hat).
  split_and!; [done|done|by apply Hw|..].
  - intros k' Hne. rewrite Hat. by apply Hoth.
  - done.
  - by rewrite Hgen.
  - cbn. unfold InsertRequest in Hi'. repeat case_match; try done. injection Hi' as _ <-. done.
  - done.
  - unfold admitConfiguration in Hadm. by destruct (Ready cfg now2).
Qed.

Lemma latest_none taskID db db' :
  wf_db db -> GetLatestRequest taskID db = Ok (None, db') ->
  db' = db /\ forall n, db_requests db !! (taskID, n) = None.
Proof.
  unfold GetLatestRequest. intros Hwf [Hn ->]%gets_Ok. split; [done|]. intros n.
  destruct (db_requests db !! (taskID, n)) as [r|] eqn:Hr; [|done]. exfalso.
  assert (r ∈ List.filter (fun r => String.eqb (br_TaskID r) taskID) (rows_of (db_requests db))) as Hin.
  { apply list_elem_of_In, filter_In. split; [apply list_elem_of_In, rows_of_elem; eauto|].
    apply String.eqb_eq. by apply (wf_rows _ Hwf) in Hr as []. }
  symmetry in Hn. destruct (List.filter _ _) as [|x l]; [by apply elem_of_nil in Hin|].
  cbn in Hn. by repeat case_match.
Qed.

Lemma latest_newest taskID db r db' n r' :
  wf_db db -> GetLatestRequest taskID db = Ok (Some r, db') -> db_requests db !! (taskID, n) = Some r' ->
  n <= br_Generation r.
Proof.
  unfold GetLatestRequest. intros Hwf [Hn _]%gets_Ok Hr'. symmetry in Hn. apply newest_spec in Hn as [_ Hmax'].
  destruct (wf_rows _ Hwf _ _ Hr') as [H1 [H2 _] _ _]. cbn in *. rewrite <- H2. apply Hmax'.
  apply list_elem_of_In, filter_In. split; [apply list_elem_of_In, rows_of_elem; eauto|by apply String.eqb_eq].
Qed.

(** A new generation of a task: the previous one is left as it was when it
    had ended, and superseded otherwise. *)
Record requested (inp : RequestInput) (eventID : string) (now : Time) (t : Task) (db db' : DB) : Prop := {
  rq_prepared : exists db1 n, candidate_of inp n t /\
    (n = 1 /\ db1 = db /\ (forall m, gen_of db (in_TaskID inp, m) = None) \/
     (exists g, n = u64 (u64 g + 1) /\ is_Some (gen_of db (in_TaskID inp, g)) /\
       (forall m, is_Some (gen_of db (in_TaskID inp, m)) -> m <= g) /\
       (db1 = db /\ (forall x, gen_of db (in_TaskID inp, g) = Some x -> Terminal (t_State (gen_task x)) = true) \/
        simulates (cfg_Bounds cfg) db (in_TaskID inp, g) EvSupersede db1 /\ same_rest db db1))) /\
    wf_db db' /\ others_same (in_TaskID inp, i64 n) db1 db' /\
    gen_of db1 (in_TaskID inp, i64 n) = None /\ gen_of db' (in_TaskID inp, i64 n) = Some (mkGeneration t []);
  rq_outbox : db_outbox db' = db_outbox db ++ [RequestedEvent eventID t now] }.

Lemma gen_of_is_Some db k : is_Some (gen_of db k) <-> is_Some (db_requests db !! k).
Proof. unfold gen_of. destruct (db_requests db !! k); cbn; split; intros [? ?]; eauto; done. Qed.

Lemma request_simulates inp eventID now0 now now1 now2 db t b db' :
  wf_db db -> Request cfg inp eventID now0 now now1 now2 db = Ok ((t, b), db') ->
  if b then db' = db /\ exists g a, gen_of db (in_TaskID inp, g) = Some (mkGeneration t a) /\
         t_TenantID t = in_TenantID inp
  else requested inp eventID now t db db'.
Proof.
  intros Hwf Hc. unfold Request in Hc. apply tx_bind_Ok in Hc as (? & ? & [_ ->]%lift_Ok & Hc).
  destruct (_ <? _); [by apply tx_fail_Ok in Hc|].
  apply tx_bind_Ok in Hc as (c & ? & Hcan & Hc). apply unwrap_Ok, gets_Ok in Hcan as [Hcan ->]. symmetry in Hcan.
  apply tx_bind_Ok in Hc as (cand & ? & [Hnew ->]%lift_Ok & Hc).
  apply tx_bind_Ok in Hc as ([r|] & ? & Hlat & Hc).
  2: { apply (latest_none _ _ _ Hwf) in Hlat as [-> Hnone].
       assert (cand <| t_Generation := 1 |> = cand) as Hgen
         by (by apply NewRequest_inv in Hnew as (_ & _ & _ & ->)).
       pose proof (NewRequest_candidate inp c 1 _ Hcan ltac:(split; lia) Hnew) as Hcand. rewrite Hgen in Hcand.
       apply (commitRequest_effect inp 1) in Hc as (-> & -> & Hwf' & Ho & Hn & Hg & Hout & _ & _); [|done|done].
       split; [|done]. exists db, 1. split_and!; try done. left. split_and!; [done|done|].
       intros m. unfold gen_of. by rewrite Hnone. }
  pose proof (fun n r' => latest_newest _ _ _ _ n r' Hwf Hlat) as Hnewest.
  apply (latest_lookup _ _ _ _ Hwf) in Hlat as [-> Hr]. cbv zeta in Hc.
  destruct (String.eqb (t_TenantID (TaskFromRow r)) (in_TenantID inp)) eqn:Eten; [|by apply tx_fail_Ok in Hc].
  cbn [negb] in Hc. breflect. destruct (String.eqb (t_InputDigest (TaskFromRow r)) _).
  { apply mret_Ok in Hc as [[= -> ->] ->]. split; [done|]. exists (br_Generation r). eexists.
    split; [by apply gen_of_lookup|done]. }
  destruct (Supersede (TaskFromRow r)) as [fenced changed] eqn:Hsup.
  apply tx_bind_Ok in Hc as (? & db1 & Hch & Hc).
  set (k := (in_TaskID inp, br_Generation r)) in *.
  assert (wf_db db1 /\ db_outbox db1 = db_outbox db /\
    (db1 = db /\ (forall x, gen_of db k = Some x -> Terminal (t_State (gen_task x)) = true) \/
     simulates (cfg_Bounds cfg) db k EvSupersede db1 /\ same_rest db db1)) as (Hwf1 & Hout1 & Hcase).
  { destruct changed.
    - destruct (apply_simulates (cfg_Bounds cfg) k _ _ _ _ _ _ _ _ _ Hwf Hr
        (step_supersede _ _ _ _ Hsup) Hch) as (Hs & Hrest & _).
      split_and!; [apply Hs|apply Hrest|by right].
    - apply mret_Ok in Hch as [_ ->]. split_and!; [done|done|]. left. split; [done|].
      intros gx Hx. unfold gen_of in Hx. rewrite Hr in Hx. injection Hx as <-. cbn [gen_task].
      unfold Supersede in Hsup. by destruct (Terminal _). }
  set (n := u64 (u64 (br_Generation r) + 1)).
  apply (commitRequest_effect inp n) in Hc as (-> & -> & Hwf' & Ho & Hn & Hg & Hout & _ & _);
    [|done|apply (NewRequest_candidate inp c); [done|apply u64_range|done]].
  split; [|by rewrite Hout, Hout1]. exists db1, n. split_and!; try done.
  - apply (NewRequest_candidate inp c); [done|apply u64_range|done].
  - right. exists (br_Generation r). split_and!; try done; [by apply gen_of_is_Some; eexists|].
    intros m Hm. apply gen_of_is_Some in Hm as [r' Hr']. by eapply Hnewest.
Qed.
End Creation.
