(* ===== verification/TasksSystem.v ===== *)
(** * TasksSystem: every reachable database is made of reachable generations

    The commands of [Tasks], in any order and under any configuration,
    interleaved with the retention of attempts and with anything that leaves the
    request tables alone, seen as a transition system on databases; it refines
    the life of a generation of [TaskLife], and of the generations of a task
    only the newest can be live. *)

From S2P Require Import Prelude Errors GoStrings GoCrypto GoJson GoNum Task TaskLife Catalog Grant Call Event Rows Retention Sql Tasks TasksSim.

(** ** Transitions *)

(** A configuration the service admits: the attempt bound is a positive
    [int32] (the column is one). *)
Definition config_ok (cfg : Config) : Prop := 0 <= b_MaxAttempts (cfg_Bounds cfg) < 2 ^ 31.

Section System.
  Context `{JsonbLaws} (bindings : string -> option ResultBinding).
  Context (Hlaws : forall p b, bindings p = Some b -> BindingLaws b).

(** One committed transaction. *)
Inductive task_step (db : DB) : DB -> Prop :=
| ts_request cfg inp eventID now0 now now1 now2 t b db' :
    config_ok cfg -> Request cfg inp eventID now0 now now1 now2 db = Ok ((t, b), db') -> task_step db db'
| ts_claim cfg taskID generation w lease now0 now1 now x db' :
    Claim cfg taskID generation w lease now0 now1 now db = Ok (x, db') -> task_step db db'
| ts_heartbeat taskID generation w now now' t db' :
    Heartbeat taskID generation w now now' db = Ok (t, db') -> task_step db db'
| ts_submit cfg taskID generation sub now0 now d db' :
    Submit bindings cfg taskID generation sub now0 now db = Ok (d, db') -> task_step db db'
| ts_cancel taskID now x db' :
    Cancel taskID now db = Ok (x, db') -> task_step db db'
| ts_settle cfg taskID generation outcome now now' u db' :
    settleExpired cfg taskID generation outcome now now' db = Ok (u, db') -> task_step db db'
| ts_retention wall b d d' n :
    dl_db d = db -> prune wall b AttemptsTable d d' n -> task_step db (dl_db d')
| ts_other db' :
    db_requests db' = db_requests db -> db_attempts db' = db_attempts db -> task_step db db'.

(** The databases [n] transactions reach from one without requests. *)
Inductive task_run : nat -> DB -> Prop :=
| tr_empty db : db_requests db = ∅ -> db_attempts db = ∅ -> task_run 0 db
| tr_step n db db' : task_run n db -> task_step db db' -> task_run (S n) db'.

(** ** The invariant *)

(** A generation whose attempts retention may have pruned: the row is the one
    reached, attempts are missing only once it has ended. *)
Record pruned_from (full g : generation) : Prop := {
  pf_task : gen_task full = gen_task g;
  pf_attempts : gen_attempts g `sublist_of` gen_attempts full;
  pf_live : Terminal (t_State (gen_task g)) = false -> full = g }.
Definition reaches (g : generation) : Prop := exists full, reachable full /\ pruned_from full g.
Lemma reachable_reaches g : reachable g -> reaches g.
Proof. intros Hr. by exists g. Qed.
Lemma reaches_live g : reaches g -> Terminal (t_State (gen_task g)) = false -> reachable g.
Proof. intros (full & Hr & [_ _ Hl]) Ht. by rewrite <- (Hl Ht). Qed.
Lemma reaches_pruned g g' : reaches g -> pruned_from g g' -> reaches g'.
Proof.
  intros (full & Hr & [E1 E2 E3]) [F1 F2 F3]. exists full. split; [done|]. split; [congruence|by etrans|].
  intros Ht. rewrite <- (F3 Ht). apply E3. by rewrite F1.
Qed.

Record sys_inv (n : Z) (db : DB) : Prop := {
  si_wf : wf_db db;
  si_reachable : forall k g, gen_of db k = Some g -> reaches g;
  si_numbers : forall k, is_Some (gen_of db k) -> 1 <= k.2 <= n;
  si_latest : forall task g g' x, gen_of db (task, g) = Some x -> is_Some (gen_of db (task, g')) -> g < g' ->
    Terminal (t_State (gen_task x)) = true }.

Lemma sys_inv_mono n m db : n <= m -> sys_inv n db -> sys_inv m db.
Proof. intros ? [? ? Hn ?]. constructor; [done..| |done]. intros k Hk. specialize (Hn k Hk). lia. Qed.

Lemma gen_of_others k k' db db' : others_same k db db' -> k' <> k -> gen_of db' k' = gen_of db k'.
Proof. intros Ho Hne. unfold gen_of. by destruct (Ho k' Hne) as [-> ->]. Qed.

Lemma sys_inv_simulates n bounds db k e db' : sys_inv n db -> simulates bounds db k e db' -> sys_inv n db'.
Proof.
  intros [Hwf Hre Hnum Hlat] [Hwf' Hoth (g & g' & Hg & Hg' & Hs)].
  assert (forall k', is_Some (gen_of db' k') -> is_Some (gen_of db k')) as Hdom.
  { intros k'. destruct (decide (k' = k)) as [->|Hne]; [by rewrite Hg|]. by rewrite (gen_of_others _ _ _ _ Hoth Hne). }
  constructor; [done|..].
  - intros k' x. destruct (decide (k' = k)) as [->|Hne].
    + rewrite Hg'. intros [= <-]. apply reachable_reaches. eapply reachable_run; [|eapply run_cons; [exact Hs|apply run_nil]].
      apply reaches_live; [by eapply Hre|by eapply step_not_terminal].
    + rewrite (gen_of_others _ _ _ _ Hoth Hne). apply Hre.
  - intros k' Hk'. by apply Hnum, Hdom.
  - intros task a b x Ha Hb Hlt. apply Hdom in Hb. destruct (decide ((task, a) = k)) as [<-|Hne].
    + specialize (Hlat _ _ _ _ Hg Hb Hlt). by rewrite (step_not_terminal _ _ _ _ Hs) in Hlat.
    + rewrite (gen_of_others _ _ _ _ Hoth Hne) in Ha. by eapply Hlat.
Qed.

Lemma sys_inv_frame n db db' :
  db_requests db' = db_requests db -> db_attempts db' = db_attempts db -> sys_inv n db -> sys_inv n db'.
Proof.
  intros Hr Ha [Hwf Hre Hnum Hlat]. destruct (wf_frame _ _ Hr Ha) as (Hw & Hg & _).
  constructor; [auto|..]; intros *; rewrite ?Hg; eauto.
Qed.

(** Retention takes attempts of ended generations. *)
Lemma sys_inv_retention n db wall b d d' m : dl_db d = db -> prune wall b AttemptsTable d d' m -> sys_inv n db -> sys_inv n (dl_db d').
Proof.
  intros <- [Hreq Hatt]%prune_attempts_spec [Hwf Hre Hnum Hlat].
  assert (forall k, attempts_of (dl_db d') k.1 k.2 `sublist_of` attempts_of (dl_db d) k.1 k.2) as Hsub
    by (intros k; unfold attempts_of; rewrite <- (surjective_pairing k); apply Hatt).
  assert (forall k g', gen_of (dl_db d') k = Some g' -> exists g, gen_of (dl_db d) k = Some g /\ pruned_from g g') as Hgen.
  { intros k g'. unfold gen_of. rewrite Hreq. destruct (db_requests (dl_db d) !! k) as [r|] eqn:Hr; [|done]. intros [= <-].
    eexists. split; [reflexivity|]. split; cbn [gen_task gen_attempts]; [done|by apply (fmap_sublist AttemptFromRow)|].
    intros Ht. do 2 f_equal. unfold attempts_of. rewrite <- (surjective_pairing k). symmetry. apply Hatt. intros r' Hr'.
    rewrite Hr in Hr'. by injection Hr' as <-. }
  constructor.
  - constructor.
    + intros k r. rewrite Hreq. apply Hwf.
    + intros k. unfold wf_attempts. rewrite List.Forall_forall. intros a Ha. pose proof (wf_lists _ Hwf k) as Hl.
      unfold wf_attempts in Hl. rewrite List.Forall_forall in Hl. apply Hl, list_elem_of_In. eapply elem_of_sublist; [by apply list_elem_of_In|apply Hsub].
    + intros k. rewrite Hreq. intros Hk. specialize (Hsub k). rewrite (wf_orphans _ Hwf _ Hk) in Hsub. by apply sublist_nil_r in Hsub.
  - intros k g' (g & Hg & Hp)%Hgen. eapply reaches_pruned; [by eapply Hre|done].
  - intros k [g' (g & Hg & _)%Hgen]. apply Hnum. by eexists.
  - intros task x y g' (g & Hg & Hp)%Hgen [h (h' & Hh & _)%Hgen] Hlt. rewrite <- (pf_task _ _ Hp). eapply Hlat; [exact Hg|by eexists|done].
Qed.

(** A new generation, numbered above every other of its task. *)
Lemma sys_inv_insert n db db' task m t :
  sys_inv n db -> wf_db db' -> others_same (task, m) db db' -> gen_of db (task, m) = None ->
  gen_of db' (task, m) = Some (mkGeneration t []) -> created (mkGeneration t []) -> 1 <= m <= n + 1 ->
  (forall g x, gen_of db (task, g) = Some x -> g < m /\ Terminal (t_State (gen_task x)) = true) ->
  sys_inv (n + 1) db'.
Proof.
  intros [Hwf Hre Hnum Hlat] Hwf' Hoth Hnone Hnew Hcr Hm Hold.
  constructor; [done|..].
  - intros k x. destruct (decide (k = (task, m))) as [->|Hne].
    + rewrite Hnew. intros [= <-]. apply reachable_reaches. eexists _, []. eauto using run_nil.
    + rewrite (gen_of_others _ _ _ _ Hoth Hne). apply Hre.
  - intros k. destruct (decide (k = (task, m))) as [->|Hne]; [done|].
    rewrite (gen_of_others _ _ _ _ Hoth Hne). intros Hk%Hnum. lia.
  - intros task' a b x Ha Hb Hlt. destruct (decide ((task', a) = (task, m))) as [[= -> ->]|Hne].
    + rewrite (gen_of_others (task, m) (task, b) _ _ Hoth) in Hb by (intros [=]; lia).
      destruct Hb as [y Hy]. apply Hold in Hy. lia.
    + rewrite (gen_of_others _ _ _ _ Hoth Hne) in Ha. destruct (decide ((task', b) = (task, m))) as [[= -> ->]|Hne'].
      * by eapply Hold.
      * rewrite (gen_of_others _ _ _ _ Hoth Hne') in Hb. by eapply Hlat.
Qed.

Lemma sys_inv_request n cfg inp eventID now t db db' :
  sys_inv n db -> 0 <= n < 2 ^ 63 - 1 -> requested cfg inp eventID now t db db' -> sys_inv (n + 1) db'.
Proof.
  intros Hi Hn [(db1 & m & Hcand & Hcase & Hwf' & Hoth & Hnone & Hnew) _].
  pose proof (cand_created _ _ _ Hcand) as Hcr.
  destruct Hcase as [(-> & -> & Hno)|(g & -> & Hg & Hmax & Hcase)].
  - rewrite (i64_id 1) in * by (unfold is_i64; lia).
    eapply sys_inv_insert; [exact Hi|exact Hwf'|exact Hoth|exact Hnone|exact Hnew|exact Hcr|lia|].
    intros g x Hx. by rewrite Hno in Hx.
  - pose proof (si_numbers _ _ Hi _ Hg) as Hgn. cbn in Hgn.
    assert (i64 (u64 (u64 g + 1)) = g + 1) as E
      by (rewrite (u64_id g), u64_id, i64_id by (unfold is_u64, is_i64; lia); done).
    rewrite E in *.
    assert (sys_inv n db1 /\ (forall k, is_Some (gen_of db1 k) -> is_Some (gen_of db k)) /\
      forall x, gen_of db1 (in_TaskID inp, g) = Some x -> Terminal (t_State (gen_task x)) = true) as (Hi1 & Hdom & Hterm).
    { destruct Hcase as [[-> Ht]|[Hsim _]]; [done|]. split_and!; [by eapply sys_inv_simulates|..].
      - destruct Hsim as [_ Ho (? & ? & H1 & _)]. intros k'. destruct (decide (k' = (in_TaskID inp, g))) as [->|Hne]; [done|].
        by rewrite (gen_of_others _ _ _ _ Ho Hne).
      - destruct Hsim as [_ _ (? & x' & _ & H2 & Hs)]. intros y Hx. rewrite H2 in Hx. injection Hx as <-.
        apply step_row in Hs as ((_ & Hs & _) & _). done. }
    eapply sys_inv_insert; [exact Hi1|exact Hwf'|exact Hoth|exact Hnone|exact Hnew|exact Hcr|lia|].
    intros a x Hx. assert (a <= g) as Ha by (apply Hmax, Hdom; by eexists).
    split; [lia|]. destruct (decide (a = g)) as [->|Hne]; [by apply Hterm|].
    destruct (Hdom (in_TaskID inp, a)) as [y Hy]; [by eexists|].
    assert (is_Some (gen_of db1 (in_TaskID inp, g))) as Hg1.
    { destruct Hcase as [[-> _]|[[_ _ (? & ? & _ & H2 & _)] _]]; [done|by rewrite H2]. }
    apply (si_latest _ _ Hi1 _ _ _ _ Hx Hg1). lia.
Qed.

Lemma sys_inv_step n db db' : sys_inv n db -> 0 <= n < 2 ^ 63 - 1 -> task_step db db' -> sys_inv (n + 1) db'.
Proof.
  intros Hi Hn Hs. pose proof (si_wf _ _ Hi) as Hwf.
  assert (forall db2, sys_inv n db2 -> sys_inv (n + 1) db2) as Hup by (intros db2; apply sys_inv_mono; lia).
  destruct Hs as [cfg inp eventID now0 now now1 now2 t b db' Hc Hr|cfg taskID g w lease now0 now1 now [t input] db' Hr
    |taskID g w now now' t db' Hr|cfg taskID g sub now0 now d db' Hr|taskID now [t b] db' Hr
    |cfg taskID g outcome now now' u db' Hr|wall b d d' m Hd Hp|db' Hr Ha].
  - apply (request_simulates cfg Hc) in Hr; [|done]. destruct b; [destruct Hr as [-> _]; auto|].
    by eapply sys_inv_request.
  - apply (claim_simulates cfg) in Hr as [Hs _]; [|done|intros x Hx Ht; by apply reachable_inv, reaches_live; [apply (si_reachable _ _ Hi _ _ Hx)|]].
    apply Hup. by eapply sys_inv_simulates.
  - apply (heartbeat_simulates (mkConfig demo_bounds None)) in Hr as [Hs _]; [|done]. apply Hup. by eapply sys_inv_simulates.
  - apply (submit_simulates bindings cfg Hlaws) in Hr as [(_ & _ & ->)|(_ & Hs & _)]; [auto| |done].
    apply Hup. by eapply sys_inv_simulates.
  - apply (cancel_simulates (mkConfig demo_bounds None)) in Hr as (r & _ & Hr); [|done]. destruct b; [|destruct Hr as [-> _]; auto].
    destruct Hr as [Hs _]. apply Hup. by eapply sys_inv_simulates.
  - apply settle_simulates in Hr as [->|[Hs _]]; [auto| |done]. apply Hup. by eapply sys_inv_simulates.
  - apply Hup. by eapply sys_inv_retention.
  - apply Hup. by eapply sys_inv_frame.
Qed.

Lemma run_sys_inv n db : task_run n db -> Z.of_nat n < 2 ^ 63 -> sys_inv (Z.of_nat n) db.
Proof.
  induction 1 as [db Hr Ha|n db db' Hrun IH Hs]; intros Hn.
  - constructor.
    + constructor; intros *; rewrite ?Hr; try done; unfold attempts_of; rewrite Ha; [constructor|done].
    + intros k g. unfold gen_of. by rewrite Hr.
    + intros k. rewrite gen_of_is_Some, Hr. by intros [? ?].
    + intros task g g' x. unfold gen_of. by rewrite Hr.
  - rewrite Nat2Z.inj_succ, <- Z.add_1_r. eapply sys_inv_step; [apply IH; lia|lia|done].
Qed.

Lemma reachable_digest g : reachable g -> t_InputDigest (gen_task g) = InputDigest (t_Input (gen_task g)).
Proof.
  intros (g0 & es & [? ? ? ? ? ? ? ? ? ? ? t ? (_ & _ & _ & ->)%NewRequest_inv] & Hr).
  apply run_identity in Hr. unfold identity in Hr. cbn in Hr. by injection Hr as _ _ _ _ -> -> _ _ _ _ _ _.
Qed.

(** [apply] commits whenever the row is the one that was read. *)
Lemma apply_commits db k r t' now outcome :
  wf_db db -> db_requests db !! k = Some r -> identity t' = identity (TaskFromRow r) ->
  exists db', apply t' (t_Revision (TaskFromRow r)) now outcome db = Ok (tt, db').
Proof.
  intros Hwf Hk Hid.
  pose proof (wf_rows _ Hwf _ _ Hk) as Hrow. destruct (identity_key _ _ _ Hrow Hid) as [E1 E2].
  unfold apply, mbind, tx_bind, UpdateRequest. cbn [UpdateParams up_TaskID up_Generation up_ExpectedRevision].
  rewrite E1, E2, <- (surjective_pairing k), Hk. cbn [TaskFromRow t_Revision].
  rewrite i64_u64 by apply Hrow. rewrite Z.eqb_refl. cbn.
  destruct (_ && _); eauto.
Qed.

(** ** Properties *)

(** C4. Refinement: whatever commands commit, in whatever order, with whatever
    clocks, configurations and event identities, interleaved with the
    retention of attempts and with any transaction that leaves the request
    tables alone, every stored row is that of a generation that a created
    request reaches by decisions of the domain. Its stored attempts are that
    generation's while it is live, and once it has ended those of them that
    retention left, in their order; so the properties of a generation's life
    hold of the database; and of the generations of a task every one but the
    newest has ended.  (Generations are numbered in 64 bits, so for as long as
    fewer than 2^63 transactions have committed.) *)
Theorem database_refines_life n db :
  task_run n db -> Z.of_nat n < 2 ^ 63 ->
  (forall k g, gen_of db k = Some g -> exists full, reachable full /\ gen_inv full /\
     gen_task full = gen_task g /\ gen_attempts g `sublist_of` gen_attempts full /\
     (Terminal (t_State (gen_task g)) = false -> full = g)) /\
  (forall task g g' x, gen_of db (task, g) = Some x -> is_Some (gen_of db (task, g')) -> g < g' ->
     Terminal (t_State (gen_task x)) = true).
Proof.
  intros Hr Hn. pose proof (run_sys_inv _ _ Hr Hn) as Hi. split; [|apply (si_latest _ _ Hi)].
  intros k g (full & Hf & [E1 E2 E3])%(si_reachable _ _ Hi). exists full. by auto using reachable_inv.
Qed.

(** C30. The claim of a reachable database hands the worker exactly the bytes the
    row's digest binds, together with a row leased to that worker under an
    attempt of its own; the row read back is the one the claim returned. *)
Theorem claim_hands_bound_input n db cfg taskID generation w lease now0 now1 now t input db' :
  task_run n db -> Z.of_nat n < 2 ^ 63 ->
  Claim cfg taskID generation w lease now0 now1 now db = Ok ((t, input), db') ->
  t_InputDigest t = InputDigest input /\ t_State t = StateLeased /\ t_WorkerID t = w /\
  exists g, gen_of db' (taskID, i64 generation) = Some g /\ gen_task g = stored_task t /\
    a_WorkerID (currentAttempt (gen_task g) (gen_attempts g)) = w.
Proof.
  intros Hr Hn Hc. pose proof (run_sys_inv _ _ Hr Hn) as Hi. pose proof (si_wf _ _ Hi) as Hwf.
  apply (claim_simulates cfg) in Hc as (Hs & _ & -> & Ht);
    [|done|intros x Hx Ht; by apply reachable_inv, reaches_live; [apply (si_reachable _ _ Hi _ _ Hx)|]].
  pose proof (sys_inv_simulates _ _ _ _ _ _ Hi Hs) as Hi'.
  destruct Hs as [_ _ (g & g' & Hg & Hg' & Hst)]. rewrite Hg' in Ht. injection Ht as Ht.
  assert (reachable g') as Hre.
  { apply reaches_live; [by eapply si_reachable|]. apply step_row in Hst as ((_ & -> & _) & _). done. }
  pose proof (reachable_digest _ Hre) as Hd. rewrite Ht in Hd.
  apply step_row in Hst as ((_ & Hl & Hw & _) & _). rewrite Ht in Hl, Hw.
  split_and!; [exact Hd|exact Hl|exact Hw|]. exists g'. split_and!; [done|done|].
  destruct (inv_leased _ (reachable_inv _ Hre)) as [_ ->]; [by rewrite Ht|]. by rewrite Ht.
Qed.

(** The compare-and-swap of a task command never misses: under the row lock
    the row still holds the revision the command read, so [apply] on a decision
    about a stored row of a reachable database always commits. *)
Theorem locked_update_never_stale n db k r t' now outcome :
  task_run n db -> Z.of_nat n < 2 ^ 63 -> db_requests db !! k = Some r ->
  identity t' = identity (TaskFromRow r) ->
  exists db', apply t' (t_Revision (TaskFromRow r)) now outcome db = Ok (tt, db').
Proof.
  intros Hr Hn. eapply apply_commits. exact (si_wf _ _ (run_sys_inv _ _ Hr Hn)).
Qed.
End System.

(** ** Witnesses: a request committed and claimed on a database with one grant *)

(** A database whose inputs are stored as they were sent. *)
Definition plain_jsonb : Jsonb := fun s => if Valid s then Some s else None.
#[local] Existing Instance plain_jsonb.
#[local] Instance plain_jsonb_laws : JsonbLaws.
Proof. intros s c. unfold jsonb_text, plain_jsonb. destruct (Valid s) eqn:E; [|done]. intros [= <-]. by rewrite E. Qed.

Definition demo_grant_row : GrantRow :=
  mkGrantRow "g1" 2 "tenant-1" "agent" "a1" "s1" 1 "digest" [] "purpose" "USD" 100 GrantActive (Some "receipt-1")
    (Some (us (3600 * Second))) "c1" "digest" None None "" "" "" "" "" [] [] "" "" None None "" None None 0 0 "" None.
Definition demo_db : DB := (empty_db 0) <| db_grants := <["g1" := demo_grant_row]> ∅ |>.
Definition demo_config : Config := mkConfig demo_bounds None.
Definition demo_request : RequestInput :=
  mkRequestInput "task-1" "tenant-1" KindLocalCheck LocalCheckProfile demo_input EffectsExternal "dispatch-1" "grant:g1" "corr-1".
Definition demo_commit : res ((Task * bool) * DB) := Request demo_config demo_request "event-1" 0 0 0 0 demo_db.
Definition demo_committed : DB := match demo_commit with Ok (_, db) => db | Err _ => demo_db end.
Definition demo_claimed : res ((Task * bytes) * DB) :=
  Claim demo_config "task-1" 1 "worker-1" demo_lease 0 0 0 demo_committed.

Definition is_ok {A} (r : res A) : bool := match r with Ok _ => true | Err _ => false end.

Lemma demo_commit_run : task_run (fun _ => None) 1 demo_committed.
Proof.
  apply (tr_step _ 0 demo_db); [by apply tr_empty|].
  assert (is_ok demo_commit = true) as Hok by (vm_compute; reflexivity).
  unfold demo_committed. destruct demo_commit as [[[t b] db]|] eqn:E; [|done].
  apply (ts_request _ demo_db demo_config demo_request "event-1" 0 0 0 0 t b); [|exact E].
  by vm_compute.
Qed.

Lemma database_refines_life_witness : exists g full, gen_of demo_committed ("task-1", 1) = Some g /\
  t_State (gen_task g) = StatePending /\ reachable full /\ gen_inv full /\ full = g.
Proof.
  destruct (gen_of demo_committed ("task-1", 1)) as [g|] eqn:E; [|vm_compute in E; discriminate E].
  assert (option_map (fun g => t_State (gen_task g)) (gen_of demo_committed ("task-1", 1)) = Some StatePending) as Hs by reflexivity.
  rewrite E in Hs. injection Hs as Hs.
  destruct (proj1 (database_refines_life (fun _ => None) ltac:(intros p b [=]) 1 demo_committed demo_commit_run ltac:(reflexivity)) _ _ E)
    as (full & Hr & Hi & _ & _ & Hl). exists g, full. split; [reflexivity|]. split; [exact Hs|]. split; [exact Hr|]. split; [exact Hi|].
  apply Hl. rewrite Hs. reflexivity.
Defined.

Lemma claim_hands_bound_input_witness :
  match demo_claimed with Ok ((t, input), _) => t_InputDigest t = InputDigest input | Err _ => False end.
Proof.
  assert (is_ok demo_claimed = true) as Hok by (vm_compute; reflexivity).
  destruct demo_claimed as [[[t input] db]|] eqn:E; [|discriminate Hok].
  exact (proj1 (claim_hands_bound_input (fun _ => None) ltac:(intros p b [=]) 1 demo_committed demo_config "task-1" 1
    "worker-1" demo_lease 0 0 0 t input db demo_commit_run ltac:(reflexivity) E)).
Defined.

Lemma locked_update_never_stale_witness :
  exists r db', db_requests demo_committed !! ("task-1", 1) = Some r /\
    apply (Supersede (TaskFromRow r)).1 (t_Revision (TaskFromRow r)) 0 "" demo_committed = Ok (tt, db').
Proof.
  destruct (db_requests demo_committed !! ("task-1", 1)) as [r|] eqn:E; [|vm_compute in E; discriminate E].
  destruct (locked_update_never_stale (fun _ => None) ltac:(intros p b [=]) 1 demo_committed ("task-1", 1) r
    (Supersede (TaskFromRow r)).1 0 "" demo_commit_run ltac:(reflexivity) E) as [db' H].
  - unfold Supersede. by destruct (Terminal _).
  - exists r, db'. split; [reflexivity|exact H].
Defined.
