(* ===== verification/TasksSweep.v ===== *)
(** * TasksSweep: one pass over the expired leases

    What [SweepExpired] does to every listed generation: the decision of
    [DecideExpire] under Control's answer about the original dispatch, or
    nothing when the question could not be answered. *)

From S2P Require Import Prelude Errors GoStrings GoCrypto GoJson GoNum Task TaskLife Catalog Grant Call Event Rows Sql SqlCalls Tasks TasksSim TasksSystem.

(** ** The rows of a pass *)

(** Control's answer about a row: an internal effect has no dispatch. *)
Definition answer_for (dispatch : string -> string -> option DispatchOutcome) (t : Task) : option DispatchOutcome :=
  if String.eqb (t_Effects t) EffectsExternal then dispatch (t_TenantID t) (t_DispatchID t) else Some DispatchUnknown.

(** Leased, and expired at the instant of the pass. *)
Definition expired_row (now : Time) (r : BackgroundRequest) : Prop :=
  br_State r = StateLeased /\ exists l, br_LeaseUntil r = Some l /\ l < us now.

Section Sweep.
  Context `{JsonbLaws} (bindings : string -> option ResultBinding).
  Context (Hlaws : forall p b, bindings p = Some b -> BindingLaws b).
  Context (cfg : Config) (dispatch : string -> string -> option DispatchOutcome) (now : Time).

Lemma DecideExpire_expired r outcome :
  expired_row now r ->
  exists t' out, DecideExpire (TaskFromRow r) outcome now (cfg_Bounds cfg) = (t', out, true) /\
    identity t' = identity (TaskFromRow r).
Proof.
  intros (Hs & l & Hl & Hlt). pose proof (us_le now) as Hus.
  assert (After (t_LeaseUntil (TaskFromRow r)) now = false) as Ha by (apply After_false; cbn; rewrite Hl; cbn; lia).
  unfold DecideExpire. rewrite Ha. cbn [TaskFromRow t_State]. rewrite Hs, bool_decide_eq_true_2 by done. cbn [negb orb].
  destruct (_ && _); [|destruct (_ <=? _)]; eexists _, _; (split; [reflexivity|done]).
Qed.

Lemma settle_one db k r outcome :
  wf_db db -> db_requests db !! k = Some r -> expired_row now r ->
  exists db', InTx (settleExpired cfg k.1 k.2 outcome now now) db = (Ok tt, db') /\
    simulates (cfg_Bounds cfg) db k (EvExpire outcome) db'.
Proof.
  intros Hwf Hr Hexp. destruct (DecideExpire_expired r outcome Hexp) as (t' & out & Hd & Hid).
  destruct (apply_commits db k r t' now out Hwf Hr Hid) as [db' Ha].
  assert (settleExpired cfg k.1 k.2 outcome now now db = Ok (tt, db')) as Hok.
  { unfold settleExpired, unwrap, mbind, tx_bind, GetRequestForUpdate, GetRequest, gets.
    rewrite <- (surjective_pairing k), Hr. cbn [mret tx_ret]. unfold mret, tx_ret. by rewrite Hd. }
  exists db'. split; [unfold InTx; by rewrite Hok|].
  exact (proj1 (apply_simulates _ _ _ _ _ _ _ _ _ _ _ Hwf Hr (step_expire _ _ _ _ _ _ _ Hd) Ha)).
Qed.

(** What the pass does to one listed generation. *)
Definition settled (db db' : DB) (k : string * Z) : Prop :=
  exists r, db_requests db !! k = Some r /\
    match answer_for dispatch (TaskFromRow r) with
    | None => gen_of db' k = gen_of db k
    | Some outcome => exists g g', gen_of db k = Some g /\ gen_of db' k = Some g' /\
                        gen_step (cfg_Bounds cfg) g (EvExpire outcome) g'
    end.

Lemma settle_all_spec expired : forall n db,
  task_run bindings n db -> sys_inv (Z.of_nat n) db -> Z.of_nat (n + List.length expired) < 2 ^ 63 -> NoDup expired ->
  (forall k, k ∈ expired -> exists r, db_requests db !! k = Some r /\ expired_row now r) ->
  exists m db', settle_all cfg dispatch now expired db = (Z.of_nat m, db') /\
    (m <= List.length expired)%nat /\ task_run bindings (n + m) db' /\
    (forall k, k ∉ expired -> db_requests db' !! k = db_requests db !! k /\ gen_of db' k = gen_of db k) /\
    (forall k, k ∈ expired -> settled db db' k).
Proof.
  induction expired as [|k expired IH]; intros n db Hrun Hi Hn Hnd Hall; cbn [settle_all].
  { exists 0%nat, db. rewrite Nat.add_0_r. split_and!; [done|lia|done|done|]. intros k Hk. by apply elem_of_nil in Hk. }
  apply NoDup_cons in Hnd as [Hk Hnd]. destruct (Hall k ltac:(by left)) as (r & Hr & Hexp).
  destruct k as [taskID generation]. rewrite Hr. cbn [List.length] in Hn.
  change (if String.eqb _ _ then _ else _) with (answer_for dispatch (TaskFromRow r)).
  destruct (answer_for dispatch (TaskFromRow r)) as [outcome|] eqn:Eans.
  - destruct (settle_one db (taskID, generation) r outcome (si_wf _ _ Hi) Hr Hexp) as (db1 & Htx & Hsim).
    cbn [fst snd] in Htx. rewrite Htx. destruct (DecideExpire_expired r outcome Hexp) as (t' & out & Hd & _).
    rewrite Hd. cbn [snd].
    assert (task_run bindings (S n) db1) as Hrun1.
    { eapply tr_step; [exact Hrun|]. unfold InTx in Htx. destruct (settleExpired _ _ _ _ _ _ _) as [[[] db2]|] eqn:Es; [|done].
      injection Htx as ->. exact (ts_settle _ _ _ _ _ _ _ _ _ _ Es). }
    pose proof (sys_inv_mono (Z.of_nat n) (Z.of_nat (S n)) _ ltac:(lia) (sys_inv_simulates _ _ _ _ _ _ Hi Hsim)) as Hi1.
    destruct Hsim as [Hwf1 Hoth1 (g & g1 & Hg & Hg1 & Hst)].
    destruct (IH (S n) db1 Hrun1 Hi1 ltac:(lia) Hnd) as (m & db' & Heq & Hm & Hrun' & Hout & Hin).
    { intros k' Hk'. destruct (Hoth1 k') as [-> _]; [by intros ->|]. apply Hall. by right. }
    rewrite Heq. exists (S m), db'. split_and!; [f_equal; lia|cbn; lia|by rewrite Nat.add_succ_r|..].
    + intros k' Hk'. apply not_elem_of_cons in Hk' as [Hne Hk'].
      destruct (Hout k' Hk') as [-> ->]. destruct (Hoth1 k' Hne) as [-> _]. split; [done|].
      by apply (gen_of_others _ _ _ _ Hoth1).
    + intros k' [->|Hk']%elem_of_cons.
      * exists r. split; [done|]. rewrite Eans. destruct (Hout _ Hk) as [_ ->]. eauto.
      * assert (k' <> (taskID, generation)) as Hne by (by intros ->).
        destruct (Hin k' Hk') as (r' & Hr' & Hset). destruct (Hoth1 k' Hne) as [Hreq _].
        exists r'. rewrite <- Hreq. split; [done|]. by rewrite (gen_of_others _ _ _ _ Hoth1 Hne) in Hset.
  - destruct (IH n db Hrun Hi ltac:(lia) Hnd) as (m & db' & Heq & Hm & Hrun' & Hout & Hin); [intros k' Hk'; apply Hall; by right|].
    exists m, db'. split_and!; [done|cbn; lia|done|..].
    + intros k' Hk'. apply not_elem_of_cons in Hk' as [_ Hk']. by apply Hout.
    + intros k' [->|Hk']%elem_of_cons; [|by apply Hin]. exists r. split; [done|]. rewrite Eans. by apply Hout.
Qed.

Definition row_key (r : BackgroundRequest) : string * Z := (br_TaskID r, br_Generation r).
Definition expired_test (r : BackgroundRequest) : bool :=
  bool_decide (br_State r = StateLeased) && match br_LeaseUntil r with Some l => l <? us now | None => false end.
Lemma expired_test_spec r : expired_test r = true <-> expired_row now r.
Proof.
  unfold expired_test, expired_row. rewrite andb_true_iff, bool_decide_eq_true.
  destruct (br_LeaseUntil r) as [l|]; [rewrite Z.ltb_lt|]; naive_solver.
Qed.

Lemma row_key_elem db r : wf_db db -> r ∈ rows_of (db_requests db) -> db_requests db !! row_key r = Some r.
Proof.
  intros Hwf (k & Hk)%rows_of_elem. destruct (wf_rows _ Hwf _ _ Hk) as [H1 [H2 _] _ _].
  unfold row_key. by rewrite H1, H2, <- (surjective_pairing k).
Qed.

Lemma row_keys_NoDup db : wf_db db -> NoDup (map row_key (rows_of (db_requests db))).
Proof.
  intros Hwf. unfold rows_of. rewrite map_map.
  rewrite (map_ext_in _ fst); [apply (NoDup_fst_map_to_list (db_requests db))|].
  intros [k r] Hin. apply list_elem_of_In, elem_of_map_to_list in Hin. cbn in *.
  destruct (wf_rows _ Hwf _ _ Hin) as [H1 [H2 _] _ _]. unfold row_key. by rewrite H1, H2, <- (surjective_pairing k).
Qed.

Lemma NoDup_map_sublist {A B} (f : A -> B) l l' : sublist l l' -> NoDup (map f l') -> NoDup (map f l).
Proof.
  intros Hs Hn. apply (sublist_NoDup _ _ Hn). clear Hn. induction Hs; cbn; by constructor.
Qed.

Lemma ListExpiredLeases_spec limit db expired db0 :
  wf_db db -> ListExpiredLeases now limit db = Ok (expired, db0) ->
  db0 = db /\ NoDup expired /\ (List.length expired <= limit)%nat /\
  (forall k, k ∈ expired -> exists r, db_requests db !! k = Some r /\ expired_row now r) /\
  ((List.length expired < limit)%nat -> forall k r, db_requests db !! k = Some r -> expired_row now r -> k ∈ expired).
Proof.
  intros Hwf [-> ->]%gets_Ok. split; [done|]. fold expired_test. fold row_key.
  set (sel := List.filter expired_test (rows_of (db_requests db))).
  set (le := fun a b => _). pose proof (sort_by_perm le sel) as Hperm. set (sorted := sort_by le sel) in *.
  assert (NoDup (map row_key sorted)) as Hnd.
  { rewrite Hperm. eapply NoDup_map_sublist; [|exact (row_keys_NoDup _ Hwf)].
    unfold sel. clear. induction (rows_of (db_requests db)) as [|x l IH]; cbn; [constructor|].
    destruct (expired_test x); by constructor. }
  assert (forall r, r ∈ sorted -> r ∈ rows_of (db_requests db) /\ expired_row now r) as Hsel.
  { intros r Hr. rewrite Hperm in Hr. apply list_elem_of_In, filter_In in Hr as [Hr He].
    split; [by apply list_elem_of_In|by apply expired_test_spec]. }
  split_and!.
  - eapply NoDup_map_sublist; [apply sublist_take|exact Hnd].
  - rewrite length_map, length_firstn. lia.
  - intros k Hk. apply list_elem_of_In, in_map_iff in Hk as (r & <- & Hr).
    assert (r ∈ sorted) as [Hr' He]%Hsel
      by (eapply elem_of_sublist; [by apply list_elem_of_In|apply sublist_take]). exists r. split; [by apply row_key_elem|done].
  - rewrite length_map, length_firstn. intros Hlt k r Hr He. apply list_elem_of_In, in_map_iff. exists r. split.
    + destruct (wf_rows _ Hwf _ _ Hr) as [H1 [H2 _] _ _]. unfold row_key. by rewrite H1, H2, <- (surjective_pairing k).
    + rewrite firstn_all2 by lia. apply list_elem_of_In. rewrite Hperm. apply list_elem_of_In, filter_In.
      split; [apply list_elem_of_In, rows_of_elem; eauto|by apply expired_test_spec].
Qed.

(** C31. A pass over the expired leases on a reachable database: it lists
    distinct leased rows whose lease has run out, at most [limit] of them and
    all of them when there are fewer; the rows whose original dispatch Control
    could tell about take the expiry step under that answer, in one committed
    transaction each, whatever failed for the others; every row Control could
    not tell about and every row not listed is left as it was. *)
Theorem sweep_settles_expired n db limit :
  task_run bindings n db -> Z.of_nat (n + limit) < 2 ^ 63 ->
  exists expired m db', ListExpiredLeases now limit db = Ok (expired, db) /\
    SweepExpired cfg dispatch now limit db = (Ok (Z.of_nat m), db') /\
    NoDup expired /\ (m <= List.length expired <= limit)%nat /\ task_run bindings (n + m) db' /\
    (forall k, k ∈ expired -> settled db db' k) /\
    (forall k, k ∉ expired -> gen_of db' k = gen_of db k) /\
    ((List.length expired < limit)%nat ->
       forall k r, db_requests db !! k = Some r -> expired_row now r -> k ∈ expired).
Proof.
  intros Hrun Hn. pose proof (run_sys_inv bindings Hlaws _ _ Hrun ltac:(lia)) as Hi. unfold SweepExpired.
  destruct (ListExpiredLeases now limit db) as [[expired db0]|] eqn:El; [|done].
  destruct (ListExpiredLeases_spec _ _ _ _ (si_wf _ _ Hi) El) as (-> & Hnd & Hlen & Hall & Hcomplete).
  destruct (settle_all_spec expired n db Hrun Hi ltac:(lia) Hnd Hall) as (m & db' & -> & Hm & Hrun' & Hout & Hin).
  exists expired, m, db'. split_and!; try done. intros k Hk. by apply Hout.
Qed.
End Sweep.

(** ** Witness: the lease of a claimed request runs out; Control proves that nothing was sent *)

#[local] Existing Instances plain_jsonb plain_jsonb_laws.

Definition demo_answers (tenant dispatch : string) : option DispatchOutcome :=
  if String.eqb dispatch "dispatch-1" then Some DispatchNotSent else None.
Definition demo_leased_db : DB := match demo_claimed with Ok (_, db) => db | Err _ => demo_committed end.

Lemma sweep_settles_expired_witness :
  exists g g', gen_of demo_leased_db ("task-1", 1) = Some g /\
    gen_of (SweepExpired demo_config demo_answers (2 * demo_lease) 10 demo_leased_db).2 ("task-1", 1) = Some g' /\
    gen_step demo_bounds g (EvExpire DispatchNotSent) g'.
Proof.
  assert (is_ok demo_claimed = true) as Hok by (vm_compute; reflexivity).
  assert (task_run (fun _ => None) 2 demo_leased_db) as Hrun.
  { unfold demo_leased_db. destruct demo_claimed as [[x db]|] eqn:E; [|discriminate Hok].
    eapply tr_step; [exact demo_commit_run|]. exact (ts_claim _ _ _ _ _ _ _ _ _ _ _ _ E). }
  destruct (sweep_settles_expired (fun _ => None) ltac:(intros p b [=]) demo_config demo_answers (2 * demo_lease)
    2 demo_leased_db 10 Hrun ltac:(reflexivity)) as (expired & m & db' & El & Es & _ & _ & _ & Hin & _).
  assert (match ListExpiredLeases (2 * demo_lease) 10 demo_leased_db with Ok (l, _) => l | Err _ => [] end = [("task-1", 1)]) as El'
    by (vm_compute; reflexivity).
  rewrite El in El'. subst expired. destruct (Hin ("task-1", 1)) as (r & Hr & Hset); [left|].
  assert (option_map (fun r => answer_for demo_answers (TaskFromRow r)) (db_requests demo_leased_db !! ("task-1", 1)) =
    Some (Some DispatchNotSent)) as Ha by (vm_compute; reflexivity).
  rewrite Hr in Ha. cbn [option_map] in Ha. injection Ha as Ha. rewrite Ha in Hset.
  destruct Hset as (g & g' & Hg & Hg' & Hst). exists g, g'. rewrite Es. split; [exact Hg|]. split; [exact Hg'|exact Hst].
Defined.
