(* ===== verification/Generations.v ===== *)
(** * Generations: reloading the configuration ([internal/bootstrap/generations.go])

    The active generation of a process and what it set in the parts that
    follow it: the store's pool, the forwarder, the bounds and the expiry of
    the tasks.  A pool and its forwarder are named by the number of their
    generation.  The watcher is one goroutine, so reloads do not overlap; it
    has ended when [Shutdown] runs.  A slice is compared by its elements. *)

From S2P Require Import Prelude Errors GoStrings GoTrim GoCrypto GoJson GoNum GoTime GoUrl Identity Task Config ConfigLoad.

Record Generations := mkGenerations {
  gs_active : option Generation; gs_number : Z; gs_pool : Z; gs_forwarding : list Z; gs_retired : list Z;
  gs_bounds : Bounds; gs_expiry : Time * Z }.

(** [config.Generation{}], which [Active] answers without an active one. *)
Definition zero_tls : ClientTLS := mkClientTLS "" "" "" "" "".
Definition zero_config : Config :=
  mkConfig false (mkTelemetry "" (Finite 0 0) zero_tls) (mkGRPC "" 0 0 (mkServerIdentity "" "" "" "" "" 0 0)) "" (mkDatabase "" "" 0)
    (mkTaskBounds 0 0 0 0 0) (mkOutbox false "" 0 0 0 0 (mkNATS "" 0 "" zero_tls "" "")) (mkRetention 0 0 0 0 0)
    (mkControl "" 0 (mkClientIdentity "" zero_tls)) (mkApollo "" "" "") (mkReload 0 0)
    (mkCatalog (mkContextForge "" "" 0 "" "") Nil Nil "" 0) (mkBarrierBounds 0 0) (mkCalls Nil 0 0 0 0 0 "").
Definition zero_generation : Generation := mkGeneration 0 zero_config "" "" [] "" zero_time (zero_time, 0).
Definition Active (s : Generations) : Generation := default zero_generation (gs_active s).

Definition bounds (c : Config) : Bounds :=
  mkBounds (tk_MaxInputBytes (c_Tasks c)) (tk_MaxLease (c_Tasks c)) (tk_RetryDelay (c_Tasks c)) (tk_MaxAttempts (c_Tasks c)).

(** ** Sections *)

(** [reflect.DeepEqual]: a NaN is not itself. *)
Definition ratio_Equal (f g : float64) : bool := match f, g with NaN, _ | _, NaN => false | _, _ => bool_decide (f = g) end.
Definition telemetry_Equal (t u : Telemetry) : bool :=
  String.eqb (te_OTLPEndpoint t) (te_OTLPEndpoint u) && ratio_Equal (te_SampleRatio t) (te_SampleRatio u)
  && bool_decide (te_OTLPTLS t = te_OTLPTLS u).
(** The sections only a restart applies, in the order of the fields: all but
    the database, the tasks, the outbox and the reload bounds. *)
Definition section_changes (a c : Config) : list (string * bool) :=
  [("development", bool_decide (c_Development a = c_Development c)); ("telemetry", telemetry_Equal (c_Telemetry a) (c_Telemetry c));
   ("grpc", bool_decide (c_GRPC a = c_GRPC c)); ("health", bool_decide (c_Health a = c_Health c));
   ("retention", bool_decide (c_Retention a = c_Retention c)); ("control", bool_decide (c_Control a = c_Control c));
   ("apollo", bool_decide (c_Apollo a = c_Apollo c)); ("catalog", bool_decide (c_Catalog a = c_Catalog c));
   ("barrier", bool_decide (c_Barrier a = c_Barrier c)); ("calls", bool_decide (c_Calls a = c_Calls c))].
Definition nonReloadableChanges (active candidate : Config) : list string :=
  slices_Sort (map fst (List.filter (fun s => negb s.2) (section_changes active candidate))).

(** ** The runtime of a generation *)

(** The pool is built and probed, and the forwarder connected, by [built]. *)
Definition buildRuntime (built : Generation -> bool) (gen : Generation) : res unit :=
  let c := gn_Config gen in
  if ob_ForwarderEnabled (c_Outbox c) && String.eqb (ct_Mode (na_TLS (ob_NATS (c_Outbox c)))) "development" && negb (c_Development c)
  then Fail ErrOther
  else if built gen then Ok tt else Fail ErrOther.

(** The forwarder of a retired generation stops and its pool drains. *)
Definition retire (n : Z) (s : Generations) : Generations :=
  mkGenerations (gs_active s) (gs_number s) (gs_pool s) (List.filter (fun m => negb (m =? n)) (gs_forwarding s)) (gs_retired s ++ [n])
    (gs_bounds s) (gs_expiry s).
Definition activate (gen : Generation) (s : Generations) : Generations :=
  let previous := gs_active s in
  let forwarding := if ob_ForwarderEnabled (c_Outbox (gn_Config gen)) then gs_forwarding s ++ [gn_Number gen] else gs_forwarding s in
  let s' := mkGenerations (Some gen) (gs_number s) (gn_Number gen) forwarding (gs_retired s) (bounds (gn_Config gen)) (gn_ExpiresAt gen) in
  match previous with None => s' | Some p => retire (gn_Number p) s' end.

(** [newGenerations], before the first generation is activated. *)
Definition newGenerations (first : Generation) : Generations :=
  mkGenerations None (gn_Number first) 0 [] [] (mkBounds 0 0 0 0) (zero_time, 0).

Section Reload.
  Context `{Koanf} (path : string) (environ : list string).

(** One poll: the files and the clock of the moment, and which candidates can
    be built. *)
Record poll := mkPoll {
  po_files : string -> option bytes; po_now : Time; po_built : Time; po_runtime : Generation -> bool }.

Definition Reload (i : poll) (s : Generations) : res bool * Generations :=
  let active := Active s in
  match LoadFrom (po_files i) (po_now i) (po_built i) path environ (gs_number s + 1) with
  | Err e => (Err e, s)
  | Ok candidate =>
      if String.eqb (Inputs candidate) (Inputs active) then (Ok false, s)
      else match nonReloadableChanges (gn_Config active) (gn_Config candidate) with
      | _ :: _ => (Fail ErrOther, s)
      | [] =>
          match buildRuntime (po_runtime i) candidate with
          | Err e => (Err e, s)
          | Ok _ =>
              (Ok true, activate candidate (mkGenerations (gs_active s) (gn_Number candidate) (gs_pool s) (gs_forwarding s)
                                              (gs_retired s) (gs_bounds s) (gs_expiry s)))
          end
      end
  end.

Definition Shutdown (s : Generations) : Generations :=
  match gs_active s with
  | None => s
  | Some gen =>
      retire (gn_Number gen) (mkGenerations None (gs_number s) (gs_pool s) (gs_forwarding s) (gs_retired s) (gs_bounds s) (gs_expiry s))
  end.

(** A process: it starts with its first generation, polls any number of times
    and shuts down. *)
Definition start (first : Generation) : Generations := activate first (newGenerations first).
Inductive gen_step : Generations -> Generations -> Prop :=
| gs_reload i s : gen_step s (Reload i s).2
| gs_shutdown s : gen_step s (Shutdown s).
Definition gen_run (first : Generation) : Generations -> Prop := rtc gen_step (start first).
End Reload.
