(* ===== verification/GenerationsSpec.v ===== *)
(** * GenerationsSpec: which configuration is in force

    What every state of the reload machine satisfies, from the first
    generation over any sequence of polls to the shutdown. *)

From S2P Require Import Prelude Errors GoStrings GoTrim GoCrypto GoJson GoNum GoTime GoUrl Identity Task Config ConfigLoad ConfigSpec Generations.
From S2P Require Tasks TasksSystem.

(** ** Sections *)

(** The sections a swap does not apply. *)
Definition same_sections (a c : Config) : Prop :=
  (c_Development a, c_Telemetry a, c_GRPC a, c_Health a, c_Retention a) =
  (c_Development c, c_Telemetry c, c_GRPC c, c_Health c, c_Retention c) /\
  (c_Control a, c_Apollo a, c_Catalog a, c_Barrier a, c_Calls a) = (c_Control c, c_Apollo c, c_Catalog c, c_Barrier c, c_Calls c).

Lemma telemetry_Equal_eq t u : telemetry_Equal t u = true -> t = u.
Proof.
  unfold telemetry_Equal, ratio_Equal. destruct t as [e r l], u as [e' r' l']. cbn. intros [[H1 H2]%andb_prop H3]%andb_prop. breflect. subst.
  destruct r, r'; try done; by apply bool_decide_eq_true in H2 as ->.
Qed.
Lemma nonReloadable_none a c : nonReloadableChanges a c = [] -> same_sections a c.
Proof.
  intros H. assert (Hs : forall s, In s (section_changes a c) -> s.2 = true).
  { intros s Hs. destruct s.2 eqn:E; [done|]. assert (Hin : s.1 ∈ nonReloadableChanges a c); [|by rewrite H in Hin; apply elem_of_nil in Hin].
    apply slices_Sort_elem, list_elem_of_In, in_map, filter_In. by rewrite E. }
  unfold section_changes in Hs.
  assert (Ht : telemetry_Equal (c_Telemetry a) (c_Telemetry c) = true) by (apply (Hs ("telemetry", _)); cbn; by auto).
  apply telemetry_Equal_eq in Ht.
  repeat match type of Hs with forall s, In s (?x :: ?l) -> _ =>
    let H := fresh in pose proof (Hs x (in_eq x l)) as H; cbn [snd] in H; try apply bool_decide_eq_true in H;
    assert (forall s, In s l -> s.2 = true) as Hs' by (intros s Hin; apply Hs; by right); clear Hs; rename Hs' into Hs end.
  unfold same_sections. split; congruence.
Qed.

(** ** Valid generations *)

Definition valid_generation (number : Z) (g : Generation) : Prop := gn_Number g = number /\ validate (gn_Config g) = [].
Lemma loaded_valid `{Koanf} files now built path environ number g :
  LoadFrom files now built path environ number = Ok g -> valid_generation number g.
Proof. intros (? & ? & ? & ? & ? & c & ? & ? & _ & _ & _ & _ & Hv & _ & ->)%LoadFrom_stages. by split. Qed.

(** What the parts that follow the configuration rely on: an attempt bound
    that fits its column and a period of whole seconds. *)
Lemma valid_bounds c : validate c = [] ->
  TasksSystem.config_ok (Tasks.mkConfig (bounds c) None) /\
  (ca_RefreshInterval (c_Catalog c) = 0 \/ ca_RefreshInterval (c_Catalog c) ÷ Second <> 0) /\
  cl_SendTimeout (c_Calls c) < cl_ReconcileAge (c_Calls c).
Proof.
  intros Hv. pose proof (valid_tasks c Hv) as Ht. pose proof (valid_catalog c Hv) as Hc. pose proof (valid_calls c Hv) as Hl.
  unfold check_tasks in Ht. unfold check_catalog in Hc. unfold check_calls in Hl. cbv zeta in Hc. checks.
  split_and!; [unfold TasksSystem.config_ok; cbn; lia| |breflect; done].
  match goal with H : (_ =? 0) || _ = true |- _ => apply orb_prop in H as [H|H]; [left; by apply Z.eqb_eq in H|right] end.
  checks. intros E. apply Z.quot_small_iff in E; unfold Hour, Minute, Second in *; lia.
Qed.

(** ** The reload machine *)

Section Machine.
  Context `{Koanf} (path : string) (environ : list string).

(** The parts in force are those of the active generation, its unreloadable
    sections are the first one's, and every generation before it is retired,
    once and in order; without an active one all are. *)
Definition in_force (first : Generation) (s : Generations) : Prop :=
  match gs_active s with
  | Some g =>
      valid_generation (gs_number s) g /\ same_sections (gn_Config first) (gn_Config g) /\
      gs_pool s = gn_Number g /\ gs_bounds s = bounds (gn_Config g) /\ gs_expiry s = gn_ExpiresAt g /\
      gs_forwarding s = (if ob_ForwarderEnabled (c_Outbox (gn_Config g)) then [gn_Number g] else []) /\
      gs_retired s = seqZ 1 (gn_Number g - 1) /\ 1 <= gn_Number g
  | None => gs_retired s = seqZ 1 (gs_number s) /\ gs_forwarding s = [] /\ 1 <= gs_number s
  end.

Lemma seqZ_next n : 1 <= n -> seqZ 1 (n - 1) ++ [n] = seqZ 1 (n + 1 - 1).
Proof.
  intros Hn. replace (n + 1 - 1) with ((n - 1) + 1) by lia. rewrite seqZ_app by lia. f_equal.
  rewrite seqZ_cons, seqZ_nil by lia. f_equal. lia.
Qed.
Lemma start_in_force first : valid_generation 1 first -> in_force first (start first).
Proof.
  intros [Hn Hv]. unfold start, activate, in_force. cbn. rewrite Hn. unfold same_sections, valid_generation. split_and!; done.
Qed.

(** A poll changes nothing, or activates the next generation. *)
Lemma Reload_cases i s :
  (Reload path environ i s).2 = s \/
  exists g, LoadFrom (po_files i) (po_now i) (po_built i) path environ (gs_number s + 1) = Ok g /\
    Inputs g <> Inputs (Active s) /\ nonReloadableChanges (gn_Config (Active s)) (gn_Config g) = [] /\
    (Reload path environ i s) = (Ok true, activate g (mkGenerations (gs_active s) (gn_Number g) (gs_pool s) (gs_forwarding s)
                                                     (gs_retired s) (gs_bounds s) (gs_expiry s))).
Proof.
  unfold Reload. destruct (LoadFrom _ _ _ _ _ _) as [g|e] eqn:El; [|by left].
  destruct (String.eqb_spec (Inputs g) (Inputs (Active s))) as [|Hi]; [by left|].
  destruct (nonReloadableChanges _ _) eqn:En; [|by left]. destruct (buildRuntime _ _); [|by left].
  right. exists g. done.
Qed.

(** Without an active generation every candidate changes the listener. *)
Lemma Reload_inactive i s : gs_active s = None -> (Reload path environ i s).2 = s.
Proof.
  intros Ha. destruct (Reload_cases i s) as [|(g & Hg & _ & Hn & _)]; [done|]. exfalso.
  apply loaded_valid in Hg as [_ Hv]. apply nonReloadable_none in Hn as [Hn _]. unfold Active in Hn. rewrite Ha in Hn.
  cbn in Hn. unfold validate in Hv. checks. injection Hn as _ _ Hg _ _. rewrite <- Hg in *. done.
Qed.

Lemma Reload_in_force first i s : in_force first s -> in_force first (Reload path environ i s).2.
Proof.
  intros Hs. destruct (gs_active s) as [p|] eqn:Ea; [|by rewrite Reload_inactive].
  destruct (Reload_cases i s) as [->|(g & Hg & _ & Hn & ->)]; [done|]. cbn [snd].
  unfold Active in Hn. rewrite Ea in Hn. cbn in Hn. apply nonReloadable_none in Hn.
  apply loaded_valid in Hg as [Hnum Hv]. unfold in_force in Hs. rewrite Ea in Hs.
  destruct Hs as ((Hp & _) & Hsame & _ & _ & _ & Hf & Hr & Hpos).
  unfold in_force, activate, retire. rewrite Ea. cbn. rewrite Hr, Hf, Hnum, Hp. unfold valid_generation. split_and!; try done.
  - unfold same_sections in *. destruct Hsame as [H1 H2], Hn as [H3 H4]. split; congruence.
  - destruct (ob_ForwarderEnabled (c_Outbox (gn_Config g))), (ob_ForwarderEnabled (c_Outbox (gn_Config p))); cbn;
      rewrite ?Z.eqb_refl; rewrite ?(proj2 (Z.eqb_neq _ _)) by lia; done.
  - apply seqZ_next; lia.
  - lia.
Qed.
Lemma Shutdown_in_force first s : in_force first s -> in_force first (Shutdown s).
Proof.
  intros Hs. unfold Shutdown. destruct (gs_active s) as [p|] eqn:Ea; [|done]. unfold in_force in *. rewrite Ea in Hs. cbn.
  destruct Hs as ((Hp & _) & _ & _ & _ & _ & Hf & Hr & Hpos). rewrite Hr, Hf, Hp in *. split_and!; [|by destruct (ob_ForwarderEnabled _); cbn; rewrite ?Z.eqb_refl|done].
  replace (seqZ 1 (gs_number s)) with (seqZ 1 (gs_number s + 1 - 1)) by (f_equal; lia). by apply seqZ_next.
Qed.
Lemma run_in_force first s : valid_generation 1 first -> gen_run path environ first s -> in_force first s.
Proof.
  intros Hf. unfold gen_run. intros Hr. apply (rtc_ind_r (in_force first)) in Hr; [done|by apply start_in_force|].
  intros x y _ [i z|z] Hx; [by apply Reload_in_force|by apply Shutdown_in_force].
Qed.

(** C35. The generation in force. From the first loaded generation, over any
    polls of the inputs and a shutdown: the active configuration is valid, and
    the pool, the forwarder, the task bounds and the expiry in force are its
    own; every section a swap does not apply is the first configuration's; the
    numbers go up by one, and every earlier generation is retired exactly once,
    in order, with its forwarder stopped. A poll changes nothing unless a valid
    candidate with other [Inputs] was built, and nothing is ever activated
    after the shutdown. The bounds in force keep what the task tables, the
    refresh and the call reconciliation rely on. *)
Theorem generation_in_force files now built first s :
  LoadFrom files now built path environ 1 = Ok first -> gen_run path environ first s ->
  (forall g, gs_active s = Some g ->
     gn_Number g = gs_number s /\ validate (gn_Config g) = [] /\ same_sections (gn_Config first) (gn_Config g) /\
     gs_pool s = gn_Number g /\ gs_bounds s = bounds (gn_Config g) /\ gs_expiry s = gn_ExpiresAt g /\
     gs_forwarding s = (if ob_ForwarderEnabled (c_Outbox (gn_Config g)) then [gn_Number g] else []) /\
     gs_retired s = seqZ 1 (gn_Number g - 1) /\
     TasksSystem.config_ok (Tasks.mkConfig (gs_bounds s) None) /\
     (ca_RefreshInterval (c_Catalog (gn_Config first)) = 0 \/ ca_RefreshInterval (c_Catalog (gn_Config first)) ÷ Second <> 0) /\
     cl_SendTimeout (c_Calls (gn_Config first)) < cl_ReconcileAge (c_Calls (gn_Config first))) /\
  (gs_active s = None -> gs_retired s = seqZ 1 (gs_number s) /\ gs_forwarding s = [] /\
     forall i, (Reload path environ i s).2 = s) /\
  (forall i, (Reload path environ i s).2 = s \/
     exists g, gs_active (Reload path environ i s).2 = Some g /\ gn_Number g = gs_number s + 1 /\ Inputs g <> Inputs (Active s)).
Proof.
  intros Hl Hr. apply loaded_valid in Hl. pose proof (valid_bounds _ (proj2 Hl)) as (_ & Hper & Hage).
  apply run_in_force in Hr; [|done]. unfold in_force in Hr. split_and!.
  - intros g Hg. rewrite Hg in Hr. destruct Hr as ([Hn Hv] & Hsame & Hp & Hb & He & Hf & Hret & _). pose proof (valid_bounds _ Hv) as (Hok & _).
    rewrite Hb. done.
  - intros Ha. rewrite Ha in Hr. destruct Hr as (Hret & Hf & _). split_and!; [done..|]. intros i. by apply Reload_inactive.
  - intros i. destruct (Reload_cases i s) as [|(g & Hg & Hi & _ & ->)]; [by left|right]. exists g. apply loaded_valid in Hg as [Hn _].
    split_and!; [|done..]. unfold activate. by destruct (gs_active _).
Qed.
End Machine.

(** A poll of unchanged inputs, then the shutdown. *)
#[local] Existing Instance flat_koanf.
Lemma generation_in_force_witness : exists first, demo_load = Ok first /\
  forall i, (Reload "config.yaml" demo_environ i (Shutdown (start first))).2 = Shutdown (start first).
Proof.
  pose proof demo_loads as Hd. destruct demo_load as [first|e] eqn:E; [|discriminate Hd]. exists first. split; [reflexivity|].
  exact (proj2 (proj2 (proj1 (proj2 (generation_in_force "config.yaml" demo_environ demo_files 0 0 first (Shutdown (start first)) E
    (rtc_l _ _ _ _ (gs_shutdown _ _ _) (rtc_refl _ _)))) eq_refl))).
Defined.
