(* ===== verification/Forwarder.v ===== *)
(** * Forwarder: a generation's connections ([internal/bootstrap/generations.go], [internal/adapters/outbox])

    The message of an event ([publisher.go]); [buildRuntime] with everything it
    opens and closes: the database pool, the NATS connection of [NewForwarder]
    ([forwarder.go]) with its options, and what is left open when a step fails;
    how a forwarder is closed; and the retries of the event consumer
    ([consumer.go]).  What parsing, dialing and the libraries' constructors
    answer are inputs. *)

From S2P Require Import Prelude Errors GoStrings GoJson JsonText GoRaw Event GoUrl Config Assembly Generations ConfigLoad ConfigSpec Delivery.

(** ** The message of an event ([publisher.go]) *)

(** What [Publish] inserts: the message with its metadata, wrapped with the
    subject it is forwarded to. *)
Record message := mkMessage {
  ms_UUID : string; ms_Metadata : list (string * string); ms_Payload : bytes; ms_destination : string }.
Definition MetadataEventType : string := "anvilkit_event_type".
Definition MetadataTenantID : string := "anvilkit_tenant_id".
Definition MetadataSchema : string := "anvilkit_schema_version".
Definition outbox_message (env : Envelope) : res message :=
  raw ← Marshal_Envelope env;
  Ok (mkMessage (e_EventID env)
        [(MetadataEventType, e_EventType env); (MetadataTenantID, e_TenantID env); (MetadataSchema, "1")] raw (e_Subject env)).
(** A published event is read back from its message, and the message is
    deduplicated by the event's id. *)
Lemma message_carries_event env payload : texts_valid env = true -> is_i64 (e_SchemaVersion env) ->
  e_Payload env = Marshal payload -> json_ok payload = true -> levels payload < max_depth ->
  exists m, outbox_message env = Ok m /\ unmarshal_envelope (ms_Payload m) = Some env /\
    ms_UUID m = e_EventID env /\ ms_destination m = e_Subject env.
Proof.
  intros Ht Hv Hp Hok Hl. pose proof (Marshal_Envelope_object env payload Hp Hok ltac:(lia)) as Hm.
  unfold outbox_message. rewrite Hm. eexists. split; [done|]. split; [|done]. by apply (envelope_roundtrip env payload).
Qed.

(** ** The forwarder *)

Record ForwarderConfig := mkForwarderConfig {
  fc_ConsumerGroup : string; fc_PollInterval : Duration; fc_AckDeadline : Duration; fc_ResendInterval : Duration;
  fc_BatchSize : Z; fc_NATSURL : string; fc_NATSName : string; fc_PublishTimeout : Duration; fc_CloseTimeout : Duration;
  fc_NATSTLS : option transport; fc_NATSCredsFile : string; fc_NATSCredsNKey : bool }.
Inductive nats_option :=
| Name (name : string) | Timeout (t : Duration) | MaxReconnects (n : Z) | RetryOnFailedConnect (b : bool)
| Secure (t : transport) | NkeyOptionFromSeed (file : string) | UserCredentials (file : string).
Record SubscriberConfig := mkSubscriberConfig {
  sb_ConsumerGroup : string; sb_AckDeadline : Duration; sb_PollInterval : Duration; sb_ResendInterval : Duration;
  sb_RetryInterval : Duration; sb_BatchSize : Z; sb_InitializeSchema : bool }.
Record Forwarder := mkForwarder {
  fw_url : string; fw_options : list nats_option; fw_sub : SubscriberConfig; fw_topic : string; fw_closeTTL : Duration }.

(** What is opened and closed, in order, and what that leaves open. *)
Inductive resource := DatabasePool | NatsConn.
#[export] Instance resource_eq_dec : EqDecision resource.
Proof. solve_decision. Defined.
Inductive opening := Opens (r : resource) | Closes (r : resource).
Fixpoint left_open (l : list opening) (open : list resource) : list resource :=
  match l with
  | [] => open
  | Opens r :: rest => left_open rest (open ++ [r])
  | Closes r :: rest => left_open rest (List.filter (fun x => negb (bool_decide (x = r))) open)
  end.

(** The answers of what is outside. *)
Record outside := mkOutside {
  ou_parses : string -> bool; ou_pool : string -> Z -> bool; ou_ping : bool;
  ou_loads : Files -> bool; ou_holds : string -> bool; ou_seed : string -> bool;
  ou_connects : string -> list nats_option -> bool; ou_jetstream : bool;
  ou_subscriber : bool; ou_publisher : bool; ou_forwarder : bool }.

Section Forwarder.
  Context (o : outside).

Definition natsCredentials (cfg : ForwarderConfig) : res (option nats_option) :=
  if String.eqb (fc_NATSCredsFile cfg) "" then Ok None
  else if fc_NATSCredsNKey cfg then
    if ou_seed o (fc_NATSCredsFile cfg) then Ok (Some (NkeyOptionFromSeed (fc_NATSCredsFile cfg))) else Fail ErrOther
  else Ok (Some (UserCredentials (fc_NATSCredsFile cfg))).

Definition ForwarderTopic : string := "outbox".
Definition subscriber_config (cfg : ForwarderConfig) : SubscriberConfig :=
  mkSubscriberConfig (fc_ConsumerGroup cfg) (fc_AckDeadline cfg) (fc_PollInterval cfg) (fc_ResendInterval cfg)
    (fc_PollInterval cfg) (fc_BatchSize cfg) false.
Definition nats_options (cfg : ForwarderConfig) (creds : option nats_option) : list nats_option :=
  [Name (fc_NATSName cfg); Timeout (fc_PublishTimeout cfg); MaxReconnects (-1); RetryOnFailedConnect false]
  ++ match fc_NATSTLS cfg with Some t => [Secure t] | None => [] end
  ++ match creds with Some c => [c] | None => [] end.
(** A step that fails closes the connection before it answers. *)
Definition NewForwarder (cfg : ForwarderConfig) : res Forwarder * list opening :=
  match natsCredentials cfg with
  | Err e => (Err e, [])
  | Ok creds =>
      let opts := nats_options cfg creds in
      if negb (ou_connects o (fc_NATSURL cfg) opts) then (Fail ErrOther, [])
      else if negb (ou_jetstream o) then (Fail ErrOther, [Opens NatsConn; Closes NatsConn])
      else if negb (ou_subscriber o) then (Fail ErrOther, [Opens NatsConn; Closes NatsConn])
      else if negb (ou_publisher o) then (Fail ErrOther, [Opens NatsConn; Closes NatsConn])
      else if negb (ou_forwarder o) then (Fail ErrOther, [Opens NatsConn; Closes NatsConn])
      else (Ok (mkForwarder (fc_NATSURL cfg) opts (subscriber_config cfg) ForwarderTopic (fc_CloseTimeout cfg)), [Opens NatsConn])
  end.

(** ** The runtime of a generation *)

Record runtime := mkRuntime { rt_gen : Generation; rt_url : string; rt_MaxConns : Z; rt_forwarder : option Forwarder }.
Definition forwarder_config (c : Config) (tls : option transport) : ForwarderConfig :=
  let b := c_Outbox c in let n := ob_NATS b in
  mkForwarderConfig (ob_ConsumerGroup b) (ob_PollInterval b) (ob_AckDeadline b) (ob_ResendInterval b) (ob_BatchSize b)
    (na_URL n) (na_Name n) (na_PublishTimeout n) (rl_DrainLimit (c_Reload c)) tls (na_CredsFile n)
    (String.eqb (na_CredsKind n) NATSCredsNKey).
(** The transport of the NATS connection; none is plaintext. *)
Definition nats_tls (c : Config) : res (option transport) :=
  let t := na_TLS (ob_NATS (c_Outbox c)) in
  if String.eqb (ct_Mode t) "development" then if negb (c_Development c) then Fail ErrOther else Ok None
  else s ← clientTLSConfig (ou_loads o) (ou_holds o) t; Ok (Some s).
(** The forwarder of a generation. *)
Definition build_forwarder (c : Config) : res (option Forwarder) * list opening :=
  if negb (ob_ForwarderEnabled (c_Outbox c)) then (Ok None, [])
  else match nats_tls c with
       | Err e => (Err e, [])
       | Ok tls => let '(f, opened) := NewForwarder (forwarder_config c tls) in
                   (match f with Ok f => Ok (Some f) | Err e => Err e end, opened)
       end.
(** [buildRuntime]: once the pool exists, the deferred function closes it when
    an error is answered. *)
Definition build (gen : Generation) : res runtime * list opening :=
  let c := gn_Config gen in let url := db_URL (c_Database c) in let conns := db_MaxConn (c_Database c) in
  if negb (ou_parses o url) then (Fail ErrOther, [])
  else if negb (ou_pool o url conns) then (Fail ErrOther, [])
  else
    let '(r, opened) := if negb (ou_ping o) then (Fail ErrOther, []) else build_forwarder c in
    match r with
    | Err e => (Err e, Opens DatabasePool :: opened ++ [Closes DatabasePool])
    | Ok f => (Ok (mkRuntime gen url conns f), Opens DatabasePool :: opened)
    end.

(** ** What is left open *)

Lemma NewForwarder_open cfg open : NatsConn ∉ open ->
  left_open (NewForwarder cfg).2 open = match (NewForwarder cfg).1 with Ok _ => open ++ [NatsConn] | Err _ => open end.
Proof.
  intros Hn. assert (left_open [Opens NatsConn; Closes NatsConn] open = open) as E.
  { cbn. rewrite List.filter_app. cbn. rewrite app_nil_r. induction open as [|x l IH]; [done|]. apply not_elem_of_cons in Hn as [Hx Hl].
    cbn. rewrite bool_decide_eq_false_2 by done. cbn. by rewrite IH. }
  unfold NewForwarder. destruct (natsCredentials cfg); [|done].
  repeat (destruct (negb _); [cbn [fst snd]; first [exact E | reflexivity]|]). done.
Qed.
Lemma build_forwarder_open c open : NatsConn ∉ open ->
  left_open (build_forwarder c).2 open = match (build_forwarder c).1 with Ok (Some _) => open ++ [NatsConn] | _ => open end.
Proof.
  intros Hn. unfold build_forwarder. destruct (negb _); [done|]. destruct (nats_tls c) as [tls|]; [|done].
  pose proof (NewForwarder_open (forwarder_config c tls) open Hn) as H. destruct (NewForwarder _) as [[f|e] l]; exact H.
Qed.
Lemma left_open_app l1 l2 open : left_open (l1 ++ l2) open = left_open l2 (left_open l1 open).
Proof. revert open. induction l1 as [|[r|r] l1 IH]; intros open; cbn; [done|apply IH..]. Qed.

(** A forwarder's connection, outside development. *)
Lemma forwarder_options c f l : build_forwarder c = (Ok (Some f), l) -> validate c = [] -> c_Development c = false ->
  (exists ca name client, Secure (TLS13 ca name client) ∈ fw_options f) /\
  exists x, x ∈ fw_options f /\ (x = NkeyOptionFromSeed (na_CredsFile (ob_NATS (c_Outbox c))) \/
    x = UserCredentials (na_CredsFile (ob_NATS (c_Outbox c)))).
Proof.
  unfold build_forwarder. intros H Hv Hd. destruct (ob_ForwarderEnabled (c_Outbox c)) eqn:En; [|done]. cbn [negb] in H.
  destruct (valid_forwarder c Hv En Hd) as [_ Hc]. unfold nats_tls in H. rewrite Hd in H.
  destruct (String.eqb _ "development"); [done|]. destruct (clientTLSConfig _ _ _) as [t|] eqn:Et; [|done]. cbn in H.
  assert (exists ca name client, t = TLS13 ca name client) as (ca & name & client & ->).
  { unfold clientTLSConfig in Et. destruct (String.eqb _ "tls"); [destruct (ou_holds _ _); [injection Et as <-; eauto|done]|].
    destruct (String.eqb _ "mtls"); [|done]. destruct (ou_loads _ _); [injection Et as <-; eauto|done]. }
  unfold NewForwarder in H. destruct (natsCredentials _) as [creds|] eqn:Ec; [|done].
  repeat (destruct (negb _) in H; [done|]). injection H as <- _. cbn [fw_options]. unfold nats_options. cbn [fc_NATSTLS forwarder_config]. split.
  - exists ca, name, client. apply elem_of_app. right. apply elem_of_app. left. by left.
  - unfold natsCredentials in Ec. cbn [fc_NATSCredsFile fc_NATSCredsNKey forwarder_config] in Ec. unfold set in Hc.
    destruct (String.eqb _ ""); [done|].
    assert (exists x, creds = Some x /\ (x = NkeyOptionFromSeed (na_CredsFile (ob_NATS (c_Outbox c))) \/
      x = UserCredentials (na_CredsFile (ob_NATS (c_Outbox c))))) as (x & -> & Hx).
    { destruct (String.eqb (na_CredsKind _) _); [destruct (ou_seed _ _); [|done]|]; injection Ec as <-; eauto. }
    exists x. split; [|done]. apply elem_of_app. right. apply elem_of_app. right. by left.
Qed.

(** A built generation leaves nothing behind. Whatever the database, NATS and
    the libraries answer, a generation that could not be built leaves neither
    its pool nor its NATS connection open, and one that was built leaves exactly
    the pool and, with a forwarder, the connection. The construction succeeds
    only where the reload machine's guard lets it. Outside development the NATS
    connection of a valid configuration is TLS and presents its credential. *)
Theorem build_leaves_nothing_behind gen :
  let '(r, l) := build gen in
  match r with
  | Err _ => left_open l [] = []
  | Ok rt =>
      left_open l [] = DatabasePool :: match rt_forwarder rt with Some _ => [NatsConn] | None => [] end /\
      buildRuntime (fun g => match (build g).1 with Ok _ => true | Err _ => false end) gen = Ok tt /\
      rt_gen rt = gen /\ (is_Some (rt_forwarder rt) <-> ob_ForwarderEnabled (c_Outbox (gn_Config gen)) = true) /\
      (validate (gn_Config gen) = [] -> c_Development (gn_Config gen) = false -> forall f, rt_forwarder rt = Some f ->
        (exists ca name client, Secure (TLS13 ca name client) ∈ fw_options f) /\
        exists x, x ∈ fw_options f /\ (x = NkeyOptionFromSeed (na_CredsFile (ob_NATS (c_Outbox (gn_Config gen)))) \/
          x = UserCredentials (na_CredsFile (ob_NATS (c_Outbox (gn_Config gen))))))
  end.
Proof.
  set (c := gn_Config gen). assert (forall r l, build gen = (r, l) -> match r with Ok _ => buildRuntime
    (fun g => match (build g).1 with Ok _ => true | Err _ => false end) gen = Ok tt | Err _ => True end) as Href.
  { intros [rt|] l E; [|done]. unfold buildRuntime. rewrite E. fold c. cbn [fst].
    destruct (_ && _) eqn:G; [|done]. apply andb_true_iff in G as [[G1 G2]%andb_true_iff G3]. unfold build, build_forwarder, nats_tls in E.
    fold c in E. rewrite G1, G2, G3 in E. cbn [negb] in E. repeat (destruct (negb _) in E; [done|]). done. }
  specialize (Href _ _ (surjective_pairing (build gen))). destruct (build gen) as [r l] eqn:E. cbn [fst snd] in Href.
  unfold build in E. fold c in E. destruct (negb (ou_parses _ _)); [by injection E as <- <-|].
  destruct (negb (ou_pool _ _ _)); [by injection E as <- <-|]. destruct (negb (ou_ping o)); [by injection E as <- <-|].
  pose proof (build_forwarder_open c [DatabasePool] ltac:(intros H%list_elem_of_singleton; done)) as Ho.
  destruct (build_forwarder c) as [[f|e] opened] eqn:Ef; cbn [fst snd] in Ho; injection E as <- <-.
  - cbn [left_open app rt_forwarder rt_gen]. rewrite Ho. split_and!; [by destruct f|done|done| |].
    + unfold build_forwarder in Ef. destruct (ob_ForwarderEnabled (c_Outbox c)); cbn [negb] in Ef.
      * destruct (nats_tls c); [|done]. destruct (NewForwarder _) as [[x|] ?]; [|done]. injection Ef as <- _. by split; [|eexists].
      * injection Ef as <- _. split; [by intros [? ?]|done].
    + intros Hv Hd x ->. by eapply forwarder_options.
  - change (left_open (Opens DatabasePool :: opened ++ [Closes DatabasePool]) []) with (left_open (opened ++ [Closes DatabasePool]) [DatabasePool]).
    by rewrite left_open_app, Ho.
Qed.
End Forwarder.

(** ** Closing *)

(** [Forwarder.Close]: the router, the subscriber, the connection, each also
    when one before it failed; the router's error is answered. *)
Inductive part := Router | Subscriber | Connection.
Definition Close (closes : part -> res unit) : list part * res unit := ([Router; Subscriber; Connection], closes Router).
(** [countingPublisher.Publish]: the messages forwarded and the failures. *)
Definition Publish (published : res unit) (msgs : list string) (counts : Z * Z) : res unit * (Z * Z) :=
  match published with
  | Err e => (Err e, (counts.1, counts.2 + 1))
  | Ok u => (Ok u, (counts.1 + Z.of_nat (List.length msgs), counts.2))
  end.

(** ** The event consumer *)

(** One turn of its loop: no consumer, one that cannot consume, or one that
    handed on messages until it closed. *)
Inductive turn := NoConsumer | NoConsume | Consumed (messages : list string).
Definition first_backoff : Duration := Second.
(** The messages handed on and the waits between the turns. *)
Fixpoint Consume (turns : list turn) (backoff : Duration) : list string * list Duration :=
  match turns with
  | [] => ([], [])
  | Consumed messages :: rest => let '(l, waits) := Consume rest first_backoff in (messages ++ l, waits)
  | (NoConsumer | NoConsume) :: rest =>
      let '(l, waits) := Consume rest (if backoff <? 30 * Second then backoff * 2 else backoff) in (l, backoff :: waits)
  end.

(** The waits double from one second and end at 32. *)
Definition wait_after (n : nat) : Duration := Z.min (2 ^ Z.of_nat n) 32 * Second.
Lemma wait_next n : (if wait_after n <? 30 * Second then wait_after n * 2 else wait_after n) = wait_after (S n).
Proof.
  unfold wait_after. assert (0 < Second) as Hs by done. rewrite Nat2Z.inj_succ, Z.pow_succ_r by lia.
  destruct (Z.le_gt_cases (2 ^ Z.of_nat n) 16) as [Hn|Hn].
  - rewrite (proj2 (Z.ltb_lt _ _)); nia.
  - assert (32 <= 2 ^ Z.of_nat n) as H32.
    { assert (4 < Z.of_nat n) as H4; [|change 32 with (2 ^ 5); apply Z.pow_le_mono_r; lia].
      apply Z.nle_gt. intros H4. change 16 with (2 ^ 4) in Hn. pose proof (Z.pow_le_mono_r 2 (Z.of_nat n) 4). lia. }
    rewrite (proj2 (Z.ltb_ge _ _)); nia.
Qed.
Theorem consumer_backs_off turns n :
  Forall (fun w => exists k : nat, w = wait_after k) (Consume turns (wait_after n)).2 /\
  (Consume turns (wait_after n)).1 = flat_map (fun t => match t with Consumed l => l | _ => [] end) turns.
Proof.
  revert n. induction turns as [|[| |l] turns IH]; intros n; cbn [Consume flat_map]; [by split; [constructor|]|..].
  1,2: rewrite wait_next; destruct (IH (S n)) as [Hw Hl]; destruct (Consume turns _); split; [constructor; [by exists n|exact Hw]|exact Hl].
  destruct (IH 0%nat) as [Hw Hl]. change first_backoff with (wait_after 0). destruct (Consume turns _). split; [exact Hw|]. cbn in *. by rewrite Hl.
Qed.
