(* ===== verification/Commands.v ===== *)
(** * Commands: the entry points of the binary ([cmd/anvilkit-agent-mcp], [internal/bootstrap/reconcile.go])

    The dispatch of [main.go] with its exit codes, the operator's [reconcile]
    with what it assembles before the use case runs, and the owner's
    [local-check] of a development build ([localcheck.go]).  Flags are read by
    the standard library, so a command takes them as they were parsed. *)

From S2P Require Import Prelude Errors GoStrings GoTrim GoCrypto GoJson GoBase64 GoNum GoUrl UrlText GoScan JsonText GoRaw Config Task Catalog Grant Call Event App Wire WireSpec Rows Sql Prog Ports Assembly Calls Tasks ConfigLoad.
From Stdlib Require Import Ascii.

(** ** Dispatch *)

Inductive entry := ServiceEntry | Subcommand (name : string) (args : list string) | UnknownCommand.
(** [os.Args] without the program's name; a tagged build has [local-check]. *)
Definition entry_of (tagged : bool) (args : list string) : entry :=
  match args with
  | [] => ServiceEntry
  | name :: rest =>
      if String.eqb name "reconcile" || tagged && String.eqb name "local-check" then Subcommand name rest else UnknownCommand
  end.
(** The exit code: of an unknown command, of a command's result, and of the
    service, which is built, started and stopped. *)
Definition unknown_exit : Z := 2.
Definition command_exit (r : res string) : Z := match r with Ok _ => 0 | Err _ => 1 end.
Definition service_exit (built started stopped : bool) : Z := if built && started && stopped then 0 else 1.

(** ** [reconcile] *)

Definition callID_of (args : list string) : res string :=
  match args with [id] => if String.eqb id "" then Fail ErrOther else Ok id | _ => Fail ErrOther end.
Definition call_text (s : CallState) : string :=
  match s with
  | CallAccepted => "accepted" | CallAdmitted => "admitted" | CallSent => "sent" | CallSucceeded => "succeeded"
  | CallFailed => "failed" | CallDenied => "denied" | CallUnknown => "unknown" | CallCanceled => "canceled"
  end.
Definition newline : string := String (ascii_of_N 10) "".
Definition reconcile_output (c : Call) : string :=
  Marshal (jmap ([("callId", JStr (c_CallID c)); ("state", JStr (call_text (c_State c))); ("failureCode", JStr (c_FailureCode c));
                  ("dispatchId", JStr (c_DispatchID c)); ("serverId", JStr (c_ServerID c));
                  ("observed", JBool (negb (bool_decide (c_ObservedAt c = None))))]
                 ++ if bool_decide (c_State c = CallUnknown)
                    then [("note", JStr "Control has not resolved the original identity; the server stays RECOVERY_RESTRICTED")] else []))
  +:+ newline.

(** [bootstrap.ReconcileCall]: the configuration, a Control placement, the
    pool, the workload identity, the transport and the client, in this order;
    the use case has no upstream, no token source and no route. *)
Section Reconcile.
  Context (loads : Files -> bool) (pool : string -> bool) (dials : string -> transport -> bool).
Definition reconcile_transport (load : res Config.Config) : res (Config.Config * transport) :=
  c ← load;
  if String.eqb (co_Address (c_Control c)) "" then Fail ErrOther
  else if negb (pool (db_URL (c_Database c))) then Fail ErrOther
  else
    w ← newWorkloadIdentity loads c;
    t ← controlTransport loads w c;
    if dials (co_Address (c_Control c)) t then Ok (c, t) else Fail ErrOther.
Definition reconcile_options (c : Config.Config) : CallOptions :=
  mkCallOptions (cl_SendTimeout (c_Calls c)) (cl_ReconcileAge (c_Calls c)) 0 0.
Definition reconcile (self : nat) (load : res Config.Config) (args : list string) : proc (res string) :=
  match callID_of args with
  | Err e => Ret (Err e)
  | Ok id =>
      match reconcile_transport load with
      | Err e => Ret (Err e)
      | Ok (c, _) =>
          r ← ReconcileCall self [] (reconcile_options c) id;
          Ret (match r with Err e => Err e | Ok call => Ok (reconcile_output call) end)
      end
  end.
End Reconcile.

(** ** [base64.StdEncoding.EncodeToString] *)

Definition std_alphabet : string := "ABCDEFGHIJKLMNOPQRSTUVWXYZabcdefghijklmnopqrstuvwxyz0123456789+/".
Definition std_char (v : Z) : Z := default 0 (bytes_of std_alphabet !! Z.to_nat v).
Fixpoint std_encode (l : list Z) : list Z :=
  match l with
  | a :: b :: c :: r =>
      std_char (a / 4) :: std_char (a mod 4 * 16 + b / 16) :: std_char (b mod 16 * 4 + c / 64) :: std_char (c mod 64) :: std_encode r
  | [a; b] => [std_char (a / 4); std_char (a mod 4 * 16 + b / 16); std_char (b mod 16 * 4); 61]
  | [a] => [std_char (a / 4); std_char (a mod 4 * 16); 61; 61]
  | [] => []
  end.
Definition base64_EncodeToString (s : string) : string := string_of_bytes (std_encode (bytes_of s)).

(** ** [local-check] *)

Record flags := mkFlags {
  fg_taskID : string; fg_tenant : string; fg_grant : string; fg_bytes : string; fg_holdMs : Z; fg_fail : bool;
  fg_wrong : bool; fg_effects : string; fg_dispatch : string }.
(** The defaults of the flag set. *)
Definition default_flags : flags := mkFlags "" "tenant_a" "" "hello" 0 false false EffectsReconstructible "".
(** [json.Marshal] of the [LocalCheckInput]. *)
Definition local_check_members (fl : flags) : list (string * json) :=
  [("schemaVersion", jint 1); ("computation", JStr LocalCheckProfile); ("bytes", JStr (base64_EncodeToString (fg_bytes fl)))]
  ++ (if fg_holdMs fl =? 0 then [] else [("holdMs", jint (fg_holdMs fl))])
  ++ (if fg_fail fl then [("fail", JBool true)] else [])
  ++ (if fg_wrong fl then [("wrongDigest", JBool true)] else []).
Definition local_check_input (fl : flags) : string := Marshal (JObj (local_check_members fl)).
Definition local_check_request (fl : flags) (uuid uuid' : string) : res RequestInput :=
  let taskID := if String.eqb (fg_taskID fl) "" then "task_" +:+ uuid else fg_taskID fl in
  if String.eqb (fg_grant fl) "" then Fail ErrOther
  else Ok (mkRequestInput taskID (fg_tenant fl) KindLocalCheck LocalCheckProfile (local_check_input fl) (fg_effects fl)
             (fg_dispatch fl) ("grant:" +:+ fg_grant fl) ("local-check-" +:+ uuid')).
Definition task_text (s : TaskState) : string :=
  match s with
  | StatePending => "pending" | StateLeased => "leased" | StateResultSubmitted => "result_submitted" | StateAccepted => "accepted"
  | StateRetryScheduled => "retry_scheduled" | StateDead => "dead" | StateStale => "stale" | StateCanceled => "canceled"
  end.
Definition request_output (t : Task) (existing : bool) : list (string * json) :=
  let '(ref, digest) := match ExpectedResult t with Ok p => p | Err _ => ("", "") end in
  [("taskId", JStr (t_TaskID t)); ("generation", jint (t_Generation t)); ("inputDigest", JStr (t_InputDigest t));
   ("existing", JBool existing); ("expectedResultRef", JStr ref); ("expectedResultDigest", JStr digest)].
Definition cancel_output (t : Task) (changed : bool) : list (string * json) :=
  [("taskId", JStr (t_TaskID t)); ("generation", jint (t_Generation t)); ("state", JStr (task_text (t_State t))); ("changed", JBool changed)].
Definition get_output (t : Task) : list (string * json) :=
  [("taskId", JStr (t_TaskID t)); ("generation", jint (t_Generation t)); ("state", JStr (task_text (t_State t)));
   ("attemptCount", jint (t_AttemptCount t)); ("workerId", JStr (t_WorkerID t)); ("resultDigest", JStr (t_ResultDigest t));
   ("failureCode", JStr (t_FailureCode t)); ("revision", jint (t_Revision t))].
Definition encoded (kv : list (string * json)) : string := Marshal (jmap kv) +:+ newline.

(** The command's transaction, once its flags are parsed and the pool is open:
    its bounds are the configuration's, and it has no expiry. *)
Section LocalCheck.
  Context `{Jsonb}.
Definition local_config (c : TaskBounds) : Tasks.Config :=
  mkConfig (mkBounds (tk_MaxInputBytes c) (tk_MaxLease c) (tk_RetryDelay c) (tk_MaxAttempts c)) None.
Definition localCheck (c : TaskBounds) (name : string) (fl : flags) (uuid uuid' eventID : string) (now0 now now1 now2 : Time) : tx string :=
  if String.eqb name "request" then
    inp ← lift (local_check_request fl uuid uuid');
    '(t, existing) ← Tasks.Request (local_config c) inp eventID now0 now now1 now2;
    mret (encoded (request_output t existing))
  else if String.eqb name "cancel" then
    '(t, changed) ← Tasks.Cancel (fg_taskID fl) now; mret (encoded (cancel_output t changed))
  else if String.eqb name "get" then
    t ← Tasks.Get (fg_taskID fl); mret (encoded (get_output t))
  else TxFail ErrOther.
End LocalCheck.

(** ** What a local check expects *)

Lemma std_char_table : forallb (fun v => bool_decide (base64_value (byte_of_Z (std_char v)) = Some v) &&
  negb ((std_char v =? 10) || (std_char v =? 13)) && (0 <=? std_char v) && (std_char v <? 128)) below64 = true.
Proof. vm_compute. reflexivity. Qed.
Lemma std_char_ok v : 0 <= v < 64 -> base64_value (byte_of_Z (std_char v)) = Some v /\
  ((std_char v =? 10) || (std_char v =? 13)) = false /\ 0 <= std_char v < 128.
Proof.
  intros Hv. pose proof std_char_table as Ht. rewrite forallb_forall in Ht.
  assert (In v below64) as Hin.
  { unfold below64. apply in_map_iff. exists (Z.to_nat v). split; [lia|]. apply in_seq. lia. }
  apply Ht in Hin. rewrite !andb_true_iff, negb_true_iff, Z.leb_le, Z.ltb_lt in Hin.
  destruct Hin as [[[Hval%bool_decide_eq_true Hlb] H0] H1]. split_and!; done.
Qed.
Lemma std_bytes l : Forall is_byte l -> Forall (fun b => ((b =? 10) || (b =? 13)) = false /\ 0 <= b < 128) (std_encode l).
Proof.
  assert (forall v, 0 <= v < 64 -> ((std_char v =? 10) || (std_char v =? 13)) = false /\ 0 <= std_char v < 128) as Hc
    by (intros v Hv; apply (std_char_ok v Hv)).
  revert l. fix IH 1. intros [|a [|b [|c r]]] Hl; rewrite ?Forall_cons in Hl; unfold is_byte in Hl; destruct_and?; cbn;
    repeat constructor; try (apply Hc; div_mod); try lia. by apply IH.
Qed.
Lemma std_quanta l : Forall is_byte l -> base64_quanta (std_encode l) = Some l.
Proof.
  assert (forall v, 0 <= v < 64 -> base64_value (byte_of_Z (std_char v)) = Some v) as Hc by (intros v Hv; apply (std_char_ok v Hv)).
  assert (base64_value (byte_of_Z 61) = None) as Hpad by reflexivity.
  revert l. fix IH 1. intros [|a [|b [|c r]]] Hl; rewrite ?Forall_cons in Hl; unfold is_byte in Hl; destruct_and?;
    cbn [std_encode base64_quanta]; [done|..]; rewrite ?Hpad, !Hc by div_mod.
  - cbn. repeat f_equal; div_mod.
  - cbn. repeat f_equal; div_mod.
  - rewrite IH by done. repeat f_equal; div_mod.
Qed.
Lemma base64_skip_id l : Forall (fun b => ((b =? 10) || (b =? 13)) = false) l -> base64_skip l = l.
Proof. induction 1 as [|b l Hb _ IH]; [done|]. unfold base64_skip in *. cbn. rewrite Hb. cbn. by rewrite IH. Qed.
Lemma DecodeString_std s : base64_DecodeString (base64_EncodeToString s) = Some s.
Proof.
  unfold base64_DecodeString, base64_EncodeToString. pose proof (std_bytes _ (bytes_of_bytes s)) as Hb. rewrite bytes_of_string.
  - rewrite base64_skip_id by (eapply Forall_impl; [exact Hb|by intros b []]). rewrite std_quanta by apply bytes_of_bytes.
    cbn. by rewrite string_of_bytes_of.
  - eapply Forall_impl; [exact Hb|]. intros b [_ Hb']. unfold is_byte. lia.
Qed.
Lemma std_valid s : ValidString (base64_EncodeToString s) = true.
Proof.
  pose proof (std_bytes _ (bytes_of_bytes s)) as Hb. apply valid_ascii. unfold base64_EncodeToString. rewrite bytes_of_string.
  - eapply Forall_impl; [exact Hb|by intros b []].
  - eapply Forall_impl; [exact Hb|]. intros b [_ Hb']. unfold is_byte. lia.
Qed.
Lemma local_input_read fl : is_i64 (fg_holdMs fl) ->
  unmarshal_local_check (local_check_input fl) =
  Some (mkLocalCheckInput 1 LocalCheckProfile (base64_EncodeToString (fg_bytes fl)) (fg_holdMs fl) (fg_fail fl) (fg_wrong fl)).
Proof.
  intros Hh. assert (ParseInt (format_int 1) = Some 1) as H1 by reflexivity. pose proof (ParseInt_format _ Hh) as H2.
  unfold unmarshal_local_check, local_check_input. rewrite Parse_Marshal.
  - unfold local_check_members, jint. destruct (fg_holdMs fl =? 0) eqn:E; breflect; destruct (fg_fail fl), (fg_wrong fl); cbn -[ParseInt format_int];
      rewrite ?H1; cbn -[ParseInt format_int]; rewrite ?H2, ?E; reflexivity.
  - unfold local_check_members, jint. destruct (fg_holdMs fl =? 0), (fg_fail fl), (fg_wrong fl); cbn -[ValidString number_text format_int];
      rewrite ?std_valid, ?number_text_int; done.
  - unfold local_check_members. by destruct (fg_holdMs fl =? 0), (fg_fail fl), (fg_wrong fl).
Qed.

(** A local check expects the digest of its payload. When the database keeps
    the values of the frozen input, a new request made by the command has, as
    its expected result, a reference to its own generation and the SHA-256 of
    the bytes given on the command line, and the command answers both. *)
Section LocalCheckSpec.
  Context `{Jsonb}.
Lemma commitRequest_commits cfg c eventID now now1 now2 d t b d' :
  commitRequest cfg c eventID now now1 now2 d = Ok ((t, b), d') -> t = c.
Proof.
  unfold commitRequest. intros (auth & d1 & _ & Hx)%tx_bind_Ok. destruct (negb _); [by apply tx_fail_Ok in Hx|].
  apply tx_bind_Ok in Hx as (? & d2 & _ & Hx). apply tx_bind_Ok in Hx as (? & d3 & _ & Hx).
  by apply tx_bind_Ok in Hx as (? & d4 & _ & [[= -> _] _]%mret_Ok).
Qed.
Lemma Request_input cfg inp eventID now0 now now1 now2 d t d' : Tasks.Request cfg inp eventID now0 now now1 now2 d = Ok ((t, false), d') ->
  jsonb_text (in_Input inp) = Some (t_Input t) /\ t_ResultProfile t = in_Profile inp /\ t_TaskID t = in_TaskID inp.
Proof.
  unfold Tasks.Request. intros (u & d1 & [_ ->]%lift_Ok & Hr)%tx_bind_Ok.
  destruct (_ <? len _)%Z; [by apply tx_fail_Ok in Hr|].
  apply tx_bind_Ok in Hr as (canonical & d1 & [Hc ->]%unwrap_Ok%gets_Ok & Hr).
  apply tx_bind_Ok in Hr as (cand & d1 & [(_ & _ & _ & ->)%NewRequest_inv ->]%lift_Ok & Hr).
  apply tx_bind_Ok in Hr as (latest & d1 & [_ ->]%gets_Ok & Hr). cbv zeta in Hr.
  destruct latest as [row|]; [|by apply commitRequest_commits in Hr as ->].
  destruct (negb _); [by apply tx_fail_Ok in Hr|]. destruct (String.eqb _ _); [by apply mret_Ok in Hr as [[=] _]|].
  destruct (Supersede _) as [fenced changed]. apply tx_bind_Ok in Hr as (? & d7 & _ & Hr).
  by apply commitRequest_commits in Hr as ->.
Qed.
Theorem local_check_expects_its_payload c fl uuid uuid' eventID now0 now now1 now2 d out d' :
  is_i64 (fg_holdMs fl) ->
  (forall frozen, jsonb_text (local_check_input fl) = Some frozen -> unmarshal_local_check frozen = unmarshal_local_check (local_check_input fl)) ->
  localCheck c "request" fl uuid uuid' eventID now0 now now1 now2 d = Ok (out, d') ->
  exists t existing, out = encoded (request_output t existing) /\
    (existing = false -> ExpectedResult t =
      Ok ("local-check:" +:+ t_TaskID t +:+ ":" +:+ format_int (t_Generation t), sha256_hex (fg_bytes fl))).
Proof.
  intros Hh Hkeep Hr. unfold localCheck in Hr. cbn [String.eqb Ascii.eqb Bool.eqb] in Hr.
  apply tx_bind_Ok in Hr as (inp & d1 & [Hi ->]%lift_Ok & Hr). apply tx_bind_Ok in Hr as ([t existing] & d1 & Hq & [-> _]%mret_Ok).
  exists t, existing. split; [done|]. intros ->. unfold local_check_request in Hi. cbv zeta in Hi. destruct (String.eqb (fg_grant fl) ""); [done|].
  injection Hi as <-. apply Request_input in Hq as (Hj & Hp & _). cbn in Hj, Hp. apply Hkeep in Hj. rewrite local_input_read in Hj by done.
  unfold ExpectedResult, expectedResult. rewrite Hp. cbn [String.eqb Ascii.eqb Bool.eqb]. rewrite Hj. cbn [li_Bytes]. by rewrite DecodeString_std.
Qed.
End LocalCheckSpec.
