(* ===== verification/Observe.v ===== *)
(** * Observe: the service's gauges ([internal/application/metrics.go], [tasks.go])

    The collectors [NewMetrics] registers, and [Tasks.Observe], which refreshes
    the gauges of the stored requests, the outbox and the unknown calls from
    four queries.  A query that fails leaves its gauges as they were.  Ages are
    kept as durations; their reading as floating-point seconds is left out. *)

From S2P Require Import Prelude Errors GoStrings GoJson Task Call Event Rows Sql SqlCalls Retention Commands.

(** ** The collectors *)

Inductive collector := GaugeOf | CounterOf | GaugeVec (label : string) | CounterVec (label : string) | HistogramVec (label : string).
Inductive metric :=
| Requests | Claims | Submissions | LeaseOverruns | OverdueRetries | OutboxOldest | Forwarded | ForwardFailures
| ConfigGeneration | ConfigRejections | ConfigRotations | DrainSeconds | ForcedStop | PoolAcquired | PoolTotal
| DispatchQueries | GrantTransitions | CallTransitions | EventProjections | UnknownCalls | RestrictedServers
| UnknownOldest | RestrictedRefusals | DeliveryPruned | RevocationSeconds.
#[export] Instance metric_eq_dec : EqDecision metric.
Proof. solve_decision. Defined.
Definition metric_name (m : metric) : string :=
  match m with
  | Requests => "anvilkit_mcp_background_requests" | Claims => "anvilkit_mcp_background_claims_total"
  | Submissions => "anvilkit_mcp_background_submissions_total" | LeaseOverruns => "anvilkit_mcp_background_lease_overruns_total"
  | OverdueRetries => "anvilkit_mcp_background_overdue_retries" | OutboxOldest => "anvilkit_mcp_outbox_oldest_unforwarded_seconds"
  | Forwarded => "anvilkit_mcp_outbox_forwarded_total" | ForwardFailures => "anvilkit_mcp_outbox_forward_failures_total"
  | ConfigGeneration => "anvilkit_mcp_config_generation" | ConfigRejections => "anvilkit_mcp_config_rejections_total"
  | ConfigRotations => "anvilkit_mcp_config_rotations_total" | DrainSeconds => "anvilkit_mcp_shutdown_drain_seconds"
  | ForcedStop => "anvilkit_mcp_shutdown_forced" | PoolAcquired => "anvilkit_mcp_db_pool_acquired_connections"
  | PoolTotal => "anvilkit_mcp_db_pool_total_connections" | DispatchQueries => "anvilkit_mcp_background_dispatch_queries_total"
  | GrantTransitions => "anvilkit_mcp_grant_transitions_total" | CallTransitions => "anvilkit_mcp_tool_call_transitions_total"
  | EventProjections => "anvilkit_mcp_event_projections_total" | UnknownCalls => "anvilkit_mcp_tool_calls_unknown"
  | RestrictedServers => "anvilkit_mcp_recovery_restricted_servers" | UnknownOldest => "anvilkit_mcp_tool_call_unknown_oldest_seconds"
  | RestrictedRefusals => "anvilkit_mcp_recovery_restricted_refusals_total" | DeliveryPruned => "anvilkit_mcp_delivery_pruned_total"
  | RevocationSeconds => "anvilkit_mcp_grant_revocation_seconds"
  end.
Definition metric_collector (m : metric) : collector :=
  match m with
  | Requests => GaugeVec "state"
  | Claims | Submissions => CounterVec "outcome"
  | LeaseOverruns | Forwarded | ForwardFailures | ConfigRejections | ConfigRotations | RestrictedRefusals => CounterOf
  | OverdueRetries | OutboxOldest | ConfigGeneration | DrainSeconds | ForcedStop | PoolAcquired | PoolTotal
  | UnknownCalls | RestrictedServers | UnknownOldest => GaugeOf
  | DispatchQueries => CounterVec "answer"
  | GrantTransitions | CallTransitions => CounterVec "state"
  | EventProjections => CounterVec "outcome"
  | DeliveryPruned => CounterVec "table"
  | RevocationSeconds => HistogramVec "stage"
  end.
(** The order [NewMetrics] registers them in; the registry panics on a name it
    already has. *)
Definition registered : list metric :=
  [Requests; Claims; Submissions; LeaseOverruns; OverdueRetries; OutboxOldest; Forwarded; ForwardFailures; ConfigGeneration;
   ConfigRejections; ConfigRotations; DrainSeconds; ForcedStop; PoolAcquired; PoolTotal; DispatchQueries; GrantTransitions;
   CallTransitions; EventProjections; UnknownCalls; RestrictedServers; UnknownOldest; RestrictedRefusals; DeliveryPruned; RevocationSeconds].
Fixpoint MustRegister (ms : list metric) (taken : list string) : option (list string) :=
  match ms with
  | [] => Some taken
  | m :: rest => if bool_decide (metric_name m ∈ taken) then None else MustRegister rest (metric_name m :: taken)
  end.
(** Every collector is registered, once, and registering them does not panic
    on the empty registry. *)
Lemma NewMetrics_registers : (exists names, MustRegister registered [] = Some names) /\ (forall m, m ∈ registered) /\ NoDup registered.
Proof.
  split_and!; [eexists; vm_compute; reflexivity|intros m; apply (bool_decide_unpack _); by destruct m|].
  apply (bool_decide_unpack _). vm_compute. exact I.
Qed.

(** ** The queries *)

Definition observed_states : list TaskState :=
  [StatePending; StateLeased; StateResultSubmitted; StateAccepted; StateRetryScheduled; StateDead; StateStale; StateCanceled].
Definition in_state (db : DB) (s : TaskState) : nat := List.length (List.filter (fun r => bool_decide (br_State r = s)) (rows_of (db_requests db))).
(** [GROUP BY state]: the states that have rows, in an order of the database's. *)
Definition CountRequestsByState (db : DB) (counts : list (TaskState * nat)) : Prop :=
  counts ≡ₚ List.filter (fun c => negb (c.2 =? 0)%nat) (map (fun s => (s, in_state db s)) observed_states).
Definition CountOverdueRetries (now : Time) (db : DB) : nat :=
  List.length (List.filter (fun r => bool_decide (br_State r = StateRetryScheduled) &&
    match br_RetryAt r with Some t => t <? now | None => false end) (rows_of (db_requests db))).
Definition min_of (l : list Time) : option Time :=
  match l with [] => None | t :: l => Some (fold_right Z.min t l) end.
Definition age (now : Time) (oldest : option Time) : Duration := match oldest with Some t => now - t | None => 0 end.
(** The rows past the group's acknowledged position; a group owns one row. *)
Definition unforwarded (group : string) (d : delivery) (o : outbox_row) : bool :=
  let '(t, n) := match dl_offsets d !! group with
                 | Some f => (of_last_processed_transaction_id f, default 0 (of_offset_acked f))
                 | None => (0, 0)
                 end in
  (t <? ob_transaction_id o) || ((ob_transaction_id o =? t) && (n <? ob_offset o)).
Record UnknownToolCallStatsRow := mkUnknownStats { us_Calls : nat; us_RestrictedServers : nat; us_OldestSeconds : Duration }.
Definition unknown_calls (db : DB) : list ToolRequest := List.filter (fun r => bool_decide (tr_State r = CallUnknown)) (rows_of (db_tools db)).
Definition restricted (db : DB) : list (string * string) :=
  remove_dups (map (fun r => (tr_TenantID r, tr_ServerID r)) (unknown_calls db)).
Definition UnknownToolCallStats (now : Time) (db : DB) : UnknownToolCallStatsRow :=
  mkUnknownStats (List.length (unknown_calls db)) (List.length (restricted db)) (age now (min_of (omap tr_UpdatedAt (unknown_calls db)))).
Section Observe.
  (** [created_at] is a wall-clock time; [zoned] reads it in the session's zone. *)
  Context (zoned : Time -> Time).
Definition OldestUnforwardedSeconds (now : Time) (group : string) (d : delivery) : Duration :=
  age now (min_of (map (fun o => zoned (ob_created_at o)) (List.filter (unforwarded group d) (dl_outbox d)))).
End Observe.

(** ** The gauges *)

Record gauges := mkGauges {
  ga_Requests : gmap string Z; ga_OverdueRetries : Z; ga_OutboxOldest : Duration; ga_UnknownCalls : Z; ga_RestrictedServers : Z;
  ga_UnknownOldest : Duration; ga_PoolAcquired : Z; ga_PoolTotal : Z }.
#[export] Instance gauges_eta : Settable gauges := fun g =>
  mkGauges (ga_Requests g) (ga_OverdueRetries g) (ga_OutboxOldest g) (ga_UnknownCalls g) (ga_RestrictedServers g)
    (ga_UnknownOldest g) (ga_PoolAcquired g) (ga_PoolTotal g).
(** Every state's gauge is zeroed before the counted ones are set. *)
Definition zeroed (m : gmap string Z) : gmap string Z := fold_right (fun s m => <[task_text s := 0]> m) m observed_states.
Definition set_requests (counts : list (TaskState * nat)) (m : gmap string Z) : gmap string Z :=
  fold_left (fun m c => <[task_text c.1 := Z.of_nat c.2]> m) counts (zeroed m).
(** [Observe], from what each query answered; none is a query that failed. *)
Definition Observe (counts : option (list (TaskState * nat))) (overdue : option nat) (oldest : option Duration)
    (unknown : option UnknownToolCallStatsRow) (acquired total : Z) (g : gauges) : gauges :=
  let g := match counts with Some c => g <| ga_Requests := set_requests c (ga_Requests g) |> | None => g end in
  let g := match overdue with Some n => g <| ga_OverdueRetries := Z.of_nat n |> | None => g end in
  let g := match oldest with Some a => g <| ga_OutboxOldest := a |> | None => g end in
  let g := match unknown with
           | Some u => g <| ga_UnknownCalls := Z.of_nat (us_Calls u) |> <| ga_RestrictedServers := Z.of_nat (us_RestrictedServers u) |>
                         <| ga_UnknownOldest := us_OldestSeconds u |>
           | None => g
           end in
  g <| ga_PoolAcquired := acquired |> <| ga_PoolTotal := total |>.

(** ** What the gauges say *)

Lemma task_text_inj s s' : task_text s = task_text s' -> s = s'.
Proof. by destruct s, s'. Qed.
Lemma observed_all s : s ∈ observed_states.
Proof. apply (bool_decide_unpack _). by destruct s. Qed.
Lemma zeroed_lookup m k : zeroed m !! k = if bool_decide (k ∈ map task_text observed_states) then Some 0 else m !! k.
Proof.
  unfold zeroed. induction observed_states as [|s l IH]; [done|]. cbn [fold_right map].
  destruct (decide (task_text s = k)) as [<-|Hne].
  - rewrite lookup_insert_eq, bool_decide_eq_true_2 by left. done.
  - rewrite lookup_insert_ne by done. rewrite IH, (bool_decide_ext _ (k ∈ task_text s :: map task_text l)); [done|]. rewrite elem_of_cons. naive_solver.
Qed.
Lemma set_counts (counts : list (TaskState * nat)) (m : gmap string Z) k : NoDup counts.*1 ->
  fold_left (fun m c => <[task_text c.1 := Z.of_nat c.2]> m) counts m !! k =
  match List.find (fun c => String.eqb (task_text c.1) k) counts with Some c => Some (Z.of_nat c.2) | None => m !! k end.
Proof.
  revert m. induction counts as [|[s n] l IH]; intros m Hnd; [done|]. cbn [fold_left List.find fst snd].
  apply NoDup_cons in Hnd as [Hs Hnd]. rewrite IH by done. destruct (String.eqb_spec (task_text s) k) as [<-|Hne].
  - destruct (List.find _ l) as [[s' n']|] eqn:E; [|by rewrite lookup_insert_eq]. exfalso.
    apply List.find_some in E as [Hin E%String.eqb_eq%task_text_inj]. cbn in E. subst s'. apply Hs. apply list_elem_of_fmap. exists (s, n'). split; [done|]. by apply list_elem_of_In.
  - destruct (List.find _ l); [done|]. by rewrite lookup_insert_ne.
Qed.
Lemma counted_NoDup (f : TaskState -> nat) l : NoDup l -> NoDup (List.filter (fun c => negb (c.2 =? 0)%nat) (map (fun s => (s, f s)) l)).*1.
Proof.
  induction 1 as [|s l Hs _ IH]; cbn; [constructor|]. destruct (f s =? 0)%nat; cbn; [done|]. constructor; [|done].
  intros ([s' n] & -> & Hin)%list_elem_of_fmap. apply list_elem_of_In, List.filter_In in Hin as [Hin _].
  apply in_map_iff in Hin as (s'' & [= <- _] & Hin). by apply Hs, list_elem_of_In.
Qed.
Lemma counted_spec db counts : CountRequestsByState db counts ->
  NoDup counts.*1 /\ forall s n, (s, n) ∈ counts <-> n = in_state db s /\ n <> 0%nat.
Proof.
  unfold CountRequestsByState. intros Hp. split.
  - rewrite Hp. apply counted_NoDup. apply (bool_decide_unpack _). vm_compute. exact I.
  - intros s n. rewrite Hp, list_elem_of_In, List.filter_In, in_map_iff. cbn [snd]. rewrite negb_true_iff, Nat.eqb_neq. split.
    + by intros [(s' & [= -> <-] & _) Hn].
    + intros [-> Hn]. split; [|done]. exists s. split; [done|]. apply list_elem_of_In, observed_all.
Qed.
(** Every state's gauge is its number of requests; other labels stay. *)
Lemma set_requests_spec db counts m k : CountRequestsByState db counts ->
  set_requests counts m !! k =
  match List.find (fun s => String.eqb (task_text s) k) observed_states with Some s => Some (Z.of_nat (in_state db s)) | None => m !! k end.
Proof.
  intros [Hnd Hc]%counted_spec. unfold set_requests. rewrite set_counts, zeroed_lookup by done.
  destruct (List.find (fun s => _) observed_states) as [s|] eqn:Es.
  - apply List.find_some in Es as [Hin E%String.eqb_eq]. subst k. rewrite bool_decide_eq_true_2 by (by apply list_elem_of_In, in_map).
    destruct (List.find _ counts) as [[s' n]|] eqn:Ec.
    + apply List.find_some in Ec as [Hc' E%String.eqb_eq%task_text_inj]. cbn in E. subst s'. by apply list_elem_of_In, Hc in Hc' as [-> _].
    + destruct (in_state db s) as [|n] eqn:En; [done|]. exfalso. assert ((s, S n) ∈ counts) as H by (by apply Hc).
      apply list_elem_of_In, (List.find_none _ _ Ec) in H. cbn in H. by rewrite String.eqb_refl in H.
  - assert (forall s, task_text s <> k) as Hk.
    { intros s <-. pose proof (List.find_none _ _ Es s ltac:(apply list_elem_of_In, observed_all)) as H. cbn beta in H. by rewrite String.eqb_refl in H. }
    destruct (List.find _ counts) as [[s n]|] eqn:Ec; [by apply List.find_some in Ec as [_ E%String.eqb_eq%Hk]|].
    rewrite bool_decide_eq_false_2; [done|]. by intros (s & E & _)%list_elem_of_In%in_map_iff; apply Hk in E.
Qed.
(** The states' gauges add up to the stored requests. *)
Lemma in_state_total db : list_sum (map (in_state db) observed_states) = size (db_requests db).
Proof.
  assert (size (db_requests db) = List.length (rows_of (db_requests db))) as -> by (unfold rows_of; by rewrite length_map, length_map_to_list).
  unfold in_state. induction (rows_of (db_requests db)) as [|r l IH]; [done|]. cbn [List.length]. rewrite <- IH.
  transitivity (list_sum (map (fun s => if bool_decide (br_State r = s) then 1 else 0)%nat observed_states) +
    list_sum (map (fun s => List.length (List.filter (fun r => bool_decide (br_State r = s)) l)) observed_states))%nat;
    [|by destruct (br_State r)].
  clear IH. induction observed_states as [|s ss IHs]; [done|]. unfold list_sum in *. cbn [map fold_right List.filter] in *.
  destruct (bool_decide (br_State r = s)); cbn [List.length]; rewrite IHs; lia.
Qed.
(** A pair is restricted when the guard of a new call finds it so. *)
Lemma restricted_spec db tenant server : (tenant, server) ∈ restricted db <-> HasUnknownToolRequest tenant server db = Ok (true, db).
Proof.
  unfold restricted, HasUnknownToolRequest, gets. rewrite elem_of_remove_dups, list_elem_of_In, in_map_iff. split.
  - intros (r & [= <- <-] & [Hr Hu]%List.filter_In). do 2 f_equal. apply existsb_exists. exists r. split; [done|]. by rewrite !String.eqb_refl, Hu.
  - intros [= (r & Hr & [[E1%String.eqb_eq E2%String.eqb_eq]%andb_true_iff Hu]%andb_true_iff)%existsb_exists]. exists r. subst.
    split; [done|]. by apply List.filter_In.
Qed.
(** The oldest unforwarded row is past what the forwarder acknowledged. *)
Lemma unforwarded_acknowledged group d f o : dl_offsets d !! group = Some f -> unforwarded group d o = negb (acknowledged f o).
Proof.
  unfold unforwarded, acknowledged. intros ->. apply eq_iff_eq_true. rewrite negb_true_iff, orb_false_iff, andb_false_iff, orb_true_iff, andb_true_iff,
    Z.ltb_nlt, Z.ltb_lt, Z.eqb_eq, Z.eqb_neq, Z.leb_nle, Z.ltb_lt. lia.
Qed.
Lemma min_of_spec l t : min_of l = Some t <-> t ∈ l /\ forall t', t' ∈ l -> t <= t'.
Proof.
  destruct l as [|a l]; cbn; [split; [done|by intros [?%elem_of_nil _]]|].
  assert (fold_right Z.min a l ∈ a :: l /\ forall t', t' ∈ a :: l -> fold_right Z.min a l <= t') as [Hin Hle].
  { induction l as [|b l [IH1 IH2]]; cbn; [split; [by left|by intros t' ->%list_elem_of_singleton]|]. split.
    - destruct (Z.min_spec b (fold_right Z.min a l)) as [[_ ->]|[_ ->]]; [right; by left|].
      apply elem_of_cons in IH1 as [->|IH1]; [by left|right; by right].
    - intros t' [->|[->|Ht]%elem_of_cons]%elem_of_cons; [pose proof (IH2 a ltac:(by left))|..]; [lia..|].
      pose proof (IH2 t' ltac:(by right)). lia. }
  split; [by intros [= <-]|]. intros [Ht Hmin]. f_equal. apply Z.le_antisymm; [by apply Hle|by apply Hmin].
Qed.
Lemma age_oldest now l t : t ∈ l -> now - t <= age now (min_of l).
Proof.
  intros Ht. destruct (min_of l) as [m|] eqn:E; cbn.
  - apply min_of_spec in E as [_ Hm]. specialize (Hm t Ht). lia.
  - destruct l; [by apply elem_of_nil in Ht|done].
Qed.
Lemma restricted_count db : (List.length (restricted db) <= List.length (unknown_calls db))%nat /\
  (List.length (restricted db) = 0 <-> List.length (unknown_calls db) = 0)%nat.
Proof.
  unfold restricted. set (f := fun r => _). split.
  - rewrite <- (length_map f). generalize (map f (unknown_calls db)) as l. induction l as [|p l IH]; cbn; [done|]. case_match; cbn; lia.
  - rewrite !length_zero_iff_nil. split; [|by intros ->]. destruct (unknown_calls db) as [|r l]; [done|]. intros E. exfalso.
    assert (f r ∈ remove_dups (map f (r :: l))) as H by (apply elem_of_remove_dups; left). rewrite E in H. by apply elem_of_nil in H.
Qed.

(** The gauges say what is stored. After an observation whose queries
    answered, each on the database of its own moment: every state's gauge is its
    number of requests, the states add up to all of them and no other label
    changed; the restricted servers are exactly the pairs whose new calls the
    guard of [Create] refuses, there are some exactly when a call is unknown,
    and never more than unknown calls; every outbox row the forwarder has not
    acknowledged is at most as old as the gauge, and so is every unknown call.
    A query that failed leaves its gauges. *)
Theorem gauges_say_what_is_stored zoned group d1 d2 d3 d4 now2 now3 now4 counts acquired total g :
  CountRequestsByState d1 counts ->
  let g' := Observe (Some counts) (Some (CountOverdueRetries now2 d2)) (Some (OldestUnforwardedSeconds zoned now3 group d3))
              (Some (UnknownToolCallStats now4 d4)) acquired total g in
  (forall s, ga_Requests g' !! task_text s = Some (Z.of_nat (in_state d1 s))) /\
  list_sum (map (in_state d1) observed_states) = size (db_requests d1) /\
  (forall k, (forall s, task_text s <> k) -> ga_Requests g' !! k = ga_Requests g !! k) /\
  (exists pairs, NoDup pairs /\ ga_RestrictedServers g' = Z.of_nat (List.length pairs) /\
     forall tenant server, (tenant, server) ∈ pairs <-> HasUnknownToolRequest tenant server d4 = Ok (true, d4)) /\
  0 <= ga_RestrictedServers g' <= ga_UnknownCalls g' /\ (ga_RestrictedServers g' = 0 <-> ga_UnknownCalls g' = 0) /\
  (forall f o, dl_offsets d3 !! group = Some f -> o ∈ dl_outbox d3 -> acknowledged f o = false ->
     now3 - zoned (ob_created_at o) <= ga_OutboxOldest g') /\
  (forall r t, r ∈ unknown_calls d4 -> tr_UpdatedAt r = Some t -> now4 - t <= ga_UnknownOldest g') /\
  Observe None None None None acquired total g' = g'.
Proof.
  intros Hc g'. pose proof (set_requests_spec d1 counts (ga_Requests g)) as Hs. destruct (restricted_count d4) as [Hle Hz]. split_and!.
  - intros s. cbn. rewrite Hs by done. destruct (List.find _ observed_states) as [s'|] eqn:E.
    + by apply List.find_some in E as [_ ->%String.eqb_eq%task_text_inj].
    + apply List.find_none with (x := s) in E; [by rewrite String.eqb_refl in E|apply list_elem_of_In, observed_all].
  - apply in_state_total.
  - intros k Hk. cbn. rewrite Hs by done. destruct (List.find _ observed_states) as [s'|] eqn:E; [|done].
    apply List.find_some in E as [_ E%String.eqb_eq]. by apply Hk in E.
  - exists (restricted d4). split_and!; [apply NoDup_remove_dups|done|apply restricted_spec].
  - cbn. lia.
  - cbn. lia.
  - cbn. lia.
  - intros f o Hf Ho Ha. apply age_oldest. apply list_elem_of_fmap. exists o. split; [done|]. apply list_elem_of_In, List.filter_In.
    split; [by apply list_elem_of_In|]. by rewrite (unforwarded_acknowledged _ _ f), Ha.
  - intros r t Hr Ht. apply age_oldest. apply list_elem_of_omap. by exists r.
  - done.
Qed.
